(** * HPKE and Encrypted ClientHello: a shallow embedding of
      crypto/hpke.c and ssl/ech.c

    Conventions used throughout.
    - An octet is a [Z] in [0,256); a buffer is a [list Z].
    - A C pointer to a buffer is an [option]: [None] is [NULL].
    - [size_t] arithmetic that can wrap is written out with [wrap64].
    - Functions that return "1 for good, otherwise bad" return a
      [result]: [Ok] outputs stands for the return value 1, [Err n] for
      the return value [n] (a [__LINE__] number or 0).
    - OPENSSL_malloc of zero octets is NULL; other allocations are taken
      to succeed.
    - Calls into libcrypto (EVP, EC, PEM) and the contents of headers
      that are not among the sources are fields of classes. *)

From Stdlib Require Import ZArith Lia Bool.
From stdpp Require Import base option list strings gmap.

Open Scope Z_scope.

(** ** Common data *)

Definition octet := Z.
Definition bytes := list Z.

Definition wrap64 (x : Z) : Z := x mod 2 ^ 64.
Definition wrap32 (x : Z) : Z := x mod 2 ^ 32.
(** Conversion of an unsigned value to a C [int]. *)
Definition to_int (x : Z) : Z :=
  let y := x mod 2 ^ 32 in if y <? 2 ^ 31 then y else y - 2 ^ 32.

Definition len {A} (l : list A) : Z := Z.of_nat (length l).

(** Big-endian two octet encoding, as written by the code with
    [(x/256)%256] and [x%256]. *)
Definition I2OSP2 (x : Z) : bytes := [(x / 256) mod 256; x mod 256].

Inductive result (A : Type) : Type :=
| Ok (a : A)
| Err (line : Z)
| Undef.
Arguments Ok {A} a.
Arguments Err {A} line.
Arguments Undef {A}.

(** The C return value that a [result] stands for; [Undef] (undefined
    behaviour) has none. *)
Definition rv {A} (r : result A) : option Z :=
  match r with
  | Ok _ => Some 1
  | Err n => Some n
  | Undef => None
  end.

Definition rbind {A B} (r : result A) (k : A -> result B) : result B :=
  match r with
  | Ok a => k a
  | Err n => Err n
  | Undef => Undef
  end.

Notation "'do' x <- r ;; k" := (rbind r (fun x => k))
  (at level 10, x pattern, r at level 99, k at level 200).
Notation "'check' b 'else' n ;; k" := (if b then k else Err n)
  (at level 10, b at level 99, n at level 9, k at level 200).
Notation "'some' x <- o 'else' n ;; k" :=
  (match o with Some x => k | None => Err n end)
  (at level 10, x pattern, o at level 99, n at level 9, k at level 200).

(** [p != NULL] *)
Definition notnull {A} (p : option A) : bool :=
  match p with Some _ => true | None => false end.

(** [Err n] instead of whatever the callee returned: the pattern
    [if (f(...)!=1) { erv=__LINE__; goto err; }]. *)
Definition at_line {A} (n : Z) (r : result A) : result A :=
  match r with
  | Ok a => Ok a
  | Err _ => Err n
  | Undef => Undef
  end.

(** OPENSSL_malloc(0) is NULL (crypto/mem.c); any other allocation is
    taken to succeed. *)
Definition OPENSSL_malloc_ok (num : Z) : bool := negb (num =? 0).

(** ** crypto/hpke.c *)

Module Hpke.

(** *** Suite registry *)

Inductive EVP_MD := EVP_sha256 | EVP_sha384 | EVP_sha512.
Inductive EVP_CIPHER :=
  EVP_aes_128_gcm | EVP_aes_256_gcm | EVP_chacha20_poly1305.

(** Modelled from the spec: hpke.h, which defines the code points, is not
    among the sources.  Accepted kem_ids are 0x0010 P-256, 0x0011 P-384,
    0x0012 P-521, 0x0020 X25519, 0x0021 X448; the KDFs are
    HKDF-SHA256/384/512 and the AEADs AES-128-GCM, AES-256-GCM and
    ChaCha20-Poly1305, whose rows follow the all-zero row of their table
    ("arrays indexed by id"). *)
Definition HPKE_KEM_ID_P256 : Z := 0x10.
Definition HPKE_KEM_ID_P384 : Z := 0x11.
Definition HPKE_KEM_ID_P521 : Z := 0x12.
Definition HPKE_KEM_ID_25519 : Z := 0x20.
Definition HPKE_KEM_ID_448 : Z := 0x21.
Definition HPKE_KDF_ID_HKDF_SHA256 : Z := 1.
Definition HPKE_KDF_ID_HKDF_SHA384 : Z := 2.
Definition HPKE_KDF_ID_HKDF_SHA512 : Z := 3.
Definition HPKE_AEAD_ID_AES_GCM_128 : Z := 1.
Definition HPKE_AEAD_ID_AES_GCM_256 : Z := 2.
Definition HPKE_AEAD_ID_CHACHA_POLY1305 : Z := 3.

(** Modelled from the spec: the mode constants of hpke.h; Base, PSK, Auth
    and PSK+Auth index [hpke_mode_strtab] in that order. *)
Definition HPKE_MODE_BASE : Z := 0.
Definition HPKE_MODE_PSK : Z := 1.
Definition HPKE_MODE_AUTH : Z := 2.
Definition HPKE_MODE_PSKAUTH : Z := 3.

(** NIDs of the groups; only their being distinct names matters here. *)
Definition NID_X9_62_prime256v1 : Z := 415.
Definition NID_secp384r1 : Z := 715.
Definition NID_secp521r1 : Z := 716.
Definition EVP_PKEY_X25519 : Z := 1034.
Definition EVP_PKEY_X448 : Z := 1035.

Record hpke_suite_t := {
  kem_id : Z;
  kdf_id : Z;
  aead_id : Z
}.

Record hpke_aead_info_t := {
  aead_info_id : Z;
  aead_init_func : option EVP_CIPHER;
  taglen : Z;
  Nk : Z;
  Nn : Z
}.

Record hpke_kem_info_t := {
  kem_info_id : Z;
  groupid : Z;
  kem_hash_init_func : option EVP_MD;
  Nsecret : Z;
  Nenc : Z;
  Npk : Z;
  Npriv : Z
}.

Record hpke_kdf_info_t := {
  kdf_info_id : Z;
  kdf_hash_init_func : option EVP_MD;
  Nh : Z
}.

Definition hpke_aead_tab : list hpke_aead_info_t := [
  Build_hpke_aead_info_t 0 None 0 0 0;
  Build_hpke_aead_info_t HPKE_AEAD_ID_AES_GCM_128 (Some EVP_aes_128_gcm) 16 16 12;
  Build_hpke_aead_info_t HPKE_AEAD_ID_AES_GCM_256 (Some EVP_aes_256_gcm) 16 32 12;
  Build_hpke_aead_info_t HPKE_AEAD_ID_CHACHA_POLY1305 (Some EVP_chacha20_poly1305) 16 32 12
].

(** A row that only keeps the indexing correct. *)
Definition kem_blank (i : Z) : hpke_kem_info_t :=
  Build_hpke_kem_info_t i 0 None 0 0 0 0.

Definition hpke_kem_tab : list hpke_kem_info_t :=
  map kem_blank [0;1;2;3;4;5;6;7;8;9;10;11;12;13;14;15] ++
  [ Build_hpke_kem_info_t HPKE_KEM_ID_P256 NID_X9_62_prime256v1 (Some EVP_sha256) 32 65 65 32;
    Build_hpke_kem_info_t HPKE_KEM_ID_P384 NID_secp384r1 (Some EVP_sha384) 48 97 97 48;
    Build_hpke_kem_info_t HPKE_KEM_ID_P521 NID_secp521r1 (Some EVP_sha512) 64 133 133 66 ] ++
  map kem_blank [19;20;21;22;23;24;25;26;27;28;29;30;31] ++
  [ Build_hpke_kem_info_t HPKE_KEM_ID_25519 EVP_PKEY_X25519 (Some EVP_sha256) 32 32 32 32;
    Build_hpke_kem_info_t HPKE_KEM_ID_448 EVP_PKEY_X448 (Some EVP_sha512) 64 56 56 56;
    kem_blank 34 ].

Definition hpke_kdf_tab : list hpke_kdf_info_t := [
  Build_hpke_kdf_info_t 0 None 0;
  Build_hpke_kdf_info_t HPKE_KDF_ID_HKDF_SHA256 (Some EVP_sha256) 32;
  Build_hpke_kdf_info_t HPKE_KDF_ID_HKDF_SHA384 (Some EVP_sha384) 48;
  Build_hpke_kdf_info_t HPKE_KDF_ID_HKDF_SHA512 (Some EVP_sha512) 64
].

(** [tab[id]]: the tables are indexed by the identifier itself.  The
    callers only index after [hpke_suite_check]; an identifier outside
    the table reads the all-zero row here. *)
Definition aead_row (id : Z) : hpke_aead_info_t :=
  nth (Z.to_nat id) hpke_aead_tab (Build_hpke_aead_info_t 0 None 0 0 0).
Definition kem_row (id : Z) : hpke_kem_info_t :=
  nth (Z.to_nat id) hpke_kem_tab (kem_blank 0).
Definition kdf_row (id : Z) : hpke_kdf_info_t :=
  nth (Z.to_nat id) hpke_kdf_tab (Build_hpke_kdf_info_t 0 None 0).

(** The three scans of [hpke_suite_check]: walk the table from index 0
    and stop at the first row whose id matches and whose init function
    is not NULL. *)
Fixpoint kem_scan (id : Z) (tab : list hpke_kem_info_t) : Z :=
  match tab with
  | [] => 0
  | r :: tab' =>
      if (id =? kem_info_id r) && notnull (kem_hash_init_func r)
      then 1 else kem_scan id tab'
  end.

Fixpoint kdf_scan (id : Z) (tab : list hpke_kdf_info_t) : Z :=
  match tab with
  | [] => 0
  | r :: tab' =>
      if (id =? kdf_info_id r) && notnull (kdf_hash_init_func r)
      then 1 else kdf_scan id tab'
  end.

Fixpoint aead_scan (id : Z) (tab : list hpke_aead_info_t) : Z :=
  match tab with
  | [] => 0
  | r :: tab' =>
      if (id =? aead_info_id r) && notnull (aead_init_func r)
      then 1 else aead_scan id tab'
  end.

Definition hpke_suite_check (suite : hpke_suite_t) : Z :=
  let kem_ok := kem_scan (kem_id suite) hpke_kem_tab in
  let kdf_ok := kdf_scan (kdf_id suite) hpke_kdf_tab in
  let aead_ok := aead_scan (aead_id suite) hpke_aead_tab in
  if (kem_ok =? 1) && (kdf_ok =? 1) && (aead_ok =? 1) then 1 else 0.

Definition hpke_kem_id_check (kem : Z) : Z :=
  if (kem =? HPKE_KEM_ID_P256) || (kem =? HPKE_KEM_ID_P384) ||
     (kem =? HPKE_KEM_ID_P521) || (kem =? HPKE_KEM_ID_25519) ||
     (kem =? HPKE_KEM_ID_448)
  then 1 else 333.

Definition hpke_kem_id_nist_curve (kem : Z) : Z :=
  if negb (hpke_kem_id_check kem =? 1) then 345
  else if (0x10 <=? kem) && (kem <? 0x20) then 1
  else 0.

(** *** What hpke.c takes from outside *)

(** hpke.h is not among the sources: the buffer bound [HPKE_MAXSIZE] and
    the nibble macro [HPKE_A2B] are parameters. *)
Class hpke_h := {
  HPKE_MAXSIZE : Z;
  HPKE_A2B : Z -> Z
}.

(** libcrypto as hpke.c calls it.  A run of EVP calls that builds one
    context and then derives, encrypts or decrypts is one operation here;
    [None] is the failure of any call of the run and is reported under the
    [__LINE__] of the last call of the run. *)
Class libcrypto := {
  EVP_PKEY : Type;
  EC_KEY : Type;
  (** what a key generation draws *)
  Entropy : Type;
  EVP_PKEY_new_raw_public_key : Z -> bytes -> option EVP_PKEY;
  EVP_PKEY_new_raw_private_key : Z -> bytes -> option EVP_PKEY;
  (** EVP_PKEY_CTX_new_id(EVP_PKEY_EC), paramgen_init,
      set_ec_paramgen_curve_nid, paramgen *)
  EVP_PKEY_paramgen : Z -> option EVP_PKEY;
  (** the key after the call; its return value is not looked at *)
  EVP_PKEY_set1_tls_encodedpoint : EVP_PKEY -> bytes -> EVP_PKEY;
  EC_KEY_new_by_curve_name : Z -> option EC_KEY;
  EC_KEY_oct2priv : EC_KEY -> bytes -> option EC_KEY;
  (** EC_POINT_mul of the generator by the private key, then
      EC_KEY_set_public_key *)
  EC_KEY_recalc_public_key : EC_KEY -> option EC_KEY;
  (** EVP_PKEY_new, EVP_PKEY_assign_EC_KEY *)
  EVP_PKEY_assign_EC_KEY : EC_KEY -> option EVP_PKEY;
  (** BIO_write of the octets, PEM_read_bio_PrivateKey *)
  PEM_read_bio_PrivateKey : bytes -> option EVP_PKEY;
  (** EVP_PKEY_CTX_new on the peer's key, keygen_init, keygen *)
  EVP_PKEY_keygen : EVP_PKEY -> Entropy -> option EVP_PKEY;
  (** the empty buffer stands for a NULL or zero-length answer *)
  EVP_PKEY_get1_tls_encodedpoint : EVP_PKEY -> bytes;
  (** EVP_PKEY_CTX_new own, derive_init, derive_set_peer peer, derive *)
  EVP_PKEY_derive : EVP_PKEY -> EVP_PKEY -> option bytes;
  (** HKDF in EXTRACT_ONLY mode: md, salt, key, size of the output buffer *)
  HKDF_Extract : EVP_MD -> bytes -> bytes -> Z -> option bytes;
  (** HKDF in EXPAND_ONLY mode: md, key, info, length asked for *)
  HKDF_Expand : EVP_MD -> bytes -> bytes -> Z -> option bytes;
  (** EVP_Encrypt*: cipher, iv length, key, iv, aad, plaintext, tag length;
      the answer is the ciphertext and the tag *)
  EVP_Encrypt : EVP_CIPHER -> Z -> bytes -> bytes -> bytes -> bytes -> Z ->
                option (bytes * bytes);
  (** EVP_Decrypt*: cipher, iv length, key, iv, aad, the buffer [cipher],
      the length given to EVP_DecryptUpdate (an [int]), the offset in
      [cipher] at which the expected tag is read, tag length *)
  EVP_Decrypt : EVP_CIPHER -> Z -> bytes -> bytes -> bytes -> bytes -> Z ->
                Z -> Z -> option bytes
}.

Section Code.
Context {H : hpke_h} {L : libcrypto}.

(** The first [n] octets behind a pointer (nothing behind NULL). *)
Definition rd (n : Z) (p : option bytes) : bytes :=
  take (Z.to_nat n) (default [] p).

(** *** ascii-hex *)

Definition hpke_ah_decode (ahlen : Z) (ah : option bytes)
    (blen buf : bool) : result bytes :=
  match ah with
  | Some s =>
      if (ahlen <=? 0) || negb blen || negb buf then Err 0
      else if negb (ahlen mod 1 =? 0) then Err 0
      else
        let lblen := ahlen / 2 in
        if negb (OPENSSL_malloc_ok lblen) then Err 0 else
        Ok (map (fun i : nat =>
                   (HPKE_A2B (nth (2 * i) s 0) * 16 +
                    HPKE_A2B (nth (2 * i + 1) s 0)) mod 256)
                (seq 0 (Z.to_nat lblen)))
  | None => Err 0
  end.

(** *** Mode and PSK checks *)

Definition hpke_mode_check (mode : Z) : Z :=
  if (mode =? HPKE_MODE_BASE) || (mode =? HPKE_MODE_PSK) ||
     (mode =? HPKE_MODE_AUTH) || (mode =? HPKE_MODE_PSKAUTH)
  then 1 else 1251.

(** [pskid] is a C string: [Some s] holds the characters before the NUL. *)
Definition hpke_psk_check (mode : Z) (pskid : option bytes) (psklen : Z)
    (psk : option bytes) : Z :=
  if (mode =? HPKE_MODE_BASE) || (mode =? HPKE_MODE_AUTH) then 1
  else if negb (notnull pskid) then 1274
  else if psklen =? 0 then 1275
  else if negb (notnull psk) then 1276
  else 1.

(** *** Labels *)

Definition str (s : String.string) : bytes :=
  map (fun c => Z.of_nat (Ascii.nat_of_ascii c)) (String.list_ascii_of_string s).

Definition HPKE_5869_MODE_PURE : Z := 0.
Definition HPKE_5869_MODE_KEM : Z := 1.
Definition HPKE_5869_MODE_FULL : Z := 2.

(** DRAFT_06 is what the file defines for itself. *)
Definition HPKE_VERLABEL : bytes := str "HPKE-06"%string.
Definition HPKE_SEC41LABEL : bytes := str "KEM"%string.
Definition HPKE_SEC51LABEL : bytes := str "HPKE"%string.
Definition HPKE_EAE_PRK_LABEL : bytes := str "eae_prk"%string.
Definition HPKE_PSKIDHASH_LABEL : bytes := str "psk_id_hash"%string.
Definition HPKE_INFOHASH_LABEL : bytes := str "info_hash"%string.
Definition HPKE_SS_LABEL : bytes := str "shared_secret"%string.
Definition HPKE_NONCE_LABEL : bytes := str "base_nonce"%string.
Definition HPKE_EXP_LABEL : bytes := str "exp"%string.
Definition HPKE_KEY_LABEL : bytes := str "key"%string.
Definition HPKE_PSK_HASH_LABEL : bytes := str "psk_hash"%string.
Definition HPKE_SECRET_LABEL : bytes := str "secret"%string.
Definition SHA512_DIGEST_LENGTH : Z := 64.

(** One step of the label assembly: copy [x] at [concat_offset], advance,
    and give up when the offset has reached [HPKE_MAXSIZE]. *)
Definition concat_chk (line : Z) (buf x : bytes) : result bytes :=
  check (len (buf ++ x) <? HPKE_MAXSIZE) else line ;; Ok (buf ++ x).

(** The hash of a table row; the code calls the row's function pointer,
    which is NULL in the rows that only keep the indexing correct. *)
Definition md_of (mode5869 : Z) (suite : hpke_suite_t) : result EVP_MD :=
  let f := if mode5869 =? HPKE_5869_MODE_KEM
           then kem_hash_init_func (kem_row (kem_id suite))
           else kdf_hash_init_func (kdf_row (kdf_id suite)) in
  match f with Some md => Ok md | None => Undef end.

(** *** HKDF *)

Definition hpke_extract (suite : hpke_suite_t) (mode5869 : Z)
    (salt label ikm : bytes) (secretlen : Z) : result bytes :=
  do labeled_ikm <-
    (if mode5869 =? HPKE_5869_MODE_PURE then Ok ikm
     else if mode5869 =? HPKE_5869_MODE_KEM then
       do b <- concat_chk 702 [] HPKE_VERLABEL ;;
       do b <- concat_chk 705 b HPKE_SEC41LABEL ;;
       do b <- concat_chk 708 b [(kem_id suite / 256) mod 256] ;;
       do b <- concat_chk 711 b [kem_id suite mod 256] ;;
       do b <- concat_chk 714 b label ;;
       concat_chk 717 b ikm
     else if mode5869 =? HPKE_5869_MODE_FULL then
       do b <- concat_chk 725 [] HPKE_VERLABEL ;;
       do b <- concat_chk 728 b HPKE_SEC51LABEL ;;
       do b <- concat_chk 731 b [(kem_id suite / 256) mod 256] ;;
       do b <- concat_chk 734 b [kem_id suite mod 256] ;;
       do b <- concat_chk 737 b [(kdf_id suite / 256) mod 256] ;;
       do b <- concat_chk 740 b [kdf_id suite mod 256] ;;
       do b <- concat_chk 743 b [(aead_id suite / 256) mod 256] ;;
       do b <- concat_chk 746 b [aead_id suite mod 256] ;;
       do b <- concat_chk 749 b label ;;
       concat_chk 752 b ikm
     else Err 756) ;;
  do md <- md_of mode5869 suite ;;
  some secret <- HKDF_Extract md salt labeled_ikm secretlen else 786 ;;
  check (len secret <=? secretlen) else 789 ;;
  Ok secret.

Definition hpke_expand (suite : hpke_suite_t) (mode5869 : Z)
    (prk label info : bytes) (L_ : Z) (outlen : Z) : result bytes :=
  do libuf <-
    (if mode5869 =? HPKE_5869_MODE_PURE then
       check (len label + len info <? HPKE_MAXSIZE) else 833 ;;
       Ok (label ++ info)
     else if mode5869 =? HPKE_5869_MODE_KEM then
       do b <- concat_chk 845 (I2OSP2 L_) HPKE_VERLABEL ;;
       do b <- concat_chk 848 b HPKE_SEC41LABEL ;;
       do b <- concat_chk 851 b [(kem_id suite / 256) mod 256] ;;
       do b <- concat_chk 854 b [kem_id suite mod 256] ;;
       do b <- concat_chk 857 b label ;;
       concat_chk 860 b info
     else if mode5869 =? HPKE_5869_MODE_FULL then
       do b <- concat_chk 869 (I2OSP2 L_) HPKE_VERLABEL ;;
       do b <- concat_chk 872 b HPKE_SEC51LABEL ;;
       do b <- concat_chk 875 b [(kem_id suite / 256) mod 256] ;;
       do b <- concat_chk 878 b [kem_id suite mod 256] ;;
       do b <- concat_chk 881 b [(kdf_id suite / 256) mod 256] ;;
       do b <- concat_chk 884 b [kdf_id suite mod 256] ;;
       do b <- concat_chk 887 b [(aead_id suite / 256) mod 256] ;;
       (* no check follows the low octet of aead_id *)
       do b <- concat_chk 892 (b ++ [aead_id suite mod 256]) label ;;
       concat_chk 895 b info
     else Err 899) ;;
  do md <- md_of mode5869 suite ;;
  some out <- HKDF_Expand md prk libuf outlen else 929 ;;
  Ok out.

Definition hpke_extract_and_expand (suite : hpke_suite_t) (mode5869 : Z)
    (shared_secret context : bytes) : result bytes :=
  let lsecretlen := Nsecret (kem_row (kem_id suite)) in
  do eae_prk <- hpke_extract suite mode5869 [] HPKE_EAE_PRK_LABEL
                  shared_secret HPKE_MAXSIZE ;;
  hpke_expand suite mode5869 eae_prk HPKE_SS_LABEL context
    lsecretlen lsecretlen.

(** *** Key import *)

Definition hpke_EVP_PKEY_new_raw_nist_public_key (curve : Z) (buf : bytes)
    : option EVP_PKEY :=
  match EVP_PKEY_paramgen curve with
  | Some ret => Some (EVP_PKEY_set1_tls_encodedpoint ret buf)
  | None => None
  end.

Definition hpke_EVP_PKEY_new_raw_nist_private_key (curve : Z) (buf : bytes)
    : option EVP_PKEY :=
  match EC_KEY_new_by_curve_name curve with
  | None => None
  | Some ec_key =>
      match EC_KEY_oct2priv ec_key buf with
      | None => None
      | Some ec_key =>
          match EC_KEY_recalc_public_key ec_key with
          | None => None
          | Some ec_key => EVP_PKEY_assign_EC_KEY ec_key
          end
      end
  end.

(** The public key of step 0 of [hpke_enc] and [hpke_dec]. *)
Definition load_public (suite : hpke_suite_t) (buf : bytes) : option EVP_PKEY :=
  if hpke_kem_id_nist_curve (kem_id suite) =? 1
  then hpke_EVP_PKEY_new_raw_nist_public_key (groupid (kem_row (kem_id suite))) buf
  else EVP_PKEY_new_raw_public_key (groupid (kem_row (kem_id suite))) buf.

(** The private key of [hpke_enc] (auth modes) and of [hpke_dec]: raw
    when the length is Npriv, and a PEM decode when that was not tried
    or did not work.  [line] is the [__LINE__] after the PEM decode. *)
Definition load_private (line : Z) (suite : hpke_suite_t) (privlen : Z)
    (priv : option bytes) : result EVP_PKEY :=
  let raw :=
    if Npriv (kem_row (kem_id suite)) =? privlen then
      if hpke_kem_id_nist_curve (kem_id suite) =? 1
      then hpke_EVP_PKEY_new_raw_nist_private_key
             (groupid (kem_row (kem_id suite))) (rd privlen priv)
      else EVP_PKEY_new_raw_private_key
             (groupid (kem_row (kem_id suite))) (rd privlen priv)
    else None in
  match raw with
  | Some k => Ok k
  | None =>
      some k <- PEM_read_bio_PrivateKey (rd privlen priv) else line ;; Ok k
  end.

(** *** KEM *)

Definition hpke_do_kem (encrypting : bool) (suite : hpke_suite_t)
    (key1 : EVP_PKEY) (key1enc : bytes) (key2 : EVP_PKEY) (key2enc : bytes)
    (akey : option EVP_PKEY) (apub : bytes) : result bytes :=
  some zz <- EVP_PKEY_derive key1 key2 else 1156 ;;
  check (len zz <? HPKE_MAXSIZE) else 1153 ;;
  let kem_contextlen := len key1enc + len key2enc in
  check (kem_contextlen <? HPKE_MAXSIZE) else 1162 ;;
  let kem_context :=
    if encrypting then key1enc ++ key2enc else key2enc ++ key1enc in
  do kem_context <-
    (if len apub =? 0 then Ok kem_context
     else check (kem_contextlen + len apub <? HPKE_MAXSIZE) else 1175 ;;
          Ok (kem_context ++ apub)) ;;
  do zz <-
    match akey with
    | None => Ok zz
    | Some akey =>
        some zz2 <- (if encrypting then EVP_PKEY_derive akey key2
                     else EVP_PKEY_derive key1 akey) else 1211 ;;
        check (len zz2 <? HPKE_MAXSIZE) else 1208 ;;
        Ok (zz ++ zz2)
    end ;;
  do lss <- hpke_extract_and_expand suite HPKE_5869_MODE_KEM zz kem_context ;;
  check (OPENSSL_malloc_ok (len lss)) else 1226 ;;
  Ok lss.

(** *** AEAD *)

(** [if (aadlen!=0 && aad!=NULL)]: what is handed over as AAD. *)
Definition aad_octets (aadlen : Z) (aad : option bytes) : bytes :=
  if negb (aadlen =? 0) && notnull aad then rd aadlen aad else [].

(** [plainlen] is the size of the caller's output buffer. *)
Definition hpke_aead_dec (suite : hpke_suite_t) (key iv : bytes)
    (aadlen : Z) (aad : option bytes) (cipher : bytes) (cipherlen : Z)
    (plainlen : Z) : result bytes :=
  let taglen := taglen (aead_row (aead_id suite)) in
  check (OPENSSL_malloc_ok cipherlen) else 444 ;;
  match aead_init_func (aead_row (aead_id suite)) with
  | None => Undef
  | Some enc =>
      let aad := aad_octets aadlen aad in
      some plaintext <-
        EVP_Decrypt enc (len iv) key iv aad cipher
          (to_int (wrap64 (cipherlen - taglen)))
          (cipherlen - taglen) taglen
        else 489 ;;
      check (len plaintext <=? plainlen) else 494 ;;
      Ok plaintext
  end.

(** [cipherlen] is the size of the caller's output buffer. *)
Definition hpke_aead_enc (suite : hpke_suite_t) (key iv : bytes)
    (aadlen : Z) (aad : option bytes) (plain : bytes) (cipherlen : Z)
    : result bytes :=
  let taglen := taglen (aead_row (aead_id suite)) in
  check (taglen + len plain <=? cipherlen) else 537 ;;
  check (OPENSSL_malloc_ok (len plain + taglen)) else 545 ;;
  match aead_init_func (aead_row (aead_id suite)) with
  | None => Undef
  | Some enc =>
      let aad := aad_octets aadlen aad in
      some ct <- EVP_Encrypt enc (len iv) key iv aad plain taglen else 592 ;;
      let ciphertext := ct.1 ++ take (Z.to_nat taglen) ct.2 in
      check (len ciphertext <=? cipherlen) else 598 ;;
      Ok ciphertext
  end.

(** *** Single-shot encryption and decryption *)

Definition is_auth_mode (mode : Z) : bool :=
  (mode =? HPKE_MODE_AUTH) || (mode =? HPKE_MODE_PSKAUTH).
Definition is_psk_mode (mode : Z) : bool :=
  (mode =? HPKE_MODE_PSK) || (mode =? HPKE_MODE_PSKAUTH).

(** Steps 3 and 4, which [hpke_enc] and [hpke_dec] both spell out: the
    key schedule context, the secret, and from it nonce and key.  The
    text of [hpke_dec] sits 339 lines below that of [hpke_enc]; [off] is
    0 or 339. *)
Definition key_schedule (off : Z) (mode : Z) (suite : hpke_suite_t)
    (pskid : option bytes) (psklen : Z) (psk : option bytes)
    (infolen : Z) (info : option bytes) (shared_secret : bytes)
    : result (bytes * bytes) :=
  let ks_contextlen := HPKE_MAXSIZE - 1 in
  (* pskidlen=(psk==NULL?0:strlen(pskid)) *)
  do pskid_octets <-
    match psk, pskid with
    | None, _ => Ok []
    | Some _, Some s => Ok s
    | Some _, None => Undef
    end ;;
  do h1 <- hpke_extract suite HPKE_5869_MODE_FULL [] HPKE_PSKIDHASH_LABEL
             pskid_octets ks_contextlen ;;
  let ks_contextlen := ks_contextlen - len h1 in
  do h2 <- hpke_extract suite HPKE_5869_MODE_FULL [] HPKE_INFOHASH_LABEL
             (rd infolen info) ks_contextlen ;;
  let ks_context := [mode mod 256] ++ h1 ++ h2 in
  do psk_hash <- hpke_extract suite HPKE_5869_MODE_FULL [] HPKE_PSK_HASH_LABEL
                   (rd psklen psk) HPKE_MAXSIZE ;;
  let secretlen := Nh (kdf_row (kdf_id suite)) in
  check (secretlen <=? SHA512_DIGEST_LENGTH) else (1578 + off) ;;
  do secret <- at_line (1585 + off)
      (hpke_extract suite HPKE_5869_MODE_FULL shared_secret HPKE_SECRET_LABEL
         (rd psklen psk) secretlen) ;;
  let noncelen := Nn (aead_row (aead_id suite)) in
  do nonce <- at_line (1595 + off)
      (hpke_expand suite HPKE_5869_MODE_FULL secret HPKE_NONCE_LABEL
         ks_context noncelen noncelen) ;;
  check (len nonce =? 12) else (1598 + off) ;;
  let keylen := Nk (aead_row (aead_id suite)) in
  do key <- at_line (1606 + off)
      (hpke_expand suite HPKE_5869_MODE_FULL secret HPKE_KEY_LABEL
         ks_context keylen keylen) ;;
  let exporterlen := Nh (kdf_row (kdf_id suite)) in
  do exporter <- at_line (1614 + off)
      (hpke_expand suite HPKE_5869_MODE_FULL secret HPKE_EXP_LABEL
         ks_context exporterlen exporterlen) ;;
  do nonce <- at_line (1622 + off)
      (hpke_expand suite HPKE_5869_MODE_FULL secret HPKE_NONCE_LABEL
         ks_context noncelen noncelen) ;;
  check (len nonce =? 12) else (1625 + off) ;;
  Ok (key, nonce).

(** [senderpublen] and [cipherlen] are [Some] of the size of the output
    buffer when the length pointer and the buffer pointer are both set.
    The answer is [(senderpub, cipher)]. *)
Definition hpke_enc (ent : Entropy) (mode : Z) (suite : hpke_suite_t)
    (pskid : option bytes) (psklen : Z) (psk : option bytes)
    (publen : Z) (pub : option bytes)
    (privlen : Z) (priv : option bytes)
    (clearlen : Z) (clear : option bytes)
    (aadlen : Z) (aad : option bytes)
    (infolen : Z) (info : option bytes)
    (senderpublen : option Z) (cipherlen : option Z)
    : result (bytes * bytes) :=
  let crv := hpke_mode_check mode in
  check (crv =? 1) else crv ;;
  let crv := hpke_psk_check mode pskid psklen psk in
  check (crv =? 1) else crv ;;
  let crv := hpke_suite_check suite in
  check (crv =? 1) else crv ;;
  match pub, clear, senderpublen, cipherlen with
  | Some _, Some _, Some senderpubcap, Some ciphercap =>
      check negb (is_auth_mode mode && (negb (notnull priv) || (privlen =? 0)))
        else 1375 ;;
      check negb (is_psk_mode mode &&
                  (negb (notnull psk) || (psklen =? 0) || negb (notnull pskid)))
        else 1376 ;;
      (* step 0 *)
      some pkR <- load_public suite (rd publen pub) else 1431 ;;
      (* step 1 *)
      some pkE <- EVP_PKEY_keygen pkR ent else 1465 ;;
      (* step 2 *)
      let enc := EVP_PKEY_get1_tls_encodedpoint pkE in
      check negb (len enc =? 0) else 1472 ;;
      do auth <-
        (if is_auth_mode mode then
           do skI <- load_private 1496 suite privlen priv ;;
           let mypub := EVP_PKEY_get1_tls_encodedpoint skI in
           check negb (len mypub =? 0) else 1501 ;;
           Ok (Some skI, mypub)
         else Ok (None, [])) ;;
      do shared_secret <-
        hpke_do_kem true suite pkE enc pkR (rd publen pub) auth.1 auth.2 ;;
      (* steps 3 and 4 *)
      do kn <- key_schedule 0 mode suite pskid psklen psk infolen info
                 shared_secret ;;
      (* step 5 *)
      do lcipher <- hpke_aead_enc suite kn.1 kn.2 aadlen aad
                      (rd clearlen clear) HPKE_MAXSIZE ;;
      check (len lcipher <=? ciphercap) else 1642 ;;
      check (len enc <=? senderpubcap) else 1650 ;;
      Ok (enc, lcipher)
  | _, _, _, _ => Err 1374
  end.

(** [clearlen] is [Some] of the size of the output buffer when [clearlen]
    and [clear] are both set.  The answer is the cleartext. *)
Definition hpke_dec (mode : Z) (suite : hpke_suite_t)
    (pskid : option bytes) (psklen : Z) (psk : option bytes)
    (publen : Z) (pub : option bytes)
    (privlen : Z) (priv : option bytes)
    (evppriv : option EVP_PKEY)
    (enclen : Z) (enc : option bytes)
    (cipherlen : Z) (cipher : option bytes)
    (aadlen : Z) (aad : option bytes)
    (infolen : Z) (info : option bytes)
    (clearlen : option Z)
    : result bytes :=
  let crv := hpke_mode_check mode in
  check (crv =? 1) else crv ;;
  let crv := hpke_psk_check mode pskid psklen psk in
  check (crv =? 1) else crv ;;
  let crv := hpke_suite_check suite in
  check (crv =? 1) else crv ;;
  match clearlen, cipher with
  | Some clearcap, Some cipherbuf =>
      check (notnull priv || notnull evppriv) else 1754 ;;
      check negb (is_auth_mode mode && (negb (notnull pub) || (publen =? 0)))
        else 1755 ;;
      check negb (is_psk_mode mode &&
                  (negb (notnull psk) || (psklen =? 0) || negb (notnull pskid)))
        else 1756 ;;
      (* step 0 *)
      some pkE <- load_public suite (rd enclen enc) else 1805 ;;
      do pkI <-
        (if negb (publen =? 0) && notnull pub then
           some k <- load_public suite (rd publen pub) else 1814 ;;
           Ok (Some k)
         else Ok None) ;;
      (* step 1 *)
      do skR <-
        match evppriv with
        | None => load_private 1835 suite privlen priv
        | Some k => Ok k
        end ;;
      (* step 2 *)
      let mypub := EVP_PKEY_get1_tls_encodedpoint skR in
      check negb (len mypub =? 0) else 1845 ;;
      (* a set publen with a NULL pub is copied from by hpke_do_kem *)
      do apub <- (if negb (publen =? 0) && negb (notnull pub) then Undef
                  else Ok (rd publen pub)) ;;
      do shared_secret <-
        hpke_do_kem false suite skR mypub pkE (rd enclen enc) pkI apub ;;
      (* steps 3 and 4 *)
      do kn <- key_schedule 339 mode suite pskid psklen psk infolen info
                 shared_secret ;;
      (* step 5 *)
      do lclear <- hpke_aead_dec suite kn.1 kn.2 aadlen aad cipherbuf
                     cipherlen HPKE_MAXSIZE ;;
      check (len lclear <=? clearcap) else 1981 ;;
      Ok lclear
  | _, _ => Err 1754
  end.

End Code.

End Hpke.

(** ** What a round trip asks of the AEAD *)

Section Aead.
Context {L : Hpke.libcrypto}.

(** What is asked of the AEAD for the text [pt] under the data [aad]:
    whatever the key and the nonce, the ciphertext is as long as the
    text, the tag fills the [T] octets asked for, and decryption gives
    the text back. *)
Definition aead_opens (aad pt : bytes) (T : Z) : Prop :=
  forall c key iv r,
    Hpke.EVP_Encrypt c (len iv) key iv aad pt T = Some r ->
    len r.1 = len pt /\ T <= len r.2 /\
    Hpke.EVP_Decrypt c (len iv) key iv aad (r.1 ++ take (Z.to_nat T) r.2)
      (len pt) (len pt) T = Some pt.

End Aead.

(** ** ssl/ech.c *)

Module Ech.

(** *** Constants *)

(* ech_local.h *)
Definition ECH_MIN_ECHCONFIG_LEN : Z := 32.
Definition ECH_MAX_ECHCONFIG_LEN : Z := 512.
Definition ECH_CIPHER_LEN : Z := 4.
Definition ECH_OUTERS_MAX : Z := 10.

(** Modelled from the spec: ech.h and tls1.h are not among the sources.
    "only 0xff09 / draft-09 is accepted"; "public_name: byte string,
    1..255 octets" gives the bound TLSEXT_MAXLEN_host_name. *)
Definition ECH_DRAFT_09_VERSION : Z := 0xff09.
Definition TLSEXT_MAXLEN_host_name : Z := 255.

(** The remaining names of ech.h and tls1.h that ech.c uses, and the
    extension index map of the extension code, are parameters. *)
Class ech_h := {
  ECH_MAX_RRVALUE_LEN : Z;
  TLSEXT_TYPE_outer_extensions : Z;
  ech_map_ext_type_to_ind : Z -> Z
}.

(** *** PACKET *)

(** Modelled from the spec: the PACKET readers of ssl/packet_local.h,
    which is not among the sources.  A PACKET is the octets not yet
    read; "u16" fields are big-endian and a "length-prefixed" field is a
    u16 length followed by that many octets.  A reader that fails leaves
    the PACKET as it was. *)
Definition PACKET := bytes.

Definition PACKET_remaining (pkt : PACKET) : Z := len pkt.

Definition PACKET_get_net_2 (pkt : PACKET) : option (Z * PACKET) :=
  match pkt with
  | b0 :: b1 :: pkt' => Some (b0 * 256 + b1, pkt')
  | _ => None
  end.

Definition PACKET_copy_bytes (pkt : PACKET) (n : Z) : option (bytes * PACKET) :=
  if PACKET_remaining pkt <? n then None
  else Some (take (Z.to_nat n) pkt, drop (Z.to_nat n) pkt).

Definition PACKET_get_length_prefixed_2 (pkt : PACKET)
    : option (PACKET * PACKET) :=
  match PACKET_get_net_2 pkt with
  | Some (length, tmp) => PACKET_copy_bytes tmp length
  | None => None
  end.

(** *** ECHConfig *)

Record ECHConfig := {
  version : Z;
  public_name : bytes;
  kem_id : Z;
  pub : bytes;
  ciphersuites : list bytes;
  maximum_name_length : Z;
  (** exttypes, extlens and exts, one triple per extension; a zero-length
      extension has a NULL value *)
  exts : list (Z * Z * option bytes);
  config_id : bytes
}.

Record ECHConfigs := {
  encoded_len : Z;
  encoded : bytes;
  recs : list ECHConfig
}.
(** [nrecs] is the number of records in [recs]. *)
Definition nrecs (er : ECHConfigs) : Z := len (recs er).

(** *** Sessions *)

Record SSL_ECH := {
  cfg : option ECHConfigs;
  inner_name : option bytes;
  outer_name : option bytes;
  pemfname : option bytes;
  loadtime : Z;
  dns_alpns : option bytes;
  dns_no_def_alpn : Z
}.

(** [memset(newech,0,sizeof(SSL_ECH)); newech->cfg=er;] *)
Definition new_SSL_ECH (er : ECHConfigs) : SSL_ECH :=
  {| cfg := Some er; inner_name := None; outer_name := None;
     pemfname := None; loadtime := 0; dns_alpns := None;
     dns_no_def_alpn := 0 |}.

Record RAW_EXTENSION := {
  (** [data.curr] with its [data.remaining] octets *)
  data : option bytes;
  present : Z;
  type : Z
}.

Record CLIENTHELLO_MSG := {
  (** [pre_proc_exts_len] is its length *)
  pre_proc_exts : list RAW_EXTENSION;
  extensions : bytes
}.

(** The fields of an SSL that ech.c reads or writes, with the [ext.]
    and [s3.] members under the prefixes [ext_] and [s3_].  Sessions live
    in a store and are referred to by their address; [rlayer_s] is
    [rlayer.s], and [other] is all the rest of the structure. *)
Record SSL := {
  wbio : Z;
  rbio : Z;
  rlayer : Z;
  rlayer_s : option nat;
  init_buf : Z;
  init_msg : Z;
  init_off : Z;
  init_num : Z;
  statem : Z;
  ext_debug_cb : Z;
  ext_debug_arg : Z;
  s3_handshake_buffer : bytes;
  s3_client_random : bytes;
  client_version : Z;
  clienthello : option CLIENTHELLO_MSG;
  ech : option (list SSL_ECH);
  nechs : Z;
  ext_ch_depth : Z;
  ext_inner_s : option nat;
  ext_outer_s : option nat;
  ext_etype : Z;
  ext_n_outer_only : Z;
  ext_outer_only : list Z;
  ext_encoded_innerch : option bytes;
  ext_innerch : option bytes;
  ext_ech_attempted : Z;
  ext_ech_done : Z;
  ext_ech_success : Z;
  other : Z
}.

(** Field assignments. *)
Definition set_ext_inner_s (v : option nat) (s : SSL) : SSL :=
  {| wbio := wbio s; rbio := rbio s; rlayer := rlayer s;
     rlayer_s := rlayer_s s; init_buf := init_buf s; init_msg := init_msg s;
     init_off := init_off s; init_num := init_num s; statem := statem s;
     ext_debug_cb := ext_debug_cb s; ext_debug_arg := ext_debug_arg s;
     s3_handshake_buffer := s3_handshake_buffer s;
     s3_client_random := s3_client_random s;
     client_version := client_version s; clienthello := clienthello s;
     ech := ech s; nechs := nechs s; ext_ch_depth := ext_ch_depth s;
     ext_inner_s := v; ext_outer_s := ext_outer_s s;
     ext_etype := ext_etype s; ext_n_outer_only := ext_n_outer_only s;
     ext_outer_only := ext_outer_only s;
     ext_encoded_innerch := ext_encoded_innerch s;
     ext_innerch := ext_innerch s; ext_ech_attempted := ext_ech_attempted s;
     ext_ech_done := ext_ech_done s; ext_ech_success := ext_ech_success s;
     other := other s |}.

Definition set_ext_outer_s (v : option nat) (s : SSL) : SSL :=
  {| wbio := wbio s; rbio := rbio s; rlayer := rlayer s;
     rlayer_s := rlayer_s s; init_buf := init_buf s; init_msg := init_msg s;
     init_off := init_off s; init_num := init_num s; statem := statem s;
     ext_debug_cb := ext_debug_cb s; ext_debug_arg := ext_debug_arg s;
     s3_handshake_buffer := s3_handshake_buffer s;
     s3_client_random := s3_client_random s;
     client_version := client_version s; clienthello := clienthello s;
     ech := ech s; nechs := nechs s; ext_ch_depth := ext_ch_depth s;
     ext_inner_s := ext_inner_s s; ext_outer_s := v;
     ext_etype := ext_etype s; ext_n_outer_only := ext_n_outer_only s;
     ext_outer_only := ext_outer_only s;
     ext_encoded_innerch := ext_encoded_innerch s;
     ext_innerch := ext_innerch s; ext_ech_attempted := ext_ech_attempted s;
     ext_ech_done := ext_ech_done s; ext_ech_success := ext_ech_success s;
     other := other s |}.

Definition set_ext_ech_success (v : Z) (s : SSL) : SSL :=
  {| wbio := wbio s; rbio := rbio s; rlayer := rlayer s;
     rlayer_s := rlayer_s s; init_buf := init_buf s; init_msg := init_msg s;
     init_off := init_off s; init_num := init_num s; statem := statem s;
     ext_debug_cb := ext_debug_cb s; ext_debug_arg := ext_debug_arg s;
     s3_handshake_buffer := s3_handshake_buffer s;
     s3_client_random := s3_client_random s;
     client_version := client_version s; clienthello := clienthello s;
     ech := ech s; nechs := nechs s; ext_ch_depth := ext_ch_depth s;
     ext_inner_s := ext_inner_s s; ext_outer_s := ext_outer_s s;
     ext_etype := ext_etype s; ext_n_outer_only := ext_n_outer_only s;
     ext_outer_only := ext_outer_only s;
     ext_encoded_innerch := ext_encoded_innerch s;
     ext_innerch := ext_innerch s; ext_ech_attempted := ext_ech_attempted s;
     ext_ech_done := ext_ech_done s; ext_ech_success := v; other := other s |}.

Definition set_rlayer_s (v : option nat) (s : SSL) : SSL :=
  {| wbio := wbio s; rbio := rbio s; rlayer := rlayer s; rlayer_s := v;
     init_buf := init_buf s; init_msg := init_msg s; init_off := init_off s;
     init_num := init_num s; statem := statem s;
     ext_debug_cb := ext_debug_cb s; ext_debug_arg := ext_debug_arg s;
     s3_handshake_buffer := s3_handshake_buffer s;
     s3_client_random := s3_client_random s;
     client_version := client_version s; clienthello := clienthello s;
     ech := ech s; nechs := nechs s; ext_ch_depth := ext_ch_depth s;
     ext_inner_s := ext_inner_s s; ext_outer_s := ext_outer_s s;
     ext_etype := ext_etype s; ext_n_outer_only := ext_n_outer_only s;
     ext_outer_only := ext_outer_only s;
     ext_encoded_innerch := ext_encoded_innerch s;
     ext_innerch := ext_innerch s; ext_ech_attempted := ext_ech_attempted s;
     ext_ech_done := ext_ech_done s; ext_ech_success := ext_ech_success s;
     other := other s |}.

Definition set_s3_handshake_buffer (v : bytes) (s : SSL) : SSL :=
  {| wbio := wbio s; rbio := rbio s; rlayer := rlayer s;
     rlayer_s := rlayer_s s; init_buf := init_buf s; init_msg := init_msg s;
     init_off := init_off s; init_num := init_num s; statem := statem s;
     ext_debug_cb := ext_debug_cb s; ext_debug_arg := ext_debug_arg s;
     s3_handshake_buffer := v; s3_client_random := s3_client_random s;
     client_version := client_version s; clienthello := clienthello s;
     ech := ech s; nechs := nechs s; ext_ch_depth := ext_ch_depth s;
     ext_inner_s := ext_inner_s s; ext_outer_s := ext_outer_s s;
     ext_etype := ext_etype s; ext_n_outer_only := ext_n_outer_only s;
     ext_outer_only := ext_outer_only s;
     ext_encoded_innerch := ext_encoded_innerch s;
     ext_innerch := ext_innerch s; ext_ech_attempted := ext_ech_attempted s;
     ext_ech_done := ext_ech_done s; ext_ech_success := ext_ech_success s;
     other := other s |}.

Definition set_ext_encoded_innerch (v : option bytes) (s : SSL) : SSL :=
  {| wbio := wbio s; rbio := rbio s; rlayer := rlayer s;
     rlayer_s := rlayer_s s; init_buf := init_buf s; init_msg := init_msg s;
     init_off := init_off s; init_num := init_num s; statem := statem s;
     ext_debug_cb := ext_debug_cb s; ext_debug_arg := ext_debug_arg s;
     s3_handshake_buffer := s3_handshake_buffer s;
     s3_client_random := s3_client_random s;
     client_version := client_version s; clienthello := clienthello s;
     ech := ech s; nechs := nechs s; ext_ch_depth := ext_ch_depth s;
     ext_inner_s := ext_inner_s s; ext_outer_s := ext_outer_s s;
     ext_etype := ext_etype s; ext_n_outer_only := ext_n_outer_only s;
     ext_outer_only := ext_outer_only s; ext_encoded_innerch := v;
     ext_innerch := ext_innerch s; ext_ech_attempted := ext_ech_attempted s;
     ext_ech_done := ext_ech_done s; ext_ech_success := ext_ech_success s;
     other := other s |}.

Definition set_ech (e : option (list SSL_ECH)) (n : Z) (s : SSL) : SSL :=
  {| wbio := wbio s; rbio := rbio s; rlayer := rlayer s;
     rlayer_s := rlayer_s s; init_buf := init_buf s; init_msg := init_msg s;
     init_off := init_off s; init_num := init_num s; statem := statem s;
     ext_debug_cb := ext_debug_cb s; ext_debug_arg := ext_debug_arg s;
     s3_handshake_buffer := s3_handshake_buffer s;
     s3_client_random := s3_client_random s;
     client_version := client_version s; clienthello := clienthello s;
     ech := e; nechs := n; ext_ch_depth := ext_ch_depth s;
     ext_inner_s := ext_inner_s s; ext_outer_s := ext_outer_s s;
     ext_etype := ext_etype s; ext_n_outer_only := ext_n_outer_only s;
     ext_outer_only := ext_outer_only s;
     ext_encoded_innerch := ext_encoded_innerch s;
     ext_innerch := ext_innerch s; ext_ech_attempted := ext_ech_attempted s;
     ext_ech_done := ext_ech_done s; ext_ech_success := ext_ech_success s;
     other := other s |}.

Definition set_outer_only (a : list Z) (n : Z) (s : SSL) : SSL :=
  {| wbio := wbio s; rbio := rbio s; rlayer := rlayer s;
     rlayer_s := rlayer_s s; init_buf := init_buf s; init_msg := init_msg s;
     init_off := init_off s; init_num := init_num s; statem := statem s;
     ext_debug_cb := ext_debug_cb s; ext_debug_arg := ext_debug_arg s;
     s3_handshake_buffer := s3_handshake_buffer s;
     s3_client_random := s3_client_random s;
     client_version := client_version s; clienthello := clienthello s;
     ech := ech s; nechs := nechs s; ext_ch_depth := ext_ch_depth s;
     ext_inner_s := ext_inner_s s; ext_outer_s := ext_outer_s s;
     ext_etype := ext_etype s; ext_n_outer_only := n; ext_outer_only := a;
     ext_encoded_innerch := ext_encoded_innerch s;
     ext_innerch := ext_innerch s; ext_ech_attempted := ext_ech_attempted s;
     ext_ech_done := ext_ech_done s; ext_ech_success := ext_ech_success s;
     other := other s |}.

(** The block of assignments [s->f=tmp_outer.f] of [ech_swaperoo]. *)
Definition copy_transport (tmp_outer : SSL) (s : SSL) : SSL :=
  {| wbio := wbio tmp_outer; rbio := rbio tmp_outer;
     rlayer := rlayer tmp_outer; rlayer_s := rlayer_s s;
     init_buf := init_buf tmp_outer; init_msg := init_msg tmp_outer;
     init_off := init_off tmp_outer; init_num := init_num tmp_outer;
     statem := statem tmp_outer; ext_debug_cb := ext_debug_cb tmp_outer;
     ext_debug_arg := ext_debug_arg tmp_outer;
     s3_handshake_buffer := s3_handshake_buffer s;
     s3_client_random := s3_client_random s;
     client_version := client_version s; clienthello := clienthello s;
     ech := ech s; nechs := nechs s; ext_ch_depth := ext_ch_depth s;
     ext_inner_s := ext_inner_s s; ext_outer_s := ext_outer_s s;
     ext_etype := ext_etype s; ext_n_outer_only := ext_n_outer_only s;
     ext_outer_only := ext_outer_only s;
     ext_encoded_innerch := ext_encoded_innerch s;
     ext_innerch := ext_innerch s; ext_ech_attempted := ext_ech_attempted s;
     ext_ech_done := ext_ech_done s; ext_ech_success := ext_ech_success s;
     other := other s |}.

(** [ctx->ext.ech] and [ctx->ext.nechs] of an SSL_CTX. *)
Record SSL_CTX := {
  ctx_ext_ech : option (list SSL_ECH);
  ctx_ext_nechs : Z;
  ctx_other : Z
}.

(** Outcome of a loop that is run with fuel. *)
Inductive loop (A : Type) : Type :=
| Done (a : A)
| Fail
| NoFuel.
Arguments Done {A} a.
Arguments Fail {A}.
Arguments NoFuel {A}.

Section Code.
Context {E : ech_h}.

(** [while (PACKET_copy_bytes(&cipher_suites, cipher, ECH_CIPHER_LEN))]:
    the suites read and what is left of the packet. *)
Fixpoint suites_loop (cipher_suites : PACKET) : list bytes * PACKET :=
  match cipher_suites with
  | a :: b :: c :: d :: rest =>
      let r := suites_loop rest in ([a; b; c; d] :: r.1, r.2)
  | _ => ([], cipher_suites)
  end.

(** [while (PACKET_remaining(&exts) > 0)] *)
Fixpoint exts_loop (fuel : nat) (exts : PACKET)
    (acc : list (Z * Z * option bytes)) : loop (list (Z * Z * option bytes)) :=
  if PACKET_remaining exts >? 0 then
    match fuel with
    | O => NoFuel
    | S fuel =>
        match PACKET_get_net_2 exts with
        | None => Fail
        | Some (exttype, exts) =>
            (* extlen is 0 when it is compared with ECH_MAX_RRVALUE_LEN *)
            if 0 >=? ECH_MAX_RRVALUE_LEN then Fail
            else
              match PACKET_get_net_2 exts with
              | None => Fail
              | Some (extlen, exts) =>
                  if negb (extlen =? 0) then
                    match PACKET_copy_bytes exts extlen with
                    | None => Fail
                    | Some (extval, exts) =>
                        exts_loop fuel exts (acc ++ [(exttype, extlen, Some extval)])
                    end
                  else exts_loop fuel exts (acc ++ [(exttype, extlen, None)])
              end
        end
    end
  else Done acc.

(** The body of the record loop for a record of version 0xff09, from
    "read public_name" on. *)
Definition draft_09_contents (version : Z) (pkt : PACKET)
    : loop (ECHConfig * PACKET) :=
  match PACKET_get_length_prefixed_2 pkt with
  | None => Fail
  | Some (public_name_pkt, pkt) =>
  let public_name_len := PACKET_remaining public_name_pkt in
  if (public_name_len <=? 1) || (public_name_len >? TLSEXT_MAXLEN_host_name)
  then Fail else
  match PACKET_get_length_prefixed_2 pkt with
  | None => Fail
  | Some (pub_pkt, pkt) =>
  if negb (OPENSSL_malloc_ok (PACKET_remaining pub_pkt)) then Fail else
  match PACKET_get_net_2 pkt with
  | None => Fail
  | Some (kem, pkt) =>
  match PACKET_get_length_prefixed_2 pkt with
  | None => Fail
  | Some (cipher_suites, pkt) =>
  let suiteoctets := PACKET_remaining cipher_suites in
  if (suiteoctets <=? 0) || negb (suiteoctets mod 1 =? 0) then Fail else
  let nsuites := suiteoctets / ECH_CIPHER_LEN in
  if negb (OPENSSL_malloc_ok (nsuites * ECH_CIPHER_LEN)) then Fail else
  let sl := suites_loop cipher_suites in
  if PACKET_remaining sl.2 >? 0 then Fail else
  match PACKET_get_net_2 pkt with
  | None => Fail
  | Some (max_name_len, pkt) =>
  match PACKET_get_length_prefixed_2 pkt with
  | None => Fail
  | Some (exts, pkt) =>
  match exts_loop (length exts) exts [] with
  | Fail => Fail
  | NoFuel => NoFuel
  | Done el =>
      Done ({| version := version;
               public_name := public_name_pkt;
               kem_id := kem;
               pub := pub_pkt;
               ciphersuites := sl.1;
               maximum_name_length := max_name_len;
               exts := el;
               config_id := [] |}, pkt)
  end end end end end end end.

(** [while (remaining>not_to_consume)].  [remaining] is the variable of
    the code: it is set after the two length octets of a record and at
    the end of the body, and the [continue] that skips a record of
    another version leaves it as it is. *)
Fixpoint records_loop (fuel : nat) (not_to_consume remaining : Z)
    (pkt : PACKET) (te : list ECHConfig) : loop (PACKET * list ECHConfig) :=
  if remaining >? not_to_consume then
    match fuel with
    | O => NoFuel
    | S fuel =>
        match PACKET_get_net_2 pkt with
        | None => Fail
        | Some (version, pkt) =>
        match PACKET_get_net_2 pkt with
        | None => Fail
        | Some (ech_content_length, pkt) =>
        let remaining := PACKET_remaining pkt in
        if wrap32 (ech_content_length - 2) >? remaining then Fail else
        if negb (version =? ECH_DRAFT_09_VERSION) then
          if negb (OPENSSL_malloc_ok ech_content_length) then Fail else
          match PACKET_copy_bytes pkt ech_content_length with
          | None => Fail
          | Some (_, pkt) => records_loop fuel not_to_consume remaining pkt te
          end
        else
          match draft_09_contents version pkt with
          | Fail => Fail
          | NoFuel => NoFuel
          | Done (ec, pkt) =>
              records_loop fuel not_to_consume (PACKET_remaining pkt) pkt
                (te ++ [ec])
          end
        end end
    end
  else Done (pkt, te).

(** The answer is the ECHConfigs and [*leftover]; [None] is NULL.
    [leftover] says whether that pointer is set. *)
Definition ECHConfigs_from_binary_fuel (fuel : nat) (binbuf : option bytes)
    (binblen : Z) (leftover : bool) : loop (ECHConfigs * Z) :=
  if binblen <? ECH_MIN_ECHCONFIG_LEN then Fail
  else if binblen >=? ECH_MAX_ECHCONFIG_LEN then Fail
  else if negb leftover then Fail
  else
    match binbuf with
    | None => Fail
    | Some buf =>
        let pkt := take (Z.to_nat binblen) buf in
        match PACKET_get_net_2 pkt with
        | None => Fail
        | Some (olen, pkt) =>
            if (olen <? ECH_MIN_ECHCONFIG_LEN) || (olen >? binblen - 2)
            then Fail
            else
              let not_to_consume := binblen - olen in
              match records_loop fuel not_to_consume (PACKET_remaining pkt)
                      pkt [] with
              | Fail => Fail
              | NoFuel => NoFuel
              | Done (pkt, te) =>
                  let lleftover := PACKET_remaining pkt in
                  if (lleftover <? 0) || (lleftover >? binblen) then Fail
                  else Done ({| encoded_len := binblen;
                                encoded := buf;
                                recs := te |}, lleftover)
              end
        end
    end.

(** Every turn of the record loop reads at least the four octets of a
    record header, so one unit of fuel per octet of input is enough (see
    [records_loop_fuel]). *)
Definition ECHConfigs_from_binary (binbuf : option bytes) (binblen : Z)
    (leftover : bool) : option (ECHConfigs * Z) :=
  match ECHConfigs_from_binary_fuel (S (Z.to_nat binblen)) binbuf binblen
          leftover with
  | Done r => Some r
  | _ => None
  end.

(** *** Ingestion: format detection and decoding *)

(** The format argument of the API.  ech.h, which numbers the formats, is
    not among the sources; [ECH_FMT_other] is any value that is none of
    the five names. *)
Inductive ech_fmt :=
| ECH_FMT_GUESS | ECH_FMT_HTTPSSVC | ECH_FMT_ASCIIHEX | ECH_FMT_B64TXT
| ECH_FMT_BIN | ECH_FMT_other (n : Z).

Definition AH_alphabet : bytes := Hpke.str "0123456789ABCDEFabcdef;"%string.
Definition B64_alphabet : bytes :=
  Hpke.str "ABCDEFGHIJKLMNOPQRSTUVWXYZabcdefghijklmnopqrstuvwxyz0123456789+/=;"%string.
Definition httpssvc_telltale : bytes := Hpke.str "echconfig="%string.

Definition mem (c : Z) (set : bytes) : bool := existsb (Z.eqb c) set.

(** The C string that starts a buffer: the octets before the first NUL. *)
Fixpoint cstr (buf : bytes) : bytes :=
  match buf with
  | [] => []
  | c :: buf' => if c =? 0 then [] else c :: cstr buf'
  end.

Definition strlen (s : bytes) : Z := len (cstr s).

Fixpoint strspn_nat (s accept : bytes) : nat :=
  match s with
  | [] => O
  | c :: s' => if mem c accept then S (strspn_nat s' accept) else O
  end.
Definition strspn (s accept : bytes) : Z := Z.of_nat (strspn_nat (cstr s) accept).

Fixpoint strcspn_nat (s reject : bytes) : nat :=
  match s with
  | [] => O
  | c :: s' => if mem c reject then O else S (strcspn_nat s' reject)
  end.
Definition strcspn (s reject : bytes) : Z := Z.of_nat (strcspn_nat (cstr s) reject).

Fixpoint is_prefix (p s : bytes) : bool :=
  match p, s with
  | [], _ => true
  | a :: p', b :: s' => (a =? b) && is_prefix p' s'
  | _ :: _, [] => false
  end.

(** [strstr]: the string from the first occurrence of [needle] on. *)
Fixpoint strstr_from (hay needle : bytes) : option bytes :=
  if is_prefix needle hay then Some hay
  else match hay with
       | [] => None
       | _ :: hay' => strstr_from hay' needle
       end.
Definition strstr (hay needle : bytes) : option bytes :=
  strstr_from (cstr hay) needle.

(** [guessedfmt] is always set by the caller here. *)
Definition ech_guess_fmt (eklen : Z) (rrval : option bytes) : option ech_fmt :=
  match rrval with
  | None => None
  | Some rrval =>
      if eklen <=? 0 then None
      else if notnull (strstr rrval httpssvc_telltale) then Some ECH_FMT_HTTPSSVC
      else if eklen <=? strspn rrval AH_alphabet then Some ECH_FMT_ASCIIHEX
      else if eklen <=? strspn rrval B64_alphabet then Some ECH_FMT_B64TXT
      else Some ECH_FMT_BIN
  end.

(** EVP_DecodeBlock of libcrypto: the return value and the octets
    written. *)
Class evp_encode := {
  EVP_DecodeBlock : bytes -> Z * bytes
}.
Context {B : evp_encode}.

(** The number of '=' that end a fragment, as far as the code counts. *)
Fixpoint padding_rev (rev_frag : bytes) (i : nat) : option nat :=
  match rev_frag with
  | c :: rest =>
      if c =? 61 then
        (if (2 <? Z.of_nat (S i)) then None else padding_rev rest (S i))
      else Some i
  | [] => Some i
  end.

(** The loop of [ech_base64_decode] over the semi-colon separated
    fragments of [inp]; [todo] is [inlen - overallfraglen].  Reading
    before the start of a fragment made of '=' only is not modelled. *)
Fixpoint b64_loop (fuel : nat) (todo : Z) (inp : bytes) (out : bytes)
    : loop bytes :=
  if 0 <? todo then
    match fuel with
    | O => NoFuel
    | S fuel =>
        let thisfraglen := strcspn inp (Hpke.str ";"%string) in
        let frag := take (Z.to_nat thisfraglen) inp in
        let d := EVP_DecodeBlock frag in
        if d.1 <? 0 then Fail
        else
          match padding_rev (rev frag) O with
          | None => Fail
          | Some i =>
              b64_loop fuel (todo - (thisfraglen + 1))
                (drop (Z.to_nat (thisfraglen + 1)) inp)
                (out ++ take (Z.to_nat (d.1 - Z.of_nat i)) d.2)
          end
    end
  else Done out.

(** The answer is the return value and [*out]. *)
Definition ech_base64_decode (inp : bytes) : Z * option bytes :=
  let inlen := strlen inp in
  if inlen =? 0 then (0, None)
  else
    match b64_loop (S (Z.to_nat inlen)) inlen (cstr inp) [] with
    | Done out => (len out, Some out)
    | _ => (-1, None)
    end.

Context {H : Hpke.hpke_h}.

(** What [local_ech_add] leaves behind: the return value, and
    [*num_echs] and [*echs] when it got to set them. *)
Definition local_ech_add (ekfmt : ech_fmt) (eklen : Z) (ekval : option bytes)
    (num_echs : bool) : result (option (Z * list SSL_ECH)) :=
  match ekval with
  | None => Err 0
  | Some ekbuf =>
  if (eklen =? 0) || negb num_echs then Err 0
  else if eklen >=? ECH_MAX_RRVALUE_LEN then Err 0
  else
    (* rv and detfmt after the switch *)
    do fmt <-
      match ekfmt with
      | ECH_FMT_GUESS =>
          some detfmt <- ech_guess_fmt eklen ekval else 0 ;; Ok (1, detfmt)
      | ECH_FMT_HTTPSSVC | ECH_FMT_ASCIIHEX | ECH_FMT_B64TXT | ECH_FMT_BIN =>
          Ok (0, ekfmt)
      | ECH_FMT_other _ => Err 0
      end ;;
    let rv := fmt.1 in
    (* return(rv): 1 stands for success although nothing was stored *)
    let return_rv : result (option (Z * list SSL_ECH)) :=
      if rv =? 1 then Ok None else Err rv in
    let after_svc : result (bytes * ech_fmt) + result (option (Z * list SSL_ECH)) :=
      match fmt.2 with
      | ECH_FMT_HTTPSSVC =>
          match strstr ekbuf httpssvc_telltale with
          | None => inr return_rv
          | Some ekcpy =>
              if strlen ekcpy <=? strlen httpssvc_telltale then inr return_rv
              else inl (Ok (drop (length httpssvc_telltale) ekcpy, ECH_FMT_B64TXT))
          end
      | detfmt => inl (Ok (ekbuf, detfmt))
      end in
    match after_svc with
    | inr r => r
    | inl r =>
        do ec <- r ;;
        let ekcpy := ec.1 in
        do decoded <-
          match ec.2 with
          | ECH_FMT_B64TXT =>
              let d := ech_base64_decode ekcpy in
              check negb (d.1 <? 0) else 0 ;; Ok (d.1, d.2)
          | ECH_FMT_ASCIIHEX =>
              at_line 0
                (do b <- Hpke.hpke_ah_decode eklen (Some ekcpy) true true ;;
                 Ok (len b, Some b))
          | ECH_FMT_BIN => Ok (eklen, Some (take (Z.to_nat eklen) ekcpy))
          | _ => Ok (0, None)
          end ;;
        let declen := decoded.1 in
        let outbuf := decoded.2 in
        (* the first turn of while (!done) *)
        some r <- ECHConfigs_from_binary outbuf declen true else 0 ;;
        (* a second turn is handed outbuf+declen, behind the decoded octets,
           with the leftover as length: ECHConfigs_from_binary answers NULL
           to a length that fails its first two tests, and reads there
           otherwise *)
        if r.2 <=? 0 then Ok (Some (1, [new_SSL_ECH r.1]))
        else if (r.2 <? ECH_MIN_ECHCONFIG_LEN) ||
                (r.2 >=? ECH_MAX_ECHCONFIG_LEN) then Err 0
        else Undef
    end
  end.

(** [*num_echs] on entry is [num_echs] ([None] for a NULL pointer).  The
    answer is the return value and the connection after the call; [None]
    is undefined behaviour. *)
Definition SSL_ech_add (con : option SSL) (ekfmt : ech_fmt) (eklen : Z)
    (ekval : option bytes) (num_echs : option Z) : option (Z * option SSL) :=
  match con with
  | None => Some (0, con)
  | Some c =>
      match local_ech_add ekfmt eklen ekval (notnull num_echs) with
      | Ok out =>
          Some (1, Some (set_ech
                           (match out with Some o => Some o.2 | None => None end)
                           (match out with
                            | Some o => o.1
                            | None => default 0 num_echs
                            end) c))
      | Err _ => Some (0, con)
      | Undef => None
      end
  end.

Definition SSL_CTX_ech_add (ctx : option SSL_CTX) (ekfmt : ech_fmt)
    (eklen : Z) (ekval : option bytes) (num_echs : option Z)
    : option (Z * option SSL_CTX) :=
  match ctx with
  | None => Some (0, ctx)
  | Some c =>
      match local_ech_add ekfmt eklen ekval (notnull num_echs) with
      | Ok out =>
          Some (1, Some {| ctx_ext_ech :=
                             match out with Some o => Some o.2 | None => None end;
                           ctx_ext_nechs :=
                             match out with
                             | Some o => o.1
                             | None => default 0 num_echs
                             end;
                           ctx_other := ctx_other c |})
      | Err _ => Some (0, ctx)
      | Undef => None
      end
  end.

(** *** WPACKET *)

(** Modelled from the spec: the WPACKET writers of ssl/packet.c, which is
    not among the sources.  Values are written big-endian, an extension
    is "type(u16) || length(u16) || value", and closing a sub-packet
    fills in its length prefix.  A WPACKET is the stack of its open
    sub-packets, innermost first, each with the width of its length
    prefix and the octets written into it so far; the last one is the
    packet itself. *)
Record wsub := {
  lenbytes : nat;
  written : bytes
}.
Definition WPACKET := list wsub.

Definition WPACKET_init : WPACKET := [ {| lenbytes := 0; written := [] |} ].

(** [n] octets, most significant first. *)
Fixpoint be (n : nat) (v : Z) : bytes :=
  match n with
  | O => []
  | S n' => be n' (v / 256) ++ [v mod 256]
  end.

Definition WPACKET_memcpy (pkt : WPACKET) (src : bytes) : option WPACKET :=
  match pkt with
  | sub :: subs =>
      Some ({| lenbytes := lenbytes sub; written := written sub ++ src |} :: subs)
  | [] => None
  end.

(** A value that does not fit in [n] octets is refused. *)
Definition WPACKET_put_bytes (n : nat) (pkt : WPACKET) (val : Z)
    : option WPACKET :=
  if (0 <=? val) && (val <? 256 ^ Z.of_nat n) then WPACKET_memcpy pkt (be n val)
  else None.
Definition WPACKET_put_bytes_u8 := WPACKET_put_bytes 1.
Definition WPACKET_put_bytes_u16 := WPACKET_put_bytes 2.

Definition WPACKET_start_sub_packet (n : nat) (pkt : WPACKET) : option WPACKET :=
  match pkt with
  | [] => None
  | _ => Some ({| lenbytes := n; written := [] |} :: pkt)
  end.
Definition WPACKET_start_sub_packet_u8 := WPACKET_start_sub_packet 1.
Definition WPACKET_start_sub_packet_u16 := WPACKET_start_sub_packet 2.
Definition WPACKET_start_sub_packet_u24 := WPACKET_start_sub_packet 3.

Definition WPACKET_close (pkt : WPACKET) : option WPACKET :=
  match pkt with
  | sub :: parent :: subs =>
      if len (written sub) <? 256 ^ Z.of_nat (lenbytes sub) then
        Some ({| lenbytes := lenbytes parent;
                 written := written parent ++
                            be (lenbytes sub) (len (written sub)) ++
                            written sub |} :: subs)
      else None
  | _ => None
  end.

Definition WPACKET_sub_memcpy_u16 (pkt : WPACKET) (src : bytes)
    : option WPACKET :=
  pkt ← WPACKET_start_sub_packet_u16 pkt;
  pkt ← WPACKET_memcpy pkt src;
  WPACKET_close pkt.

(** Everything written so far, the length prefixes of the sub-packets
    still open left out. *)
Definition WPACKET_get_length (pkt : WPACKET) : Z :=
  len (concat (map written pkt)).

Definition SSL3_MT_CLIENT_HELLO : Z := 1.
Definition SSL3_RANDOM_SIZE : Z := 32.

(** Modelled from the spec: [ssl_set_handshake_header] of the handshake
    code; a handshake message is its "message type byte" "followed by a
    3-byte length". *)
Definition ssl_set_handshake_header (pkt : WPACKET) (mt : Z) : option WPACKET :=
  pkt ← WPACKET_put_bytes_u8 pkt mt;
  WPACKET_start_sub_packet_u24 pkt.

(** *** The compression policy *)

(** Indexed by TLSEXT_IDX_*, from renegotiate to psk. *)
Definition ech_outer_config : list Z := [
  (*renegotiate*) 0; (*server_name*) 0;
  (*max_fragment_length*) 1; (*srp*) 1; (*ec_point_formats*) 1;
  (*supported_groups*) 1;
  (*session_ticket*) 0; (*status_request*) 0; (*next_proto_neg*) 0;
  (*application_layer_protocol_negotiation*) 0; (*use_srtp*) 0;
  (*encrypt_then_mac*) 0; (*signed_certificate_timestamp*) 0;
  (*extended_master_secret*) 0; (*signature_algorithms_cert*) 0;
  (*post_handshake_auth*) 0; (*signature_algorithms*) 0;
  (*supported_versions*) 0; (*psk_kex_modes*) 0; (*key_share*) 0;
  (*cookie*) 0; (*cryptopro_bug*) 0; (*early_data*) 0;
  (*certificate_authorities*) 0; (*esni*) 0; (*ech*) 0;
  (*outer_extensions*) 0; (*padding*) 0; (*psk*) 0 ].

Definition ech_outer_indep : list Z := [
  (*renegotiate*) 0; (*server_name*) 1;
  (*max_fragment_length*) 0; (*srp*) 0; (*ec_point_formats*) 0;
  (*supported_groups*) 0;
  (*session_ticket*) 0; (*status_request*) 0; (*next_proto_neg*) 0;
  (*application_layer_protocol_negotiation*) 1; (*use_srtp*) 0;
  (*encrypt_then_mac*) 0; (*signed_certificate_timestamp*) 0;
  (*extended_master_secret*) 0; (*signature_algorithms_cert*) 0;
  (*post_handshake_auth*) 0; (*signature_algorithms*) 0;
  (*supported_versions*) 0; (*psk_kex_modes*) 0; (*key_share*) 1;
  (*cookie*) 0; (*cryptopro_bug*) 0; (*early_data*) 0;
  (*certificate_authorities*) 0; (*esni*) 0; (*ech*) 0;
  (*outer_extensions*) 0; (*padding*) 0; (*psk*) 0 ].

Definition ECH_SAME_EXT_ERR : Z := 0.
Definition ECH_SAME_EXT_DONE : Z := 1.
Definition ECH_SAME_EXT_CONTINUE : Z := 2.

(** The first entry of [raws] of the given type. *)
Fixpoint find_raw (ty : Z) (raws : list RAW_EXTENSION) : option RAW_EXTENSION :=
  match raws with
  | [] => None
  | r :: raws' => if type r =? ty then Some r else find_raw ty raws'
  end.

(** The policy applies to any table with one entry per extension index;
    [ech_same_ext] is [same_ext ech_outer_config].  The answer is the
    return value, the store and the packet; [None] is undefined
    behaviour (a session that is not there). *)
Definition same_ext (outer_config : list Z) (h : gmap nat SSL) (s : nat)
    (pkt : option WPACKET) : option (Z * gmap nat SSL * option WPACKET) :=
  so ← h !! s;
  if negb (notnull (ech so)) then Some (ECH_SAME_EXT_CONTINUE, h, pkt)
  else if ext_ch_depth so =? 0 then Some (ECH_SAME_EXT_CONTINUE, h, pkt)
  else
    let ty := ext_etype so in
    let nexts := len outer_config in
    let tind := ech_map_ext_type_to_ind ty in
    if tind =? -1 then Some (ECH_SAME_EXT_ERR, h, pkt)
    else if tind >=? nexts then Some (ECH_SAME_EXT_ERR, h, pkt)
    else
      let config := nth (Z.to_nat tind) outer_config 0 in
      if (ext_ch_depth so =? 1) && (config =? 0)
      then Some (ECH_SAME_EXT_CONTINUE, h, pkt)
      else if (ext_ch_depth so =? 1) && negb (config =? 0) then
        if ext_n_outer_only so >=? ECH_OUTERS_MAX
        then Some (ECH_SAME_EXT_ERR, h, pkt)
        else
          let so' :=
            set_outer_only
              (<[Z.to_nat (ext_n_outer_only so) := ty]> (ext_outer_only so))
              (ext_n_outer_only so + 1) so in
          Some (ECH_SAME_EXT_CONTINUE, <[s := so']> h, pkt)
      else
        (* second call, for the outer ClientHello *)
        ia ← ext_inner_s so;
        inner ← h !! ia;
        match clienthello inner, pkt with
        | None, _ => Some (ECH_SAME_EXT_ERR, h, pkt)
        | _, None => Some (ECH_SAME_EXT_ERR, h, pkt)
        | Some ch, Some w =>
            if negb (nth (Z.to_nat tind) ech_outer_indep 0 =? 0)
            then Some (ECH_SAME_EXT_CONTINUE, h, pkt)
            else
              match find_raw ty (pre_proc_exts ch) with
              | None => Some (ECH_SAME_EXT_CONTINUE, h, pkt)
              | Some myext =>
                  let w' :=
                    match data myext with
                    | Some d =>
                        if len d >? 0 then
                          w ← WPACKET_put_bytes_u16 w ty;
                          WPACKET_sub_memcpy_u16 w d
                        else
                          w ← WPACKET_put_bytes_u16 w ty;
                          WPACKET_put_bytes_u16 w 0
                    | None =>
                        w ← WPACKET_put_bytes_u16 w ty;
                        WPACKET_put_bytes_u16 w 0
                    end in
                  match w' with
                  | Some w' => Some (ECH_SAME_EXT_DONE, h, Some w')
                  | None => Some (ECH_SAME_EXT_ERR, h, pkt)
                  end
              end
        end.

Definition ech_same_ext := same_ext ech_outer_config.

(** *** EncodedClientHelloInner *)

(** [for (ooi=0;!tobecompressed && ooi!=s->ext.n_outer_only;ooi++)] *)
Definition tobecompressed (ty : Z) (outer_only : list Z) (n_outer_only : Z)
    : bool :=
  mem ty (take (Z.to_nat n_outer_only) outer_only).

(** The synthetic extension: its type, [2*n_outer_only] as a u16, and
    the types. *)
Fixpoint put_types (pkt : WPACKET) (types : list Z) : option WPACKET :=
  match types with
  | [] => Some pkt
  | t :: types' =>
      pkt ← WPACKET_put_bytes_u16 pkt t; put_types pkt types'
  end.

Definition put_outer_extensions (pkt : WPACKET) (outer_only : list Z)
    (n_outer_only : Z) : option WPACKET :=
  pkt ← WPACKET_put_bytes_u16 pkt TLSEXT_TYPE_outer_extensions;
  pkt ← WPACKET_put_bytes_u16 pkt (2 * n_outer_only);
  put_types pkt (take (Z.to_nat n_outer_only) outer_only).

(** [for (ind=0;ind!=nraws;ind++)] over the extensions of the
    ClientHello, with [compression_done] carried along. *)
Fixpoint inner_exts_loop (raws : list RAW_EXTENSION) (outer_only : list Z)
    (n_outer_only : Z) (compression_done : bool) (pkt : WPACKET)
    : option WPACKET :=
  match raws with
  | [] => Some pkt
  | r :: raws' =>
      if present r =? 0
      then inner_exts_loop raws' outer_only n_outer_only compression_done pkt
      else
        let c := tobecompressed (type r) outer_only n_outer_only in
        pkt ← (if negb compression_done && c
               then put_outer_extensions pkt outer_only n_outer_only
               else Some pkt);
        let compression_done := compression_done || c in
        pkt ← (if negb c then
                 match data r with
                 | Some d =>
                     pkt ← WPACKET_put_bytes_u16 pkt (type r);
                     WPACKET_sub_memcpy_u16 pkt d
                 | None =>
                     pkt ← WPACKET_put_bytes_u16 pkt (type r);
                     WPACKET_put_bytes_u16 pkt 0
                 end
               else Some pkt);
        inner_exts_loop raws' outer_only n_outer_only compression_done pkt
  end.

(** libssl as ech.c calls it.  [ssl_cipher_list_to_bytes] writes the
    cipher list of the session; the two transcript calls and the
    server-name callback work on the session they are given and answer 1
    for success.  [SSLfatal] is the call
    [SSLfatal(s, SSL_AD_INTERNAL_ERROR, SSL_F_TLS_PROCESS_CLIENT_HELLO,
    ERR_R_INTERNAL_ERROR)] of [ech_swaperoo], which works on the session
    as well: nothing is taken for granted of what it leaves there. *)
Class libssl := {
  ssl_cipher_list_to_bytes : SSL -> WPACKET -> option WPACKET;
  ssl3_init_finished_mac : SSL -> Z * SSL;
  ssl3_finish_mac : SSL -> bytes -> Z * SSL;
  final_server_name : SSL -> Z * SSL;
  SSLfatal : SSL -> SSL
}.
Context {S : libssl}.

(** The answer is the return value and the session after the call;
    [None] is undefined behaviour (no [clienthello]). *)
Definition ech_encode_inner (s : SSL) : option (Z * SSL) :=
  if negb (notnull (ech s)) then Some (0, s)
  else
    let mt := SSL3_MT_CLIENT_HELLO in
    let hdr :=
      inner ← ssl_set_handshake_header WPACKET_init mt;
      inner ← WPACKET_put_bytes_u16 inner (client_version s);
      WPACKET_memcpy inner
        (take (Z.to_nat SSL3_RANDOM_SIZE) (s3_client_random s)) in
    match hdr with
    | None => Some (0, s)
    | Some inner =>
    let upto_exts :=
      (* session id, forced to empty *)
      inner ← WPACKET_start_sub_packet_u8 inner;
      inner ← WPACKET_close inner;
      (* ciphers supported *)
      inner ← WPACKET_start_sub_packet_u16 inner;
      inner ← ssl_cipher_list_to_bytes s inner;
      inner ← WPACKET_close inner;
      (* the NULL compression method *)
      inner ← WPACKET_start_sub_packet_u8 inner;
      inner ← WPACKET_put_bytes_u8 inner 0;
      inner ← WPACKET_close inner;
      WPACKET_start_sub_packet_u16 inner in
    match upto_exts with
    | None => Some (0, s)
    | Some inner =>
    ch ← clienthello s;
    let done :=
      inner ← inner_exts_loop (pre_proc_exts ch) (ext_outer_only s)
                (ext_n_outer_only s) false inner;
      (* close the exts sub packet, then the inner CH *)
      inner ← WPACKET_close inner;
      WPACKET_close inner in
    match done with
    | None => Some (0, s)
    | Some inner =>
        let innerinnerlen := WPACKET_get_length inner in
        if negb (OPENSSL_malloc_ok innerinnerlen) then Some (0, s)
        else
          Some (1, set_ext_encoded_innerch
                     (Some (take (Z.to_nat innerinnerlen)
                              (concat (map written inner)))) s)
    end end end.

(** *** The swap *)

(** [s->f = v] on the session at address [a]. *)
Definition upd (h : gmap nat SSL) (a : nat) (f : SSL -> SSL) : gmap nat SSL :=
  match h !! a with
  | Some x => <[a := f x]> h
  | None => h
  end.

(** The transcript buffer to feed after the swap, and [other_octets]. *)
Definition new_transcript (tmp_outer : SSL) : option bytes :=
  let curr_buf := s3_handshake_buffer tmp_outer in
  let curr_buflen := len curr_buf in
  let innerch := default [] (ext_innerch tmp_outer) in
  if (curr_buflen >? 0) && (nth 0 curr_buf 0 =? SSL3_MT_CLIENT_HELLO) then
    let outer_chlen :=
      1 + nth 1 curr_buf 0 * 256 * 256 + nth 2 curr_buf 0 * 256 +
      nth 3 curr_buf 0 in
    if outer_chlen >? curr_buflen then None
    else
      let other_octets := curr_buflen - outer_chlen in
      if other_octets >? 0
      then Some (innerch ++ drop (Z.to_nat outer_chlen) curr_buf)
      else Some innerch
  else Some innerch.

(** The answer is the return value and the store after the call; [None]
    is undefined behaviour: a session that is not in the store, or a NULL
    [s], which [ech_ptranscript] reads before [s] is checked.  The three
    exits through [SSLfatal] leave the session at [s] as that call leaves
    it. *)
Definition ech_swaperoo (h : gmap nat SSL) (s : option nat)
    : option (Z * gmap nat SSL) :=
  match s with
  | None => None
  | Some s =>
  tmp_outer ← h !! s;
  match ext_inner_s tmp_outer with
  | None => Some (0, h)
  | Some inp =>
  tmp_inner ← h !! inp;
  match ext_outer_s tmp_inner with
  | None => Some (0, h)
  | Some outp =>
  if negb (bool_decide (outp = s)) then Some (0, h)
  else
    (* general field swap *)
    let h := <[s := tmp_inner]> h in
    let h := <[inp := tmp_outer]> h in
    let h := upd h s (set_ext_outer_s (Some inp)) in
    let h := upd h s (set_ext_inner_s None) in
    o ← (h !! s) ≫= ext_outer_s;
    let h := upd h o (set_ext_inner_s (Some s)) in
    o ← (h !! s) ≫= ext_outer_s;
    let h := upd h o (set_ext_outer_s None) in
    (* readers and writers, and the fields needed the same in both *)
    let h := upd h s (copy_transport tmp_outer) in
    let h := upd h s (set_rlayer_s (Some s)) in
    (* the transcript *)
    match new_transcript tmp_outer with
    | None => Some (0, upd h s SSLfatal)
    | Some new_buf =>
        cur ← h !! s;
        let r := ssl3_init_finished_mac cur in
        let h := <[s := r.2]> h in
        if r.1 =? 0 then Some (0, upd h s SSLfatal)
        else
          let r := ssl3_finish_mac r.2 new_buf in
          let h := <[s := r.2]> h in
          if r.1 =? 0 then Some (0, upd h s SSLfatal)
          else
            (* declare victory, in both contexts *)
            o ← (h !! s) ≫= ext_outer_s;
            let h := upd h o (set_ext_ech_success 1) in
            let h := upd h s (set_ext_ech_success 1) in
            (* the servername callback that was postponed *)
            cur ← h !! s;
            let r := final_server_name cur in
            let h := <[s := r.2]> h in
            if negb (r.1 =? 1) then
              o ← (h !! s) ≫= ext_outer_s;
              let h := upd h o (set_ext_ech_success 0) in
              let h := upd h s (set_ext_ech_success 0) in
              Some (0, h)
            else Some (1, h)
    end
  end end end.

End Code.

End Ech.

(** ** The extension block on the wire *)

(** Words to state what [ech_encode_inner] writes: an extension as
    "type(u16) || length(u16) || value", the synthetic extension, and the
    extensions of a list that are present and not compressed. *)
Module Wire.
Section Wire.
Context {E : Ech.ech_h}.

Definition ext_wire (ty : Z) (val : bytes) : bytes :=
  Ech.be 2 ty ++ Ech.be 2 (len val) ++ val.

Definition raw_wire (r : Ech.RAW_EXTENSION) : bytes :=
  ext_wire (Ech.type r) (default [] (Ech.data r)).

Definition outer_extensions_wire (outer_only : list Z) (n_outer_only : Z)
    : bytes :=
  Ech.be 2 Ech.TLSEXT_TYPE_outer_extensions ++
  Ech.be 2 (2 * n_outer_only) ++
  concat (map (Ech.be 2) (take (Z.to_nat n_outer_only) outer_only)).

Definition sent (outer_only : list Z) (n_outer_only : Z)
    (r : Ech.RAW_EXTENSION) : bool :=
  negb (Ech.present r =? 0) &&
  negb (Ech.tobecompressed (Ech.type r) outer_only n_outer_only).

Definition compressed (outer_only : list Z) (n_outer_only : Z)
    (r : Ech.RAW_EXTENSION) : bool :=
  negb (Ech.present r =? 0) &&
  Ech.tobecompressed (Ech.type r) outer_only n_outer_only.

Definition sent_wire (outer_only : list Z) (n_outer_only : Z)
    (raws : list Ech.RAW_EXTENSION) : bytes :=
  concat (map raw_wire (List.filter (sent outer_only n_outer_only) raws)).

(** What fits the two octet fields. *)
Definition u16 (x : Z) : Prop := 0 <= x < 65536.
Definition raw_fits (r : Ech.RAW_EXTENSION) : Prop :=
  u16 (Ech.type r) /\ u16 (len (default [] (Ech.data r))).

(** [written] octets more in the innermost open sub-packet. *)
Definition more (pkt : Ech.WPACKET) (b : bytes) : Ech.WPACKET :=
  match pkt with
  | sub :: subs =>
      {| Ech.lenbytes := Ech.lenbytes sub;
         Ech.written := Ech.written sub ++ b |} :: subs
  | [] => []
  end.

End Wire.
End Wire.

(** ** The store of sessions *)

(** Words to state what [ech_swaperoo] does to the two sessions. *)

(** The ECH flags and the links of a session, which the calls into libssl
    are taken to leave alone. *)
Definition same_ech (x y : Ech.SSL) : Prop :=
  Ech.ext_inner_s y = Ech.ext_inner_s x /\
  Ech.ext_outer_s y = Ech.ext_outer_s x /\
  Ech.ext_ech_attempted y = Ech.ext_ech_attempted x /\
  Ech.ext_ech_done y = Ech.ext_ech_done x /\
  Ech.ext_ech_success y = Ech.ext_ech_success x.

(** A store seen from two distinct addresses. *)
Definition two (h : gmap nat Ech.SSL) (a b : nat) (x y : Ech.SSL)
    : gmap nat Ech.SSL :=
  <[a := x]> (<[b := y]> h).

(** ** crypto/hpke.c: key generation *)

Module Kg.

(** The calls of [hpke_kg] into libcrypto: the key generation context
    and its set-up, the key generation proper, the PEM form of a private
    key as a memory BIO holds it, and BIO_read, which answers its return
    value and the octets copied. *)
Class libcrypto_kg {L : Hpke.libcrypto} := {
  EVP_PKEY_CTX : Type;
  EVP_PKEY_EC : Z;
  EVP_PKEY_CTX_new_id : Z -> option EVP_PKEY_CTX;
  EVP_PKEY_paramgen_init : EVP_PKEY_CTX -> option EVP_PKEY_CTX;
  EVP_PKEY_CTX_set_ec_paramgen_curve_nid :
    EVP_PKEY_CTX -> Z -> option EVP_PKEY_CTX;
  EVP_PKEY_keygen_init : EVP_PKEY_CTX -> option EVP_PKEY_CTX;
  EVP_PKEY_keygen : EVP_PKEY_CTX -> Hpke.Entropy -> option Hpke.EVP_PKEY;
  PEM_write_bio_PrivateKey : Hpke.EVP_PKEY -> option bytes;
  BIO_read : bytes -> Z -> Z * bytes
}.

Section Code.
Context {H : Hpke.hpke_h} {L : Hpke.libcrypto} {K : libcrypto_kg}.

(** [publen] and [privlen] are the sizes of the caller's buffers behind
    the two length pointers ([None] for a NULL pointer, which the code
    does not look for); [pub] and [priv] say whether the buffers are
    there.  The answer is the public value and the private key as copied
    out. *)
Definition hpke_kg (ent : Hpke.Entropy) (mode : Z) (suite : Hpke.hpke_suite_t)
    (publen : option Z) (pub : bool) (privlen : option Z) (priv : bool)
    : result (bytes * bytes) :=
  check (Hpke.hpke_suite_check suite =? 1) else 2062 ;;
  check (pub && priv) else 2063 ;;
  (* step 1 *)
  do pctx <-
    (if Hpke.hpke_kem_id_nist_curve (Hpke.kem_id suite) =? 1 then
       some pctx <- EVP_PKEY_CTX_new_id EVP_PKEY_EC else 2075 ;;
       some pctx <- EVP_PKEY_paramgen_init pctx else 2078 ;;
       some pctx <- EVP_PKEY_CTX_set_ec_paramgen_curve_nid pctx
                      (Hpke.groupid (Hpke.kem_row (Hpke.kem_id suite)))
         else 2081 ;;
       Ok pctx
     else
       some pctx <- EVP_PKEY_CTX_new_id
                      (Hpke.groupid (Hpke.kem_row (Hpke.kem_id suite)))
         else 2086 ;;
       Ok pctx) ;;
  some pctx <- EVP_PKEY_keygen_init pctx else 2090 ;;
  some skR <- EVP_PKEY_keygen pctx ent else 2093 ;;
  let lpub := Hpke.EVP_PKEY_get1_tls_encodedpoint skR in
  check negb (len lpub =? 0) else 2099 ;;
  match publen with
  | None => Undef
  | Some pubcap =>
  check negb (len lpub >? pubcap) else 2102 ;;
  some pem <- PEM_write_bio_PrivateKey skR else 2113 ;;
  let r := BIO_read pem Hpke.HPKE_MAXSIZE in
  (* size_t lprivlen = BIO_read(...) *)
  let lprivlen := wrap64 r.1 in
  check negb (lprivlen <=? 0) else 2118 ;;
  match privlen with
  | None => Undef
  | Some privcap =>
  check negb (lprivlen >? privcap) else 2121 ;;
  (* memcpy(priv,lpriv,lprivlen) from the HPKE_MAXSIZE octets of lpriv *)
  if (lprivlen >? len r.2) || (lprivlen >? Hpke.HPKE_MAXSIZE) then Undef
  else Ok (lpub, take (Z.to_nat lprivlen) r.2)
  end end.

(** What the round trip through a generated key asks of libcrypto: the
    PEM form of a private key is not empty, fits the HPKE_MAXSIZE octets
    that [hpke_kg] reads, is read in one go, is not as long as a raw
    private key of the suite, and reads back as the key. *)
Definition pem_reads_back (suite : Hpke.hpke_suite_t) : Prop :=
  forall sk pem,
    PEM_write_bio_PrivateKey sk = Some pem ->
    0 < len pem <= Hpke.HPKE_MAXSIZE /\
    len pem <> Hpke.Npriv (Hpke.kem_row (Hpke.kem_id suite)) /\
    BIO_read pem Hpke.HPKE_MAXSIZE = (len pem, pem) /\
    Hpke.PEM_read_bio_PrivateKey pem = Some sk.

(** The Diffie-Hellman values agree for the keys that the key generation
    of [hpke_kg] gives: the recipient's private key with the sender's
    ephemeral public value, and the ephemeral private key with the
    recipient's public value. *)
Definition dh_agrees (suite : Hpke.hpke_suite_t) (ent : Hpke.Entropy) : Prop :=
  forall pctx ent0 skR pkR pkE,
    EVP_PKEY_keygen pctx ent0 = Some skR ->
    Hpke.load_public suite (Hpke.EVP_PKEY_get1_tls_encodedpoint skR) =
      Some pkR ->
    Hpke.EVP_PKEY_keygen pkR ent = Some pkE ->
    exists pkE',
      Hpke.load_public suite (Hpke.EVP_PKEY_get1_tls_encodedpoint pkE) =
        Some pkE' /\
      Hpke.EVP_PKEY_derive skR pkE' = Hpke.EVP_PKEY_derive pkE pkR.

End Code.
End Kg.

(** ** Words for the round trip in the four modes *)

Section Sender.
Context {L : Hpke.libcrypto}.

(** The sender's key of the authenticated modes: what [hpke_enc] loads
    from [priv], and nothing in the other modes. *)
Definition sender_key (mode : Z) (suite : Hpke.hpke_suite_t) (privlen : Z)
    (priv : option bytes) (skI : option Hpke.EVP_PKEY) : Prop :=
  if Hpke.is_auth_mode mode
  then exists k, skI = Some k /\ Hpke.load_private 1496 suite privlen priv = Ok k
  else skI = None.

(** The public value that goes with it, which [hpke_dec] is given. *)
Definition sender_pub (skI : option Hpke.EVP_PKEY) : option bytes :=
  match skI with
  | Some k => Some (Hpke.EVP_PKEY_get1_tls_encodedpoint k)
  | None => None
  end.

(** The recipient's key as [hpke_dec] takes it: an EVP_PKEY, or else the
    octets of a private key. *)
Definition recipient_key (suite : Hpke.hpke_suite_t) (privlen : Z)
    (priv : option bytes) (evppriv : option Hpke.EVP_PKEY)
    (skR : Hpke.EVP_PKEY) : Prop :=
  match evppriv with
  | Some k => k = skR
  | None => priv <> None /\ Hpke.load_private 1835 suite privlen priv = Ok skR
  end.

End Sender.

(** ** Words for the labels of the key derivation *)

(** The input keying material that the draft calls LabeledExtract, for
    the three values of [mode5869], and the info of LabeledExpand. *)
Definition suite_id (mode5869 : Z) (suite : Hpke.hpke_suite_t) : bytes :=
  if mode5869 =? Hpke.HPKE_5869_MODE_KEM
  then Hpke.HPKE_SEC41LABEL ++ I2OSP2 (Hpke.kem_id suite)
  else Hpke.HPKE_SEC51LABEL ++ I2OSP2 (Hpke.kem_id suite) ++
       I2OSP2 (Hpke.kdf_id suite) ++ I2OSP2 (Hpke.aead_id suite).

Definition labeled_ikm (mode5869 : Z) (suite : Hpke.hpke_suite_t)
    (label ikm : bytes) : bytes :=
  if mode5869 =? Hpke.HPKE_5869_MODE_PURE then ikm
  else Hpke.HPKE_VERLABEL ++ suite_id mode5869 suite ++ label ++ ikm.

Definition labeled_info (mode5869 : Z) (suite : Hpke.hpke_suite_t)
    (label info : bytes) (L_ : Z) : bytes :=
  if mode5869 =? Hpke.HPKE_5869_MODE_PURE then label ++ info
  else I2OSP2 L_ ++ Hpke.HPKE_VERLABEL ++ suite_id mode5869 suite ++
       label ++ info.

(** ** Words for ascii-hex *)

(** The ascii-hex form of an octet string under a choice [hex] of the
    sixteen digits. *)
Definition ah_encode (hex : Z -> Z) (b : bytes) : bytes :=
  flat_map (fun x => [hex (x / 16); hex (x mod 16)]) b.

Definition is_octet (x : Z) : Prop := 0 <= x < 256.

(** ** Words for the ingestion of ECHConfigs *)

Module Ingest.
Section Ingest.
Context {E : Ech.ech_h} {B : Ech.evp_encode}.

(** Fragments joined by semi-colons, as a multi-valued RR is handed
    over. *)
Fixpoint join (fs : list bytes) : bytes :=
  match fs with
  | [] => []
  | [f] => f
  | f :: fs' => f ++ [59] ++ join fs'
  end.

(** The number of '=' (at most two are counted) that end a fragment. *)
Definition pad (f : bytes) : Z :=
  Z.of_nat (default O (Ech.padding_rev (rev f) O)).

(** A fragment that [ech_base64_decode] decodes: not empty, free of NUL
    and of semi-colons, ending in at most two '=', and decoded by
    EVP_DecodeBlock into as many octets as it answers, the padding among
    them.  It does not start with '=', so that the search for the padding
    stays inside it. *)
Definition frag_ok (f : bytes) : Prop :=
  f <> [] /\ Forall (fun c => c <> 0 /\ c <> 59) f /\
  Ech.padding_rev (rev f) O <> None /\
  pad f <= (Ech.EVP_DecodeBlock f).1 /\
  len (Ech.EVP_DecodeBlock f).2 = (Ech.EVP_DecodeBlock f).1 /\
  hd 0 f <> 61.

(** What is kept of its decoding. *)
Definition frag_out (f : bytes) : bytes :=
  take (Z.to_nat ((Ech.EVP_DecodeBlock f).1 - pad f)) (Ech.EVP_DecodeBlock f).2.

(** *** The wire form of an ECHConfigs list *)

(** A vector with its two octets of length in front. *)
Definition vec16 (b : bytes) : bytes := I2OSP2 (len b) ++ b.

Definition ser_ext (e : Z * Z * option bytes) : bytes :=
  I2OSP2 e.1.1 ++ I2OSP2 e.1.2 ++ default [] e.2.

Definition ser_contents (ec : Ech.ECHConfig) : bytes :=
  vec16 (Ech.public_name ec) ++ vec16 (Ech.pub ec) ++
  I2OSP2 (Ech.kem_id ec) ++ vec16 (concat (Ech.ciphersuites ec)) ++
  I2OSP2 (Ech.maximum_name_length ec) ++
  vec16 (concat (map ser_ext (Ech.exts ec))).

Definition ser_record (ec : Ech.ECHConfig) : bytes :=
  I2OSP2 (Ech.version ec) ++ vec16 (ser_contents ec).

Definition ser_configs (l : list Ech.ECHConfig) : bytes :=
  vec16 (concat (map ser_record l)).

Definition u16 (n : Z) : Prop := 0 <= n < 65536.

(** An extension as the parser stores it: the value of a zero-length
    extension is NULL. *)
Definition wf_ext (e : Z * Z * option bytes) : Prop :=
  u16 e.1.1 /\ u16 e.1.2 /\
  match e.2 with
  | Some v => e.1.2 <> 0 /\ len v = e.1.2
  | None => e.1.2 = 0
  end.

(** A draft-09 record as [ECHConfigs_from_binary] stores it. *)
Definition wf_config (ec : Ech.ECHConfig) : Prop :=
  Ech.version ec = Ech.ECH_DRAFT_09_VERSION /\
  2 <= len (Ech.public_name ec) <= 255 /\
  0 < len (Ech.pub ec) < 65536 /\
  u16 (Ech.kem_id ec) /\
  Ech.ciphersuites ec <> [] /\
  Forall (fun c => length c = 4%nat) (Ech.ciphersuites ec) /\
  len (concat (Ech.ciphersuites ec)) < 65536 /\
  u16 (Ech.maximum_name_length ec) /\
  Forall wf_ext (Ech.exts ec) /\
  len (concat (map ser_ext (Ech.exts ec))) < 65536 /\
  Ech.config_id ec = [] /\
  len (ser_contents ec) < 65536.

(** What every record that [ECHConfigs_from_binary] stores satisfies. *)
Definition stored_ok (ec : Ech.ECHConfig) : Prop :=
  Ech.version ec = Ech.ECH_DRAFT_09_VERSION /\
  2 <= len (Ech.public_name ec) <= 255 /\
  Ech.pub ec <> [] /\
  Ech.ciphersuites ec <> [] /\
  Forall (fun c => length c = 4%nat) (Ech.ciphersuites ec) /\
  Ech.config_id ec = [].

(** *** Lists with records of other versions *)

(** A record of version 0xff09, or the version and the content of a
    record of another version. *)
Definition item : Type := Ech.ECHConfig + Z * bytes.

Definition ser_item (i : item) : bytes :=
  match i with
  | inl ec => ser_record ec
  | inr (v, c) => I2OSP2 v ++ vec16 c
  end.

Definition ser_items (l : list item) : bytes :=
  vec16 (concat (map ser_item l)).

Definition ok_item (i : item) : Prop :=
  match i with
  | inl ec => wf_config ec
  | inr (v, c) =>
      u16 v /\ v <> Ech.ECH_DRAFT_09_VERSION /\ 2 <= len c < 65536
  end.

(** The records of version 0xff09 of a list. *)
Fixpoint knowns (l : list item) : list Ech.ECHConfig :=
  match l with
  | [] => []
  | inl ec :: l' => ec :: knowns l'
  | inr _ :: l' => knowns l'
  end.

(** The length of the content of the last record, when that is of
    another version. *)
Definition skipped_last (l : list item) : Z :=
  match last l with
  | Some (inr (_, c)) => len c
  | _ => 0
  end.

(** The variable [remaining] after the records of a list were read,
    [tl] being what follows them: it is brought up to date after a record
    of version 0xff09 and not after a record that is skipped. *)
Definition remaining_after (l : list item) (rem : Z) (tl : bytes) : Z :=
  match last l with
  | Some (inl _) => len tl
  | Some (inr (_, c)) => len c + len tl
  | None => rem
  end.

End Ingest.
End Ingest.

(** ** ssl/ech.c: the inner ClientHello from its encoded form *)

(** A step of a computation that may run out of fuel ([None]). *)
Definition fbind {A B} (r : option (result A)) (k : A -> option (result B))
    : option (result B) :=
  match r with
  | None => None
  | Some (Ok a) => k a
  | Some (Err n) => Some (Err n)
  | Some Undef => Some Undef
  end.

Notation "'run' x <- r ;; k" := (fbind r (fun x => k))
  (at level 10, x pattern, r at level 99, k at level 200).

Module Dec.

(** ssl_local.h is not among the sources.  What [ech_decode_inner] reads
    of a session besides the fields of [Ech.SSL] is a parameter: the
    session id of the ClientHello, [tmp_session_id] with its
    [tmp_session_id_len] octets, and whether [extensions.curr] of a
    parsed ClientHello is NULL. *)
Class ssl_local_h := {
  tmp_session_id : Ech.SSL -> bytes;
  extensions_curr_null : Ech.CLIENTHELLO_MSG -> bool
}.

Definition set_ext_innerch (v : option bytes) (s : Ech.SSL) : Ech.SSL :=
  {| Ech.wbio := Ech.wbio s; Ech.rbio := Ech.rbio s;
     Ech.rlayer := Ech.rlayer s; Ech.rlayer_s := Ech.rlayer_s s;
     Ech.init_buf := Ech.init_buf s; Ech.init_msg := Ech.init_msg s;
     Ech.init_off := Ech.init_off s; Ech.init_num := Ech.init_num s;
     Ech.statem := Ech.statem s; Ech.ext_debug_cb := Ech.ext_debug_cb s;
     Ech.ext_debug_arg := Ech.ext_debug_arg s;
     Ech.s3_handshake_buffer := Ech.s3_handshake_buffer s;
     Ech.s3_client_random := Ech.s3_client_random s;
     Ech.client_version := Ech.client_version s;
     Ech.clienthello := Ech.clienthello s;
     Ech.ech := Ech.ech s; Ech.nechs := Ech.nechs s;
     Ech.ext_ch_depth := Ech.ext_ch_depth s;
     Ech.ext_inner_s := Ech.ext_inner_s s;
     Ech.ext_outer_s := Ech.ext_outer_s s;
     Ech.ext_etype := Ech.ext_etype s;
     Ech.ext_n_outer_only := Ech.ext_n_outer_only s;
     Ech.ext_outer_only := Ech.ext_outer_only s;
     Ech.ext_encoded_innerch := Ech.ext_encoded_innerch s;
     Ech.ext_innerch := v;
     Ech.ext_ech_attempted := Ech.ext_ech_attempted s;
     Ech.ext_ech_done := Ech.ext_ech_done s;
     Ech.ext_ech_success := Ech.ext_ech_success s;
     Ech.other := Ech.other s |}.

Section Code.
Context {E : Ech.ech_h} {T : ssl_local_h}.

(** [buf[i]]: an access outside the buffer is undefined. *)
Definition at1 (buf : bytes) (i : Z) : result Z :=
  if (0 <=? i) && (i <? len buf) then Ok (nth (Z.to_nat i) buf 0) else Undef.

(** [buf[i]*256+buf[i+1]] *)
Definition at2 (buf : bytes) (i : Z) : result Z :=
  do a <- at1 buf i ;; do b <- at1 buf (i + 1) ;; Ok (a * 256 + b).

(** [buf[i]=v] *)
Definition set1 (buf : bytes) (i v : Z) : result bytes :=
  if (0 <=? i) && (i <? len buf) then Ok (<[Z.to_nat i := v]> buf) else Undef.

(** [while (!found && remaining>0)] over the extensions of the inner
    ClientHello.  The answer is [genoffset] and [elen] when the loop
    ends with [found] set, and nothing when it ends without.  [remaining]
    is an [int] from which a [size_t] is taken; a loop that runs out of
    fuel answers [None]. *)
Fixpoint find_outers (fuel : nat) (buf : bytes) (remaining genoffset : Z)
    : option (result (option (Z * Z))) :=
  if remaining >? 0 then
    match fuel with
    | O => None
    | S fuel =>
        match at2 buf genoffset, at2 buf (genoffset + 2) with
        | Ok etype, Ok elen =>
            if etype =? Ech.TLSEXT_TYPE_outer_extensions
            then Some (Ok (Some (genoffset, elen)))
            else find_outers fuel buf
                   (to_int (wrap64 (remaining - (elen + 4))))
                   (genoffset + (elen + 4))
        | _, _ => Some Undef
        end
    end
  else Some (Ok None).

(** [outers[i]=oval_buf[2*i]*256+oval_buf[2*i+1]] for [i] below
    [n_outers]. *)
Fixpoint read_outers (buf : bytes) (oval : Z) (n : nat) : result (list Z) :=
  match n with
  | O => Ok []
  | S n' =>
      do l <- read_outers buf oval n' ;;
      do o <- at2 buf (oval + 2 * Z.of_nat n') ;;
      Ok (l ++ [o])
  end.

(** What the walk over the extensions of the outer ClientHello records:
    [outer_sizes] and [outer_offsets], one entry per outer, not set at
    the start; [tot_outer_lens] and [found_outers]. *)
Record marks := {
  sizes : list (option (Z * Z));
  tot_outer_lens : Z;
  found_outers : Z
}.

(** [for (iind=0;iind<n_outers;iind++)] for one extension of the outer
    ClientHello, of type [etype] and length [elen] at offset [off]. *)
Fixpoint mark (outers : list Z) (iind : nat) (etype elen off : Z) (m : marks)
    : marks :=
  match outers with
  | [] => m
  | o :: outers' =>
      mark outers' (S iind) etype elen off
        (if etype =? o then
           {| sizes := <[iind := Some (elen, off)]> (sizes m);
              tot_outer_lens := wrap64 (tot_outer_lens m + (elen + 4));
              found_outers := found_outers m + 1 |}
         else m)
  end.

(** [while (remaining>0)] over the extensions of the outer ClientHello,
    [off] being [ep-exts_start]. *)
Fixpoint walk_outer (fuel : nat) (exts : bytes) (outers : list Z)
    (remaining off : Z) (m : marks) : option (result marks) :=
  if remaining >? 0 then
    match fuel with
    | O => None
    | S fuel =>
        match at2 exts off, at2 exts (off + 2) with
        | Ok etype, Ok elen =>
            walk_outer fuel exts outers
              (to_int (wrap64 (remaining - (elen + 4))))
              (off + (elen + 4))
              (mark outers 0 etype elen off m)
        | _, _ => Some Undef
        end
    end
  else Some (Ok m).

(** [for (iind=0;iind!=n_outers;iind++)]: what is written for the
    outers, each with its type, its size and its value as the outer
    ClientHello has it.  A size that was never set, and a value that
    ends behind the extensions, are undefined. *)
Fixpoint splice (exts : bytes) (outers : list Z)
    (sizes : list (option (Z * Z))) : result bytes :=
  match outers, sizes with
  | [], _ => Ok []
  | o :: outers', Some (osize, off) :: sizes' =>
      if off + 4 + osize >? len exts then Undef
      else
        do rest <- splice exts outers' sizes' ;;
        Ok (I2OSP2 o ++ I2OSP2 osize ++
            take (Z.to_nat osize) (drop (Z.to_nat (off + 4)) exts) ++ rest)
  | _ :: _, _ => Undef
  end.

(** [ech_decode_inner] from the test of [found_outers] on: the lengths,
    the three [memcpy] with the loop between them, and the octets of the
    two lengths that are written last.  [genoffset] is where
    outer_extensions starts in [initial_decomp]. *)
Definition package (initial_decomp exts : bytes)
    (initial_decomp_len startofexts genoffset n_outers : Z)
    (outers : list Z) (m : marks) : option (result bytes) :=
  if negb (found_outers m =? n_outers) then Some (Err 0)
  else
    let rest_len := initial_decomp_len - genoffset - (n_outers * 2 + 4) in
    let final_decomp_len :=
      wrap64 (genoffset + tot_outer_lens m + rest_len) in
    if negb (OPENSSL_malloc_ok final_decomp_len) then Some (Err 0)
    else
      run spliced <- Some (splice exts outers (sizes m)) ;;
      let final_decomp :=
        take (Z.to_nat genoffset) initial_decomp ++ spliced ++
        drop (Z.to_nat (genoffset + 4 + 2 * n_outers)) initial_decomp in
      (* otherwise octets are written behind final_decomp, or octets of
         it are never written *)
      if negb (len final_decomp =? final_decomp_len) then Some Undef
      else
        let l := wrap64 (final_decomp_len - 5) in
        let outer_exts_len := 4 + 2 * n_outers in
        Some
          (do f <- set1 final_decomp 1 ((l / (256 * 256)) mod 255) ;;
           do f <- set1 f 2 ((l / 256) mod 255) ;;
           do f <- set1 f 3 (l mod 255) ;;
           do initial_oolen <- at2 f startofexts ;;
           let oolen :=
             wrap64 (initial_oolen + tot_outer_lens m - outer_exts_len) in
           do f <- set1 f startofexts (oolen / 256 mod 255) ;;
           do f <- set1 f (startofexts + 1) (oolen mod 255) ;;
           Ok f).

(** The octets of [s->ext.innerch] on success, from the encoded inner
    ClientHello, the session id of the outer one and its extensions.
    [Err 0] is the answer 0.  Offsets are [size_t]; they stay below the
    length of a buffer that was read at them, plus 2^16+4. *)
Definition decode_inner (fuel : nat) (enc sid exts : bytes)
    : option (result bytes) :=
  let initial_decomp_len := wrap64 (len enc + len sid + 1 - 1) in
  if negb (OPENSSL_malloc_ok initial_decomp_len) then Some (Err 0)
  else
    let offset2sessid := 6 + 32 in
    (* the three memcpy and the store between them stay inside both
       buffers when there are offset2sessid+1 octets of input *)
    if len enc <? offset2sessid + 1 then Some Undef
    else
      let initial_decomp :=
        take (Z.to_nat offset2sessid) enc ++ [len sid mod 256] ++ sid ++
        drop (Z.to_nat (offset2sessid + 1)) enc in
      let genoffset := offset2sessid + 1 in
      run suiteslen <- Some (at2 enc genoffset) ;;
      let genoffset := genoffset + (suiteslen + 2) in
      let startofexts := genoffset + len sid + 2 in
      run remaining <- Some (at2 initial_decomp startofexts) ;;
      let genoffset := startofexts + 2 in
      run found <- find_outers fuel initial_decomp remaining genoffset ;;
      match found with
      | None => Some (Ok initial_decomp)
      | Some (genoffset, elen) =>
          let n_outers := to_int (elen / 2) in
          if (n_outers <=? 0) || (n_outers >? Ech.ECH_OUTERS_MAX)
          then Some (Err 0)
          else
            run outers <- Some (read_outers initial_decomp (genoffset + 4)
                                  (Z.to_nat n_outers)) ;;
            run m <- walk_outer fuel exts outers (to_int (len exts)) 0
                       {| sizes := repeat None (Z.to_nat n_outers);
                          tot_outer_lens := 0; found_outers := 0 |} ;;
            package initial_decomp exts initial_decomp_len startofexts
              genoffset n_outers outers m
      end.

(** The session at [s] is the inner one, linked to the outer one that
    holds the decrypted payload.  The answer is the store after a call
    that answered 1; [Err 0] is the answer 0, after which [s] may hold a
    pointer to the freed [initial_decomp].  Every turn of a loop moves on
    by four octets at least, so one unit of fuel per octet is enough. *)
Definition ech_decode_inner (h : gmap nat Ech.SSL) (s : nat)
    : option (result (gmap nat Ech.SSL)) :=
  match h !! s with
  | None => Some Undef
  | Some ss =>
      if notnull (Ech.ext_inner_s ss) then Some (Err 0)
      else
        match Ech.ext_outer_s ss with
        | None => Some (Err 0)
        | Some oa =>
            match h !! oa with
            | None => Some Undef
            | Some outer =>
                match Ech.ext_encoded_innerch outer, Ech.clienthello outer with
                | None, _ => Some (Err 0)
                | Some _, None => Some (Err 0)
                | Some enc, Some ch =>
                    if extensions_curr_null ch then Some (Err 0)
                    else
                      let sid := tmp_session_id outer in
                      let exts := Ech.extensions ch in
                      run innerch <- decode_inner
                                       (S (length enc + length sid +
                                           length exts))
                                       enc sid exts ;;
                      Some (Ok (<[s := set_ext_innerch (Some innerch) ss]> h))
                end
            end
        end
  end.

End Code.
End Dec.

(** ** Words for ClientHello messages *)

Module Hello.
Section Hello.
Context {E : Ech.ech_h}.

(** A vector with its two octets of length in front. *)
Definition vec16 (b : bytes) : bytes := I2OSP2 (len b) ++ b.

(** A ClientHello message from its parts: the 38 octets of message
    header, version and random; the session id; the cipher suites; the
    two octets of the compression methods; the extensions. *)
Definition client_hello (hdr sid suites comp exts : bytes) : bytes :=
  hdr ++ [len sid mod 256] ++ sid ++ vec16 suites ++ comp ++ vec16 exts.

(** The extensions of a list, one after the other. *)
Definition exts_wire (el : list (Z * bytes)) : bytes :=
  concat (map (fun e => Wire.ext_wire e.1 e.2) el).

(** An extension that fits its fields and is not outer_extensions. *)
Definition plain_ext (e : Z * bytes) : Prop :=
  Wire.u16 e.1 /\ Wire.u16 (len e.2) /\
  e.1 <> Ech.TLSEXT_TYPE_outer_extensions.

(** The header that [ech_encode_inner] writes for a session and a
    message of [n] octets. *)
Definition inner_hdr (s : Ech.SSL) (n : Z) : bytes :=
  [Ech.SSL3_MT_CLIENT_HELLO] ++ Ech.be 3 n ++
  Ech.be 2 (Ech.client_version s) ++ Ech.s3_client_random s.

(** The extensions that a session sends when none is compressed. *)
Definition sent_exts (s : Ech.SSL) : list (Z * bytes) :=
  map (fun r => (Ech.type r, default [] (Ech.data r)))
    (List.filter (Wire.sent (Ech.ext_outer_only s) (Ech.ext_n_outer_only s))
       (match Ech.clienthello s with
        | Some ch => Ech.pre_proc_exts ch
        | None => []
        end)).

(** The value that a list of extensions has for a type (the first one,
    and nothing when there is none). *)
Fixpoint value_of (ty : Z) (ol : list (Z * bytes)) : bytes :=
  match ol with
  | [] => []
  | e :: ol' => if e.1 =? ty then e.2 else value_of ty ol'
  end.

(** The extensions of the given types as a list has them. *)
Definition restored (ol : list (Z * bytes)) (types : list Z)
    : list (Z * bytes) :=
  map (fun ty => (ty, value_of ty ol)) types.

(** Where the walk of [ech_decode_inner] over a list of extensions, the
    first of them at offset [off], finds the type [ty]: the length and
    the offset of the last one of this type, or else [cur]. *)
Fixpoint locate (ty : Z) (ol : list (Z * bytes)) (off : Z)
    (cur : option (Z * Z)) : option (Z * Z) :=
  match ol with
  | [] => cur
  | e :: ol' =>
      locate ty ol' (off + (len e.2 + 4))
        (if e.1 =? ty then Some (len e.2, off) else cur)
  end.

(** The extensions of a list whose type is among [types]. *)
Definition matched (types : list Z) (ol : list (Z * bytes))
    : list (Z * bytes) :=
  List.filter (fun e => Ech.mem e.1 types) ol.

(** An extension that fits its fields. *)
Definition fits (e : Z * bytes) : Prop :=
  Wire.u16 e.1 /\ Wire.u16 (len e.2).

(** A ClientHello message as [ech_decode_inner] leaves it after it has
    put extensions of the outer ClientHello in: the parts as in
    [client_hello], but the three octets of the message length hold the
    length of the whole message less 5 and the two octets in front of
    the extensions their length, each octet reduced modulo 255. *)
Definition decoded_hello (hdr sid suites comp exts : bytes) : bytes :=
  let n := len (client_hello hdr sid suites comp exts) - 5 in
  <[3%nat := n mod 255]>
    (<[2%nat := (n / 256) mod 255]>
       (<[1%nat := (n / (256 * 256)) mod 255]> hdr)) ++
  [len sid mod 256] ++ sid ++ vec16 suites ++ comp ++
  [(len exts / 256) mod 255; len exts mod 255] ++ exts.

End Hello.
End Hello.

(** What the loop of [ech_encode_inner] writes for the extensions of a
    session: those that are sent, with the synthetic extension in the
    place of the first one that is compressed, if there is one. *)
Definition inner_exts_block {E : Ech.ech_h} (s : Ech.SSL)
    (raws : list Ech.RAW_EXTENSION) (X : bytes) : Prop :=
  let oo := Ech.ext_outer_only s in
  let n := Ech.ext_n_outer_only s in
  (Forall (fun r => Wire.compressed oo n r = false) raws /\
   X = Wire.sent_wire oo n raws) \/
  (exists pre r post,
     raws = pre ++ r :: post /\
     Forall (fun r => Wire.compressed oo n r = false) pre /\
     Wire.compressed oo n r = true /\
     Wire.u16 Ech.TLSEXT_TYPE_outer_extensions /\ Wire.u16 (2 * n) /\
     Forall Wire.u16 (take (Z.to_nat n) oo) /\
     X = Wire.sent_wire oo n pre ++ Wire.outer_extensions_wire oo n ++
         Wire.sent_wire oo n post).

(** ** ssl/ech.c: ECHConfigs from the RData of an SVCB or HTTPS record *)

Module Svcb.

(** include/openssl/ech.h is not among the sources.  The codes of the
    SvcParamKeys and the size of the buffer for a DNS name, which it
    defines, are parameters. *)
Class ech_public_h := {
  ECH_PCODE_ECH : Z;
  ECH_PCODE_ALPN : Z;
  ECH_PCODE_NO_DEF_ALPN : Z;
  ECH_MAX_DNSNAME : Z
}.

(** Conversion of an [int] to a [short]. *)
Definition to_short (x : Z) : Z :=
  let y := x mod 2 ^ 16 in if y <? 2 ^ 15 then y else y - 2 ^ 16.

(** [echs[i].dns_no_def_alpn=v] *)
Definition set_dns_no_def_alpn (v : Z) (e : Ech.SSL_ECH) : Ech.SSL_ECH :=
  {| Ech.cfg := Ech.cfg e; Ech.inner_name := Ech.inner_name e;
     Ech.outer_name := Ech.outer_name e; Ech.pemfname := Ech.pemfname e;
     Ech.loadtime := Ech.loadtime e; Ech.dns_alpns := Ech.dns_alpns e;
     Ech.dns_no_def_alpn := v |}.

(** What [SSL_svcb_add] keeps while it walks the SvcParams: [cp] as an
    offset into the RData, [remaining], [eklen] and [ekval], [alpn_len]
    and [alpn_val], [no_def_alpn] and [done]. *)
Record walk := {
  cp : Z;
  remaining : Z;
  eklen : Z;
  ekval : option Z;
  alpn_len : Z;
  alpn_val : option Z;
  no_def_alpn : Z;
  done : bool
}.

Section Code.
Context {E : Ech.ech_h} {B : Ech.evp_encode} {H : Hpke.hpke_h}
  {P : ech_public_h}.

(** [while(clen!=0)] of [local_decode_rdata_name]; [tp] is what was
    written to [thename] so far.  [inl tt] is the [return(1)] inside the
    loop, which leaves [*buf], [*remaining] and [*dnsname] as they were;
    a copy from behind the RData or to behind [thename] is undefined. *)
Fixpoint name_loop (fuel : nat) (bin : bytes) (clen cp rem : Z) (tp : bytes)
    : option (result (unit + Z * Z * bytes)) :=
  if clen =? 0 then Some (Ok (inr (cp, rem, tp)))
  else
    match fuel with
    | O => None
    | S fuel =>
        if clen >? rem then Some (Ok (inl tt))
        else if cp + clen >? len bin then Some Undef
        else if len tp + clen + 1 >? ECH_MAX_DNSNAME then Some Undef
        else
          let tp := tp ++ take (Z.to_nat clen) (drop (Z.to_nat cp) bin) ++
                    [46] in
          let cp := cp + clen in
          let rem := wrap64 (rem - (clen + 1)) in
          run clen <- Some (Dec.at1 bin cp) ;;
          name_loop fuel bin clen (cp + 1) rem tp
    end.

(** [local_decode_rdata_name] for the three pointers that its caller
    hands over: [*buf] as an offset into the RData, [*remaining], and
    [*dnsname] with the octets that were written to it.  [Err 0] is the
    answer 0, every other answer goes with the answer 1.  Every turn of
    the loop moves on in the RData, so one unit of fuel per octet is
    enough. *)
Definition local_decode_rdata_name (bin : bytes) (cp rem : Z)
    : option (result (Z * Z * option bytes)) :=
  if negb (OPENSSL_malloc_ok ECH_MAX_DNSNAME) then Some (Err 0)
  else
    run clen <- Some (Dec.at1 bin cp) ;;
    if clen =? 0 then
      if ECH_MAX_DNSNAME <? 2 then Some Undef
      else Some (Ok (cp + 1, rem, Some [46; 0]))
    else
      run r <- name_loop (length bin) bin clen (cp + 1) rem [] ;;
      match r with
      | inl _ => Some (Ok (cp, rem, None))
      | inr (cp', rem', name) => Some (Ok (cp', rem', Some name))
      end.

(** [while (!done && remaining>=4)] over the SvcParams.  [plen] is a
    [short] that is compared with, and taken from, a [size_t].  Reading
    behind the RData, and moving [cp] out of it, are undefined. *)
Fixpoint params (fuel : nat) (bin : bytes) (st : walk)
    : option (result walk) :=
  if negb (done st) && (remaining st >=? 4) then
    match fuel with
    | O => None
    | S fuel =>
        run c <- Some (Dec.at2 bin (cp st)) ;;
        run l <- Some (Dec.at2 bin (cp st + 2)) ;;
        let pcode := to_short c in
        let plen := to_short l in
        let cp1 := cp st + 4 in
        let rem1 := remaining st - 4 in
        let is_ech := pcode =? ECH_PCODE_ECH in
        let is_alpn := pcode =? ECH_PCODE_ALPN in
        let skip := negb (plen =? 0) && (wrap64 plen <=? rem1) in
        if skip && ((cp1 + plen >? len bin) || (cp1 + plen <? 0))
        then Some Undef
        else
          params fuel bin
            {| cp := if skip then cp1 + plen else cp1;
               remaining := if skip then wrap64 (rem1 - plen) else rem1;
               eklen := if is_ech then wrap64 plen else eklen st;
               ekval := if is_ech then Some cp1 else ekval st;
               alpn_len := if is_alpn then wrap64 plen else alpn_len st;
               alpn_val := if is_alpn then Some cp1 else alpn_val st;
               no_def_alpn :=
                 if pcode =? ECH_PCODE_NO_DEF_ALPN then 1
                 else no_def_alpn st;
               done := if is_ech then true else done st |}
    end
  else Some (Ok st).

(** [while (((alpn_val+alpn_len)-ap)>0)]: nothing is kept of what is
    copied to [aid_buf]. *)
Fixpoint alpn_walk (fuel : nat) (bin : bytes) (ap last : Z)
    : option (result unit) :=
  if last - ap >? 0 then
    match fuel with
    | O => None
    | S fuel =>
        run aid_len <- Some (Dec.at1 bin ap) ;;
        let ap := ap + 1 in
        if (aid_len >? 0) && (aid_len <? 255) then
          if ap + aid_len >? len bin then Some Undef
          else alpn_walk fuel bin (ap + aid_len) last
        else alpn_walk fuel bin ap last
    end
  else Some (Ok tt).

(** [SSL_svcb_add] from "Now we have a binary encoded RData" on, for the
    RData [bin] with its [binlen] octets. *)
Definition svcb_rdata (c : Ech.SSL) (bin : bytes) (num_echs : option Z)
    : option (result (Ech.SSL * Z)) :=
  if len bin <=? 2 then Some (Err 0)
  else
    run nm <- local_decode_rdata_name bin 2 (len bin - 2) ;;
    run st <- params (length bin) bin
                {| cp := nm.1.1; remaining := nm.1.2;
                   eklen := 0; ekval := None;
                   alpn_len := 0; alpn_val := None;
                   no_def_alpn := 0; done := false |} ;;
    run _ <-
      match alpn_val st with
      | Some av =>
          if alpn_len st >? 0 then
            if av + alpn_len st >? len bin then Some Undef
            else alpn_walk (length bin) bin av (av + alpn_len st)
          else Some (Ok tt)
      | None => Some (Ok tt)
      end ;;
    if negb (done st) then
      match num_echs with
      | None => Some Undef
      | Some _ => Some (Ok (c, 0))
      end
    else
      match ekval st with
      | None => Some Undef
      | Some ev =>
          (* the memcpy of local_ech_add reads eklen octets *)
          if notnull num_echs && (eklen st >? len bin - ev) &&
             negb (eklen st >=? Ech.ECH_MAX_RRVALUE_LEN)
          then Some Undef
          else
            match Ech.local_ech_add Ech.ECH_FMT_BIN (eklen st)
                    (Some (drop (Z.to_nat ev) bin)) (notnull num_echs)
            with
            | Ok (Some (n, echs)) =>
                Some (Ok (Ech.set_ech
                            (Some (map (set_dns_no_def_alpn
                                          (no_def_alpn st)) echs))
                            n c, n))
            | Ok None => Some Undef
            | Err _ => Some (Err 0)
            | Undef => Some Undef
            end
      end.

(** [SSL_svcb_add]: [Err 0] is the answer 0, which leaves the connection
    and [*num_echs] as they were; the answer 1 comes with the connection
    and [*num_echs] after the call.  [*num_echs] on entry is [num_echs]
    ([None] for a NULL pointer).  The RData that was not decoded from
    ascii-hex is the NULL pointer with [binlen] 0, here the empty list.
    What [printf] writes is left out.  A loop that runs out of fuel
    answers [None]. *)
Definition SSL_svcb_add (con : option Ech.SSL) (rrfmt : Ech.ech_fmt)
    (rrlen : Z) (rrval : option bytes) (num_echs : option Z)
    : option (result (Ech.SSL * Z)) :=
  match con with
  | None => Some (Err 0)
  | Some c =>
      run detfmt <-
        Some (match rrfmt with
              | Ech.ECH_FMT_ASCIIHEX | Ech.ECH_FMT_BIN => Ok rrfmt
              | _ => some f <- Ech.ech_guess_fmt rrlen rrval else 0 ;; Ok f
              end) ;;
      run bin <-
        Some (match detfmt with
              | Ech.ECH_FMT_ASCIIHEX =>
                  at_line 0 (Hpke.hpke_ah_decode rrlen rrval true true)
              | _ => Ok []
              end) ;;
      svcb_rdata c bin num_echs
  end.

(** [SSL_CTX_svcb_add] *)
Definition SSL_CTX_svcb_add (ctx : option Ech.SSL_CTX) (rrfmt : Ech.ech_fmt)
    (rrlen : Z) (rrval : option bytes) (num_echs : option Z) : Z := 0.

End Code.

(** *** Words for RData *)

(** A DNS name on the wire: each label behind its length, and the
    empty label at the end. *)
Definition name_wire (labels : list bytes) : bytes :=
  concat (map (fun l => len l :: l) labels) ++ [0].

(** The name as [local_decode_rdata_name] writes it: a '.' behind each
    label, and ".", with a NUL behind it, for the root. *)
Definition dotted (labels : list bytes) : bytes :=
  match labels with
  | [] => [46; 0]
  | _ => concat (map (fun l => l ++ [46]) labels)
  end.

(** A label that fits its octet of length. *)
Definition label (l : bytes) : Prop := 0 < len l < 256.

(** A list of ALPN identifiers on the wire. *)
Definition alpn_wire (ids : list bytes) : bytes :=
  concat (map (fun i => len i :: i) ids).

(** An ALPN identifier that is copied. *)
Definition alpn_id (i : bytes) : Prop := 0 < len i < 255.

(** An SvcParam, key and value, that is not the one with the ECHConfigs:
    it fits its fields as a [short] has them, and the value of an ALPN
    parameter is a list of identifiers. *)
Definition param_ok {P : ech_public_h} (p : Z * bytes) : Prop :=
  0 <= p.1 < 2 ^ 15 /\ len p.2 < 2 ^ 15 /\ p.1 <> ECH_PCODE_ECH /\
  (p.1 = ECH_PCODE_ALPN ->
   exists ids, p.2 = alpn_wire ids /\ Forall alpn_id ids).

(** The ALPN value that the walk holds, if any, is a list of
    identifiers inside the RData. *)
Definition alpn_fine (bin : bytes) (st : walk) : Prop :=
  match alpn_val st with
  | Some av =>
      exists A ids T,
        bin = A ++ alpn_wire ids ++ T /\ av = len A /\
        alpn_len st = len (alpn_wire ids) /\ Forall alpn_id ids
  | None => True
  end.

(** The RData of a record: the priority, the target name and the
    SvcParams. *)
Definition rdata (prio : bytes) (labels : list bytes) (params : bytes)
    : bytes :=
  prio ++ name_wire labels ++ params.

End Svcb.

(** ** Sample environments and test vectors *)

(** Stand-ins for what lies outside the sources, used to run the code on
    concrete inputs.  The theorems below hold for every environment;
    these only show that their hypotheses can be met. *)
Module Sample.

Definition a2b (c : Z) : Z :=
  if (48 <=? c) && (c <=? 57) then c - 48
  else if (65 <=? c) && (c <=? 70) then c - 65 + 10
  else if (97 <=? c) && (c <=? 102) then c - 97 + 10
  else 0.

Definition hpke_h : Hpke.hpke_h :=
  {| Hpke.HPKE_MAXSIZE := 1024; Hpke.HPKE_A2B := a2b |}.

(** draft-09 gives outer_extensions the code point 0xfd00. *)
Definition ext_ind (ty : Z) : Z :=
  if ty =? 0 then 1 else if ty =? 10 then 5 else if ty =? 13 then 16
  else if ty =? 51 then 19 else -1.

Definition ech_h : Ech.ech_h :=
  {| Ech.ECH_MAX_RRVALUE_LEN := 2000;
     Ech.TLSEXT_TYPE_outer_extensions := 0xfd00;
     Ech.ech_map_ext_type_to_ind := ext_ind |}.

Definition evp_encode : Ech.evp_encode :=
  {| Ech.EVP_DecodeBlock := fun _ => (-1, []) |}.

(** A toy libcrypto.  Keys live in the integers modulo 251 with base
    point 7: a private key [a] has the public key [7a], and the shared
    secret of [a] and a peer [P] is [aP].  The KDF and the AEAD tag are
    sums of octets; encryption adds the sum of the key to each octet. *)
Record key := { sk : option Z; pk : Z }.

Definition sum (b : bytes) : Z := fold_right Z.add 0 b.
Definition point (a : Z) : Z := (7 * a) mod 251.
Definition of_private (b : bytes) : key :=
  {| sk := Some (sum b mod 251); pk := point (sum b mod 251) |}.
Definition of_public (b : bytes) : key :=
  {| sk := None; pk := hd 0 b |}.
Definition dh (own peer : key) : option bytes :=
  match sk own with
  | Some a => Some [(a * pk peer) mod 251]
  | None => None
  end.
Definition kdf (x y : bytes) (n : Z) : bytes :=
  repeat ((sum x + sum y) mod 256) (Z.to_nat n).
Definition tag_of (k iv aad ct : bytes) : bytes :=
  repeat ((sum k + sum iv + sum aad + sum ct) mod 256) 16.
Definition seal (k iv aad pt : bytes) : bytes * bytes :=
  let ct := map (fun x => (x + sum k) mod 256) pt in (ct, tag_of k iv aad ct).
Definition open (k iv aad buf : bytes) (inl tagoff taglen : Z)
    : option bytes :=
  if (inl <? 0) || (tagoff <? 0) then None
  else
    let ct := take (Z.to_nat inl) buf in
    let tag := take (Z.to_nat taglen) (drop (Z.to_nat tagoff) buf) in
    if bool_decide (tag = tag_of k iv aad ct)
    then Some (map (fun x => (x - sum k) mod 256) ct)
    else None.

Definition libcrypto : Hpke.libcrypto :=
  {| Hpke.EVP_PKEY := key;
     Hpke.EC_KEY := key;
     Hpke.Entropy := Z;
     Hpke.EVP_PKEY_new_raw_public_key := fun _ b => Some (of_public b);
     Hpke.EVP_PKEY_new_raw_private_key := fun _ b => Some (of_private b);
     Hpke.EVP_PKEY_paramgen := fun _ => Some (of_public []);
     Hpke.EVP_PKEY_set1_tls_encodedpoint := fun _ b => of_public b;
     Hpke.EC_KEY_new_by_curve_name := fun _ => Some (of_public []);
     Hpke.EC_KEY_oct2priv := fun _ b => Some (of_private b);
     Hpke.EC_KEY_recalc_public_key := fun k => Some k;
     Hpke.EVP_PKEY_assign_EC_KEY := fun k => Some k;
     Hpke.PEM_read_bio_PrivateKey := fun _ => None;
     Hpke.EVP_PKEY_keygen := fun _ e => Some (of_private [e mod 251]);
     Hpke.EVP_PKEY_get1_tls_encodedpoint := fun k => [pk k];
     Hpke.EVP_PKEY_derive := dh;
     Hpke.HKDF_Extract := fun _ salt ikm _ => Some (kdf salt ikm 32);
     Hpke.HKDF_Expand := fun _ prk info n => Some (kdf prk info n);
     Hpke.EVP_Encrypt := fun _ _ k iv aad pt _ => Some (seal k iv aad pt);
     Hpke.EVP_Decrypt := fun _ _ k iv aad buf inl tagoff taglen =>
                           open k iv aad buf inl tagoff taglen |}.

(** The ECHConfigs of the comment in [ech_readpemfile], base64
    "AEP/CQBBAAtleGFtcGxlLmNvbQAkAB0AIF8i/TRompaA6Uoi1H3xqiqzq6IuUqFjT2GNT4wzWmF6ACAABAABAAEAAAAA":
    one record of version 0xff09 for example.com. *)
Definition pem_example : bytes :=
  [0; 67; 255; 9; 0; 65; 0; 11; 101; 120; 97; 109; 112; 108; 101; 46; 99;
   111; 109; 0; 36; 0; 29; 0; 32; 95; 34; 253; 52; 104; 154; 150; 128; 233;
   74; 34; 212; 125; 241; 170; 42; 179; 171; 162; 46; 82; 161; 99; 79; 97;
   141; 79; 140; 51; 90; 97; 122; 0; 32; 0; 4; 0; 1; 0; 1; 0; 0; 0; 0].

(** Its single record, and a record of the older version 0xff08 with four
    octets of content. *)
Definition record_ff09 : bytes := drop 2 pem_example.
Definition record_ff08 : bytes := [255; 8; 0; 4; 1; 2; 3; 4].

(** The length field of the example is 65 for 63 octets of content; the
    same four octets of content with a length field that is two more. *)
Definition record_ff08_counted : bytes := [255; 8; 0; 6; 1; 2; 3; 4].

(** An ECHConfigs list: the two octets of length, then the records. *)
Definition configs (records : bytes) : bytes := I2OSP2 (len records) ++ records.

(** The record of [pem_example] with another public_name. *)
Definition record_named (name : bytes) : bytes :=
  let contents := I2OSP2 (len name) ++ name ++ drop 17 record_ff09 in
  [255; 9] ++ I2OSP2 (len contents) ++ contents.

(** A fatal error that puts the state machine of a session into a state
    of its own, 255. *)
Definition fatal (s : Ech.SSL) : Ech.SSL :=
  {| Ech.wbio := Ech.wbio s; Ech.rbio := Ech.rbio s;
     Ech.rlayer := Ech.rlayer s; Ech.rlayer_s := Ech.rlayer_s s;
     Ech.init_buf := Ech.init_buf s; Ech.init_msg := Ech.init_msg s;
     Ech.init_off := Ech.init_off s; Ech.init_num := Ech.init_num s;
     Ech.statem := 255; Ech.ext_debug_cb := Ech.ext_debug_cb s;
     Ech.ext_debug_arg := Ech.ext_debug_arg s;
     Ech.s3_handshake_buffer := Ech.s3_handshake_buffer s;
     Ech.s3_client_random := Ech.s3_client_random s;
     Ech.client_version := Ech.client_version s;
     Ech.clienthello := Ech.clienthello s;
     Ech.ech := Ech.ech s; Ech.nechs := Ech.nechs s;
     Ech.ext_ch_depth := Ech.ext_ch_depth s;
     Ech.ext_inner_s := Ech.ext_inner_s s;
     Ech.ext_outer_s := Ech.ext_outer_s s;
     Ech.ext_etype := Ech.ext_etype s;
     Ech.ext_n_outer_only := Ech.ext_n_outer_only s;
     Ech.ext_outer_only := Ech.ext_outer_only s;
     Ech.ext_encoded_innerch := Ech.ext_encoded_innerch s;
     Ech.ext_innerch := Ech.ext_innerch s;
     Ech.ext_ech_attempted := Ech.ext_ech_attempted s;
     Ech.ext_ech_done := Ech.ext_ech_done s;
     Ech.ext_ech_success := Ech.ext_ech_success s;
     Ech.other := Ech.other s |}.

(** A libssl whose calls succeed: the cipher list is TLS_AES_128_GCM_SHA256,
    the transcript is the buffer, and the server-name callback agrees. *)
Definition libssl : Ech.libssl :=
  {| Ech.ssl_cipher_list_to_bytes := fun _ pkt => Ech.WPACKET_memcpy pkt [19; 1];
     Ech.ssl3_init_finished_mac := fun s => (1, Ech.set_s3_handshake_buffer [] s);
     Ech.ssl3_finish_mac := fun s b =>
       (1, Ech.set_s3_handshake_buffer (Ech.s3_handshake_buffer s ++ b) s);
     Ech.final_server_name := fun s => (1, s);
     Ech.SSLfatal := fatal |}.

(** The same with a server-name callback that refuses. *)
Definition libssl_sni_rejected : Ech.libssl :=
  {| Ech.ssl_cipher_list_to_bytes := fun _ pkt => Ech.WPACKET_memcpy pkt [19; 1];
     Ech.ssl3_init_finished_mac := fun s => (1, Ech.set_s3_handshake_buffer [] s);
     Ech.ssl3_finish_mac := fun s b =>
       (1, Ech.set_s3_handshake_buffer (Ech.s3_handshake_buffer s ++ b) s);
     Ech.final_server_name := fun s => (0, s);
     Ech.SSLfatal := fatal |}.

(** Scenario S4: the extensions supported_groups, key_share,
    signature_algorithms and server_name, in this order, of which
    supported_groups (10) and signature_algorithms (13) are marked for
    compression. *)
Definition raw (ty : Z) (d : bytes) : Ech.RAW_EXTENSION :=
  {| Ech.data := Some d; Ech.present := 1; Ech.type := ty |}.
Definition supported_groups := raw 10 [0; 2; 0; 29].
Definition key_share := raw 51 [0; 3; 0; 29; 0].
Definition signature_algorithms := raw 13 [0; 2; 4; 3].
Definition server_name := raw 0 [0; 5; 0; 0; 2; 97; 98].
Definition s4_raws : list Ech.RAW_EXTENSION :=
  [supported_groups; key_share; signature_algorithms; server_name].
Definition s4_outer_only : list Z := [10; 13; 0; 0; 0; 0; 0; 0; 0; 0].

Definition s4_session_with (raws : list Ech.RAW_EXTENSION) : Ech.SSL :=
  Ech.set_outer_only s4_outer_only 2
    (Ech.set_ech (Some []) 0
       {| Ech.wbio := 0; Ech.rbio := 0; Ech.rlayer := 0; Ech.rlayer_s := None;
          Ech.init_buf := 0; Ech.init_msg := 0; Ech.init_off := 0;
          Ech.init_num := 0; Ech.statem := 0; Ech.ext_debug_cb := 0;
          Ech.ext_debug_arg := 0; Ech.s3_handshake_buffer := [];
          Ech.s3_client_random := repeat 7 32; Ech.client_version := 0x0303;
          Ech.clienthello :=
            Some {| Ech.pre_proc_exts := raws; Ech.extensions := [] |};
          Ech.ech := None; Ech.nechs := 0;
          Ech.ext_ch_depth := 1; Ech.ext_inner_s := None;
          Ech.ext_outer_s := None;
          Ech.ext_etype := 0; Ech.ext_n_outer_only := 0;
          Ech.ext_outer_only := repeat 0 10; Ech.ext_encoded_innerch := None;
          Ech.ext_innerch := None; Ech.ext_ech_attempted := 0;
          Ech.ext_ech_done := 0; Ech.ext_ech_success := 0; Ech.other := 0 |}).

Definition s4_session : Ech.SSL := s4_session_with s4_raws.

(** The same extensions in the order of the indices that libssl gives
    them in [pre_proc_exts]: server_name, supported_groups,
    signature_algorithms, key_share. *)
Definition s4_raws_by_index : list Ech.RAW_EXTENSION :=
  [server_name; supported_groups; signature_algorithms; key_share].

(** The two sessions as [ech_process_inner_if_present] hands them to the
    swap: the outer one at address 0, on which decryption was attempted,
    with the decoded inner ClientHello and a transcript holding the outer
    ClientHello (type 1, length 2) and two more octets; the inner one at
    address 1, at depth 1. ech_done is 0 on both. *)
Definition swap_outer : Ech.SSL :=
  {| Ech.wbio := 11; Ech.rbio := 12; Ech.rlayer := 13;
     Ech.rlayer_s := Some 0%nat;
     Ech.init_buf := 14; Ech.init_msg := 15; Ech.init_off := 16;
     Ech.init_num := 17; Ech.statem := 18; Ech.ext_debug_cb := 19;
     Ech.ext_debug_arg := 20;
     Ech.s3_handshake_buffer := [1; 0; 0; 2; 3; 3; 2; 0];
     Ech.s3_client_random := []; Ech.client_version := 0x0303;
     Ech.clienthello := None; Ech.ech := None; Ech.nechs := 0;
     Ech.ext_ch_depth := 0; Ech.ext_inner_s := Some 1%nat;
     Ech.ext_outer_s := None;
     Ech.ext_etype := 0; Ech.ext_n_outer_only := 0;
     Ech.ext_outer_only := repeat 0 10;
     Ech.ext_encoded_innerch := Some [3; 3];
     Ech.ext_innerch := Some [1; 0; 0; 2; 3; 4]; Ech.ext_ech_attempted := 1;
     Ech.ext_ech_done := 0; Ech.ext_ech_success := 0; Ech.other := 0 |}.

Definition swap_inner : Ech.SSL :=
  {| Ech.wbio := 11; Ech.rbio := 12; Ech.rlayer := 13;
     Ech.rlayer_s := Some 0%nat;
     Ech.init_buf := 14; Ech.init_msg := 15; Ech.init_off := 16;
     Ech.init_num := 17; Ech.statem := 18; Ech.ext_debug_cb := 19;
     Ech.ext_debug_arg := 20; Ech.s3_handshake_buffer := [];
     Ech.s3_client_random := []; Ech.client_version := 0x0303;
     Ech.clienthello := None; Ech.ech := None; Ech.nechs := 0;
     Ech.ext_ch_depth := 1; Ech.ext_inner_s := None;
     Ech.ext_outer_s := Some 0%nat;
     Ech.ext_etype := 0; Ech.ext_n_outer_only := 0;
     Ech.ext_outer_only := repeat 0 10; Ech.ext_encoded_innerch := None;
     Ech.ext_innerch := None; Ech.ext_ech_attempted := 1;
     Ech.ext_ech_done := 0; Ech.ext_ech_success := 0; Ech.other := 1 |}.

Definition swap_store : gmap nat Ech.SSL :=
  two ∅ 0%nat 1%nat swap_outer swap_inner.

(** What a caller can see of the flags at an address of the store a call
    answered: ech_attempted, ech_done, ech_success. *)
Definition flags (r : option (Z * gmap nat Ech.SSL)) (a : nat)
    : option (Z * Z * Z) :=
  '(_, h) ← r; x ← h !! a;
  Some (Ech.ext_ech_attempted x, Ech.ext_ech_done x, Ech.ext_ech_success x).

End Sample.

(** ** More sample environments and test vectors *)

Module Vectors.

(** X25519 with HKDF-SHA256 and AES-128-GCM. *)
Definition suite : Hpke.hpke_suite_t := Hpke.Build_hpke_suite_t 0x20 1 1.

(** The recipient's and the sender's private keys, and the public value
    of the recipient. *)
Definition skR : Sample.key := Sample.of_private (5 :: repeat 0 31).
Definition skI : Sample.key := Sample.of_private (3 :: repeat 0 31).
Definition pkR : bytes := [35].

(** What the toy libcrypto makes of the cleartext 01 02 under the AAD
    07 08 09 and the info 01 01 01 01, in the modes Base and Auth. *)
Definition ct_base : bytes := [225; 226] ++ repeat 163 16.
Definition ct_auth : bytes := [1; 2] ++ repeat 27 16.

(** The toy libcrypto with a PEM form for private keys: the private
    value and an octet 0. *)
Definition pem_write (k : Sample.key) : option bytes :=
  match Sample.sk k with
  | Some a => if Sample.pk k =? Sample.point a then Some [a; 0] else None
  | None => None
  end.
Definition pem_read (b : bytes) : option Sample.key :=
  match b with
  | [a; 0] => Some {| Sample.sk := Some a; Sample.pk := Sample.point a |}
  | _ => None
  end.

Definition libcrypto : Hpke.libcrypto :=
  {| Hpke.EVP_PKEY := Sample.key;
     Hpke.EC_KEY := Sample.key;
     Hpke.Entropy := Z;
     Hpke.EVP_PKEY_new_raw_public_key := fun _ b => Some (Sample.of_public b);
     Hpke.EVP_PKEY_new_raw_private_key := fun _ b => Some (Sample.of_private b);
     Hpke.EVP_PKEY_paramgen := fun _ => Some (Sample.of_public []);
     Hpke.EVP_PKEY_set1_tls_encodedpoint := fun _ b => Sample.of_public b;
     Hpke.EC_KEY_new_by_curve_name := fun _ => Some (Sample.of_public []);
     Hpke.EC_KEY_oct2priv := fun _ b => Some (Sample.of_private b);
     Hpke.EC_KEY_recalc_public_key := fun k => Some k;
     Hpke.EVP_PKEY_assign_EC_KEY := fun k => Some k;
     Hpke.PEM_read_bio_PrivateKey := pem_read;
     Hpke.EVP_PKEY_keygen := fun _ e => Some (Sample.of_private [e mod 251]);
     Hpke.EVP_PKEY_get1_tls_encodedpoint := fun k => [Sample.pk k];
     Hpke.EVP_PKEY_derive := Sample.dh;
     Hpke.HKDF_Extract := fun _ salt ikm _ => Some (Sample.kdf salt ikm 32);
     Hpke.HKDF_Expand := fun _ prk info n => Some (Sample.kdf prk info n);
     Hpke.EVP_Encrypt := fun _ _ k iv aad pt _ => Some (Sample.seal k iv aad pt);
     Hpke.EVP_Decrypt := fun _ _ k iv aad buf inl tagoff taglen =>
                           Sample.open k iv aad buf inl tagoff taglen |}.

(** A key generation that always draws the private value 9. *)
Definition libcrypto_kg : @Kg.libcrypto_kg libcrypto :=
  @Kg.Build_libcrypto_kg libcrypto Z 408
    (fun id => Some id) (fun c => Some c) (fun c _ => Some c)
    (fun c => Some c)
    (fun _ _ => Some (Sample.of_private [9]))
    pem_write
    (fun b n => (len b, take (Z.to_nat n) b)).

(** Lower-case hex digits. *)
Definition hexdigit (n : Z) : Z := if n <? 10 then 48 + n else 87 + n.

(** A base64 decoder that gives "decoded" octets back as they are. *)
Definition evp_encode : Ech.evp_encode :=
  {| Ech.EVP_DecodeBlock := fun f => (len f, f) |}.

(** The record of the example in [ech_readpemfile], and the list that
    holds it. *)
Definition example_record : Ech.ECHConfig :=
  {| Ech.version := 0xff09;
     Ech.public_name := Hpke.str "example.com"%string;
     Ech.kem_id := 0x20;
     Ech.pub := take 36 (drop 21 Sample.pem_example);
     Ech.ciphersuites := [[0; 1; 0; 1]];
     Ech.maximum_name_length := 0;
     Ech.exts := [];
     Ech.config_id := [] |}.

Definition example_configs : Ech.ECHConfigs :=
  {| Ech.encoded_len := len Sample.pem_example;
     Ech.encoded := Sample.pem_example;
     Ech.recs := [example_record] |}.

Definition ctx : Ech.SSL_CTX :=
  {| Ech.ctx_ext_ech := None; Ech.ctx_ext_nechs := 0; Ech.ctx_other := 0 |}.

(** A transcript with an outer ClientHello of four octets and two octets
    after it, and one whose ClientHello claims nine octets. *)
Definition outer_with_more : Ech.SSL :=
  Ech.set_s3_handshake_buffer [1; 0; 0; 4; 3; 3; 2; 0; 9; 9] Sample.swap_outer.
Definition outer_cut_short : Ech.SSL :=
  Ech.set_s3_handshake_buffer [1; 0; 0; 9] Sample.swap_outer.

(** Sessions have a session id of 32 octets 09, and the extensions of a
    parsed ClientHello are there. *)
Definition ssl_local_h : Dec.ssl_local_h :=
  {| Dec.tmp_session_id := fun _ => repeat 9 32;
     Dec.extensions_curr_null := fun _ => false |}.

(** A client session that sends key_share and server_name and compresses
    nothing. *)
Definition plain_client : Ech.SSL :=
  Ech.set_outer_only Sample.s4_outer_only 0
    (Sample.s4_session_with [Sample.key_share; Sample.server_name]).

(** What [ech_encode_inner] gives for it. *)
Definition plain_encoded : bytes :=
  [1; 0; 0; 63; 3; 3] ++ repeat 7 32 ++ [0; 0; 2; 19; 1; 1; 0; 0; 20] ++
  [0; 51; 0; 5; 0; 3; 0; 29; 0] ++ [0; 0; 0; 7; 0; 5; 0; 0; 2; 97; 98].

(** A server: the outer session at address 0 with the decrypted payload,
    the inner one at address 1. *)
Definition server_outer : Ech.SSL :=
  Ech.set_ext_encoded_innerch (Some plain_encoded)
    (Ech.set_ext_inner_s None
       (Sample.s4_session_with [Sample.key_share; Sample.server_name])).
Definition server_store : gmap nat Ech.SSL :=
  two ∅ 1%nat 0%nat Sample.swap_inner server_outer.

(** A session whose current extension is supported_groups. *)
Definition at_supported_groups : Ech.SSL :=
  {| Ech.wbio := 0; Ech.rbio := 0; Ech.rlayer := 0; Ech.rlayer_s := None;
     Ech.init_buf := 0; Ech.init_msg := 0; Ech.init_off := 0;
     Ech.init_num := 0; Ech.statem := 0; Ech.ext_debug_cb := 0;
     Ech.ext_debug_arg := 0; Ech.s3_handshake_buffer := [];
     Ech.s3_client_random := repeat 7 32; Ech.client_version := 0x0303;
     Ech.clienthello := None;
     Ech.ech := Some []; Ech.nechs := 0;
     Ech.ext_ch_depth := 1; Ech.ext_inner_s := None;
     Ech.ext_outer_s := None;
     Ech.ext_etype := 10; Ech.ext_n_outer_only := 1;
     Ech.ext_outer_only := 13 :: repeat 0 9;
     Ech.ext_encoded_innerch := None;
     Ech.ext_innerch := None; Ech.ext_ech_attempted := 0;
     Ech.ext_ech_done := 0; Ech.ext_ech_success := 0; Ech.other := 0 |}.

(** A server whose decrypted payload lists key_share and
    supported_groups as extensions of the outer ClientHello, behind a
    server_name of its own; the outer ClientHello has supported_groups,
    supported_versions and key_share. *)
Definition outer_exts : list (Z * bytes) :=
  [(10, [0; 2; 0; 29]); (43, [2; 3; 4]); (51, [0; 3; 0; 29; 0])].
Definition packed_encoded : bytes :=
  [1; 0; 0; 62; 3; 3] ++ repeat 7 32 ++ [0; 0; 2; 19; 1; 1; 0; 0; 19] ++
  [0; 0; 0; 7; 0; 5; 0; 0; 2; 97; 98] ++ [253; 0; 0; 4; 0; 51; 0; 10].
Definition packed_outer : Ech.SSL :=
  {| Ech.wbio := 0; Ech.rbio := 0; Ech.rlayer := 0; Ech.rlayer_s := None;
     Ech.init_buf := 0; Ech.init_msg := 0; Ech.init_off := 0;
     Ech.init_num := 0; Ech.statem := 0; Ech.ext_debug_cb := 0;
     Ech.ext_debug_arg := 0; Ech.s3_handshake_buffer := [];
     Ech.s3_client_random := repeat 7 32; Ech.client_version := 0x0303;
     Ech.clienthello :=
       Some {| Ech.pre_proc_exts := [];
               Ech.extensions := Hello.exts_wire outer_exts |};
     Ech.ech := Some []; Ech.nechs := 0;
     Ech.ext_ch_depth := 0; Ech.ext_inner_s := None;
     Ech.ext_outer_s := None;
     Ech.ext_etype := 0; Ech.ext_n_outer_only := 0;
     Ech.ext_outer_only := repeat 0 10;
     Ech.ext_encoded_innerch := Some packed_encoded;
     Ech.ext_innerch := None; Ech.ext_ech_attempted := 0;
     Ech.ext_ech_done := 0; Ech.ext_ech_success := 0; Ech.other := 0 |}.
Definition packed_store : gmap nat Ech.SSL :=
  two ∅ 1%nat 0%nat Sample.swap_inner packed_outer.

(** The same server with a payload that lists signature_algorithms,
    which the outer ClientHello does not have. *)
Definition missing_encoded : bytes :=
  [1; 0; 0; 62; 3; 3] ++ repeat 7 32 ++ [0; 0; 2; 19; 1; 1; 0; 0; 19] ++
  [0; 0; 0; 7; 0; 5; 0; 0; 2; 97; 98] ++ [253; 0; 0; 4; 0; 51; 0; 13].
Definition missing_outer : Ech.SSL :=
  Ech.set_ext_encoded_innerch (Some missing_encoded) packed_outer.
Definition missing_store : gmap nat Ech.SSL :=
  two ∅ 1%nat 0%nat Sample.swap_inner missing_outer.

(** The SvcParamKeys of the SVCB draft, and room for a name of 255
    octets. *)
Definition ech_public_h : Svcb.ech_public_h :=
  {| Svcb.ECH_PCODE_ECH := 5; Svcb.ECH_PCODE_ALPN := 1;
     Svcb.ECH_PCODE_NO_DEF_ALPN := 2; Svcb.ECH_MAX_DNSNAME := 255 |}.

(** RData for the target "ab.c" with priority 1: the ALPN identifier
    "h2" and no-default-alpn, without and with the ECHConfigs of the
    example. *)
Definition svc_labels : list bytes := [[97; 98]; [99]].
Definition svc_params : list (Z * bytes) :=
  [(1, Svcb.alpn_wire [[104; 50]]); (2, [])].
Definition rdata_plain : bytes :=
  Svcb.rdata [0; 1] svc_labels (Hello.exts_wire svc_params).
Definition rdata_ech : bytes :=
  Svcb.rdata [0; 1] svc_labels
    (Hello.exts_wire svc_params ++
     Wire.ext_wire 5 (Ingest.ser_configs [example_record]) ++ []).

End Vectors.

(** ** Properties of the suite registry *)

(** Rows without an init function never end a scan, so they can be
    dropped before reasoning about it. *)
Lemma kem_scan_populated id tab :
  Hpke.kem_scan id tab =
  Hpke.kem_scan id (List.filter (fun r => notnull (Hpke.kem_hash_init_func r)) tab).
Proof.
  induction tab as [|r tab IH]; simpl; [reflexivity|].
  destruct (notnull (Hpke.kem_hash_init_func r)) eqn:E; simpl.
  - rewrite E, IH. reflexivity.
  - rewrite andb_false_r. exact IH.
Qed.

Ltac scan_cases id :=
  repeat match goal with
  | |- context [id =? ?k] =>
      destruct (Z.eqb_spec id k) as [->|]; simpl; [split; intros; lia|]
  end; split; intros; lia.

Lemma kem_scan_supported (id : Z) :
  Hpke.kem_scan id Hpke.hpke_kem_tab = 1 <->
  id = 0x10 \/ id = 0x11 \/ id = 0x12 \/ id = 0x20 \/ id = 0x21.
Proof.
  rewrite kem_scan_populated.
  vm_compute List.filter. unfold Hpke.kem_scan.
  cbv [Hpke.kem_info_id Hpke.kem_hash_init_func notnull].
  scan_cases id.
Qed.

Lemma kdf_scan_supported (id : Z) :
  Hpke.kdf_scan id Hpke.hpke_kdf_tab = 1 <-> id = 1 \/ id = 2 \/ id = 3.
Proof.
  cbv -[Z.eqb]. scan_cases id.
Qed.

Lemma aead_scan_supported (id : Z) :
  Hpke.aead_scan id Hpke.hpke_aead_tab = 1 <-> id = 1 \/ id = 2 \/ id = 3.
Proof.
  cbv -[Z.eqb]. scan_cases id.
Qed.

(** C8: [hpke_suite_check] returns 1 exactly for the suites whose three
    identifiers name populated rows: kem_id in {0x10, 0x11, 0x12, 0x20,
    0x21}, kdf_id in {1, 2, 3} and aead_id in {1, 2, 3}. *)
Theorem hpke_suite_check_iff (kem kdf aead : Z) :
  Hpke.hpke_suite_check (Hpke.Build_hpke_suite_t kem kdf aead) = 1 <->
  (kem = 0x0010 \/ kem = 0x0011 \/ kem = 0x0012 \/ kem = 0x0020 \/ kem = 0x0021) /\
  (kdf = 0x0001 \/ kdf = 0x0002 \/ kdf = 0x0003) /\
  (aead = 0x0001 \/ aead = 0x0002 \/ aead = 0x0003).
Proof.
  unfold Hpke.hpke_suite_check; simpl Hpke.kem_id; simpl Hpke.kdf_id;
    simpl Hpke.aead_id.
  rewrite <- kem_scan_supported, <- kdf_scan_supported, <- aead_scan_supported.
  destruct (Z.eqb_spec (Hpke.kem_scan kem Hpke.hpke_kem_tab) 1);
    destruct (Z.eqb_spec (Hpke.kdf_scan kdf Hpke.hpke_kdf_tab) 1);
    destruct (Z.eqb_spec (Hpke.aead_scan aead Hpke.hpke_aead_tab) 1);
    simpl; intuition congruence.
Qed.

(** ** Properties of the checks of hpke.c *)

Section HpkeChecks.
Context {H : Hpke.hpke_h} {L : Hpke.libcrypto}.

(** The parity test of [hpke_ah_decode] is [ahlen%1], which is 0 for
    every length: from two nibbles on, any input is decoded, and the last
    nibble of an odd one is dropped. *)
Lemma hpke_ah_decode_any_parity (ahlen : Z) (s : bytes) :
  2 <= ahlen ->
  exists b, Hpke.hpke_ah_decode ahlen (Some s) true true = Ok b /\
            len b = ahlen / 2.
Proof.
  intros Hlen. unfold Hpke.hpke_ah_decode.
  assert (Hdiv : 1 <= ahlen / 2) by (apply Z.div_le_lower_bound; lia).
  destruct (Z.leb_spec ahlen 0); [lia|]. simpl.
  rewrite Z.mod_1_r. simpl.
  unfold OPENSSL_malloc_ok.
  destruct (Z.eqb_spec (ahlen / 2) 0); [lia|]. simpl.
  eexists; split; [reflexivity|].
  unfold len. rewrite length_map, length_seq. lia.
Qed.

(** The three nibbles "abc" give the one octet made of "a" and "b". *)
Example hpke_ah_decode_abc :
  Hpke.hpke_ah_decode 3 (Some (Hpke.str "abc")) true true =
  Ok [(Hpke.HPKE_A2B 97 * 16 + Hpke.HPKE_A2B 98) mod 256].
Proof. reflexivity. Qed.

(** C6 (the code does otherwise): an input with an odd number of
    nibbles, three or more, is not rejected: [hpke_ah_decode] answers 1
    with a buffer of [(ahlen-1)/2] octets, made of the nibbles before the
    last one. *)
Theorem hpke_ah_decode_odd_accepted (ahlen : Z) (s : bytes) :
  3 <= ahlen -> Z.odd ahlen = true ->
  exists b, Hpke.hpke_ah_decode ahlen (Some s) true true = Ok b /\
            len b = (ahlen - 1) / 2 /\
            forall i : nat, (Z.of_nat i < (ahlen - 1) / 2) ->
              nth i b 0 =
              (Hpke.HPKE_A2B (nth (2 * i) s 0) * 16 +
               Hpke.HPKE_A2B (nth (2 * i + 1) s 0)) mod 256.
Proof.
  intros Hlen Hodd.
  assert (Hhalf : ahlen / 2 = (ahlen - 1) / 2).
  { rewrite (Zodd_div2 ahlen) at 1 2 by (apply Zodd_bool_iff; exact Hodd).
    rewrite Z.div2_div.
    replace (2 * (ahlen / 2) + 1 - 1) with (ahlen / 2 * 2) by lia.
    rewrite Z.div_mul by lia.
    replace (2 * (ahlen / 2) + 1) with (1 + ahlen / 2 * 2) by lia.
    rewrite Z.div_add by lia. reflexivity. }
  unfold Hpke.hpke_ah_decode.
  assert (Hdiv : 1 <= ahlen / 2) by (apply Z.div_le_lower_bound; lia).
  destruct (Z.leb_spec ahlen 0); [lia|]. simpl.
  rewrite Z.mod_1_r. simpl.
  unfold OPENSSL_malloc_ok.
  destruct (Z.eqb_spec (ahlen / 2) 0); [lia|]. simpl.
  eexists; split; [reflexivity|]. rewrite <- Hhalf. split.
  - unfold len. rewrite length_map, length_seq. lia.
  - intros i Hi.
    rewrite (nth_indep _ 0 ((fun i : nat =>
               (Hpke.HPKE_A2B (nth (2 * i) s 0) * 16 +
                Hpke.HPKE_A2B (nth (2 * i + 1) s 0)) mod 256) 0%nat))
      by (rewrite length_map, length_seq; lia).
    rewrite (map_nth (fun i : nat =>
               (Hpke.HPKE_A2B (nth (2 * i) s 0) * 16 +
                Hpke.HPKE_A2B (nth (2 * i + 1) s 0)) mod 256)).
    rewrite seq_nth by lia. reflexivity.
Qed.

(** What [hpke_psk_check] accepts. *)
Lemma hpke_psk_check_iff (mode : Z) (pskid : option bytes) (psklen : Z)
    (psk : option bytes) :
  Hpke.hpke_psk_check mode pskid psklen psk = 1 <->
  (mode = Hpke.HPKE_MODE_BASE \/ mode = Hpke.HPKE_MODE_AUTH) \/
  (pskid <> None /\ psklen <> 0 /\ psk <> None).
Proof.
  unfold Hpke.hpke_psk_check.
  destruct (Z.eqb_spec mode Hpke.HPKE_MODE_BASE); simpl; [tauto|].
  destruct (Z.eqb_spec mode Hpke.HPKE_MODE_AUTH); simpl; [tauto|].
  destruct pskid; simpl; [|intuition congruence].
  destruct (Z.eqb_spec psklen 0); [intuition congruence|].
  destruct psk; simpl; intuition congruence.
Qed.

(** In the modes Base and Auth the PSK parameters are not looked at. *)
Lemma hpke_psk_check_ignored (mode : Z) (pskid : option bytes) (psklen : Z)
    (psk : option bytes) :
  mode = Hpke.HPKE_MODE_BASE \/ mode = Hpke.HPKE_MODE_AUTH ->
  Hpke.hpke_psk_check mode pskid psklen psk = 1.
Proof. intros Hm. apply hpke_psk_check_iff. tauto. Qed.

(** A PSK mode with a NULL pskid, a zero psklen or a NULL psk makes both
    entry points return a value other than 1. *)
Lemma hpke_enc_bad_psk ent mode suite pskid psklen psk publen pub privlen priv
    clearlen clear aadlen aad infolen info senderpublen cipherlen :
  mode = Hpke.HPKE_MODE_PSK \/ mode = Hpke.HPKE_MODE_PSKAUTH ->
  pskid = None \/ psklen = 0 \/ psk = None ->
  exists n, n <> 1 /\
    Hpke.hpke_enc ent mode suite pskid psklen psk publen pub privlen priv
      clearlen clear aadlen aad infolen info senderpublen cipherlen = Err n.
Proof.
  intros Hm Hbad. unfold Hpke.hpke_enc.
  assert (Hmc : Hpke.hpke_mode_check mode = 1) by (destruct Hm; subst; reflexivity).
  rewrite Hmc. simpl.
  assert (Hpc : Hpke.hpke_psk_check mode pskid psklen psk <> 1).
  { rewrite hpke_psk_check_iff. intros [[?|?]|(?&?&?)];
      destruct Hm; subst; try discriminate; intuition congruence. }
  destruct (Z.eqb_spec (Hpke.hpke_psk_check mode pskid psklen psk) 1);
    [contradiction|].
  eexists; split; [|reflexivity]. assumption.
Qed.

Lemma hpke_dec_bad_psk mode suite pskid psklen psk publen pub privlen priv
    evppriv enclen enc cipherlen cipher aadlen aad infolen info clearlen :
  mode = Hpke.HPKE_MODE_PSK \/ mode = Hpke.HPKE_MODE_PSKAUTH ->
  pskid = None \/ psklen = 0 \/ psk = None ->
  exists n, n <> 1 /\
    Hpke.hpke_dec mode suite pskid psklen psk publen pub privlen priv evppriv
      enclen enc cipherlen cipher aadlen aad infolen info clearlen = Err n.
Proof.
  intros Hm Hbad. unfold Hpke.hpke_dec.
  assert (Hmc : Hpke.hpke_mode_check mode = 1) by (destruct Hm; subst; reflexivity).
  rewrite Hmc. simpl.
  assert (Hpc : Hpke.hpke_psk_check mode pskid psklen psk <> 1).
  { rewrite hpke_psk_check_iff. intros [[?|?]|(?&?&?)];
      destruct Hm; subst; try discriminate; intuition congruence. }
  destruct (Z.eqb_spec (Hpke.hpke_psk_check mode pskid psklen psk) 1);
    [contradiction|].
  eexists; split; [|reflexivity]. assumption.
Qed.

(** The rows of the three AEADs. *)
Lemma aead_row_supported (id : Z) :
  id = 1 \/ id = 2 \/ id = 3 ->
  exists enc, Hpke.aead_init_func (Hpke.aead_row id) = Some enc /\
              Hpke.taglen (Hpke.aead_row id) = 16 /\
              Hpke.Nn (Hpke.aead_row id) = 12.
Proof. intros [-> | [-> | ->]]; eexists; repeat split; reflexivity. Qed.

(** C5 (the code does otherwise): [hpke_aead_dec] has no test of
    [cipherlen] against the tag length.  For a ciphertext of 1 to 15
    octets [cipherlen-taglen] wraps around, EVP_DecryptUpdate is given
    the negative length [cipherlen-16] and the tag is read 16 octets
    before the end of the buffer, that is before its start; the answer is
    whatever the EVP layer makes of that, and 1 if it accepts. *)
Theorem hpke_aead_dec_short_unguarded (suite : Hpke.hpke_suite_t)
    (key iv : bytes) (aadlen : Z) (aad : option bytes) (cipher : bytes)
    (cipherlen plainlen : Z) :
  Hpke.aead_id suite = 1 \/ Hpke.aead_id suite = 2 \/ Hpke.aead_id suite = 3 ->
  0 < cipherlen < 16 ->
  exists enc,
    Hpke.aead_init_func (Hpke.aead_row (Hpke.aead_id suite)) = Some enc /\
    Hpke.hpke_aead_dec suite key iv aadlen aad cipher cipherlen plainlen =
    match Hpke.EVP_Decrypt enc (len iv) key iv
            (Hpke.aad_octets aadlen aad) cipher
            (cipherlen - 16) (cipherlen - 16) 16 with
    | Some plaintext =>
        if len plaintext <=? plainlen then Ok plaintext else Err 494
    | None => Err 489
    end.
Proof.
  intros Hid Hlen.
  destruct (aead_row_supported _ Hid) as (enc & Henc & Htag & _).
  unfold Hpke.hpke_aead_dec, OPENSSL_malloc_ok.
  destruct (Z.eqb_spec cipherlen 0); [lia|]. cbn [negb].
  assert (Hint : to_int (wrap64 (cipherlen - 16)) = cipherlen - 16).
  { unfold to_int, wrap64.
    replace ((cipherlen - 16) mod 2 ^ 64) with (2 ^ 64 + (cipherlen - 16))
      by (apply Z.mod_unique with (q := -1); lia).
    replace ((2 ^ 64 + (cipherlen - 16)) mod 2 ^ 32)
      with (2 ^ 32 + (cipherlen - 16))
      by (apply Z.mod_unique with (q := 2 ^ 32 - 1); lia).
    destruct (Z.ltb_spec (2 ^ 32 + (cipherlen - 16)) (2 ^ 31)); lia. }
  rewrite Henc, Htag, Hint.
  eexists; split; reflexivity.
Qed.

End HpkeChecks.

(** The length 3 and a one octet ciphertext meet the hypotheses. *)
Lemma hpke_ah_decode_any_parity_witness :
  exists b, @Hpke.hpke_ah_decode Sample.hpke_h 3
              (Some (Hpke.str "abc")) true true = Ok b /\ len b = 3 / 2.
Proof. apply (hpke_ah_decode_any_parity 3); lia. Defined.

Lemma hpke_ah_decode_odd_accepted_witness :
  exists b, @Hpke.hpke_ah_decode Sample.hpke_h 3
              (Some (Hpke.str "abc")) true true = Ok b /\
            len b = (3 - 1) / 2 /\
            forall i : nat, (Z.of_nat i < (3 - 1) / 2) ->
              nth i b 0 =
              (Sample.a2b (nth (2 * i) (Hpke.str "abc") 0) * 16 +
               Sample.a2b (nth (2 * i + 1) (Hpke.str "abc") 0)) mod 256.
Proof.
  apply (@hpke_ah_decode_odd_accepted Sample.hpke_h 3 (Hpke.str "abc"));
    [lia | reflexivity].
Defined.

Lemma hpke_aead_dec_short_unguarded_witness :
  exists enc,
    Hpke.aead_init_func (Hpke.aead_row 1) = Some enc /\
    @Hpke.hpke_aead_dec Sample.libcrypto (Hpke.Build_hpke_suite_t 0x20 1 1)
      [1] [2] 0 None [9] 1 1024 =
    match @Hpke.EVP_Decrypt Sample.libcrypto enc (len [2]) [1] [2]
            (Hpke.aad_octets 0 None) [9]
            (1 - 16) (1 - 16) 16 with
    | Some plaintext =>
        if len plaintext <=? 1024 then Ok plaintext else Err 494
    | None => Err 489
    end.
Proof.
  apply (@hpke_aead_dec_short_unguarded Sample.libcrypto
           (Hpke.Build_hpke_suite_t 0x20 1 1) [1] [2] 0 None [9] 1 1024);
    simpl; lia.
Defined.

(** C9 (the code does otherwise): in the modes PSK and PSK+Auth an empty
    pskid, the C string made of its NUL alone, passes [hpke_psk_check]
    whenever the psk is set and psklen is not zero: the pskid is only
    compared with NULL.  [hpke_enc] and [hpke_dec] go on to the key
    schedule with it; run on the sample environment both return 1. *)
Theorem hpke_psk_empty_pskid_accepted :
  let suite := Hpke.Build_hpke_suite_t 0x20 1 1 in
  let skR := 5 :: repeat 0 31 in
  (forall psklen psk,
     Hpke.hpke_psk_check Hpke.HPKE_MODE_PSK (Some []) psklen (Some psk) =
       (if psklen =? 0 then 1275 else 1) /\
     Hpke.hpke_psk_check Hpke.HPKE_MODE_PSKAUTH (Some []) psklen (Some psk) =
       (if psklen =? 0 then 1275 else 1)) /\
  @Hpke.hpke_enc Sample.hpke_h Sample.libcrypto 5 Hpke.HPKE_MODE_PSK suite
     (Some []) 1 (Some [93]) 1 (Some [35]) 0 None 2 (Some [1; 2])
     0 None 0 None (Some 64) (Some 64) =
   Ok ([35], [241; 242] ++ repeat 71 16) /\
  @Hpke.hpke_dec Sample.hpke_h Sample.libcrypto Hpke.HPKE_MODE_PSK suite
     (Some []) 1 (Some [93]) 0 None 32 (Some skR) None 1 (Some [35])
     18 (Some ([241; 242] ++ repeat 71 16)) 0 None 0 None (Some 64) =
   Ok [1; 2].
Proof.
  cbv zeta. split.
  - intros psklen psk. unfold Hpke.hpke_psk_check. cbn [Z.eqb orb negb notnull
      Hpke.HPKE_MODE_PSK Hpke.HPKE_MODE_PSKAUTH Hpke.HPKE_MODE_BASE
      Hpke.HPKE_MODE_AUTH Pos.eqb].
    destruct (psklen =? 0); split; reflexivity.
  - vm_compute. repeat split.
Qed.

(** ** The round trip of hpke_enc and hpke_dec *)

Section RoundTrip.
Context {H : Hpke.hpke_h} {L : Hpke.libcrypto}.

Lemma at_line_Ok {A} n (r : result A) a : at_line n r = Ok a -> r = Ok a.
Proof. destruct r; simpl; congruence. Qed.

Ltac ok_step Hx :=
  match type of Hx with
  | rbind ?r _ = Ok _ =>
      let E := fresh "E" in destruct r eqn:E; simpl in Hx; [|discriminate..]
  | (if ?b then _ else _) = Ok _ =>
      let E := fresh "E" in destruct b eqn:E; [|discriminate]
  | match ?o with Some _ => _ | None => _ end = Ok _ =>
      let E := fresh "E" in destruct o eqn:E; [|discriminate]
  end.

(** The line offsets apart, the key schedule of [hpke_dec] is that of
    [hpke_enc]. *)
Lemma key_schedule_off off off' mode suite pskid psklen psk infolen info ss kn :
  Hpke.key_schedule off mode suite pskid psklen psk infolen info ss = Ok kn ->
  Hpke.key_schedule off' mode suite pskid psklen psk infolen info ss = Ok kn.
Proof.
  unfold Hpke.key_schedule. intros Hk.
  repeat ok_step Hk.
  repeat match goal with
         | Hx : at_line _ _ = Ok _ |- _ => apply at_line_Ok in Hx
         end.
  repeat match goal with
         | Hx : ?r = _ |- context [?r] => rewrite Hx; simpl
         end.
  first [exact Hk | reflexivity].
Qed.

Lemma hpke_do_kem_agree suite key1 key1enc key2 key2enc key1' key2' :
  Hpke.EVP_PKEY_derive key1' key2' = Hpke.EVP_PKEY_derive key1 key2 ->
  Hpke.hpke_do_kem false suite key1' key2enc key2' key1enc None [] =
  Hpke.hpke_do_kem true suite key1 key1enc key2 key2enc None [].
Proof.
  intros Hd. unfold Hpke.hpke_do_kem. rewrite Hd.
  rewrite (Z.add_comm (len key2enc)). reflexivity.
Qed.

Lemma to_int_small x : 0 <= x < 2 ^ 31 -> to_int (wrap64 x) = x.
Proof.
  intros Hx. unfold to_int, wrap64.
  rewrite (Z.mod_small x (2 ^ 64)) by lia.
  rewrite (Z.mod_small x (2 ^ 32)) by lia.
  destruct (Z.ltb_spec x (2 ^ 31)); lia.
Qed.

Lemma len_app {A} (a b : list A) : len (a ++ b) = len a + len b.
Proof. unfold len. rewrite length_app. lia. Qed.

Lemma len_nonneg {A} (a : list A) : 0 <= len a.
Proof. unfold len. lia. Qed.

Lemma hpke_aead_round_trip suite key iv aadlen aad pt ct :
  Hpke.HPKE_MAXSIZE < 2 ^ 31 ->
  Hpke.taglen (Hpke.aead_row (Hpke.aead_id suite)) = 16 ->
  aead_opens (Hpke.aad_octets aadlen aad) pt 16 ->
  Hpke.hpke_aead_enc suite key iv aadlen aad pt Hpke.HPKE_MAXSIZE = Ok ct ->
  Hpke.hpke_aead_dec suite key iv aadlen aad ct (len ct) Hpke.HPKE_MAXSIZE =
  Ok pt.
Proof.
  intros Hmax Htag Haead. unfold Hpke.hpke_aead_enc, Hpke.hpke_aead_dec.
  rewrite Htag. intros He.
  repeat ok_step He.
  injection He as <-.
  destruct (Haead _ _ _ _ E2) as (Hl1 & Hl2 & Hd).
  assert (Hlen : len (p.1 ++ take (Z.to_nat 16) p.2) = len pt + 16).
  { rewrite len_app, Hl1. unfold len in *. rewrite length_take. lia. }
  rewrite Hlen. rewrite E0.
  replace (len pt + 16 - 16) with (len pt) by lia.
  pose proof (len_nonneg pt) as Hpos.
  apply Z.leb_le in E.
  rewrite to_int_small by lia.
  rewrite Hd.
  destruct (Z.leb_spec (len pt) Hpke.HPKE_MAXSIZE); [reflexivity|lia].
Qed.

Lemma rd_all (b : bytes) : Hpke.rd (len b) (Some b) = b.
Proof.
  unfold Hpke.rd, len. simpl. rewrite Nat2Z.id. apply firstn_all.
Qed.

Lemma suite_taglen suite :
  Hpke.hpke_suite_check suite = 1 ->
  Hpke.taglen (Hpke.aead_row (Hpke.aead_id suite)) = 16.
Proof.
  unfold Hpke.hpke_suite_check. intros Hs.
  destruct (Hpke.aead_scan (Hpke.aead_id suite) Hpke.hpke_aead_tab =? 1) eqn:E.
  - apply Z.eqb_eq, aead_scan_supported, aead_row_supported in E.
    destruct E as (enc & _ & Ht & _). exact Ht.
  - rewrite andb_false_r in Hs. discriminate.
Qed.

(** The one failure of [hpke_aead_dec] that speaks of the tag: it
    answers line 489 exactly when the EVP decryption refuses. *)
Lemma hpke_aead_dec_refusal suite key iv aadlen aad cipher cipherlen plainlen e :
  Hpke.aead_init_func (Hpke.aead_row (Hpke.aead_id suite)) = Some e ->
  cipherlen <> 0 ->
  Hpke.hpke_aead_dec suite key iv aadlen aad cipher cipherlen plainlen =
    Err 489 <->
  Hpke.EVP_Decrypt e (len iv) key iv (Hpke.aad_octets aadlen aad) cipher
    (to_int (wrap64 (cipherlen - Hpke.taglen (Hpke.aead_row (Hpke.aead_id suite)))))
    (cipherlen - Hpke.taglen (Hpke.aead_row (Hpke.aead_id suite)))
    (Hpke.taglen (Hpke.aead_row (Hpke.aead_id suite))) = None.
Proof.
  intros He Hc. unfold Hpke.hpke_aead_dec, OPENSSL_malloc_ok. rewrite He.
  destruct (Z.eqb_spec cipherlen 0) as [|_]; [contradiction|]. cbn [negb].
  destruct (Hpke.EVP_Decrypt _ _ _ _ _ _ _ _ _) as [plaintext|].
  - destruct (len plaintext <=? plainlen); split; discriminate.
  - split; reflexivity.
Qed.

(** Half of C1, base mode: what [hpke_enc] produced for the public key [pub],
    [hpke_dec] turns back into the cleartext with a private key [skR]
    whose public key is [pub], provided that skR and the sender's
    ephemeral public key agree with the ephemeral private key and [pub]
    on the Diffie-Hellman value, and that the AEAD opens what it sealed. *)
Theorem hpke_base_round_trip (ent : Hpke.Entropy) (suite : Hpke.hpke_suite_t)
    (pskid : option bytes) (psklen : Z) (psk : option bytes)
    (publen : Z) (pub : option bytes) (privlen : Z) (priv : option bytes)
    (clearlen : Z) (clear : option bytes) (aadlen : Z) (aad : option bytes)
    (infolen : Z) (info : option bytes) (senderpublen cipherlen : option Z)
    (skR : Hpke.EVP_PKEY) (enc ct : bytes) (clearcap : Z) :
  Hpke.HPKE_MAXSIZE < 2 ^ 31 ->
  Hpke.EVP_PKEY_get1_tls_encodedpoint skR = Hpke.rd publen pub ->
  (forall pkR pkE,
     Hpke.load_public suite (Hpke.rd publen pub) = Some pkR ->
     Hpke.EVP_PKEY_keygen pkR ent = Some pkE ->
     exists pkE',
       Hpke.load_public suite (Hpke.EVP_PKEY_get1_tls_encodedpoint pkE) =
         Some pkE' /\
       Hpke.EVP_PKEY_derive skR pkE' = Hpke.EVP_PKEY_derive pkE pkR) ->
  aead_opens (Hpke.aad_octets aadlen aad) (Hpke.rd clearlen clear) 16 ->
  0 < len (Hpke.rd publen pub) ->
  len (Hpke.rd clearlen clear) <= clearcap ->
  Hpke.hpke_enc ent Hpke.HPKE_MODE_BASE suite pskid psklen psk publen pub
    privlen priv clearlen clear aadlen aad infolen info senderpublen
    cipherlen = Ok (enc, ct) ->
  Hpke.hpke_dec Hpke.HPKE_MODE_BASE suite pskid psklen psk 0 None 0 None
    (Some skR) (len enc) (Some enc) (len ct) (Some ct) aadlen aad
    infolen info (Some clearcap) = Ok (Hpke.rd clearlen clear).
Proof.
  intros Hmax Hpub Hdh Haead Hpos Hcap. unfold Hpke.hpke_enc, Hpke.hpke_dec.
  cbn [Hpke.hpke_mode_check Hpke.hpke_psk_check Hpke.HPKE_MODE_BASE Z.eqb orb
       Hpke.is_auth_mode Hpke.is_psk_mode Hpke.HPKE_MODE_PSK
       Hpke.HPKE_MODE_AUTH Hpke.HPKE_MODE_PSKAUTH andb negb Pos.eqb notnull].
  intros He.
  destruct (Hpke.hpke_suite_check suite =? 1) eqn:Hsuite; [|discriminate].
  apply Z.eqb_eq in Hsuite.
  destruct pub as [pubbuf|]; [|discriminate].
  destruct clear as [clearbuf|]; [|discriminate].
  destruct senderpublen as [senderpubcap|]; [|discriminate].
  destruct cipherlen as [ciphercap|]; [|discriminate].
  destruct (Hpke.load_public suite (Hpke.rd publen (Some pubbuf)))
    as [pkR|] eqn:HpkR; [|discriminate].
  destruct (Hpke.EVP_PKEY_keygen pkR ent) as [pkE|] eqn:HpkE; [|discriminate].
  destruct (negb (len (Hpke.EVP_PKEY_get1_tls_encodedpoint pkE) =? 0));
    [|discriminate].
  cbn [rbind fst snd] in He |- *.
  destruct (Hpke.hpke_do_kem true suite pkE _ pkR _ None []) as [ss| |] eqn:Hkem;
    [|discriminate..].
  cbn [rbind] in He.
  destruct (Hpke.key_schedule 0 _ suite pskid psklen psk infolen info ss)
    as [kn| |] eqn:Hks; [|discriminate..].
  cbn [rbind] in He.
  destruct (Hpke.hpke_aead_enc suite kn.1 kn.2 aadlen aad _ _)
    as [lcipher| |] eqn:Hae; [|discriminate..].
  cbn [rbind] in He.
  destruct (len lcipher <=? ciphercap); [|discriminate].
  destruct (len (Hpke.EVP_PKEY_get1_tls_encodedpoint pkE) <=? senderpubcap);
    [|discriminate].
  injection He as <- <-.
  (* the same steps in [hpke_dec] *)
  rewrite rd_all.
  destruct (Hdh pkR pkE eq_refl HpkE) as (pkE' & HpkE' & Hderive).
  rewrite HpkE', Hpub.
  destruct (Z.eqb_spec (len (Hpke.rd publen (Some pubbuf))) 0) as [Hz|_];
    [lia|].
  cbn [negb]. change (Hpke.rd 0 None) with (@nil Z).
  rewrite (hpke_do_kem_agree suite pkE _ pkR _ skR pkE' Hderive), Hkem.
  cbn [rbind].
  rewrite (key_schedule_off 0 339 _ _ _ _ _ _ _ _ _ Hks). cbn [rbind].
  rewrite (hpke_aead_round_trip suite _ _ _ _ _ _ Hmax (suite_taglen _ Hsuite)
             Haead Hae).
  cbn [rbind].
  destruct (Z.leb_spec (len (Hpke.rd clearlen (Some clearbuf))) clearcap);
    [reflexivity|lia].
Qed.
End RoundTrip.

(** The toy libcrypto, X25519 with HKDF-SHA256 and AES-128-GCM, two
    octets of cleartext, three of AAD and four of info meet the
    hypotheses. *)
Lemma hpke_base_round_trip_witness :
  @Hpke.hpke_dec Sample.hpke_h Sample.libcrypto Hpke.HPKE_MODE_BASE
    (Hpke.Build_hpke_suite_t 0x20 1 1) None 0 None 0 None 0 None
    (Some (Sample.of_private (5 :: repeat 0 31)))
    (len [35]) (Some [35])
    (len ([225; 226] ++ repeat 163 16)) (Some ([225; 226] ++ repeat 163 16))
    3 (Some [7; 8; 9]) 4 (Some [1; 1; 1; 1]) (Some 64) =
  Ok (Hpke.rd 2 (Some [1; 2])).
Proof.
  apply (@hpke_base_round_trip Sample.hpke_h Sample.libcrypto 5
           (Hpke.Build_hpke_suite_t 0x20 1 1) None 0 None 1 (Some [35])
           0 None 2 (Some [1; 2]) 3 (Some [7; 8; 9]) 4 (Some [1; 1; 1; 1])
           (Some 64) (Some 64) (Sample.of_private (5 :: repeat 0 31))
           [35] ([225; 226] ++ repeat 163 16) 64).
  - simpl. lia.
  - reflexivity.
  - intros pkR pkE HpkR HpkE.
    injection HpkR as <-. injection HpkE as <-.
    exists (Sample.of_public [35]). split; reflexivity.
  - intros c key iv r Hr. injection Hr as <-.
    split; [reflexivity|]. split; [change (16 <= 16); lia|].
    cbn [Hpke.EVP_Decrypt Sample.libcrypto]. unfold Sample.open.
    rewrite bool_decide_eq_true_2 by reflexivity.
    cbv -[Z.add Z.sub Z.modulo Sample.sum].
    rewrite !Zminus_mod_idemp_l.
    replace (1 + Sample.sum key - Sample.sum key) with 1 by lia.
    replace (2 + Sample.sum key - Sample.sum key) with 2 by lia.
    reflexivity.
  - vm_compute. reflexivity.
  - vm_compute. discriminate.
  - vm_compute. reflexivity.
Defined.

(** ** Properties of the ECHConfigs parser *)

(** Case analysis on the scrutinee at the head of the goal, up to the
    extension loop. *)
Ltac head_case :=
  match goal with
  | |- (match Ech.exts_loop _ _ _ with _ => _ end) <> _ => fail 1
  | |- (match Ech.exts_loop _ _ _ with _ => _ end) = _ -> _ => fail 1
  | |- (match ?x with _ => _ end) <> _ =>
      first [is_var x; destruct x | destruct x eqn:?]
  | |- (match ?x with _ => _ end) = _ -> _ =>
      first [is_var x; destruct x | destruct x eqn:?]
  end.

Section Parser.
Context {E : Ech.ech_h}.

Lemma PACKET_get_net_2_length pkt v pkt' :
  Ech.PACKET_get_net_2 pkt = Some (v, pkt') ->
  length pkt = S (S (length pkt')).
Proof.
  destruct pkt as [|b0 [|b1 rest]]; simpl; intros Heq; inversion Heq.
  reflexivity.
Qed.

Lemma PACKET_copy_bytes_length pkt n b pkt' :
  Ech.PACKET_copy_bytes pkt n = Some (b, pkt') ->
  (length pkt' <= length pkt)%nat.
Proof.
  unfold Ech.PACKET_copy_bytes.
  destruct (Ech.PACKET_remaining pkt <? n); intros Heq; inversion Heq.
  rewrite length_drop. lia.
Qed.

Lemma PACKET_get_length_prefixed_2_length pkt sub pkt' :
  Ech.PACKET_get_length_prefixed_2 pkt = Some (sub, pkt') ->
  (length pkt' <= length pkt)%nat.
Proof.
  unfold Ech.PACKET_get_length_prefixed_2.
  destruct (Ech.PACKET_get_net_2 pkt) as [[l tmp]|] eqn:H2; [|discriminate].
  intros Hc. apply PACKET_get_net_2_length in H2.
  apply PACKET_copy_bytes_length in Hc. lia.
Qed.

(** The extension loop reads at least four octets a turn, so the length
    of the packet is fuel enough. *)
Lemma exts_loop_fuel fuel exts acc :
  (length exts <= fuel)%nat -> Ech.exts_loop fuel exts acc <> Ech.NoFuel.
Proof.
  revert exts acc. induction fuel as [|fuel IH]; intros exts acc Hlen; simpl.
  - destruct exts; [|simpl in Hlen; lia]. discriminate.
  - destruct (Ech.PACKET_remaining exts >? 0); [|discriminate].
    destruct (Ech.PACKET_get_net_2 exts) as [[ty e1]|] eqn:H1; [|discriminate].
    destruct (0 >=? Ech.ECH_MAX_RRVALUE_LEN); [discriminate|].
    destruct (Ech.PACKET_get_net_2 e1) as [[l e2]|] eqn:H2; [|discriminate].
    apply PACKET_get_net_2_length in H1, H2.
    destruct (negb (l =? 0)).
    + destruct (Ech.PACKET_copy_bytes e2 l) as [[v e3]|] eqn:H3; [|discriminate].
      apply PACKET_copy_bytes_length in H3. apply IH. lia.
    + apply IH. lia.
Qed.

Lemma draft_09_contents_fuel version pkt :
  Ech.draft_09_contents version pkt <> Ech.NoFuel.
Proof.
  unfold Ech.draft_09_contents. cbv zeta.
  repeat (head_case; try discriminate).
  match goal with
  | |- context [Ech.exts_loop (length ?e) ?e []] =>
      pose proof (exts_loop_fuel (length e) e [] (Nat.le_refl _)) as Hf;
      destruct (Ech.exts_loop (length e) e [])
  end; [discriminate|discriminate|contradiction].
Qed.

Lemma draft_09_contents_length version pkt ec pkt' :
  Ech.draft_09_contents version pkt = Ech.Done (ec, pkt') ->
  (length pkt' <= length pkt)%nat.
Proof.
  unfold Ech.draft_09_contents. cbv zeta.
  repeat (head_case; try discriminate).
  destruct (Ech.exts_loop _ _ _); try discriminate.
  intros Heq; inversion Heq; subst.
  repeat match goal with
  | Hx : Ech.PACKET_get_length_prefixed_2 _ = Some _ |- _ =>
      apply PACKET_get_length_prefixed_2_length in Hx
  | Hx : Ech.PACKET_get_net_2 _ = Some _ |- _ =>
      apply PACKET_get_net_2_length in Hx
  end.
  lia.
Qed.

(** Every turn of the record loop takes the four octets of a record
    header off the packet: with more fuel than octets it never runs
    dry. *)
Lemma records_loop_fuel fuel not_to_consume remaining pkt te :
  (length pkt < fuel)%nat ->
  Ech.records_loop fuel not_to_consume remaining pkt te <> Ech.NoFuel.
Proof.
  revert remaining pkt te.
  induction fuel as [|fuel IH]; intros remaining pkt te Hlen; [lia|]. simpl.
  destruct (remaining >? not_to_consume); [|discriminate].
  destruct (Ech.PACKET_get_net_2 pkt) as [[v p1]|] eqn:H1; [|discriminate].
  destruct (Ech.PACKET_get_net_2 p1) as [[l p2]|] eqn:H2; [|discriminate].
  apply PACKET_get_net_2_length in H1, H2.
  destruct (wrap32 (l - 2) >? Ech.PACKET_remaining p2); [discriminate|].
  destruct (negb (v =? Ech.ECH_DRAFT_09_VERSION)).
  - destruct (negb (OPENSSL_malloc_ok l)); [discriminate|].
    destruct (Ech.PACKET_copy_bytes p2 l) as [[b p3]|] eqn:H3; [|discriminate].
    apply PACKET_copy_bytes_length in H3. apply IH. lia.
  - pose proof (draft_09_contents_fuel v p2) as Hf.
    destruct (Ech.draft_09_contents v p2) as [[ec p3]| |] eqn:H3;
      [|discriminate|contradiction].
    apply draft_09_contents_length in H3. apply IH. lia.
Qed.

(** The fuel that [ECHConfigs_from_binary] gives its loop is enough: a
    NULL answer is an error of the parse, never a lack of fuel. *)
Lemma ECHConfigs_from_binary_fuel_enough binbuf binblen leftover :
  Ech.ECHConfigs_from_binary_fuel (S (Z.to_nat binblen)) binbuf binblen
    leftover <> Ech.NoFuel.
Proof.
  unfold Ech.ECHConfigs_from_binary_fuel.
  repeat match goal with
  | |- context [if ?b then _ else _] => destruct b; try discriminate
  end.
  destruct binbuf as [buf|]; [|discriminate].
  destruct (Ech.PACKET_get_net_2 _) as [[olen p1]|] eqn:H1; [|discriminate].
  destruct (_ || _); [discriminate|].
  apply PACKET_get_net_2_length in H1. rewrite length_take in H1.
  pose proof (records_loop_fuel (S (Z.to_nat binblen)) (binblen - olen)
                (Ech.PACKET_remaining p1) p1 []) as Hf.
  destruct (Ech.records_loop _ _ _ _ _) as [[p te]| |];
    [|discriminate|exfalso; apply Hf; [lia|reflexivity]].
  destruct (_ || _); discriminate.
Qed.

End Parser.

Section ParserCases.
Context {E : Ech.ech_h}.

(** A record that [draft_09_contents] accepts has a public_name of 2 to
    255 octets. *)
Lemma draft_09_public_name_bounds version pkt ec pkt' :
  Ech.draft_09_contents version pkt = Ech.Done (ec, pkt') ->
  2 <= len (Ech.public_name ec) <= 255.
Proof.
  unfold Ech.draft_09_contents. cbv zeta.
  destruct (Ech.PACKET_get_length_prefixed_2 pkt) as [[name p1]|];
    [|discriminate].
  unfold Ech.PACKET_remaining at 1 2, Ech.TLSEXT_MAXLEN_host_name.
  destruct (Z.leb_spec (len name) 1); [discriminate|].
  destruct (Z.gtb_spec (len name) 255); [discriminate|]. cbn [orb].
  repeat (head_case; try discriminate).
  destruct (Ech.exts_loop _ _ _); try discriminate.
  intros Heq; inversion Heq; subst. simpl. lia.
Qed.

(** The sample of the source is read as one record for example.com, with
    nothing left over. *)
Lemma pem_example_parses :
  exists er,
    Ech.ECHConfigs_from_binary (Some Sample.pem_example) 69 true = Some (er, 0) /\
    map Ech.version (Ech.recs er) = [0xff09] /\
    map Ech.public_name (Ech.recs er) = [Hpke.str "example.com"] /\
    map Ech.kem_id (Ech.recs er) = [0x0020] /\
    map Ech.ciphersuites (Ech.recs er) = [[[0; 1; 0; 1]]] /\
    map Ech.maximum_name_length (Ech.recs er) = [0] /\
    map Ech.exts (Ech.recs er) = [[]].
Proof. eexists. split; [reflexivity|]. repeat split. Qed.

(** A record of another version followed by a known one is skipped. *)
Lemma leading_unknown_version_skipped :
  let buf := Sample.configs (Sample.record_ff08 ++ Sample.record_ff09) in
  exists er,
    Ech.ECHConfigs_from_binary (Some buf) (len buf) true = Some (er, 0) /\
    map Ech.version (Ech.recs er) = [0xff09].
Proof. eexists. split; reflexivity. Qed.

(** C3 (the code does otherwise): a list whose last record has a version
    other than 0xff09 and more than two octets of content is not parsed:
    the [continue] that skips the record leaves [remaining] at its value
    from before the skip, which is more than the two octets of
    [not_to_consume], the loop is entered once more and fails to read a
    version from the empty packet.  [ECHConfigs_from_binary] answers NULL
    and the draft-09 record in front is lost.  This is so with the record
    of the example in front and with the same record under its exact
    length, and also when the length field of the unknown record is two
    more than its content, as that of the example is: the skip then asks
    for two octets that are not there. *)
Theorem trailing_unknown_version_fails :
  let parse records :=
    let buf := Sample.configs records in
    Ech.ECHConfigs_from_binary (Some buf) (len buf) true in
  parse (Sample.record_ff09 ++ Sample.record_ff08) = None /\
  parse (Sample.record_named (Hpke.str "example.com") ++ Sample.record_ff08) =
    None /\
  parse (Sample.record_ff09 ++ Sample.record_ff08_counted) = None.
Proof. cbv zeta. repeat split; vm_compute; reflexivity. Qed.

(** C7 (the code does otherwise): the test on the public_name is
    [public_name_len<=1]: a record whose public_name is the one octet
    "a" is refused, and so is the whole list; with two octets, and with
    255, the same record is accepted, with 0 and with 256 it is not. *)
Theorem public_name_one_octet_rejected :
  let parse name :=
    let buf := Sample.configs (Sample.record_named name) in
    Ech.ECHConfigs_from_binary (Some buf) (len buf) true in
  parse [97] = None /\
  parse [] = None /\
  (exists er, parse [97; 98] = Some (er, 0) /\
              map Ech.public_name (Ech.recs er) = [[97; 98]]) /\
  (exists er, parse (repeat 97 255) = Some (er, 0) /\
              map Ech.public_name (Ech.recs er) = [repeat 97 255]) /\
  parse (repeat 97 256) = None.
Proof.
  cbv zeta. split; [reflexivity|]. split; [reflexivity|].
  split; [eexists; split; reflexivity|].
  split; [eexists; split; vm_compute; reflexivity|].
  vm_compute. reflexivity.
Qed.

End ParserCases.

(** ** Properties of the ingestion interface *)

Section Ingestion.
Context {E : Ech.ech_h} {B : Ech.evp_encode} {H : Hpke.hpke_h}.

(** C10: an input of length zero, or of ECH_MAX_RRVALUE_LEN octets or
    more, is turned away by [local_ech_add] with the value 0 whatever the
    format argument, the input and the decoders are, and [SSL_ech_add]
    and [SSL_CTX_ech_add] then return 0 and leave the connection and the
    context as they were. *)
Theorem ech_add_rejects_bad_length (con : option Ech.SSL)
    (ctx : option Ech.SSL_CTX) (ekfmt : Ech.ech_fmt) (eklen : Z)
    (ekval : option bytes) (num_echs : option Z) :
  eklen = 0 \/ Ech.ECH_MAX_RRVALUE_LEN <= eklen ->
  Ech.local_ech_add ekfmt eklen ekval (notnull num_echs) = Err 0 /\
  Ech.SSL_ech_add con ekfmt eklen ekval num_echs = Some (0, con) /\
  Ech.SSL_CTX_ech_add ctx ekfmt eklen ekval num_echs = Some (0, ctx).
Proof.
  intros Hlen.
  assert (Hl : Ech.local_ech_add ekfmt eklen ekval (notnull num_echs) = Err 0).
  { unfold Ech.local_ech_add. destruct ekval as [ekbuf|]; [|reflexivity].
    destruct Hlen as [->|Hmax].
    - reflexivity.
    - destruct ((eklen =? 0) || negb (notnull num_echs)); [reflexivity|].
      destruct (Z.geb_spec eklen Ech.ECH_MAX_RRVALUE_LEN); [reflexivity|lia]. }
  split; [exact Hl|].
  unfold Ech.SSL_ech_add, Ech.SSL_CTX_ech_add. rewrite Hl.
  destruct con, ctx; auto.
Qed.

End Ingestion.

Lemma ech_add_rejects_bad_length_witness :
  @Ech.local_ech_add Sample.ech_h Sample.evp_encode Sample.hpke_h
    Ech.ECH_FMT_GUESS 2000 (Some (repeat 65 2000)) true = Err 0 /\
  @Ech.SSL_ech_add Sample.ech_h Sample.evp_encode Sample.hpke_h
    None Ech.ECH_FMT_GUESS 2000 (Some (repeat 65 2000)) (Some 0) =
    Some (0, None) /\
  @Ech.SSL_CTX_ech_add Sample.ech_h Sample.evp_encode Sample.hpke_h
    (Some (Ech.Build_SSL_CTX None 0 0)) Ech.ECH_FMT_GUESS 2000
    (Some (repeat 65 2000)) (Some 0) =
    Some (0, Some (Ech.Build_SSL_CTX None 0 0)).
Proof.
  apply (@ech_add_rejects_bad_length Sample.ech_h Sample.evp_encode
           Sample.hpke_h None (Some (Ech.Build_SSL_CTX None 0 0))
           Ech.ECH_FMT_GUESS 2000 (Some (repeat 65 2000)) (Some 0)).
  right. simpl. lia.
Defined.

(** ** Properties of the inner ClientHello encoding *)

Section Encoding.
Context {E : Ech.ech_h}.

Lemma more_more pkt a b :
  Wire.more (Wire.more pkt a) b = Wire.more pkt (a ++ b).
Proof. destruct pkt as [|sub subs]; simpl; [reflexivity|]. by rewrite app_assoc. Qed.

Lemma more_nil pkt : Wire.more pkt [] = pkt.
Proof.
  destruct pkt as [|[n w] subs]; simpl; [reflexivity|]. by rewrite app_nil_r.
Qed.

Lemma more_open pkt b : pkt <> [] -> Wire.more pkt b <> [].
Proof. destruct pkt; simpl; [contradiction|discriminate]. Qed.

Lemma WPACKET_memcpy_more pkt b :
  pkt <> [] -> Ech.WPACKET_memcpy pkt b = Some (Wire.more pkt b).
Proof. destruct pkt; [contradiction|reflexivity]. Qed.

Lemma WPACKET_put_bytes_u16_more pkt v :
  pkt <> [] -> Wire.u16 v ->
  Ech.WPACKET_put_bytes_u16 pkt v = Some (Wire.more pkt (Ech.be 2 v)).
Proof.
  intros Hp [Hlo Hhi]. unfold Ech.WPACKET_put_bytes_u16, Ech.WPACKET_put_bytes.
  change (256 ^ Z.of_nat 2) with 65536.
  destruct (Z.leb_spec 0 v); [|lia]. destruct (Z.ltb_spec v 65536); [|lia].
  simpl andb. cbv iota. by apply WPACKET_memcpy_more.
Qed.

Lemma WPACKET_sub_memcpy_u16_more pkt d :
  pkt <> [] -> Wire.u16 (len d) ->
  Ech.WPACKET_sub_memcpy_u16 pkt d =
  Some (Wire.more pkt (Ech.be 2 (len d) ++ d)).
Proof.
  intros Hp [Hlo Hhi]. destruct pkt as [|sub subs]; [contradiction|].
  unfold Ech.WPACKET_sub_memcpy_u16. simpl.
  change (256 ^ Z.of_nat 2) with 65536.
  destruct (Z.ltb_spec (len d) 65536); [|lia]. reflexivity.
Qed.

Lemma put_types_more pkt types :
  pkt <> [] -> Forall Wire.u16 types ->
  Ech.put_types pkt types =
  Some (Wire.more pkt (concat (map (Ech.be 2) types))).
Proof.
  intros Hp Hall. revert pkt Hp.
  induction Hall as [|t types Ht Hall IH]; intros pkt Hp.
  - simpl. by rewrite more_nil.
  - cbn [Ech.put_types map concat].
    rewrite WPACKET_put_bytes_u16_more by assumption. simpl.
    rewrite IH by (by apply more_open). by rewrite more_more.
Qed.

Lemma put_outer_extensions_more pkt outer_only n :
  pkt <> [] ->
  Wire.u16 Ech.TLSEXT_TYPE_outer_extensions -> Wire.u16 (2 * n) ->
  Forall Wire.u16 (take (Z.to_nat n) outer_only) ->
  Ech.put_outer_extensions pkt outer_only n =
  Some (Wire.more pkt (Wire.outer_extensions_wire outer_only n)).
Proof.
  intros Hp Hty Hn Hall. unfold Ech.put_outer_extensions.
  rewrite WPACKET_put_bytes_u16_more by assumption. simpl.
  rewrite WPACKET_put_bytes_u16_more by (try apply more_open; assumption).
  simpl. rewrite put_types_more by (repeat apply more_open; assumption).
  rewrite !more_more. reflexivity.
Qed.

(** An extension that is not compressed is written as type, length,
    value. *)
Lemma put_raw_more pkt r :
  pkt <> [] -> Wire.raw_fits r ->
  match Ech.data r with
  | Some d =>
      pkt ← Ech.WPACKET_put_bytes_u16 pkt (Ech.type r);
      Ech.WPACKET_sub_memcpy_u16 pkt d
  | None =>
      pkt ← Ech.WPACKET_put_bytes_u16 pkt (Ech.type r);
      Ech.WPACKET_put_bytes_u16 pkt 0
  end = Some (Wire.more pkt (Wire.raw_wire r)).
Proof.
  intros Hp [Hty Hlen]. unfold Wire.raw_wire, Wire.ext_wire.
  destruct (Ech.data r) as [d|]; simpl in *.
  - rewrite WPACKET_put_bytes_u16_more by assumption. simpl.
    rewrite WPACKET_sub_memcpy_u16_more by (try apply more_open; assumption).
    by rewrite more_more.
  - rewrite WPACKET_put_bytes_u16_more by assumption. simpl.
    rewrite WPACKET_put_bytes_u16_more
      by (try apply more_open; try assumption; unfold Wire.u16; lia).
    rewrite more_more. simpl. rewrite ?app_nil_r. reflexivity.
Qed.

(** Once the synthetic extension is out, the loop only writes the
    extensions that are present and not compressed. *)
Lemma inner_exts_loop_after raws outer_only n pkt :
  pkt <> [] -> Forall Wire.raw_fits raws ->
  Ech.inner_exts_loop raws outer_only n true pkt =
  Some (Wire.more pkt (Wire.sent_wire outer_only n raws)).
Proof.
  intros Hp Hall. revert pkt Hp.
  induction Hall as [|r raws Hr Hall IH]; intros pkt Hp.
  - simpl. by rewrite more_nil.
  - cbn [Ech.inner_exts_loop]. unfold Wire.sent_wire, Wire.sent.
    cbn [List.filter].
    destruct (Ech.present r =? 0); cbn [negb andb orb].
    { rewrite IH by assumption. reflexivity. }
    destruct (Ech.tobecompressed (Ech.type r) outer_only n);
      cbn [negb andb orb mbind option_bind].
    { rewrite IH by assumption. reflexivity. }
    rewrite put_raw_more by assumption. cbn [mbind option_bind].
    rewrite IH by (by apply more_open).
    rewrite more_more. reflexivity.
Qed.

(** Before the first compressed extension nothing but the extensions
    themselves is written. *)
Lemma inner_exts_loop_before pre rest outer_only n pkt :
  pkt <> [] -> Forall Wire.raw_fits pre ->
  Forall (fun r => Wire.compressed outer_only n r = false) pre ->
  Ech.inner_exts_loop (pre ++ rest) outer_only n false pkt =
  Ech.inner_exts_loop rest outer_only n false
    (Wire.more pkt (Wire.sent_wire outer_only n pre)).
Proof.
  intros Hp Hfit Hnc. revert pkt Hp Hnc.
  induction Hfit as [|r pre Hr Hfit IH]; intros pkt Hp Hnc.
  - simpl. by rewrite more_nil.
  - inversion Hnc as [|? ? Hc Hnc']; subst.
    cbn [app Ech.inner_exts_loop]. unfold Wire.sent_wire, Wire.sent.
    cbn [List.filter]. unfold Wire.compressed in Hc.
    destruct (Ech.present r =? 0); cbn [negb andb orb] in *.
    { rewrite IH by assumption. reflexivity. }
    rewrite Hc. cbn [negb andb orb mbind option_bind].
    rewrite put_raw_more by assumption. cbn [mbind option_bind].
    rewrite IH by (try apply more_open; assumption).
    rewrite more_more. reflexivity.
Qed.

(** C2 (as amended): when some extension that is present is marked for
    compression, the loop of [ech_encode_inner] writes exactly one
    synthetic extension, in the place of the first compressed extension
    and not after the others: the extensions before it that are sent,
    then the type outer_extensions, 2*N as a two octet field and the N
    recorded types in the order of [outer_only], then the extensions
    after it that are sent. *)
Theorem outer_extensions_at_first_compressed
    (pre post : list Ech.RAW_EXTENSION) (r : Ech.RAW_EXTENSION)
    (outer_only : list Z) (n : Z) (pkt : Ech.WPACKET) :
  pkt <> [] ->
  Forall Wire.raw_fits (pre ++ r :: post) ->
  Wire.u16 Ech.TLSEXT_TYPE_outer_extensions -> Wire.u16 (2 * n) ->
  Forall Wire.u16 (take (Z.to_nat n) outer_only) ->
  Forall (fun x => Wire.compressed outer_only n x = false) pre ->
  Wire.compressed outer_only n r = true ->
  Ech.inner_exts_loop (pre ++ r :: post) outer_only n false pkt =
  Some (Wire.more pkt
          (Wire.sent_wire outer_only n pre ++
           Wire.outer_extensions_wire outer_only n ++
           Wire.sent_wire outer_only n post)).
Proof.
  intros Hp Hfit Hty Hn Htypes Hpre Hr.
  apply Forall_app in Hfit as [Hfit_pre Hfit_post].
  inversion Hfit_post as [|? ? _ Hfit_post']; subst.
  rewrite inner_exts_loop_before by assumption.
  cbn [Ech.inner_exts_loop]. unfold Wire.compressed in Hr.
  destruct (Ech.present r =? 0); cbn [negb andb] in Hr; [discriminate|].
  rewrite Hr. cbn [negb andb orb mbind option_bind].
  rewrite put_outer_extensions_more by (try apply more_open; assumption).
  cbn [mbind option_bind].
  rewrite inner_exts_loop_after by (try repeat apply more_open; assumption).
  rewrite !more_more. reflexivity.
Qed.

(** Without a compressed extension among those present, no synthetic
    extension is written, whatever [outer_only] holds. *)
Lemma no_outer_extensions_without_compressed raws outer_only n pkt :
  pkt <> [] -> Forall Wire.raw_fits raws ->
  Forall (fun x => Wire.compressed outer_only n x = false) raws ->
  Ech.inner_exts_loop raws outer_only n false pkt =
  Some (Wire.more pkt (Wire.sent_wire outer_only n raws)).
Proof.
  intros Hp Hfit Hnc.
  rewrite <- (app_nil_r raws) at 1.
  rewrite inner_exts_loop_before by assumption. reflexivity.
Qed.

End Encoding.

(** Scenario S4 meets the hypotheses: its extension block is the
    synthetic extension, then key_share, then server_name. *)
Lemma outer_extensions_at_first_compressed_witness :
  @Ech.inner_exts_loop Sample.ech_h
    ([] ++ Sample.supported_groups ::
       [Sample.key_share; Sample.signature_algorithms; Sample.server_name])
    Sample.s4_outer_only 2 false Ech.WPACKET_init =
  Some (Wire.more Ech.WPACKET_init
          (Wire.sent_wire Sample.s4_outer_only 2 [] ++
           @Wire.outer_extensions_wire Sample.ech_h Sample.s4_outer_only 2 ++
           Wire.sent_wire Sample.s4_outer_only 2
             [Sample.key_share; Sample.signature_algorithms;
              Sample.server_name])).
Proof.
  apply (@outer_extensions_at_first_compressed Sample.ech_h []
           [Sample.key_share; Sample.signature_algorithms; Sample.server_name]
           Sample.supported_groups Sample.s4_outer_only 2 Ech.WPACKET_init).
  - discriminate.
  - repeat constructor; vm_compute; congruence.
  - vm_compute. split; congruence.
  - vm_compute. split; congruence.
  - repeat constructor; vm_compute; congruence.
  - constructor.
  - reflexivity.
Defined.

(** C2 (as stated) fails on scenario S4: [ech_encode_inner] succeeds, and
    in the EncodedClientHelloInner the synthetic extension comes first,
    as fd 00, 00 04, 00 0a 00 0d; the last extension is server_name.  No
    cut of the encoding ends with outer_extensions, be its body
    04 00 0a 00 0d or 00 0a 00 0d.  With the extensions in the order of
    their indices in libssl the synthetic extension stands between
    server_name and key_share. *)
Lemma s4_last_extension_is_server_name :
  exists s' encoded front,
    @Ech.ech_encode_inner Sample.ech_h Sample.libssl Sample.s4_session =
      Some (1, s') /\
    Ech.ext_encoded_innerch s' = Some encoded /\
    encoded =
      front ++ [253; 0; 0; 4; 0; 10; 0; 13] ++
      Wire.raw_wire Sample.key_share ++ Wire.raw_wire Sample.server_name /\
    (forall front', encoded <> front' ++ Wire.ext_wire 0xfd00 [4; 0; 10; 0; 13]) /\
    (forall front', encoded <> front' ++ Wire.ext_wire 0xfd00 [0; 10; 0; 13]) /\
    exists s'' encoded',
      @Ech.ech_encode_inner Sample.ech_h Sample.libssl
        (Sample.s4_session_with Sample.s4_raws_by_index) = Some (1, s'') /\
      Ech.ext_encoded_innerch s'' = Some encoded' /\
      encoded' =
        front ++ Wire.raw_wire Sample.server_name ++
        [253; 0; 0; 4; 0; 10; 0; 13] ++ Wire.raw_wire Sample.key_share.
Proof.
  eexists _, _, _. split; [vm_compute; reflexivity|].
  split; [vm_compute; reflexivity|].
  split; [vm_compute; instantiate (1 := [1; 0; 0; 71; 3; 3] ++ repeat 7 32 ++
                                         [0; 0; 2; 19; 1; 1; 0; 0; 28]);
          reflexivity|].
  split; [|split]; [| |eexists _, _; repeat split; vm_compute; reflexivity];
    intros front' Heq; apply (f_equal last) in Heq;
    [change (Wire.ext_wire 64768 [4; 0; 10; 0; 13])
       with ([253; 0; 0; 5; 4; 0; 10; 0] ++ [13]) in Heq
    |change (Wire.ext_wire 64768 [0; 10; 0; 13])
       with ([253; 0; 0; 4; 0; 10; 0] ++ [13]) in Heq];
    rewrite app_assoc, last_snoc in Heq; vm_compute in Heq; discriminate.
Qed.

(** X18: [ech_same_ext] records the types in the order of its calls: a call
    for an extension that the policy compresses puts the type behind
    those recorded so far. *)
Lemma ech_same_ext_records {E : Ech.ech_h} (h : gmap nat Ech.SSL) (s : nat)
    (so : Ech.SSL) (pkt : option Ech.WPACKET) :
  let ty := Ech.ext_etype so in
  let tind := Ech.ech_map_ext_type_to_ind ty in
  let n := Ech.ext_n_outer_only so in
  h !! s = Some so ->
  Ech.ech so <> None ->
  Ech.ext_ch_depth so = 1 ->
  0 <= tind < 29 ->
  nth (Z.to_nat tind) Ech.ech_outer_config 0 <> 0 ->
  0 <= n < Ech.ECH_OUTERS_MAX ->
  length (Ech.ext_outer_only so) = 10%nat ->
  exists so',
    Ech.ech_same_ext h s pkt =
      Some (Ech.ECH_SAME_EXT_CONTINUE, <[s := so']> h, pkt) /\
    Ech.ext_n_outer_only so' = n + 1 /\
    take (Z.to_nat (n + 1)) (Ech.ext_outer_only so') =
    take (Z.to_nat n) (Ech.ext_outer_only so) ++ [ty].
Proof.
  intros ty tind n Hs Hech Hdepth Htind Hcfg Hn Hlen.
  unfold Ech.ech_same_ext, Ech.same_ext. rewrite Hs. cbn [mbind option_bind].
  destruct (Ech.ech so); [|contradiction]. cbn [notnull negb].
  rewrite Hdepth. cbn [Z.eqb Pos.eqb].
  fold ty. fold tind.
  destruct (Z.eqb_spec tind (-1)); [lia|].
  change (len Ech.ech_outer_config) with 29.
  destruct (Z.geb_spec tind 29); [lia|].
  destruct (Z.eqb_spec (nth (Z.to_nat tind) Ech.ech_outer_config 0) 0);
    [contradiction|]. cbn [andb negb].
  fold n. unfold Ech.ECH_OUTERS_MAX in *.
  destruct (Z.geb_spec n 10); [lia|].
  eexists. split; [reflexivity|]. split; [reflexivity|].
  cbn [Ech.set_outer_only Ech.ext_outer_only].
  replace (Z.to_nat (n + 1)) with (Datatypes.S (Z.to_nat n)) by lia.
  erewrite take_S_r by (apply list_lookup_insert_eq; lia).
  rewrite take_insert_ge by lia. reflexivity.
Qed.

(** ** Properties of the swap *)

Section Swap.
Context {S : Ech.libssl}.

Lemma two_lookup_l h a b x y : two h a b x y !! a = Some x.
Proof. unfold two. apply lookup_insert_eq. Qed.

Lemma two_lookup_r h a b x y : a <> b -> two h a b x y !! b = Some y.
Proof.
  intros Hne. unfold two. rewrite lookup_insert_ne by assumption.
  apply lookup_insert_eq.
Qed.

Lemma two_insert_l h a b x y x' : <[a := x']> (two h a b x y) = two h a b x' y.
Proof. unfold two. apply insert_insert_eq. Qed.

Lemma two_upd_l h a b x y f :
  Ech.upd (two h a b x y) a f = two h a b (f x) y.
Proof. unfold Ech.upd. rewrite two_lookup_l. apply two_insert_l. Qed.

Lemma two_upd_r h a b x y f :
  a <> b -> Ech.upd (two h a b x y) b f = two h a b x (f y).
Proof.
  intros Hne. unfold Ech.upd. rewrite two_lookup_r by assumption.
  unfold two. rewrite (insert_insert_ne _ b a) by congruence.
  rewrite insert_insert_eq. reflexivity.
Qed.

Lemma two_start h a b x y :
  a <> b -> <[b := y]> (<[a := x]> h) = two h a b x y.
Proof. intros Hne. unfold two. apply insert_insert_ne. congruence. Qed.

Ltac two_steps :=
  repeat first
    [ rewrite two_upd_l | rewrite two_upd_r by assumption
    | rewrite two_lookup_l | rewrite two_insert_l
    | progress cbn [mbind option_bind Ech.ext_outer_s Ech.set_ext_inner_s
                    Ech.set_ext_outer_s] ].

(** C4 (as amended): on two distinct sessions linked to each other, with a
    transcript that can be rebuilt and transcript calls into libssl that
    succeed, all calls leaving the ECH fields alone, [ech_swaperoo]
    returns what the server-name callback decides.  The callback is run
    on the session at [s] as the swap and the two transcript calls leave
    it, with ech_success set to 1.  When it answers 1 the swap returns 1
    and ech_success is 1 on both sessions; otherwise the swap returns 0
    and ech_success is 0 on both.  In both cases ech_attempted and
    ech_done are not written: the session at [s] has the values the inner
    one had, the session at [inp] those the outer one had. *)
Theorem ech_swaperoo_success_flags (h : gmap nat Ech.SSL) (s inp : nat)
    (tmp_outer tmp_inner : Ech.SSL) (new_buf : bytes) :
  (forall x, same_ech x (Ech.ssl3_init_finished_mac x).2) ->
  (forall x b, same_ech x (Ech.ssl3_finish_mac x b).2) ->
  (forall x, same_ech x (Ech.final_server_name x).2) ->
  (forall x, (Ech.ssl3_init_finished_mac x).1 <> 0) ->
  (forall x b, (Ech.ssl3_finish_mac x b).1 <> 0) ->
  h !! s = Some tmp_outer ->
  Ech.ext_inner_s tmp_outer = Some inp ->
  h !! inp = Some tmp_inner ->
  Ech.ext_outer_s tmp_inner = Some s ->
  inp <> s ->
  Ech.new_transcript tmp_outer = Some new_buf ->
  let swapped :=
    Ech.set_rlayer_s (Some s)
      (Ech.copy_transport tmp_outer
         (Ech.set_ext_inner_s None
            (Ech.set_ext_outer_s (Some inp) tmp_inner))) in
  let x :=
    Ech.set_ext_ech_success 1
      (Ech.ssl3_finish_mac (Ech.ssl3_init_finished_mac swapped).2 new_buf).2 in
  let rv := if (Ech.final_server_name x).1 =? 1 then 1 else 0 in
  exists h' si so,
    Ech.ech_swaperoo h (Some s) = Some (rv, h') /\
    h' !! s = Some si /\ h' !! inp = Some so /\
    Ech.ext_outer_s si = Some inp /\ Ech.ext_inner_s so = Some s /\
    Ech.ext_ech_success si = rv /\ Ech.ext_ech_success so = rv /\
    Ech.ext_ech_attempted si = Ech.ext_ech_attempted tmp_inner /\
    Ech.ext_ech_done si = Ech.ext_ech_done tmp_inner /\
    Ech.ext_ech_attempted so = Ech.ext_ech_attempted tmp_outer /\
    Ech.ext_ech_done so = Ech.ext_ech_done tmp_outer.
Proof.
  intros Finit Ffin Fsni Hinit Hfin Hs Hin Hinp Hout Hne Htr swapped x rv.
  assert (Hne' : s <> inp) by congruence.
  unfold Ech.ech_swaperoo. rewrite Hs. cbn [mbind option_bind].
  rewrite Hin, Hinp. cbn [mbind option_bind]. rewrite Hout.
  rewrite bool_decide_eq_true_2 by reflexivity. cbn [negb]. cbv zeta.
  rewrite two_start by assumption. two_steps.
  rewrite Htr. fold swapped.
  set (so0 := Ech.set_ext_outer_s None _).
  destruct (Z.eqb_spec (Ech.ssl3_init_finished_mac swapped).1 0) as [H0|_];
    [exfalso; exact (Hinit _ H0)|].
  destruct (Z.eqb_spec
              (Ech.ssl3_finish_mac (Ech.ssl3_init_finished_mac swapped).2
                 new_buf).1 0) as [H0|_];
    [exfalso; exact (Hfin _ _ H0)|].
  (* the session at [s] after the transcript was rebuilt *)
  pose proof (Finit swapped) as F1.
  pose proof (Ffin (Ech.ssl3_init_finished_mac swapped).2 new_buf) as F2.
  set (si1 := (Ech.ssl3_finish_mac _ new_buf).2) in *.
  assert (G1 : same_ech swapped si1).
  { unfold same_ech in *. intuition congruence. }
  clear F1 F2. destruct G1 as (G1i & G1o & G1a & G1d & G1s).
  assert (Ho1 : Ech.ext_outer_s si1 = Some inp) by (rewrite G1o; reflexivity).
  rewrite two_insert_l, two_lookup_l. cbn [mbind option_bind]. rewrite Ho1.
  cbn [mbind option_bind].
  rewrite two_upd_r by assumption. rewrite two_upd_l, two_lookup_l.
  cbn [mbind option_bind].
  (* victory declared, then the callback *)
  fold x.
  set (so1 := Ech.set_ext_ech_success 1 so0).
  destruct (Fsni x) as (G2i & G2o & G2a & G2d & G2s).
  set (si3 := (Ech.final_server_name x).2) in *.
  rewrite two_insert_l, two_lookup_l.
  unfold rv.
  destruct ((Ech.final_server_name x).1 =? 1); cbn [negb mbind option_bind].
  - exists (two h s inp si3 so1), si3, so1.
    rewrite two_lookup_l, two_lookup_r by assumption.
    repeat split; try reflexivity.
    + rewrite G2o. exact Ho1.
    + rewrite G2s. reflexivity.
    + rewrite G2a. cbn. rewrite G1a. reflexivity.
    + rewrite G2d. cbn. rewrite G1d. reflexivity.
  - rewrite G2o. cbn [Ech.ext_outer_s x Ech.set_ext_ech_success]. rewrite Ho1.
    cbn [mbind option_bind].
    rewrite two_upd_r by assumption. rewrite two_upd_l.
    eexists _, _, _.
    rewrite two_lookup_l, two_lookup_r by assumption.
    repeat split; try reflexivity.
    + cbn. rewrite G2o. exact Ho1.
    + cbn. rewrite G2a. cbn. rewrite G1a. reflexivity.
    + cbn. rewrite G2d. cbn. rewrite G1d. reflexivity.
Qed.

End Swap.

(** The sample sessions, with a callback that refuses, meet the
    hypotheses. *)
Lemma ech_swaperoo_success_flags_witness :
  exists h' si so,
    @Ech.ech_swaperoo Sample.libssl_sni_rejected Sample.swap_store
      (Some 0%nat) = Some (0, h') /\
    h' !! 0%nat = Some si /\ h' !! 1%nat = Some so /\
    Ech.ext_outer_s si = Some 1%nat /\ Ech.ext_inner_s so = Some 0%nat /\
    Ech.ext_ech_success si = 0 /\ Ech.ext_ech_success so = 0 /\
    Ech.ext_ech_attempted si = Ech.ext_ech_attempted Sample.swap_inner /\
    Ech.ext_ech_done si = Ech.ext_ech_done Sample.swap_inner /\
    Ech.ext_ech_attempted so = Ech.ext_ech_attempted Sample.swap_outer /\
    Ech.ext_ech_done so = Ech.ext_ech_done Sample.swap_outer.
Proof.
  apply (@ech_swaperoo_success_flags Sample.libssl_sni_rejected
           Sample.swap_store 0%nat 1%nat Sample.swap_outer Sample.swap_inner
           [1; 0; 0; 2; 3; 4; 2; 3; 3; 2; 0]).
  - intros x. repeat split; reflexivity.
  - intros x b. repeat split; reflexivity.
  - intros x. repeat split; reflexivity.
  - intros x. discriminate.
  - intros x b. discriminate.
  - reflexivity.
  - reflexivity.
  - reflexivity.
  - reflexivity.
  - lia.
  - vm_compute. reflexivity.
Defined.

(** C4 (as stated) fails on the sample sessions: the swap succeeds, the
    callback accepts, ech_success is 1 on both sessions, and ech_done is
    0 on both, as it was before the call. *)
Lemma swap_leaves_ech_done_unset :
  Sample.flags (Some (0, Sample.swap_store)) 0 = Some (1, 0, 0) /\
  Sample.flags (Some (0, Sample.swap_store)) 1 = Some (1, 0, 0) /\
  fst <$> @Ech.ech_swaperoo Sample.libssl Sample.swap_store (Some 0%nat) =
    Some 1 /\
  Sample.flags
    (@Ech.ech_swaperoo Sample.libssl Sample.swap_store (Some 0%nat)) 0 =
    Some (1, 0, 1) /\
  Sample.flags
    (@Ech.ech_swaperoo Sample.libssl Sample.swap_store (Some 0%nat)) 1 =
    Some (1, 0, 1).
Proof. repeat split; vm_compute; reflexivity. Qed.

(** ** More on crypto/hpke.c *)

Ltac ok_inv Hx :=
  match type of Hx with
  | rbind ?r _ = Ok _ =>
      let E := fresh "E" in destruct r eqn:E; simpl in Hx; [|discriminate..]
  | (if ?b then _ else _) = Ok _ =>
      let E := fresh "E" in destruct b eqn:E; [|discriminate]
  | match ?o with Some _ => _ | None => _ end = Ok _ =>
      let E := fresh "E" in destruct o eqn:E; [|discriminate]
  end.

Section HpkeModes.
Context {H : Hpke.hpke_h} {L : Hpke.libcrypto}.

Lemma hpke_do_kem_agree_auth suite key1 key1enc key2 key2enc key1' key2'
    akey akey' apub :
  Hpke.EVP_PKEY_derive key1' key2' = Hpke.EVP_PKEY_derive key1 key2 ->
  Hpke.EVP_PKEY_derive key1' akey' = Hpke.EVP_PKEY_derive akey key2 ->
  Hpke.hpke_do_kem false suite key1' key2enc key2' key1enc (Some akey') apub =
  Hpke.hpke_do_kem true suite key1 key1enc key2 key2enc (Some akey) apub.
Proof.
  intros Hd Ha. unfold Hpke.hpke_do_kem. rewrite Hd, Ha.
  rewrite (Z.add_comm (len key2enc)). reflexivity.
Qed.

Lemma hpke_round_trip_gen (ent : Hpke.Entropy) (mode : Z)
    (suite : Hpke.hpke_suite_t)
    (pskid : option bytes) (psklen : Z) (psk : option bytes)
    (publen : Z) (pub : option bytes) (privlen : Z) (priv : option bytes)
    (clearlen : Z) (clear : option bytes) (aadlen : Z) (aad : option bytes)
    (infolen : Z) (info : option bytes) (senderpublen cipherlen : option Z)
    (rprivlen : Z) (rpriv : option bytes) (evppriv : option Hpke.EVP_PKEY)
    (skR : Hpke.EVP_PKEY) (skI : option Hpke.EVP_PKEY)
    (enc ct : bytes) (clearcap : Z) :
  Hpke.HPKE_MAXSIZE < 2 ^ 31 ->
  Hpke.EVP_PKEY_get1_tls_encodedpoint skR = Hpke.rd publen pub ->
  0 < len (Hpke.rd publen pub) ->
  recipient_key suite rprivlen rpriv evppriv skR ->
  sender_key mode suite privlen priv skI ->
  (forall pkR pkE,
     Hpke.load_public suite (Hpke.rd publen pub) = Some pkR ->
     Hpke.EVP_PKEY_keygen pkR ent = Some pkE ->
     exists pkE',
       Hpke.load_public suite (Hpke.EVP_PKEY_get1_tls_encodedpoint pkE) =
         Some pkE' /\
       Hpke.EVP_PKEY_derive skR pkE' = Hpke.EVP_PKEY_derive pkE pkR) ->
  (forall pkR k,
     Hpke.load_public suite (Hpke.rd publen pub) = Some pkR ->
     skI = Some k ->
     exists pkI,
       Hpke.load_public suite (Hpke.EVP_PKEY_get1_tls_encodedpoint k) =
         Some pkI /\
       Hpke.EVP_PKEY_derive skR pkI = Hpke.EVP_PKEY_derive k pkR) ->
  aead_opens (Hpke.aad_octets aadlen aad) (Hpke.rd clearlen clear) 16 ->
  len (Hpke.rd clearlen clear) <= clearcap ->
  Hpke.hpke_enc ent mode suite pskid psklen psk publen pub
    privlen priv clearlen clear aadlen aad infolen info senderpublen
    cipherlen = Ok (enc, ct) ->
  Hpke.hpke_dec mode suite pskid psklen psk
    (len (default [] (sender_pub skI))) (sender_pub skI) rprivlen rpriv
    evppriv (len enc) (Some enc) (len ct) (Some ct) aadlen aad
    infolen info (Some clearcap) = Ok (Hpke.rd clearlen clear).
Proof.
  intros Hmax Hpub Hpos Hrk Hsk Hdh Hauth Haead Hcap.
  assert (Hload : notnull rpriv || notnull evppriv = true /\
                  match evppriv with
                  | Some k => Ok k
                  | None => Hpke.load_private 1835 suite rprivlen rpriv
                  end = Ok skR).
  { unfold recipient_key in Hrk. destruct evppriv as [k|].
    - subst k. split; [apply orb_true_r|reflexivity].
    - destruct Hrk as [Hn Hl]. destruct rpriv; [|contradiction].
      split; [reflexivity|exact Hl]. }
  destruct Hload as [Hnn Hload].
  unfold Hpke.hpke_enc, Hpke.hpke_dec. intros He.
  destruct (Hpke.hpke_mode_check mode =? 1); [|discriminate].
  destruct (Hpke.hpke_psk_check mode pskid psklen psk =? 1); [|discriminate].
  destruct (Hpke.hpke_suite_check suite =? 1) eqn:Hsuite; [|discriminate].
  apply Z.eqb_eq in Hsuite.
  destruct pub as [pubbuf|]; [|discriminate].
  destruct clear as [clearbuf|]; [|discriminate].
  destruct senderpublen as [senderpubcap|]; [|discriminate].
  destruct cipherlen as [ciphercap|]; [|discriminate].
  destruct (negb (Hpke.is_auth_mode mode && _)) eqn:Hc1; [|discriminate].
  destruct (negb (Hpke.is_psk_mode mode && _)) eqn:Hc2; [|discriminate].
  destruct (Hpke.load_public suite (Hpke.rd publen (Some pubbuf)))
    as [pkR|] eqn:HpkR; [|discriminate].
  destruct (Hpke.EVP_PKEY_keygen pkR ent) as [pkE|] eqn:HpkE; [|discriminate].
  destruct (negb (len (Hpke.EVP_PKEY_get1_tls_encodedpoint pkE) =? 0));
    [|discriminate].
  destruct (Hdh pkR pkE eq_refl HpkE) as (pkE' & HpkE' & Hderive).
  rewrite Hnn.
  unfold sender_key in Hsk.
  destruct (Hpke.is_auth_mode mode) eqn:Hmode.
  - (* Auth and PSK+Auth *)
    destruct Hsk as (k & -> & Hk). rewrite Hk in He. cbn [rbind] in He.
    destruct (len (Hpke.EVP_PKEY_get1_tls_encodedpoint k) =? 0) eqn:Hk0;
      cbn [negb] in He; [discriminate|].
    cbn [rbind fst snd] in He.
    destruct (Hpke.hpke_do_kem true suite pkE _ pkR _ (Some k) _)
      as [ss| |] eqn:Hkem; [|discriminate..].
    cbn [rbind] in He.
    destruct (Hpke.key_schedule 0 _ suite pskid psklen psk infolen info ss)
      as [kn| |] eqn:Hks; [|discriminate..].
    cbn [rbind] in He.
    destruct (Hpke.hpke_aead_enc suite kn.1 kn.2 aadlen aad _ _)
      as [lcipher| |] eqn:Hae; [|discriminate..].
    cbn [rbind] in He.
    destruct (len lcipher <=? ciphercap); [|discriminate].
    destruct (len (Hpke.EVP_PKEY_get1_tls_encodedpoint pkE) <=? senderpubcap);
      [|discriminate].
    injection He as <- <-.
    cbn [sender_pub default id notnull negb andb orb].
    rewrite !rd_all, Hk0. cbn [negb andb orb].
    destruct (Hauth pkR k eq_refl eq_refl) as (pkI & HpkI & Hda).
    rewrite HpkE', HpkI. cbn [rbind]. rewrite Hload. cbn [rbind].
    rewrite Hpub.
    destruct (Z.eqb_spec (len (Hpke.rd publen (Some pubbuf))) 0) as [Hz|_];
      [lia|].
    cbn [negb rbind].
    rewrite (hpke_do_kem_agree_auth suite pkE _ pkR _ skR pkE' k pkI _
               Hderive Hda), Hkem.
    cbn [rbind].
    rewrite (key_schedule_off 0 339 _ _ _ _ _ _ _ _ _ Hks). cbn [rbind].
    rewrite (hpke_aead_round_trip suite _ _ _ _ _ _ Hmax (suite_taglen _ Hsuite)
               Haead Hae).
    cbn [rbind].
    destruct (Z.leb_spec (len (Hpke.rd clearlen (Some clearbuf))) clearcap);
      [reflexivity|lia].
  - (* Base and PSK *)
    subst skI. cbn [rbind fst snd] in He.
    destruct (Hpke.hpke_do_kem true suite pkE _ pkR _ None [])
      as [ss| |] eqn:Hkem; [|discriminate..].
    cbn [rbind] in He.
    destruct (Hpke.key_schedule 0 _ suite pskid psklen psk infolen info ss)
      as [kn| |] eqn:Hks; [|discriminate..].
    cbn [rbind] in He.
    destruct (Hpke.hpke_aead_enc suite kn.1 kn.2 aadlen aad _ _)
      as [lcipher| |] eqn:Hae; [|discriminate..].
    cbn [rbind] in He.
    destruct (len lcipher <=? ciphercap); [|discriminate].
    destruct (len (Hpke.EVP_PKEY_get1_tls_encodedpoint pkE) <=? senderpubcap);
      [|discriminate].
    injection He as <- <-.
    cbn [sender_pub default id notnull negb andb orb len length Z.of_nat Z.eqb].
    rewrite rd_all, HpkE'.
    cbn [rbind]. rewrite Hload. cbn [rbind]. rewrite Hpub.
    destruct (Z.eqb_spec (len (Hpke.rd publen (Some pubbuf))) 0) as [Hz|_];
      [lia|].
    change (len (@nil Z)) with 0.
    cbn [negb andb Z.eqb]. change (Hpke.rd 0 None) with (@nil Z). cbn [rbind].
    rewrite (hpke_do_kem_agree suite pkE _ pkR _ skR pkE' Hderive), Hkem.
    cbn [rbind].
    rewrite (key_schedule_off 0 339 _ _ _ _ _ _ _ _ _ Hks). cbn [rbind].
    rewrite (hpke_aead_round_trip suite _ _ _ _ _ _ Hmax (suite_taglen _ Hsuite)
               Haead Hae).
    cbn [rbind].
    destruct (Z.leb_spec (len (Hpke.rd clearlen (Some clearbuf))) clearcap);
      [reflexivity|lia].
Qed.

(** X1: in each of the four modes [hpke_dec], given the recipient's key as
    an EVP_PKEY and, in the authenticated modes, the sender's public
    value, gives back the cleartext of what [hpke_enc] produced, provided
    that libcrypto agrees on the Diffie-Hellman values and that the AEAD
    opens what it sealed. *)
Theorem hpke_round_trip (ent : Hpke.Entropy) (mode : Z)
    (suite : Hpke.hpke_suite_t)
    (pskid : option bytes) (psklen : Z) (psk : option bytes)
    (publen : Z) (pub : option bytes) (privlen : Z) (priv : option bytes)
    (clearlen : Z) (clear : option bytes) (aadlen : Z) (aad : option bytes)
    (infolen : Z) (info : option bytes) (senderpublen cipherlen : option Z)
    (skR : Hpke.EVP_PKEY) (skI : option Hpke.EVP_PKEY)
    (enc ct : bytes) (clearcap : Z) :
  Hpke.HPKE_MAXSIZE < 2 ^ 31 ->
  Hpke.EVP_PKEY_get1_tls_encodedpoint skR = Hpke.rd publen pub ->
  0 < len (Hpke.rd publen pub) ->
  sender_key mode suite privlen priv skI ->
  (forall pkR pkE,
     Hpke.load_public suite (Hpke.rd publen pub) = Some pkR ->
     Hpke.EVP_PKEY_keygen pkR ent = Some pkE ->
     exists pkE',
       Hpke.load_public suite (Hpke.EVP_PKEY_get1_tls_encodedpoint pkE) =
         Some pkE' /\
       Hpke.EVP_PKEY_derive skR pkE' = Hpke.EVP_PKEY_derive pkE pkR) ->
  (forall pkR k,
     Hpke.load_public suite (Hpke.rd publen pub) = Some pkR ->
     skI = Some k ->
     exists pkI,
       Hpke.load_public suite (Hpke.EVP_PKEY_get1_tls_encodedpoint k) =
         Some pkI /\
       Hpke.EVP_PKEY_derive skR pkI = Hpke.EVP_PKEY_derive k pkR) ->
  aead_opens (Hpke.aad_octets aadlen aad) (Hpke.rd clearlen clear) 16 ->
  len (Hpke.rd clearlen clear) <= clearcap ->
  Hpke.hpke_enc ent mode suite pskid psklen psk publen pub
    privlen priv clearlen clear aadlen aad infolen info senderpublen
    cipherlen = Ok (enc, ct) ->
  Hpke.hpke_dec mode suite pskid psklen psk
    (len (default [] (sender_pub skI))) (sender_pub skI) 0 None
    (Some skR) (len enc) (Some enc) (len ct) (Some ct) aadlen aad
    infolen info (Some clearcap) = Ok (Hpke.rd clearlen clear).
Proof.
  intros Hmax Hpub Hpos Hsk Hdh Hauth Haead Hcap He.
  apply (hpke_round_trip_gen ent mode suite pskid psklen psk publen pub
           privlen priv clearlen clear aadlen aad infolen info senderpublen
           cipherlen 0 None (Some skR) skR skI enc ct clearcap);
    try assumption.
  reflexivity.
Qed.

(** X3: what [hpke_enc] reports fits the caller's buffers: on success the
    sender's public value is not empty and not longer than
    [*senderpublen], the ciphertext is not longer than [*cipherlen] nor
    than HPKE_MAXSIZE, and the cleartext was at most HPKE_MAXSIZE-16
    octets; mode and suite had passed their checks. *)
Theorem hpke_enc_output_fits (ent : Hpke.Entropy) (mode : Z)
    (suite : Hpke.hpke_suite_t)
    (pskid : option bytes) (psklen : Z) (psk : option bytes)
    (publen : Z) (pub : option bytes) (privlen : Z) (priv : option bytes)
    (clearlen : Z) (clear : option bytes) (aadlen : Z) (aad : option bytes)
    (infolen : Z) (info : option bytes) (senderpublen cipherlen : option Z)
    (enc ct : bytes) :
  Hpke.hpke_enc ent mode suite pskid psklen psk publen pub
    privlen priv clearlen clear aadlen aad infolen info senderpublen
    cipherlen = Ok (enc, ct) ->
  exists senderpubcap ciphercap,
    senderpublen = Some senderpubcap /\ cipherlen = Some ciphercap /\
    0 < len enc <= senderpubcap /\
    len ct <= ciphercap /\ len ct <= Hpke.HPKE_MAXSIZE /\
    16 + len (Hpke.rd clearlen clear) <= Hpke.HPKE_MAXSIZE /\
    Hpke.hpke_mode_check mode = 1 /\ Hpke.hpke_suite_check suite = 1 /\
    Hpke.hpke_psk_check mode pskid psklen psk = 1.
Proof.
  unfold Hpke.hpke_enc. intros He.
  destruct (Z.eqb_spec (Hpke.hpke_mode_check mode) 1) as [Hm|]; [|discriminate].
  destruct (Z.eqb_spec (Hpke.hpke_psk_check mode pskid psklen psk) 1)
    as [Hp|]; [|discriminate].
  destruct (Z.eqb_spec (Hpke.hpke_suite_check suite) 1) as [Hs|];
    [|discriminate].
  destruct pub as [pubbuf|]; [|discriminate].
  destruct clear as [clearbuf|]; [|discriminate].
  destruct senderpublen as [senderpubcap|]; [|discriminate].
  destruct cipherlen as [ciphercap|]; [|discriminate].
  repeat ok_inv He.
  injection He as <- <-.
  match goal with
  | Hx : Hpke.hpke_aead_enc _ _ _ _ _ _ _ = Ok _ |- _ =>
      unfold Hpke.hpke_aead_enc in Hx; rewrite (suite_taglen _ Hs) in Hx;
      repeat ok_inv Hx; injection Hx as <-
  end.
  exists senderpubcap, ciphercap.
  repeat match goal with
         | Hx : (_ <=? _) = true |- _ => apply Z.leb_le in Hx
         | Hx : negb (_ =? _) = true |- _ =>
             apply negb_true_iff, Z.eqb_neq in Hx
         end.
  match goal with
  | |- context [len ?x <= senderpubcap] => pose proof (len_nonneg x)
  end.
  repeat split; try assumption; try lia.
Qed.

(** X4: what [hpke_dec] reports fits the caller's buffer: on success the
    cleartext is not longer than [*clearlen] nor than HPKE_MAXSIZE, the
    ciphertext was there and not empty, and a private key was given. *)
Theorem hpke_dec_output_fits (mode : Z) (suite : Hpke.hpke_suite_t)
    (pskid : option bytes) (psklen : Z) (psk : option bytes)
    (publen : Z) (pub : option bytes) (privlen : Z) (priv : option bytes)
    (evppriv : option Hpke.EVP_PKEY) (enclen : Z) (enc : option bytes)
    (cipherlen : Z) (cipher : option bytes) (aadlen : Z) (aad : option bytes)
    (infolen : Z) (info : option bytes) (clearlen : option Z)
    (clear : bytes) :
  Hpke.hpke_dec mode suite pskid psklen psk publen pub privlen priv evppriv
    enclen enc cipherlen cipher aadlen aad infolen info clearlen = Ok clear ->
  exists clearcap,
    clearlen = Some clearcap /\
    len clear <= clearcap /\ len clear <= Hpke.HPKE_MAXSIZE /\
    cipher <> None /\ cipherlen <> 0 /\
    (priv <> None \/ evppriv <> None) /\
    Hpke.hpke_mode_check mode = 1 /\ Hpke.hpke_suite_check suite = 1 /\
    Hpke.hpke_psk_check mode pskid psklen psk = 1.
Proof.
  unfold Hpke.hpke_dec. intros He.
  destruct (Z.eqb_spec (Hpke.hpke_mode_check mode) 1) as [Hm|]; [|discriminate].
  destruct (Z.eqb_spec (Hpke.hpke_psk_check mode pskid psklen psk) 1)
    as [Hp|]; [|discriminate].
  destruct (Z.eqb_spec (Hpke.hpke_suite_check suite) 1) as [Hs|];
    [|discriminate].
  destruct clearlen as [clearcap|]; [|discriminate].
  destruct cipher as [cipherbuf|]; [|discriminate].
  destruct (notnull priv || notnull evppriv) eqn:Hk; [|discriminate].
  repeat ok_inv He.
  injection He as <-.
  match goal with
  | Hx : Hpke.hpke_aead_dec _ _ _ _ _ _ _ _ = Ok _ |- _ =>
      unfold Hpke.hpke_aead_dec, OPENSSL_malloc_ok in Hx;
      repeat ok_inv Hx; injection Hx as <-
  end.
  exists clearcap.
  repeat match goal with
         | Hx : (_ <=? _) = true |- _ => apply Z.leb_le in Hx
         | Hx : negb (_ =? _) = true |- _ =>
             apply negb_true_iff, Z.eqb_neq in Hx
         end.
  repeat split; try assumption; try discriminate.
  destruct priv, evppriv; try discriminate; auto; left; discriminate.
Qed.

(** X6: in the modes PSK and PSK+Auth a NULL pskid, a zero psklen or a NULL
    psk makes [hpke_enc] and [hpke_dec] return the line of
    [hpke_psk_check] that found it, whatever the other arguments are. *)
Theorem hpke_bad_psk_rejected (ent : Hpke.Entropy) (mode : Z)
    (suite : Hpke.hpke_suite_t)
    (pskid : option bytes) (psklen : Z) (psk : option bytes)
    (publen : Z) (pub : option bytes) (privlen : Z) (priv : option bytes)
    (clearlen : Z) (clear : option bytes) (aadlen : Z) (aad : option bytes)
    (infolen : Z) (info : option bytes) (senderpublen cipherlen : option Z)
    (evppriv : option Hpke.EVP_PKEY) (enclen : Z) (enc : option bytes)
    (clen : Z) (cipher : option bytes) (clearcap : option Z) :
  mode = Hpke.HPKE_MODE_PSK \/ mode = Hpke.HPKE_MODE_PSKAUTH ->
  pskid = None \/ psklen = 0 \/ psk = None ->
  let line := if negb (notnull pskid) then 1274
              else if psklen =? 0 then 1275 else 1276 in
  Hpke.hpke_enc ent mode suite pskid psklen psk publen pub privlen priv
    clearlen clear aadlen aad infolen info senderpublen cipherlen =
    Err line /\
  Hpke.hpke_dec mode suite pskid psklen psk publen pub privlen priv evppriv
    enclen enc clen cipher aadlen aad infolen info clearcap = Err line.
Proof.
  intros Hm Hbad line. unfold Hpke.hpke_enc, Hpke.hpke_dec.
  assert (Hmc : Hpke.hpke_mode_check mode = 1)
    by (destruct Hm; subst; reflexivity).
  assert (Hpc : Hpke.hpke_psk_check mode pskid psklen psk = line).
  { unfold Hpke.hpke_psk_check, line.
    replace ((mode =? Hpke.HPKE_MODE_BASE) || (mode =? Hpke.HPKE_MODE_AUTH))
      with false by (destruct Hm; subst; reflexivity).
    destruct pskid; cbn [notnull negb]; [|reflexivity].
    destruct (psklen =? 0) eqn:E; [reflexivity|].
    destruct psk; cbn [notnull negb]; [|reflexivity].
    apply Z.eqb_neq in E. destruct Hbad as [|[|]]; congruence. }
  rewrite Hmc, Hpc. cbn [Z.eqb Pos.eqb].
  assert (Hl : (line =? 1) = false).
  { unfold line. destruct (negb (notnull pskid)); [reflexivity|].
    destruct (psklen =? 0); reflexivity. }
  rewrite Hl. split; reflexivity.
Qed.

Lemma hpke_extract_eq (suite : Hpke.hpke_suite_t) (mode5869 : Z)
    (salt label ikm : bytes) (secretlen : Z) (md : Hpke.EVP_MD) :
  mode5869 = Hpke.HPKE_5869_MODE_PURE \/ mode5869 = Hpke.HPKE_5869_MODE_KEM \/
    mode5869 = Hpke.HPKE_5869_MODE_FULL ->
  Hpke.md_of mode5869 suite = Ok md ->
  (mode5869 <> Hpke.HPKE_5869_MODE_PURE ->
   len (labeled_ikm mode5869 suite label ikm) < Hpke.HPKE_MAXSIZE) ->
  Hpke.hpke_extract suite mode5869 salt label ikm secretlen =
  match Hpke.HKDF_Extract md salt (labeled_ikm mode5869 suite label ikm)
          secretlen with
  | Some secret => if len secret <=? secretlen then Ok secret else Err 789
  | None => Err 786
  end.
Proof.
  intros Hmode Hmd Hlen. unfold Hpke.hpke_extract. rewrite Hmd.
  assert (Hc : forall line b x rest,
            len (b ++ x ++ rest) < Hpke.HPKE_MAXSIZE ->
            Hpke.concat_chk line b x = Ok (b ++ x)).
  { intros line b x rest Hb. unfold Hpke.concat_chk.
    rewrite !len_app in Hb. pose proof (len_nonneg rest).
    rewrite len_app.
    destruct (Z.ltb_spec (len b + len x) Hpke.HPKE_MAXSIZE); [reflexivity|lia]. }
  destruct Hmode as [-> | [-> | ->]].
  - reflexivity.
  - specialize (Hlen ltac:(discriminate)).
    unfold labeled_ikm, suite_id, I2OSP2 in Hlen |- *.
    cbn [Z.eqb Hpke.HPKE_5869_MODE_KEM Hpke.HPKE_5869_MODE_PURE Pos.eqb]
      in Hlen |- *.
    rewrite (Hc 702 [] _ (Hpke.HPKE_SEC41LABEL ++
               [(Hpke.kem_id suite / 256) mod 256; Hpke.kem_id suite mod 256]
               ++ label ++ ikm))
      by (cbn [app]; exact Hlen).
    cbn [rbind app].
    repeat (erewrite Hc;
            [cbn [rbind]
            |rewrite <- ?app_assoc; cbn [app] in Hlen |- *;
             first [exact Hlen | rewrite app_nil_r; exact Hlen]]).
    rewrite <- ?app_assoc. cbn [app]. reflexivity.
  - specialize (Hlen ltac:(discriminate)).
    unfold labeled_ikm, suite_id, I2OSP2 in Hlen |- *.
    cbn [Z.eqb Hpke.HPKE_5869_MODE_KEM Hpke.HPKE_5869_MODE_FULL
         Hpke.HPKE_5869_MODE_PURE Pos.eqb] in Hlen |- *.
    rewrite (Hc 725 [] _ (Hpke.HPKE_SEC51LABEL ++
               [(Hpke.kem_id suite / 256) mod 256; Hpke.kem_id suite mod 256]
               ++ [(Hpke.kdf_id suite / 256) mod 256; Hpke.kdf_id suite mod 256]
               ++ [(Hpke.aead_id suite / 256) mod 256; Hpke.aead_id suite mod 256]
               ++ label ++ ikm))
      by (cbn [app]; exact Hlen).
    cbn [rbind app].
    repeat (erewrite Hc;
            [cbn [rbind]
            |rewrite <- ?app_assoc; cbn [app] in Hlen |- *;
             first [exact Hlen | rewrite app_nil_r; exact Hlen]]).
    rewrite <- ?app_assoc. cbn [app]. reflexivity.
Qed.

Lemma hpke_expand_eq (suite : Hpke.hpke_suite_t) (mode5869 : Z)
    (prk label info : bytes) (L_ outlen : Z) (md : Hpke.EVP_MD) :
  mode5869 = Hpke.HPKE_5869_MODE_PURE \/ mode5869 = Hpke.HPKE_5869_MODE_KEM \/
    mode5869 = Hpke.HPKE_5869_MODE_FULL ->
  Hpke.md_of mode5869 suite = Ok md ->
  len (labeled_info mode5869 suite label info L_) < Hpke.HPKE_MAXSIZE ->
  Hpke.hpke_expand suite mode5869 prk label info L_ outlen =
  match Hpke.HKDF_Expand md prk (labeled_info mode5869 suite label info L_)
          outlen with
  | Some out => Ok out
  | None => Err 929
  end.
Proof.
  intros Hmode Hmd Hlen. unfold Hpke.hpke_expand. rewrite Hmd.
  assert (Hc : forall line b x rest,
            len (b ++ x ++ rest) < Hpke.HPKE_MAXSIZE ->
            Hpke.concat_chk line b x = Ok (b ++ x)).
  { intros line b x rest Hb. unfold Hpke.concat_chk.
    rewrite !len_app in Hb. pose proof (len_nonneg rest).
    rewrite len_app.
    destruct (Z.ltb_spec (len b + len x) Hpke.HPKE_MAXSIZE); [reflexivity|lia]. }
  destruct Hmode as [-> | [-> | ->]].
  - unfold labeled_info in *.
    cbn [Z.eqb Hpke.HPKE_5869_MODE_PURE] in Hlen |- *.
    rewrite len_app in Hlen.
    destruct (Z.ltb_spec (len label + len info) Hpke.HPKE_MAXSIZE); [|lia].
    reflexivity.
  - unfold labeled_info, suite_id in Hlen |- *.
    cbn [Z.eqb Hpke.HPKE_5869_MODE_KEM Hpke.HPKE_5869_MODE_PURE Pos.eqb]
      in Hlen |- *.
    unfold I2OSP2 at 2 in Hlen. unfold I2OSP2 at 2.
    repeat (erewrite Hc;
            [cbn [rbind]
            |rewrite <- ?app_assoc; cbn [app] in Hlen |- *;
             first [exact Hlen | rewrite app_nil_r; exact Hlen]]).
    rewrite <- ?app_assoc. cbn [app]. reflexivity.
  - unfold labeled_info, suite_id in Hlen |- *.
    cbn [Z.eqb Hpke.HPKE_5869_MODE_KEM Hpke.HPKE_5869_MODE_FULL
         Hpke.HPKE_5869_MODE_PURE Pos.eqb] in Hlen |- *.
    unfold I2OSP2 at 2 3 4 in Hlen. unfold I2OSP2 at 2 3 4.
    repeat (erewrite Hc;
            [cbn [rbind]
            |rewrite <- ?app_assoc; cbn [app] in Hlen |- *;
             first [exact Hlen | rewrite app_nil_r; exact Hlen]]).
    rewrite <- ?app_assoc. cbn [app]. reflexivity.
Qed.
(** X7: the input keying material that [hpke_extract] hands to HKDF-Extract
    is the ikm alone in mode PURE and otherwise the labelled one,
    "HPKE-06" || suite_id || label || ikm, with suite_id "KEM" ||
    I2OSP(kem_id,2) in mode KEM and "HPKE" || I2OSP(kem_id,2) ||
    I2OSP(kdf_id,2) || I2OSP(aead_id,2) in mode FULL, as long as it stays
    below HPKE_MAXSIZE octets; the hash is that of the KEM in mode KEM
    and that of the KDF otherwise. *)
Theorem hpke_extract_labeled (suite : Hpke.hpke_suite_t) (mode5869 : Z)
    (salt label ikm : bytes) (secretlen : Z) (md : Hpke.EVP_MD)
    (secret : bytes) :
  mode5869 = Hpke.HPKE_5869_MODE_PURE \/ mode5869 = Hpke.HPKE_5869_MODE_KEM \/
    mode5869 = Hpke.HPKE_5869_MODE_FULL ->
  Hpke.md_of mode5869 suite = Ok md ->
  (mode5869 <> Hpke.HPKE_5869_MODE_PURE ->
   len (labeled_ikm mode5869 suite label ikm) < Hpke.HPKE_MAXSIZE) ->
  Hpke.hpke_extract suite mode5869 salt label ikm secretlen = Ok secret <->
  Hpke.HKDF_Extract md salt (labeled_ikm mode5869 suite label ikm) secretlen =
    Some secret /\ len secret <= secretlen.
Proof.
  intros Hmode Hmd Hlen.
  rewrite (hpke_extract_eq suite mode5869 salt label ikm secretlen md
             Hmode Hmd Hlen).
  destruct (Hpke.HKDF_Extract _ _ _ _) as [s|].
  - destruct (Z.leb_spec (len s) secretlen); split.
    + intros [= ->]. split; [reflexivity|assumption].
    + intros [[= ->] _]. reflexivity.
    + discriminate.
    + intros [[= ->] ?]. lia.
  - split; [discriminate|intros [? _]; discriminate].
Qed.

(** X8: the info that [hpke_expand] hands to HKDF-Expand is label || info
    in mode PURE and otherwise the labelled one, I2OSP(L,2) || "HPKE-06"
    || suite_id || label || info, as long as it stays below HPKE_MAXSIZE
    octets. *)
Theorem hpke_expand_labeled (suite : Hpke.hpke_suite_t) (mode5869 : Z)
    (prk label info : bytes) (L_ outlen : Z) (md : Hpke.EVP_MD)
    (out : bytes) :
  mode5869 = Hpke.HPKE_5869_MODE_PURE \/ mode5869 = Hpke.HPKE_5869_MODE_KEM \/
    mode5869 = Hpke.HPKE_5869_MODE_FULL ->
  Hpke.md_of mode5869 suite = Ok md ->
  len (labeled_info mode5869 suite label info L_) < Hpke.HPKE_MAXSIZE ->
  Hpke.hpke_expand suite mode5869 prk label info L_ outlen = Ok out <->
  Hpke.HKDF_Expand md prk (labeled_info mode5869 suite label info L_) outlen =
    Some out.
Proof.
  intros Hmode Hmd Hlen.
  rewrite (hpke_expand_eq suite mode5869 prk label info L_ outlen md
             Hmode Hmd Hlen).
  destruct (Hpke.HKDF_Expand _ _ _ _) as [s|]; split; congruence.
Qed.

(** X9: what [hpke_aead_enc] seals into a buffer of HPKE_MAXSIZE octets is
    the ciphertext followed by the 16 octets of the tag, 16 octets longer
    than the cleartext, and [hpke_aead_dec] opens it again under the same
    key, nonce and AAD. *)
Theorem hpke_aead_seal_open (suite : Hpke.hpke_suite_t) (key iv : bytes)
    (aadlen : Z) (aad : option bytes) (pt ct : bytes) :
  Hpke.HPKE_MAXSIZE < 2 ^ 31 ->
  Hpke.hpke_suite_check suite = 1 ->
  aead_opens (Hpke.aad_octets aadlen aad) pt 16 ->
  Hpke.hpke_aead_enc suite key iv aadlen aad pt Hpke.HPKE_MAXSIZE = Ok ct ->
  len ct = len pt + 16 /\
  Hpke.hpke_aead_dec suite key iv aadlen aad ct (len ct) Hpke.HPKE_MAXSIZE =
    Ok pt.
Proof.
  intros Hmax Hs Haead He. split.
  - unfold Hpke.hpke_aead_enc in He. rewrite (suite_taglen _ Hs) in He.
    repeat ok_inv He. injection He as <-.
    match goal with
    | Hx : Hpke.EVP_Encrypt _ _ _ _ _ _ _ = Some _ |- _ =>
        destruct (Haead _ _ _ _ Hx) as (Hl1 & Hl2 & _)
    end.
    rewrite len_app, Hl1. unfold len in *. rewrite length_take. lia.
  - exact (hpke_aead_round_trip suite key iv aadlen aad pt ct Hmax
             (suite_taglen _ Hs) Haead He).
Qed.
End HpkeModes.

Section HpkeHex.
Context {H : Hpke.hpke_h}.

Lemma ah_encode_length (hex : Z -> Z) (b : bytes) :
  len (ah_encode hex b) = 2 * len b.
Proof.
  unfold len. induction b as [|x b IH]; [reflexivity|].
  cbn [ah_encode flat_map app length] in *. fold (ah_encode hex b). lia.
Qed.

Lemma ah_decode_map (hex : Z -> Z) (b : bytes) :
  (forall n, 0 <= n < 16 -> Hpke.HPKE_A2B (hex n) = n) ->
  Forall is_octet b ->
  map (fun i : nat =>
         (Hpke.HPKE_A2B (nth (2 * i) (ah_encode hex b) 0) * 16 +
          Hpke.HPKE_A2B (nth (2 * i + 1) (ah_encode hex b) 0)) mod 256)
      (seq 0 (length b)) = b.
Proof.
  intros Hhex. induction 1 as [|x b Hx _ IH]; [reflexivity|].
  cbn [length seq]. rewrite <- seq_shift. cbn [map]. rewrite map_map. f_equal.
  - cbn [ah_encode flat_map app nth Nat.mul Nat.add].
    unfold is_octet in Hx.
    rewrite (Hhex (x / 16))
      by (split; [apply Z.div_pos; lia|apply Z.div_lt_upper_bound; lia]).
    rewrite (Hhex (x mod 16)) by (apply Z.mod_pos_bound; lia).
    replace (x / 16 * 16 + x mod 16) with x
      by (pose proof (Z.div_mod x 16 ltac:(lia)); lia).
    apply Z.mod_small. lia.
  - rewrite <- IH at 2. apply map_ext. intros i.
    replace (2 * S i)%nat with (S (S (2 * i))) by lia.
    replace (S (S (2 * i)) + 1)%nat with (S (S (2 * i + 1))) by lia.
    reflexivity.
Qed.

Lemma hpke_ah_decode_encoded_eq (hex : Z -> Z) (b : bytes) :
  (forall n, 0 <= n < 16 -> Hpke.HPKE_A2B (hex n) = n) ->
  Forall is_octet b -> b <> [] ->
  Hpke.hpke_ah_decode (len (ah_encode hex b)) (Some (ah_encode hex b))
    true true = Ok b.
Proof.
  intros Hhex Hb Hne. unfold Hpke.hpke_ah_decode.
  rewrite ah_encode_length.
  assert (Hl : 0 < len b) by (destruct b; [contradiction|unfold len; simpl; lia]).
  destruct (Z.leb_spec (2 * len b) 0); [lia|]. cbn [negb orb].
  rewrite Z.mod_1_r. cbn [Z.eqb negb].
  rewrite (Z.mul_comm 2), Z.div_mul by lia.
  unfold OPENSSL_malloc_ok.
  destruct (Z.eqb_spec (len b) 0); [lia|]. cbn [negb].
  unfold len. rewrite Nat2Z.id. f_equal. apply ah_decode_map; assumption.
Qed.

(** X10: [hpke_ah_decode] reads back the ascii-hex form of every octet
    string that is not empty, whichever sixteen digits the nibble macro
    inverts (upper or lower case). *)
Theorem hpke_ah_decode_encoded (hex : Z -> Z) (b : bytes) :
  (forall n, 0 <= n < 16 -> Hpke.HPKE_A2B (hex n) = n) ->
  Forall is_octet b -> b <> [] ->
  Hpke.hpke_ah_decode (2 * len b) (Some (ah_encode hex b)) true true = Ok b.
Proof.
  intros Hhex Hb Hne. rewrite <- (ah_encode_length hex).
  apply hpke_ah_decode_encoded_eq; assumption.
Qed.

End HpkeHex.

Section HpkeKeygen.
Context {H : Hpke.hpke_h} {L : Hpke.libcrypto} {K : Kg.libcrypto_kg}.

(** What a successful [hpke_kg] went through. *)
Lemma hpke_kg_inv ent mode suite publen pub privlen priv pubk privk :
  Kg.hpke_kg ent mode suite publen pub privlen priv = Ok (pubk, privk) ->
  exists pubcap privcap pctx skR pem,
    publen = Some pubcap /\ privlen = Some privcap /\
    pub = true /\ priv = true /\
    Hpke.hpke_suite_check suite = 1 /\
    Kg.EVP_PKEY_keygen pctx ent = Some skR /\
    pubk = Hpke.EVP_PKEY_get1_tls_encodedpoint skR /\
    0 < len pubk <= pubcap /\
    Kg.PEM_write_bio_PrivateKey skR = Some pem /\
    let r := Kg.BIO_read pem Hpke.HPKE_MAXSIZE in
    privk = take (Z.to_nat (wrap64 r.1)) r.2 /\
    0 < wrap64 r.1 <= privcap /\ wrap64 r.1 <= len r.2 /\
    wrap64 r.1 <= Hpke.HPKE_MAXSIZE.
Proof.
  unfold Kg.hpke_kg. intros Hk.
  destruct (Z.eqb_spec (Hpke.hpke_suite_check suite) 1) as [Hs|];
    [|discriminate].
  destruct pub; [|discriminate]. destruct priv; [|discriminate].
  cbn [andb] in Hk.
  match type of Hk with
  | rbind ?r _ = _ => destruct r as [pctx0| |]; [|discriminate..]
  end.
  cbn [rbind] in Hk.
  destruct (Kg.EVP_PKEY_keygen_init pctx0) as [pctx|]; [|discriminate].
  destruct (Kg.EVP_PKEY_keygen pctx ent) as [skR|] eqn:Hg; [|discriminate].
  destruct (Z.eqb_spec (len (Hpke.EVP_PKEY_get1_tls_encodedpoint skR)) 0);
    [discriminate|]. cbn [negb] in Hk.
  destruct publen as [pubcap|]; [|discriminate].
  destruct (Z.gtb_spec (len (Hpke.EVP_PKEY_get1_tls_encodedpoint skR)) pubcap);
    [discriminate|]. cbn [negb] in Hk.
  destruct (Kg.PEM_write_bio_PrivateKey skR) as [pem|] eqn:Hpem;
    [|discriminate].
  cbv zeta in Hk.
  destruct (Z.leb_spec (wrap64 (Kg.BIO_read pem Hpke.HPKE_MAXSIZE).1) 0);
    [discriminate|]. cbn [negb] in Hk.
  destruct privlen as [privcap|]; [|discriminate].
  destruct (Z.gtb_spec (wrap64 (Kg.BIO_read pem Hpke.HPKE_MAXSIZE).1) privcap);
    [discriminate|]. cbn [negb] in Hk.
  destruct (Z.gtb_spec (wrap64 (Kg.BIO_read pem Hpke.HPKE_MAXSIZE).1)
              (len (Kg.BIO_read pem Hpke.HPKE_MAXSIZE).2));
    [discriminate|]. cbn [orb] in Hk.
  destruct (Z.gtb_spec (wrap64 (Kg.BIO_read pem Hpke.HPKE_MAXSIZE).1)
              Hpke.HPKE_MAXSIZE); [discriminate|].
  injection Hk as <- <-.
  pose proof (len_nonneg (Hpke.EVP_PKEY_get1_tls_encodedpoint skR)).
  exists pubcap, privcap, pctx, skR, pem. cbv zeta.
  repeat split; try assumption; try reflexivity; lia.
Qed.

(** X5: what [hpke_kg] reports fits the caller's buffers: on success both
    buffers were there, the suite is a supported one, the public value
    is not empty and not longer than [*publen], and the private key is
    not empty and not longer than [*privlen] nor than HPKE_MAXSIZE. *)
Theorem hpke_kg_output_fits (ent : Hpke.Entropy) (mode : Z)
    (suite : Hpke.hpke_suite_t) (publen : option Z) (pub : bool)
    (privlen : option Z) (priv : bool) (pubk privk : bytes) :
  Kg.hpke_kg ent mode suite publen pub privlen priv = Ok (pubk, privk) ->
  exists pubcap privcap,
    publen = Some pubcap /\ privlen = Some privcap /\
    pub = true /\ priv = true /\
    Hpke.hpke_suite_check suite = 1 /\
    0 < len pubk <= pubcap /\
    0 < len privk <= privcap /\ len privk <= Hpke.HPKE_MAXSIZE.
Proof.
  intros Hk.
  destruct (hpke_kg_inv _ _ _ _ _ _ _ _ _ Hk)
    as (pubcap & privcap & pctx & skR & pem & -> & -> & -> & -> & Hs & _ &
        _ & Hp & _ & Hr).
  cbv zeta in Hr. destruct Hr as (-> & Hr1 & Hr2 & Hr3).
  exists pubcap, privcap.
  assert (Hl : len (take (Z.to_nat (wrap64 (Kg.BIO_read pem Hpke.HPKE_MAXSIZE).1))
                      (Kg.BIO_read pem Hpke.HPKE_MAXSIZE).2) =
               wrap64 (Kg.BIO_read pem Hpke.HPKE_MAXSIZE).1).
  { unfold len in *. rewrite length_take. lia. }
  rewrite Hl. repeat split; try assumption; lia.
Qed.

(** X2: a key pair made by [hpke_kg] works: in the modes Base and PSK, what
    [hpke_enc] produces for the public value is opened by [hpke_dec] with
    the private key octets, provided that the PEM form of the key reads
    back, that libcrypto agrees on the Diffie-Hellman value and that the
    AEAD opens what it sealed. *)
Theorem hpke_kg_round_trip (ent0 ent : Hpke.Entropy) (kgmode mode : Z)
    (suite : Hpke.hpke_suite_t) (publen privlen : option Z)
    (pubk privk : bytes)
    (pskid : option bytes) (psklen : Z) (psk : option bytes)
    (clearlen : Z) (clear : option bytes) (aadlen : Z) (aad : option bytes)
    (infolen : Z) (info : option bytes) (senderpublen cipherlen : option Z)
    (enc ct : bytes) (clearcap : Z) :
  Hpke.HPKE_MAXSIZE < 2 ^ 31 ->
  Hpke.is_auth_mode mode = false ->
  Kg.pem_reads_back suite ->
  Kg.dh_agrees suite ent ->
  aead_opens (Hpke.aad_octets aadlen aad) (Hpke.rd clearlen clear) 16 ->
  len (Hpke.rd clearlen clear) <= clearcap ->
  Kg.hpke_kg ent0 kgmode suite publen true privlen true = Ok (pubk, privk) ->
  Hpke.hpke_enc ent mode suite pskid psklen psk (len pubk) (Some pubk)
    0 None clearlen clear aadlen aad infolen info senderpublen
    cipherlen = Ok (enc, ct) ->
  Hpke.hpke_dec mode suite pskid psklen psk 0 None
    (len privk) (Some privk) None (len enc) (Some enc) (len ct) (Some ct)
    aadlen aad infolen info (Some clearcap) = Ok (Hpke.rd clearlen clear).
Proof.
  intros Hmax Hmode Hpem Hdh Haead Hcap Hk He.
  destruct (hpke_kg_inv _ _ _ _ _ _ _ _ _ Hk)
    as (pubcap & privcap & pctx & skR & pem & _ & _ & _ & _ & Hs & Hg &
        Hpub & Hp & Hw & Hr).
  cbv zeta in Hr. destruct Hr as (Hpriv & _).
  destruct (Hpem skR pem Hw) as (Hl & Hn & Hread & Hback).
  rewrite Hread in Hpriv. cbn [fst snd] in Hpriv.
  assert (Hwrap : wrap64 (len pem) = len pem).
  { unfold wrap64. apply Z.mod_small. lia. }
  rewrite Hwrap in Hpriv.
  assert (privk = pem) as ->.
  { rewrite Hpriv. unfold len. rewrite Nat2Z.id. apply firstn_all. }
  apply (hpke_round_trip_gen ent mode suite pskid psklen psk (len pubk)
           (Some pubk) 0 None clearlen clear aadlen aad infolen info
           senderpublen cipherlen (len pem) (Some pem) None skR None enc ct
           clearcap); try assumption.
  - rewrite rd_all. symmetry. exact Hpub.
  - rewrite rd_all. lia.
  - split; [discriminate|]. unfold Hpke.load_private.
    destruct (Z.eqb_spec (Hpke.Npriv (Hpke.kem_row (Hpke.kem_id suite)))
                (len pem)); [congruence|].
    rewrite rd_all, Hback. reflexivity.
  - unfold sender_key. rewrite Hmode. reflexivity.
  - intros pkR pkE HpkR HpkE. rewrite rd_all in HpkR. subst pubk.
    exact (Hdh pctx ent0 skR pkR pkE Hg HpkR HpkE).
  - intros pkR k _ Hk0. discriminate.
Qed.
End HpkeKeygen.

(** ** More on the ingestion of ECHConfigs *)

Section Base64.
Context {E : Ech.ech_h} {B : Ech.evp_encode}.

Lemma cstr_id (s : bytes) : Forall (fun c => c <> 0) s -> Ech.cstr s = s.
Proof.
  induction 1 as [|c s Hc _ IH]; simpl; [reflexivity|].
  destruct (Z.eqb_spec c 0); [contradiction|]. rewrite IH. reflexivity.
Qed.

Lemma cstr_app (s t : bytes) :
  Forall (fun c => c <> 0) s -> Ech.cstr (s ++ t) = s ++ Ech.cstr t.
Proof.
  induction 1 as [|c s Hc _ IH]; simpl; [reflexivity|].
  destruct (Z.eqb_spec c 0); [contradiction|]. rewrite IH. reflexivity.
Qed.

Lemma strcspn_nat_frag (f rest : bytes) :
  Forall (fun c => c <> 0 /\ c <> 59) f ->
  Ech.strcspn_nat (f ++ 59 :: rest) [59] = length f.
Proof.
  induction 1 as [|c f [_ Hc] _ IH]; simpl; [reflexivity|].
  destruct (Z.eqb_spec c 59); [contradiction|]. simpl. rewrite IH. reflexivity.
Qed.

Lemma strcspn_nat_last (f : bytes) :
  Forall (fun c => c <> 0 /\ c <> 59) f ->
  Ech.strcspn_nat f [59] = length f.
Proof.
  induction 1 as [|c f [_ Hc] _ IH]; simpl; [reflexivity|].
  destruct (Z.eqb_spec c 59); [contradiction|]. simpl. rewrite IH. reflexivity.
Qed.

Lemma frag_no_nul (f : bytes) :
  Forall (fun c => c <> 0 /\ c <> 59) f -> Forall (fun c => c <> 0) f.
Proof.
  intros Hf. eapply Forall_impl; [exact Hf|]. simpl. tauto.
Qed.

Lemma join_no_nul (fs : list bytes) :
  Forall Ingest.frag_ok fs -> Forall (fun c => c <> 0) (Ingest.join fs).
Proof.
  induction 1 as [|f fs (_ & Hf & _) Hfs IH]; [constructor|].
  destruct fs as [|g fs]; simpl.
  - apply frag_no_nul, Hf.
  - apply Forall_app. split; [apply frag_no_nul, Hf|].
    constructor; [discriminate|exact IH].
Qed.

Lemma join_length (fs : list bytes) :
  Forall Ingest.frag_ok fs -> (length fs <= length (Ingest.join fs))%nat.
Proof.
  induction 1 as [|f fs (Hne & _) Hfs IH]; [simpl; lia|].
  destruct f as [|c f]; [contradiction|].
  destruct fs as [|g fs]; simpl in *; [lia|].
  rewrite length_app. simpl. lia.
Qed.

(** One turn of the loop on a fragment [f] that is followed by [rest]
    (empty, or a semi-colon and more). *)
Lemma b64_loop_step fuel todo f rest out :
  Ingest.frag_ok f ->
  rest = [] \/ (exists rest', rest = 59 :: rest' /\ Forall (fun c => c <> 0) rest') ->
  0 < todo ->
  Ech.b64_loop (S fuel) todo (f ++ rest) out =
  Ech.b64_loop fuel (todo - (len f + 1)) (drop 1 rest) (out ++ Ingest.frag_out f).
Proof.
  intros (Hne & Hf & Hp & Hd & Hl) Hrest Htodo.
  cbn [Ech.b64_loop].
  destruct (Z.ltb_spec 0 todo); [|lia].
  assert (Hspan : Ech.strcspn (f ++ rest) (Hpke.str ";") = len f).
  { unfold Ech.strcspn, len. f_equal. change (Hpke.str ";") with [59].
    destruct Hrest as [-> | (rest' & -> & Hr)].
    - rewrite app_nil_r, cstr_id by (apply frag_no_nul, Hf).
      apply strcspn_nat_last, Hf.
    - rewrite cstr_app by (apply frag_no_nul, Hf). simpl.
      apply strcspn_nat_frag, Hf. }
  rewrite Hspan.
  assert (Htake : take (Z.to_nat (len f)) (f ++ rest) = f).
  { unfold len. rewrite Nat2Z.id. rewrite take_app_length. reflexivity. }
  rewrite Htake.
  destruct (Z.ltb_spec (Ech.EVP_DecodeBlock f).1 0).
  { unfold Ingest.pad in Hd. lia. }
  destruct (Ech.padding_rev (rev f) 0) as [i|] eqn:Hi; [|contradiction].
  unfold Ingest.frag_out, Ingest.pad. rewrite Hi. cbn [default].
  f_equal.
  unfold len. replace (Z.to_nat (Z.of_nat (length f) + 1)) with (length f + 1)%nat by lia.
  rewrite <- drop_drop, drop_app_length. reflexivity.
Qed.

Lemma b64_loop_join fs : forall fuel out tail,
  fs <> [] -> Forall Ingest.frag_ok fs ->
  tail = [] \/ tail = [59] ->
  (length fs <= fuel)%nat ->
  Ech.b64_loop fuel (len (Ingest.join fs ++ tail)) (Ingest.join fs ++ tail) out =
  Ech.Done (out ++ concat (map Ingest.frag_out fs)).
Proof.
  induction fs as [|f fs IH]; intros fuel out tail Hne Hok Htail Hfuel;
    [contradiction|].
  inversion Hok as [|? ? Hf Hfs]; subst.
  destruct fuel as [|fuel]; [simpl in Hfuel; lia|].
  assert (Hflen : 0 < len f).
  { destruct Hf as (Hn & _). destruct f; [contradiction|]. unfold len. simpl. lia. }
  destruct fs as [|g fs].
  - (* the last fragment *)
    cbn [Ingest.join map concat]. rewrite app_nil_r.
    rewrite b64_loop_step; [|exact Hf| |rewrite len_app; pose proof (len_nonneg tail); lia].
    + destruct Htail as [-> | ->].
      * rewrite app_nil_r. replace (len f - (len f + 1)) with (-1) by lia.
        destruct fuel; reflexivity.
      * rewrite len_app. change (len [59]) with 1.
        replace (len f + 1 - (len f + 1)) with 0 by lia.
        destruct fuel; reflexivity.
    + destruct Htail as [-> | ->]; [left; reflexivity|].
      right. exists []. split; [reflexivity|constructor].
  - (* a fragment, a semi-colon, and more *)
    change (Ingest.join (f :: g :: fs)) with (f ++ [59] ++ Ingest.join (g :: fs)).
    rewrite <- !app_assoc.
    assert (Hnn : Forall (fun c => c <> 0) (Ingest.join (g :: fs) ++ tail)).
    { apply Forall_app. split; [apply join_no_nul, Hfs|].
      destruct Htail as [-> | ->]; repeat constructor. discriminate. }
    rewrite b64_loop_step;
      [|exact Hf
       |right; eexists; split; [reflexivity|exact Hnn]
       |rewrite len_app;
        match goal with |- 0 < _ + len ?x => pose proof (len_nonneg x) end; lia].
    cbn [app drop].
    replace (len (f ++ 59 :: Ingest.join (g :: fs) ++ tail) - (len f + 1))
      with (len (Ingest.join (g :: fs) ++ tail)).
    2:{ unfold len. rewrite !length_app. cbn [length]. rewrite length_app. lia. }
    rewrite IH; [|discriminate|exact Hfs|exact Htail|simpl in *; lia].
    cbn [map concat]. rewrite <- !app_assoc. reflexivity.
Qed.

(** X12: [ech_base64_decode] decodes a multi-valued input fragment by
    fragment: for fragments separated by semi-colons, with or without a
    semi-colon at the end, the output is the concatenation of what
    EVP_DecodeBlock gives for each fragment, less its padding octets,
    and the answer is its length. *)
Theorem ech_base64_decode_fragments (fs : list bytes) (tail : bytes) :
  fs <> [] -> Forall Ingest.frag_ok fs ->
  tail = [] \/ tail = [59] ->
  Ech.ech_base64_decode (Ingest.join fs ++ tail) =
  (len (concat (map Ingest.frag_out fs)),
   Some (concat (map Ingest.frag_out fs))).
Proof.
  intros Hne Hok Htail. unfold Ech.ech_base64_decode, Ech.strlen.
  assert (Hnn : Forall (fun c => c <> 0) (Ingest.join fs ++ tail)).
  { apply Forall_app. split; [apply join_no_nul, Hok|].
    destruct Htail as [-> | ->]; repeat constructor. discriminate. }
  rewrite cstr_id by exact Hnn.
  assert (Hpos : 0 < len (Ingest.join fs ++ tail)).
  { pose proof (join_length fs Hok). destruct fs; [contradiction|].
    rewrite len_app. pose proof (len_nonneg tail). unfold len in *.
    simpl in *. lia. }
  destruct (Z.eqb_spec (len (Ingest.join fs ++ tail)) 0); [lia|].
  rewrite b64_loop_join; [reflexivity|exact Hne|exact Hok|exact Htail|].
  pose proof (join_length fs Hok). unfold len. rewrite length_app. lia.
Qed.

End Base64.

Section Guess.
Context {E : Ech.ech_h}.

Lemma strspn_nat_all (s accept : bytes) :
  forallb (fun c => Ech.mem c accept) s = true ->
  Ech.strspn_nat s accept = length s.
Proof.
  induction s as [|c s IH]; simpl; [reflexivity|].
  destruct (Ech.mem c accept); simpl; [|discriminate].
  intros Hs. rewrite IH by exact Hs. reflexivity.
Qed.

Lemma strspn_nat_some (s accept : bytes) :
  forallb (fun c => Ech.mem c accept) s = false ->
  (Ech.strspn_nat s accept < length s)%nat.
Proof.
  induction s as [|c s IH]; simpl; [discriminate|].
  destruct (Ech.mem c accept); simpl; [|lia].
  intros Hs. specialize (IH Hs). lia.
Qed.

(** X11: [ech_guess_fmt] goes by the alphabet of the whole input: an input
    free of NUL that holds "echconfig=" is taken for an HTTPS RR in
    presentation form; otherwise one made of hex digits and semi-colons
    only for ascii-hex, also when it is base64 as well; otherwise one
    made of base64 characters and semi-colons for base64; and anything
    else for binary. *)
Theorem ech_guess_fmt_by_alphabet (s : bytes) :
  s <> [] -> Forall (fun c => c <> 0) s ->
  Ech.ech_guess_fmt (len s) (Some s) =
  Some (if notnull (Ech.strstr s Ech.httpssvc_telltale) then Ech.ECH_FMT_HTTPSSVC
        else if forallb (fun c => Ech.mem c Ech.AH_alphabet) s
             then Ech.ECH_FMT_ASCIIHEX
        else if forallb (fun c => Ech.mem c Ech.B64_alphabet) s
             then Ech.ECH_FMT_B64TXT
        else Ech.ECH_FMT_BIN).
Proof.
  intros Hne Hnn. unfold Ech.ech_guess_fmt.
  assert (Hpos : 0 < len s) by (destruct s; [contradiction|unfold len; simpl; lia]).
  destruct (Z.leb_spec (len s) 0); [lia|].
  destruct (notnull (Ech.strstr s Ech.httpssvc_telltale)); [reflexivity|].
  unfold Ech.strspn. rewrite cstr_id by exact Hnn.
  destruct (forallb (fun c => Ech.mem c Ech.AH_alphabet) s) eqn:Hah.
  - rewrite (strspn_nat_all _ _ Hah).
    destruct (Z.leb_spec (len s) (Z.of_nat (length s))); [reflexivity|].
    unfold len in *. lia.
  - pose proof (strspn_nat_some _ _ Hah).
    destruct (Z.leb_spec (len s) (Z.of_nat (Ech.strspn_nat s Ech.AH_alphabet)));
      [unfold len in *; lia|].
    destruct (forallb (fun c => Ech.mem c Ech.B64_alphabet) s) eqn:Hb.
    + rewrite (strspn_nat_all _ _ Hb).
      destruct (Z.leb_spec (len s) (Z.of_nat (length s))); [reflexivity|].
      unfold len in *. lia.
    + pose proof (strspn_nat_some _ _ Hb).
      destruct (Z.leb_spec (len s) (Z.of_nat (Ech.strspn_nat s Ech.B64_alphabet)));
        [unfold len in *; lia|reflexivity].
Qed.

End Guess.

Section Serialized.
Context {E : Ech.ech_h}.

Lemma get_net_2_u16 (n : Z) (rest : bytes) :
  Ingest.u16 n -> Ech.PACKET_get_net_2 (I2OSP2 n ++ rest) = Some (n, rest).
Proof.
  intros Hn. unfold I2OSP2, Ingest.u16 in *. cbn [app Ech.PACKET_get_net_2].
  f_equal. f_equal.
  rewrite (Z.mod_small (n / 256) 256)
    by (split; [apply Z.div_pos; lia|apply Z.div_lt_upper_bound; lia]).
  pose proof (Z.div_mod n 256 ltac:(lia)). lia.
Qed.

Lemma copy_bytes_app (b rest : bytes) :
  Ech.PACKET_copy_bytes (b ++ rest) (len b) = Some (b, rest).
Proof.
  unfold Ech.PACKET_copy_bytes, Ech.PACKET_remaining.
  rewrite len_app. pose proof (len_nonneg rest).
  destruct (Z.ltb_spec (len b + len rest) (len b)); [lia|].
  unfold len. rewrite Nat2Z.id, take_app_length, drop_app_length. reflexivity.
Qed.

Lemma prefixed_vec16 (b rest : bytes) :
  len b < 65536 ->
  Ech.PACKET_get_length_prefixed_2 (Ingest.vec16 b ++ rest) = Some (b, rest).
Proof.
  intros Hb. unfold Ech.PACKET_get_length_prefixed_2, Ingest.vec16.
  rewrite <- app_assoc, get_net_2_u16
    by (pose proof (len_nonneg b); unfold Ingest.u16; lia).
  apply copy_bytes_app.
Qed.

Lemma suites_loop_concat (cs : list bytes) :
  Forall (fun c => length c = 4%nat) cs ->
  Ech.suites_loop (concat cs) = (cs, []).
Proof.
  induction 1 as [|c cs Hc _ IH]; [reflexivity|].
  destruct c as [|a [|b [|c0 [|d [|]]]]]; try discriminate.
  cbn [concat app Ech.suites_loop]. rewrite IH. reflexivity.
Qed.

Lemma exts_loop_ser (el : list (Z * Z * option bytes)) :
  forall fuel acc,
  0 < Ech.ECH_MAX_RRVALUE_LEN ->
  Forall Ingest.wf_ext el ->
  (length el <= fuel)%nat ->
  Ech.exts_loop fuel (concat (map Ingest.ser_ext el)) acc = Ech.Done (acc ++ el).
Proof.
  induction el as [|[[ty l] v] el IH]; intros fuel acc Hmax Hwf Hfuel.
  - destruct fuel; cbn; rewrite app_nil_r; reflexivity.
  - inversion Hwf as [|? ? (Hty & Hl & Hv) Hwf']; subst. cbn [fst snd] in *.
    destruct fuel as [|fuel]; [simpl in Hfuel; lia|].
    cbn [map concat]. unfold Ingest.ser_ext at 1. cbn [fst snd].
    cbn [Ech.exts_loop].
    assert (Hrem : (Ech.PACKET_remaining
              ((I2OSP2 ty ++ I2OSP2 l ++ default [] v) ++
               concat (map Ingest.ser_ext el)) >? 0) = true).
    { unfold Ech.PACKET_remaining. rewrite len_app.
      pose proof (len_nonneg (concat (map Ingest.ser_ext el))).
      unfold len at 1. unfold I2OSP2. cbn [app length].
      apply Z.gtb_lt. lia. }
    rewrite Hrem. rewrite <- !app_assoc.
    rewrite get_net_2_u16 by exact Hty.
    destruct (Z.geb_spec 0 Ech.ECH_MAX_RRVALUE_LEN); [lia|].
    rewrite get_net_2_u16 by exact Hl.
    destruct v as [v|]; cbn [default].
    + destruct Hv as [Hl0 Hlen].
      destruct (Z.eqb_spec l 0); [contradiction|]. cbn [negb].
      rewrite <- Hlen, copy_bytes_app. rewrite Hlen.
      rewrite IH by (try assumption; simpl in Hfuel; lia).
      rewrite <- app_assoc. reflexivity.
    + subst l. cbn [Z.eqb negb app].
      rewrite IH by (try assumption; simpl in Hfuel; lia).
      rewrite <- app_assoc. reflexivity.
Qed.

Lemma ser_exts_length (el : list (Z * Z * option bytes)) :
  (length el <= length (concat (map Ingest.ser_ext el)))%nat.
Proof.
  induction el as [|e el IH]; [simpl; lia|].
  cbn [map concat length]. rewrite length_app.
  set (r := concat (map Ingest.ser_ext el)) in *.
  unfold Ingest.ser_ext, I2OSP2. cbn [app length]. lia.
Qed.

Lemma draft_09_contents_ser (ec : Ech.ECHConfig) (rest : bytes) :
  0 < Ech.ECH_MAX_RRVALUE_LEN ->
  Ingest.wf_config ec ->
  Ech.draft_09_contents (Ech.version ec) (Ingest.ser_contents ec ++ rest) =
  Ech.Done (ec, rest).
Proof.
  intros Hmax (Hv & Hname & Hpub & Hkem & Hcs & Hcs4 & Hcsl & Hmnl & Hexts &
               Hextl & Hcid & _).
  unfold Ech.draft_09_contents, Ingest.ser_contents.
  rewrite <- !app_assoc.
  rewrite prefixed_vec16 by lia.
  unfold Ech.PACKET_remaining, Ech.TLSEXT_MAXLEN_host_name.
  destruct (Z.leb_spec (len (Ech.public_name ec)) 1); [lia|].
  destruct (Z.gtb_spec (len (Ech.public_name ec)) 255); [lia|].
  cbn [orb].
  rewrite prefixed_vec16 by lia.
  unfold OPENSSL_malloc_ok.
  destruct (Z.eqb_spec (len (Ech.pub ec)) 0); [lia|]. cbn [negb].
  rewrite get_net_2_u16 by exact Hkem.
  rewrite prefixed_vec16 by lia.
  assert (Hclen : len (concat (Ech.ciphersuites ec)) =
                  4 * len (Ech.ciphersuites ec)).
  { clear -Hcs4. induction Hcs4 as [|c cs Hc _ IH]; [reflexivity|].
    cbn [concat]. rewrite len_app. unfold len in *. simpl. lia. }
  assert (Hcpos : 0 < len (Ech.ciphersuites ec)).
  { destruct (Ech.ciphersuites ec); [contradiction|]. unfold len. simpl. lia. }
  destruct (Z.leb_spec (len (concat (Ech.ciphersuites ec))) 0); [lia|].
  rewrite Z.mod_1_r. cbn [Z.eqb negb orb].
  unfold Ech.ECH_CIPHER_LEN.
  rewrite Hclen. rewrite (Z.mul_comm 4), Z.div_mul by lia.
  destruct (Z.eqb_spec (len (Ech.ciphersuites ec) * 4) 0); [lia|]. cbn [negb].
  rewrite (suites_loop_concat _ Hcs4). cbn [fst snd].
  change (len (@nil Z) >? 0) with false. cbn iota.
  rewrite get_net_2_u16 by exact Hmnl.
  rewrite prefixed_vec16 by lia.
  rewrite (exts_loop_ser _ _ [] Hmax Hexts (ser_exts_length _)).
  cbn [app]. destruct ec. cbn in *. subst. reflexivity.
Qed.

Lemma len_I2OSP2 (n : Z) : len (I2OSP2 n) = 2.
Proof. reflexivity. Qed.

Lemma ser_record_length (ec : Ech.ECHConfig) :
  4 <= len (Ingest.ser_record ec).
Proof.
  unfold Ingest.ser_record, Ingest.vec16. rewrite !len_app, !len_I2OSP2.
  pose proof (len_nonneg (Ingest.ser_contents ec)). lia.
Qed.

Lemma ser_contents_length (ec : Ech.ECHConfig) :
  Ingest.wf_config ec -> 14 <= len (Ingest.ser_contents ec).
Proof.
  intros (_ & Hname & Hpub & _).
  unfold Ingest.ser_contents, Ingest.vec16. rewrite !len_app, !len_I2OSP2.
  pose proof (len_nonneg (concat (Ech.ciphersuites ec))).
  pose proof (len_nonneg (concat (map Ingest.ser_ext (Ech.exts ec)))).
  lia.
Qed.

Lemma records_loop_ser (l : list Ech.ECHConfig) :
  forall fuel te,
  0 < Ech.ECH_MAX_RRVALUE_LEN ->
  Forall Ingest.wf_config l ->
  (length l < fuel)%nat ->
  Ech.records_loop fuel 2 (len (concat (map Ingest.ser_record l)))
    (concat (map Ingest.ser_record l)) te = Ech.Done ([], te ++ l).
Proof.
  induction l as [|ec l IH]; intros fuel te Hmax Hwf Hfuel.
  - destruct fuel; cbn; rewrite app_nil_r; reflexivity.
  - inversion Hwf as [|? ? Hec Hwf']; subst.
    destruct fuel as [|fuel]; [simpl in Hfuel; lia|].
    cbn [map concat Ech.records_loop].
    pose proof (ser_record_length ec) as H4.
    pose proof (ser_contents_length ec Hec) as H14.
    pose proof (len_nonneg (concat (map Ingest.ser_record l))) as Hl.
    rewrite len_app.
    destruct (Z.gtb_spec (len (Ingest.ser_record ec) +
                          len (concat (map Ingest.ser_record l))) 2); [|lia].
    destruct Hec as (Hv & Hrest). pose proof Hrest as Hrest'.
    destruct Hrest' as (_ & _ & _ & _ & _ & _ & _ & _ & _ & _ & Hclen).
    unfold Ingest.ser_record at 1. rewrite <- !app_assoc.
    rewrite get_net_2_u16 by (rewrite Hv; unfold Ingest.u16, Ech.ECH_DRAFT_09_VERSION; lia).
    unfold Ingest.vec16. rewrite <- !app_assoc.
    rewrite get_net_2_u16 by (unfold Ingest.u16; lia).
    unfold Ech.PACKET_remaining. rewrite len_app.
    assert (Hw : wrap32 (len (Ingest.ser_contents ec) - 2) =
                 len (Ingest.ser_contents ec) - 2).
    { unfold wrap32. apply Z.mod_small. lia. }
    rewrite Hw.
    destruct (Z.gtb_spec (len (Ingest.ser_contents ec) - 2)
                (len (Ingest.ser_contents ec) +
                 len (concat (map Ingest.ser_record l)))); [lia|].
    rewrite Hv. cbn [Z.eqb Ech.ECH_DRAFT_09_VERSION Pos.eqb negb].
    rewrite <- Hv at 1.
    rewrite (draft_09_contents_ser ec _ Hmax (conj Hv Hrest)).
    rewrite IH by (try assumption; simpl in Hfuel; lia).
    rewrite <- app_assoc. reflexivity.
Qed.

Lemma ECHConfigs_from_binary_serialized_eq (l : list Ech.ECHConfig) :
  0 < Ech.ECH_MAX_RRVALUE_LEN ->
  Forall Ingest.wf_config l ->
  34 <= len (Ingest.ser_configs l) < 512 ->
  Ech.ECHConfigs_from_binary (Some (Ingest.ser_configs l))
    (len (Ingest.ser_configs l)) true =
  Some ({| Ech.encoded_len := len (Ingest.ser_configs l);
           Ech.encoded := Ingest.ser_configs l;
           Ech.recs := l |}, 0).
Proof.
  intros Hmax Hwf Hlen.
  unfold Ech.ECHConfigs_from_binary, Ech.ECHConfigs_from_binary_fuel.
  unfold Ech.ECH_MIN_ECHCONFIG_LEN, Ech.ECH_MAX_ECHCONFIG_LEN.
  destruct (Z.ltb_spec (len (Ingest.ser_configs l)) 32); [lia|].
  destruct (Z.geb_spec (len (Ingest.ser_configs l)) 512); [lia|].
  cbn [negb].
  assert (Htake : take (Z.to_nat (len (Ingest.ser_configs l)))
                    (Ingest.ser_configs l) = Ingest.ser_configs l).
  { unfold len. rewrite Nat2Z.id. apply firstn_all. }
  rewrite Htake.
  set (body := concat (map Ingest.ser_record l)).
  assert (Hser : Ingest.ser_configs l = I2OSP2 (len body) ++ body) by reflexivity.
  assert (Hbody : len (Ingest.ser_configs l) = 2 + len body).
  { rewrite Hser, len_app. reflexivity. }
  cbv zeta.
  change (Ech.PACKET_get_net_2 (Ingest.ser_configs l))
    with (Ech.PACKET_get_net_2 (I2OSP2 (len body) ++ body)).
  rewrite get_net_2_u16 by (pose proof (len_nonneg body); unfold Ingest.u16; lia).
  destruct (Z.ltb_spec (len body) 32); [lia|].
  destruct (Z.gtb_spec (len body) (len (Ingest.ser_configs l) - 2)); [lia|].
  cbn [orb].
  replace (len (Ingest.ser_configs l) - len body) with 2 by lia.
  unfold Ech.PACKET_remaining. unfold body.
  assert (Hn : (length l <= length body)%nat).
  { unfold body. clear. induction l as [|ec l IH]; [simpl; lia|].
    cbn [map concat length]. rewrite length_app.
    pose proof (ser_record_length ec). unfold len in *. lia. }
  rewrite records_loop_ser; [|exact Hmax|exact Hwf|].
  2:{ unfold len in *. fold body. lia. }
  cbn [app]. change (len (@nil Z)) with 0. cbn [Z.ltb Z.gtb Z.compare orb].
  destruct (Z.gtb_spec 0 (len (Ingest.ser_configs l))); [lia|].
  reflexivity.
Qed.

(** X13: [ECHConfigs_from_binary] reads back the wire form of every list of
    well-formed draft-09 records whose encoding has between 34 and 511
    octets: it answers these records, in order, with nothing left over,
    and keeps the input as [encoded]. *)
Theorem ECHConfigs_from_binary_serialized (l : list Ech.ECHConfig) :
  0 < Ech.ECH_MAX_RRVALUE_LEN ->
  Forall Ingest.wf_config l ->
  34 <= len (Ingest.ser_configs l) < 512 ->
  exists er,
    Ech.ECHConfigs_from_binary (Some (Ingest.ser_configs l))
      (len (Ingest.ser_configs l)) true = Some (er, 0) /\
    Ech.recs er = l /\ Ech.encoded er = Ingest.ser_configs l /\
    Ech.encoded_len er = len (Ingest.ser_configs l).
Proof.
  intros Hmax Hwf Hlen. eexists. split.
  - apply ECHConfigs_from_binary_serialized_eq; assumption.
  - repeat split.
Qed.

Lemma suites_loop_inv (n : nat) :
  forall l, (length l <= n)%nat ->
  l = concat (Ech.suites_loop l).1 ++ (Ech.suites_loop l).2 /\
  Forall (fun c => length c = 4%nat) (Ech.suites_loop l).1.
Proof.
  induction n as [|n IH]; intros l Hl.
  - destruct l; [split; [reflexivity|constructor]|simpl in Hl; lia].
  - destruct l as [|a [|b [|c [|d rest]]]];
      try (split; [reflexivity|constructor]).
    cbn [Ech.suites_loop fst snd concat app].
    destruct (IH rest) as [Heq Hf]; [simpl in Hl; lia|].
    split; [congruence|constructor; [reflexivity|exact Hf]].
Qed.

Lemma draft_09_contents_stored (v : Z) (pkt pkt' : bytes) (ec : Ech.ECHConfig) :
  Ech.draft_09_contents v pkt = Ech.Done (ec, pkt') ->
  Ech.version ec = v /\
  2 <= len (Ech.public_name ec) <= 255 /\
  Ech.pub ec <> [] /\
  Ech.ciphersuites ec <> [] /\
  Forall (fun c => length c = 4%nat) (Ech.ciphersuites ec) /\
  Ech.config_id ec = [].
Proof.
  unfold Ech.draft_09_contents.
  destruct (Ech.PACKET_get_length_prefixed_2 pkt) as [[name p1]|]; [|discriminate].
  unfold Ech.PACKET_remaining, Ech.TLSEXT_MAXLEN_host_name.
  destruct (Z.leb_spec (len name) 1); [discriminate|].
  destruct (Z.gtb_spec (len name) 255); [discriminate|]. cbn [orb].
  destruct (Ech.PACKET_get_length_prefixed_2 p1) as [[pubp p2]|]; [|discriminate].
  unfold OPENSSL_malloc_ok.
  destruct (Z.eqb_spec (len pubp) 0) as [|Hpub]; [discriminate|]. cbn [negb].
  destruct (Ech.PACKET_get_net_2 p2) as [[kem p3]|]; [|discriminate].
  destruct (Ech.PACKET_get_length_prefixed_2 p3) as [[cs p4]|]; [|discriminate].
  destruct (Z.leb_spec (len cs) 0) as [|Hcs]; [discriminate|].
  destruct (negb (len cs `mod` 1 =? 0)); [discriminate|]. cbn [orb].
  destruct (negb (negb (len cs / Ech.ECH_CIPHER_LEN * Ech.ECH_CIPHER_LEN =? 0)));
    [discriminate|].
  destruct (suites_loop_inv (length cs) cs (le_n _)) as [Heq Hf].
  destruct (Z.gtb_spec (len (Ech.suites_loop cs).2) 0) as [|Hrest]; [discriminate|].
  destruct (Ech.PACKET_get_net_2 p4) as [[mnl p5]|]; [|discriminate].
  destruct (Ech.PACKET_get_length_prefixed_2 p5) as [[ex p6]|]; [|discriminate].
  destruct (Ech.exts_loop (length ex) ex []) as [el| |]; try discriminate.
  intros Hd. injection Hd as <- <-. cbn.
  repeat split; try lia; try assumption.
  - intros ->. apply Hpub. reflexivity.
  - intros Hnil. rewrite Hnil in Heq. cbn [concat app] in Heq.
    rewrite <- Heq in Hrest. lia.
Qed.

Lemma records_loop_stored (fuel : nat) :
  forall ntc rem pkt te pkt' te',
  Ech.records_loop fuel ntc rem pkt te = Ech.Done (pkt', te') ->
  Forall Ingest.stored_ok te -> Forall Ingest.stored_ok te'.
Proof.
  induction fuel as [|fuel IH]; intros ntc rem pkt te pkt' te';
    cbn [Ech.records_loop]; destruct (rem >? ntc); try discriminate;
    try (intros Hd; injection Hd as <- <-; tauto).
  destruct (Ech.PACKET_get_net_2 pkt) as [[v p1]|]; [|discriminate].
  destruct (Ech.PACKET_get_net_2 p1) as [[cl p2]|]; [|discriminate].
  destruct (wrap32 (cl - 2) >? Ech.PACKET_remaining p2); [discriminate|].
  destruct (Z.eqb_spec v Ech.ECH_DRAFT_09_VERSION) as [Hv|Hv]; cbn [negb].
  - destruct (Ech.draft_09_contents v p2) as [[ec p3]| |] eqn:Hc; try discriminate.
    intros Hd Hte. eapply IH; [exact Hd|].
    apply Forall_app. split; [exact Hte|]. constructor; [|constructor].
    destruct (draft_09_contents_stored _ _ _ _ Hc) as (H1 & H2).
    split; [congruence|exact H2].
  - destruct (negb (OPENSSL_malloc_ok cl)); [discriminate|].
    destruct (Ech.PACKET_copy_bytes p2 cl) as [[? p3]|]; [|discriminate].
    intros Hd Hte. eapply IH; [exact Hd|exact Hte].
Qed.

(** X14: whatever the input, the records that [ECHConfigs_from_binary]
    answers all have version 0xff09, a public_name of 2 to 255 octets, a
    public key that is not empty, at least one cipher suite, each of four
    octets, and no config_id; the input had between 32 and 511 octets, it
    is kept as [encoded] with its length, and the count of octets left
    over is between 0 and that length. *)
Theorem ECHConfigs_from_binary_stored (binbuf : option bytes) (binblen : Z)
    (leftover : bool) (er : Ech.ECHConfigs) (lo : Z) :
  Ech.ECHConfigs_from_binary binbuf binblen leftover = Some (er, lo) ->
  Forall Ingest.stored_ok (Ech.recs er) /\
  32 <= binblen < 512 /\
  binbuf = Some (Ech.encoded er) /\ Ech.encoded_len er = binblen /\
  0 <= lo <= binblen.
Proof.
  unfold Ech.ECHConfigs_from_binary, Ech.ECHConfigs_from_binary_fuel.
  unfold Ech.ECH_MIN_ECHCONFIG_LEN, Ech.ECH_MAX_ECHCONFIG_LEN.
  destruct (Z.ltb_spec binblen 32); [discriminate|].
  destruct (Z.geb_spec binblen 512); [discriminate|].
  destruct leftover; cbn [negb]; [|discriminate].
  destruct binbuf as [buf|]; [|discriminate].
  destruct (Ech.PACKET_get_net_2 _) as [[olen p1]|]; [|discriminate].
  destruct ((olen <? 32) || (olen >? binblen - 2)); [discriminate|].
  destruct (Ech.records_loop _ _ _ _ _) as [[p2 te]| |] eqn:Hr; try discriminate.
  destruct (Z.ltb_spec (Ech.PACKET_remaining p2) 0); [discriminate|].
  destruct (Z.gtb_spec (Ech.PACKET_remaining p2) binblen); [discriminate|].
  cbn [orb]. intros Hd. injection Hd as <- <-. cbn.
  split; [|repeat split; lia].
  eapply records_loop_stored; [exact Hr|constructor].
Qed.

End Serialized.

Section Add.
Context {E : Ech.ech_h} {B : Ech.evp_encode} {H : Hpke.hpke_h}.

Lemma no_telltale_in_hex (s : bytes) :
  forallb (fun c => Ech.mem c Ech.AH_alphabet) s = true ->
  Ech.strstr_from s Ech.httpssvc_telltale = None.
Proof.
  induction s as [|a s IH]; [reflexivity|].
  intros Hs. cbn [forallb] in Hs. apply andb_prop in Hs as [Ha Hs].
  cbn [Ech.strstr_from]. rewrite (IH Hs).
  assert (Hp : Ech.is_prefix Ech.httpssvc_telltale (a :: s) = false).
  { assert (Ht : Ech.httpssvc_telltale =
                  [101; 99; 104; 99; 111; 110; 102; 105; 103; 61])
      by reflexivity.
    rewrite Ht.
    destruct s as [|b [|c s']]; cbn [Ech.is_prefix];
      try (rewrite ?andb_false_r; reflexivity).
    cbn [forallb] in Hs. apply andb_prop in Hs as [_ Hs].
    apply andb_prop in Hs as [Hc _].
    destruct (Z.eqb_spec 104 c) as [<-|]; [discriminate Hc|].
    cbn [andb]. rewrite !andb_false_r. reflexivity. }
  rewrite Hp. reflexivity.
Qed.

Lemma hex_no_nul (s : bytes) :
  forallb (fun c => Ech.mem c Ech.AH_alphabet) s = true ->
  Forall (fun c => c <> 0) s.
Proof.
  induction s as [|a s IH]; [constructor|].
  intros Hs. cbn [forallb] in Hs. apply andb_prop in Hs as [Ha Hs].
  constructor; [|exact (IH Hs)]. intros ->. discriminate Ha.
Qed.

Lemma ech_guess_fmt_hex (s : bytes) :
  s <> [] -> forallb (fun c => Ech.mem c Ech.AH_alphabet) s = true ->
  Ech.ech_guess_fmt (len s) (Some s) = Some Ech.ECH_FMT_ASCIIHEX.
Proof.
  intros Hne Hs. unfold Ech.ech_guess_fmt.
  assert (Hpos : 0 < len s) by (destruct s; [contradiction|unfold len; simpl; lia]).
  destruct (Z.leb_spec (len s) 0); [lia|].
  unfold Ech.strstr, Ech.strspn.
  rewrite (cstr_id s (hex_no_nul s Hs)), (no_telltale_in_hex s Hs).
  cbn [notnull]. rewrite (strspn_nat_all _ _ Hs).
  destruct (Z.leb_spec (len s) (Z.of_nat (length s))); [reflexivity|].
  unfold len in *. lia.
Qed.

Lemma ah_encode_hex (hex : Z -> Z) (b : bytes) :
  (forall n, 0 <= n < 16 -> Ech.mem (hex n) Ech.AH_alphabet = true) ->
  Forall is_octet b ->
  forallb (fun c => Ech.mem c Ech.AH_alphabet) (ah_encode hex b) = true.
Proof.
  intros Hhex. induction 1 as [|x b Hx _ IH]; [reflexivity|].
  cbn [ah_encode flat_map app forallb]. fold (ah_encode hex b).
  unfold is_octet in Hx.
  rewrite (Hhex (x / 16))
    by (split; [apply Z.div_pos; lia|apply Z.div_lt_upper_bound; lia]).
  rewrite (Hhex (x mod 16)) by (apply Z.mod_pos_bound; lia).
  exact IH.
Qed.

Lemma local_ech_add_bin (l : list Ech.ECHConfig) :
  Forall Ingest.wf_config l ->
  34 <= len (Ingest.ser_configs l) < 512 ->
  len (Ingest.ser_configs l) < Ech.ECH_MAX_RRVALUE_LEN ->
  Ech.local_ech_add Ech.ECH_FMT_BIN (len (Ingest.ser_configs l))
    (Some (Ingest.ser_configs l)) true =
  Ok (Some (1, [Ech.new_SSL_ECH
                  {| Ech.encoded_len := len (Ingest.ser_configs l);
                     Ech.encoded := Ingest.ser_configs l;
                     Ech.recs := l |}])).
Proof.
  intros Hwf Hlen Hmax. unfold Ech.local_ech_add.
  destruct (Z.eqb_spec (len (Ingest.ser_configs l)) 0); [lia|].
  cbn [negb orb].
  destruct (Z.geb_spec (len (Ingest.ser_configs l)) Ech.ECH_MAX_RRVALUE_LEN);
    [lia|].
  cbn [rbind fst snd].
  assert (Htake : take (Z.to_nat (len (Ingest.ser_configs l)))
                    (Ingest.ser_configs l) = Ingest.ser_configs l).
  { unfold len. rewrite Nat2Z.id. apply firstn_all. }
  rewrite Htake.
  rewrite ECHConfigs_from_binary_serialized_eq by (try assumption; lia).
  reflexivity.
Qed.

Lemma local_ech_add_hex (hex : Z -> Z) (l : list Ech.ECHConfig)
    (ekfmt : Ech.ech_fmt) :
  (forall n, 0 <= n < 16 -> Hpke.HPKE_A2B (hex n) = n) ->
  (forall n, 0 <= n < 16 -> Ech.mem (hex n) Ech.AH_alphabet = true) ->
  ekfmt = Ech.ECH_FMT_ASCIIHEX \/ ekfmt = Ech.ECH_FMT_GUESS ->
  Forall Ingest.wf_config l ->
  Forall is_octet (Ingest.ser_configs l) ->
  34 <= len (Ingest.ser_configs l) < 512 ->
  2 * len (Ingest.ser_configs l) < Ech.ECH_MAX_RRVALUE_LEN ->
  Ech.local_ech_add ekfmt (len (ah_encode hex (Ingest.ser_configs l)))
    (Some (ah_encode hex (Ingest.ser_configs l))) true =
  Ok (Some (1, [Ech.new_SSL_ECH
                  {| Ech.encoded_len := len (Ingest.ser_configs l);
                     Ech.encoded := Ingest.ser_configs l;
                     Ech.recs := l |}])).
Proof.
  intros Ha2b Hhex Hfmt Hwf Hoct Hlen Hmax. unfold Ech.local_ech_add.
  pose proof (ah_encode_length hex (Ingest.ser_configs l)) as Hl.
  assert (Hne : Ingest.ser_configs l <> []).
  { intros Hnil. rewrite Hnil in Hlen. unfold len in Hlen. simpl in Hlen. lia. }
  assert (Hne' : ah_encode hex (Ingest.ser_configs l) <> []).
  { intros Hnil. rewrite Hnil in Hl. unfold len in Hl at 1. simpl in Hl. lia. }
  destruct (Z.eqb_spec (len (ah_encode hex (Ingest.ser_configs l))) 0); [lia|].
  cbn [negb orb].
  destruct (Z.geb_spec (len (ah_encode hex (Ingest.ser_configs l)))
              Ech.ECH_MAX_RRVALUE_LEN); [lia|].
  assert (Hdec : at_line 0
            (do b <- Hpke.hpke_ah_decode
                       (len (ah_encode hex (Ingest.ser_configs l)))
                       (Some (ah_encode hex (Ingest.ser_configs l))) true true ;;
             Ok (len b, Some b)) =
          Ok (len (Ingest.ser_configs l), Some (Ingest.ser_configs l))).
  { rewrite hpke_ah_decode_encoded_eq by assumption. reflexivity. }
  destruct Hfmt as [-> | ->].
  - cbn [rbind fst snd]. rewrite Hdec. cbn [rbind fst snd].
    rewrite ECHConfigs_from_binary_serialized_eq by (try assumption; lia).
    reflexivity.
  - rewrite (ech_guess_fmt_hex _ Hne' (ah_encode_hex hex _ Hhex Hoct)).
    cbn [rbind fst snd]. rewrite Hdec. cbn [rbind fst snd].
    rewrite ECHConfigs_from_binary_serialized_eq by (try assumption; lia).
    reflexivity.
Qed.

(** X15: binary ECHConfigs handed to [SSL_ech_add] or [SSL_CTX_ech_add] as
    ECH_FMT_BIN, a list of well-formed draft-09 records of 34 to 511
    octets below the bound on RR values, are stored: the call answers 1
    and leaves one SSL_ECH that holds the records and the input as
    [encoded], with a count of 1. *)
Theorem ech_add_binary_stored (l : list Ech.ECHConfig) (c : Ech.SSL)
    (ctx : Ech.SSL_CTX) (n : Z) :
  Forall Ingest.wf_config l ->
  34 <= len (Ingest.ser_configs l) < 512 ->
  len (Ingest.ser_configs l) < Ech.ECH_MAX_RRVALUE_LEN ->
  let er := {| Ech.encoded_len := len (Ingest.ser_configs l);
               Ech.encoded := Ingest.ser_configs l;
               Ech.recs := l |} in
  Ech.SSL_ech_add (Some c) Ech.ECH_FMT_BIN (len (Ingest.ser_configs l))
    (Some (Ingest.ser_configs l)) (Some n) =
  Some (1, Some (Ech.set_ech (Some [Ech.new_SSL_ECH er]) 1 c)) /\
  Ech.SSL_CTX_ech_add (Some ctx) Ech.ECH_FMT_BIN (len (Ingest.ser_configs l))
    (Some (Ingest.ser_configs l)) (Some n) =
  Some (1, Some {| Ech.ctx_ext_ech := Some [Ech.new_SSL_ECH er];
                   Ech.ctx_ext_nechs := 1;
                   Ech.ctx_other := Ech.ctx_other ctx |}).
Proof.
  intros Hwf Hlen Hmax er.
  unfold Ech.SSL_ech_add, Ech.SSL_CTX_ech_add. cbn [notnull].
  rewrite (local_ech_add_bin l Hwf Hlen Hmax). split; reflexivity.
Qed.

(** X16: the same ECHConfigs in ascii-hex, handed to [SSL_ech_add] or
    [SSL_CTX_ech_add] as ECH_FMT_ASCIIHEX or left to be guessed
    (ECH_FMT_GUESS), are decoded and stored in the same way: the format
    is recognised, [hpke_ah_decode] gives the octets back and the parser
    reads them. *)
Theorem ech_add_asciihex_stored (hex : Z -> Z) (l : list Ech.ECHConfig)
    (ekfmt : Ech.ech_fmt) (c : Ech.SSL) (ctx : Ech.SSL_CTX) (n : Z) :
  (forall n, 0 <= n < 16 -> Hpke.HPKE_A2B (hex n) = n) ->
  (forall n, 0 <= n < 16 -> Ech.mem (hex n) Ech.AH_alphabet = true) ->
  ekfmt = Ech.ECH_FMT_ASCIIHEX \/ ekfmt = Ech.ECH_FMT_GUESS ->
  Forall Ingest.wf_config l ->
  Forall is_octet (Ingest.ser_configs l) ->
  34 <= len (Ingest.ser_configs l) < 512 ->
  2 * len (Ingest.ser_configs l) < Ech.ECH_MAX_RRVALUE_LEN ->
  let er := {| Ech.encoded_len := len (Ingest.ser_configs l);
               Ech.encoded := Ingest.ser_configs l;
               Ech.recs := l |} in
  let ekval := ah_encode hex (Ingest.ser_configs l) in
  Ech.SSL_ech_add (Some c) ekfmt (len ekval) (Some ekval) (Some n) =
  Some (1, Some (Ech.set_ech (Some [Ech.new_SSL_ECH er]) 1 c)) /\
  Ech.SSL_CTX_ech_add (Some ctx) ekfmt (len ekval) (Some ekval) (Some n) =
  Some (1, Some {| Ech.ctx_ext_ech := Some [Ech.new_SSL_ECH er];
                   Ech.ctx_ext_nechs := 1;
                   Ech.ctx_other := Ech.ctx_other ctx |}).
Proof.
  intros Ha2b Hhex Hfmt Hwf Hoct Hlen Hmax er ekval.
  unfold Ech.SSL_ech_add, Ech.SSL_CTX_ech_add. cbn [notnull]. unfold ekval.
  rewrite (local_ech_add_hex hex l ekfmt Ha2b Hhex Hfmt Hwf Hoct Hlen Hmax).
  split; reflexivity.
Qed.

(** X17: when the format is left to be guessed and the first "echconfig="
    of the input has nothing behind it, [local_ech_add] leaves through
    [return(rv)] with the 1 that [ech_guess_fmt] answered: [SSL_ech_add]
    reports success although nothing was decoded, sets the list of the
    connection to NULL and keeps the count the caller passed in. *)
Theorem ech_add_guess_empty_svc (c : Ech.SSL) (eklen : Z) (ekval t : bytes)
    (n : Z) :
  0 < eklen < Ech.ECH_MAX_RRVALUE_LEN ->
  Ech.strstr ekval Ech.httpssvc_telltale = Some t ->
  Ech.strlen t <= Ech.strlen Ech.httpssvc_telltale ->
  Ech.SSL_ech_add (Some c) Ech.ECH_FMT_GUESS eklen (Some ekval) (Some n) =
  Some (1, Some (Ech.set_ech None n c)).
Proof.
  intros Hlen Hstr Ht. unfold Ech.SSL_ech_add, Ech.local_ech_add.
  cbn [notnull].
  destruct (Z.eqb_spec eklen 0); [lia|]. cbn [negb orb].
  destruct (Z.geb_spec eklen Ech.ECH_MAX_RRVALUE_LEN); [lia|].
  unfold Ech.ech_guess_fmt.
  destruct (Z.leb_spec eklen 0); [lia|].
  rewrite Hstr. cbn [notnull rbind fst snd].
  destruct (Z.leb_spec (Ech.strlen t) (Ech.strlen Ech.httpssvc_telltale)); [|lia].
  reflexivity.
Qed.

End Add.

(** ** More on the swap *)

Section SwapMore.
Context {E : Ech.ech_h} {S : Ech.libssl}.

(** X22: the length that [ech_swaperoo] takes for the outer ClientHello at
    the head of the transcript is 1 plus its 24-bit length field, where
    the message has 4 octets of header: the last three octets of the
    outer ClientHello stay in the rebuilt transcript, between the inner
    ClientHello and the messages that followed. *)
Theorem new_transcript_keeps_three_octets (tmp_outer : Ech.SSL)
    (a b c : Z) (body rest : bytes) :
  Ech.s3_handshake_buffer tmp_outer =
    Ech.SSL3_MT_CLIENT_HELLO :: a :: b :: c :: body ++ rest ->
  len body = a * 256 * 256 + b * 256 + c ->
  3 <= len body ->
  Ech.new_transcript tmp_outer =
  Some (default [] (Ech.ext_innerch tmp_outer) ++
        drop (Z.to_nat (len body - 3)) body ++ rest).
Proof.
  intros Hbuf Hlen H3. unfold Ech.new_transcript. rewrite Hbuf.
  set (buf := Ech.SSL3_MT_CLIENT_HELLO :: a :: b :: c :: body ++ rest).
  assert (Hl : len buf = 4 + len body + len rest).
  { unfold buf, len. cbn [length]. rewrite length_app. lia. }
  pose proof (len_nonneg rest) as Hr.
  destruct (Z.gtb_spec (len buf) 0); [|lia].
  change (nth 0 buf 0) with Ech.SSL3_MT_CLIENT_HELLO.
  rewrite Z.eqb_refl. cbn [andb].
  change (nth 1 buf 0) with a. change (nth 2 buf 0) with b.
  change (nth 3 buf 0) with c.
  replace (1 + a * 256 * 256 + b * 256 + c) with (1 + len body) by lia.
  destruct (Z.gtb_spec (1 + len body) (len buf)); [lia|].
  destruct (Z.gtb_spec (len buf - (1 + len body)) 0); [|lia].
  f_equal. f_equal.
  replace (Z.to_nat (1 + len body)) with (4 + Z.to_nat (len body - 3))%nat
    by lia.
  unfold buf. cbn [drop Nat.add].
  rewrite drop_app_le by (unfold len in *; lia). reflexivity.
Qed.

Ltac two_rw :=
  repeat first
    [ rewrite two_upd_l | rewrite two_upd_r by assumption
    | rewrite two_lookup_l | rewrite two_insert_l
    | progress cbn [mbind option_bind Ech.ext_outer_s Ech.set_ext_inner_s
                    Ech.set_ext_outer_s] ].

(** X23: [ech_swaperoo] swaps first and checks the transcript after: when
    the outer ClientHello at the head of the transcript claims more
    octets than the buffer holds, the call answers 0 and the two sessions
    stay swapped.  The session at [inp] is the outer one with its links
    turned round; the session at [s] is what [SSLfatal] leaves of the
    inner one with the transport of the outer and the link to [inp]. *)
Theorem ech_swaperoo_failure_stays_swapped (h : gmap nat Ech.SSL)
    (s inp : nat) (tmp_outer tmp_inner : Ech.SSL) :
  h !! s = Some tmp_outer ->
  Ech.ext_inner_s tmp_outer = Some inp ->
  h !! inp = Some tmp_inner ->
  Ech.ext_outer_s tmp_inner = Some s ->
  inp <> s ->
  Ech.new_transcript tmp_outer = None ->
  Ech.ech_swaperoo h (Some s) =
  Some (0, two h s inp
             (Ech.SSLfatal
                (Ech.set_rlayer_s (Some s)
                   (Ech.copy_transport tmp_outer
                      (Ech.set_ext_inner_s None
                         (Ech.set_ext_outer_s (Some inp) tmp_inner)))))
             (Ech.set_ext_outer_s None
                (Ech.set_ext_inner_s (Some s) tmp_outer))).
Proof.
  intros Hs Hin Hinp Hout Hne Htr.
  assert (Hne' : s <> inp) by congruence.
  unfold Ech.ech_swaperoo. rewrite Hs. cbn [mbind option_bind].
  rewrite Hin, Hinp. cbn [mbind option_bind]. rewrite Hout.
  rewrite bool_decide_eq_true_2 by reflexivity. cbn [negb]. cbv zeta.
  rewrite two_start by assumption. two_rw.
  rewrite Htr. two_rw. reflexivity.
Qed.

End SwapMore.

(** ** The inner ClientHello, encoded and decoded *)

Section Decode.
Context {E : Ech.ech_h} {T : Dec.ssl_local_h}.

Lemma at1_middle (pre post : bytes) (x : Z) :
  Dec.at1 (pre ++ x :: post) (len pre) = Ok x.
Proof.
  unfold Dec.at1. rewrite len_app. pose proof (len_nonneg pre).
  pose proof (len_nonneg post).
  destruct (Z.leb_spec 0 (len pre)); [|lia].
  destruct (Z.ltb_spec (len pre) (len pre + len (x :: post)));
    [|unfold len in *; simpl in *; lia].
  cbn [andb]. unfold len. rewrite Nat2Z.id, nth_middle. reflexivity.
Qed.

Lemma at1_middle2 (pre post : bytes) (a b : Z) :
  Dec.at1 (pre ++ a :: b :: post) (len pre + 1) = Ok b.
Proof.
  replace (pre ++ a :: b :: post) with ((pre ++ [a]) ++ b :: post)
    by (rewrite <- app_assoc; reflexivity).
  replace (len pre + 1) with (len (pre ++ [a]))
    by (rewrite len_app; reflexivity).
  apply at1_middle.
Qed.

Lemma at2_middle (pre post : bytes) (v : Z) :
  Wire.u16 v -> Dec.at2 (pre ++ I2OSP2 v ++ post) (len pre) = Ok v.
Proof.
  intros Hv. unfold Dec.at2, I2OSP2. cbn [app].
  rewrite at1_middle, at1_middle2. cbn [rbind]. f_equal.
  unfold Wire.u16 in Hv.
  rewrite (Z.mod_small (v / 256) 256)
    by (split; [apply Z.div_pos; lia|apply Z.div_lt_upper_bound; lia]).
  pose proof (Z.div_mod v 256 ltac:(lia)). lia.
Qed.

Lemma at2_at (buf pre post : bytes) (v i : Z) :
  buf = pre ++ I2OSP2 v ++ post -> i = len pre -> Wire.u16 v ->
  Dec.at2 buf i = Ok v.
Proof. intros -> -> Hv. apply at2_middle. exact Hv. Qed.

Lemma be2_I2OSP2 (v : Z) : Ech.be 2 v = I2OSP2 v.
Proof. reflexivity. Qed.

Lemma ext_wire_length (e : Z * bytes) :
  len (Wire.ext_wire e.1 e.2) = len e.2 + 4.
Proof.
  unfold Wire.ext_wire. rewrite !be2_I2OSP2, !len_app, !len_I2OSP2. lia.
Qed.

Lemma exts_wire_cons (e : Z * bytes) (el : list (Z * bytes)) :
  Hello.exts_wire (e :: el) = Wire.ext_wire e.1 e.2 ++ Hello.exts_wire el.
Proof. reflexivity. Qed.

Lemma to_int_exact (x : Z) : 0 <= x < 2 ^ 31 -> to_int (wrap64 x) = x.
Proof.
  intros Hx. unfold to_int, wrap64.
  rewrite (Z.mod_small x (2 ^ 64)) by lia.
  rewrite (Z.mod_small x (2 ^ 32)) by lia.
  destruct (Z.ltb_spec x (2 ^ 31)); [reflexivity|lia].
Qed.

Lemma at2_middle2 (pre post : bytes) (a v : Z) :
  Wire.u16 v ->
  Dec.at2 (pre ++ I2OSP2 a ++ I2OSP2 v ++ post) (len pre + 2) = Ok v.
Proof.
  intros Hv. rewrite app_assoc.
  replace (len pre + 2) with (len (pre ++ I2OSP2 a))
    by (rewrite len_app, len_I2OSP2; reflexivity).
  apply at2_middle. exact Hv.
Qed.

Lemma find_outers_plain (el : list (Z * bytes)) :
  forall fuel pre post,
  Forall Hello.plain_ext el ->
  len (Hello.exts_wire el) < 2 ^ 31 ->
  (length el <= fuel)%nat ->
  Dec.find_outers fuel (pre ++ Hello.exts_wire el ++ post)
    (len (Hello.exts_wire el)) (len pre) = Some (Ok None).
Proof.
  induction el as [|e el IH]; intros fuel pre post Hok Hlen Hfuel.
  - destruct fuel; reflexivity.
  - inversion Hok as [|? ? (Hty & Hl & Hne) Hok']; subst.
    destruct fuel as [|fuel]; [simpl in Hfuel; lia|].
    rewrite exts_wire_cons in *. rewrite len_app in *.
    pose proof (ext_wire_length e) as He.
    pose proof (len_nonneg (Hello.exts_wire el)) as Hr.
    pose proof (len_nonneg e.2) as He2.
    specialize (IH fuel (pre ++ I2OSP2 e.1 ++ I2OSP2 (len e.2) ++ e.2) post
                  Hok' ltac:(lia) ltac:(simpl in Hfuel; lia)).
    rewrite <- !app_assoc in IH. rewrite !len_app, !len_I2OSP2 in IH.
    replace (len pre + (2 + (2 + len e.2))) with (len pre + (len e.2 + 4))
      in IH by lia.
    rewrite He.
    unfold Wire.ext_wire. rewrite !be2_I2OSP2. rewrite <- !app_assoc.
    cbn [Dec.find_outers].
    destruct (Z.gtb_spec (len e.2 + 4 + len (Hello.exts_wire el)) 0); [|lia].
    rewrite at2_middle by exact Hty.
    rewrite at2_middle2 by exact Hl.
    destruct (Z.eqb_spec e.1 Ech.TLSEXT_TYPE_outer_extensions);
      [contradiction|].
    replace (len e.2 + 4 + len (Hello.exts_wire el) - (len e.2 + 4))
      with (len (Hello.exts_wire el)) by lia.
    rewrite to_int_exact by lia.
    exact IH.
Qed.

Lemma find_outers_plain_at (el : list (Z * bytes)) fuel buf pre post r i :
  buf = pre ++ Hello.exts_wire el ++ post ->
  r = len (Hello.exts_wire el) -> i = len pre ->
  Forall Hello.plain_ext el ->
  len (Hello.exts_wire el) < 2 ^ 31 ->
  (length el <= fuel)%nat ->
  Dec.find_outers fuel buf r i = Some (Ok None).
Proof. intros -> -> ->. apply find_outers_plain. Qed.

Lemma decode_inner_plain (hdr suites comp sid outer_exts : bytes) (x : Z)
    (el : list (Z * bytes)) (fuel : nat) :
  len hdr = 38 -> len comp = 2 -> len suites < 65536 ->
  len (Hello.exts_wire el) < 65536 ->
  Forall Hello.plain_ext el ->
  len sid <= 32 ->
  (length el <= fuel)%nat ->
  Dec.decode_inner fuel
    (hdr ++ [x] ++ Hello.vec16 suites ++ comp ++
     Hello.vec16 (Hello.exts_wire el)) sid outer_exts =
  Some (Ok (Hello.client_hello hdr sid suites comp (Hello.exts_wire el))).
Proof.
  intros Hhdr Hcomp Hsuites Hexts Hok Hsid Hfuel.
  set (X := Hello.exts_wire el) in *.
  set (tl := Hello.vec16 suites ++ comp ++ Hello.vec16 X).
  pose proof (len_nonneg suites) as Hs0. pose proof (len_nonneg X) as Hx0.
  pose proof (len_nonneg sid) as Hsid0.
  assert (Htl : len tl = 6 + len suites + len X).
  { unfold tl, Hello.vec16. rewrite !len_app, !len_I2OSP2. lia. }
  unfold Dec.decode_inner.
  assert (Henc : len (hdr ++ [x] ++ tl) = 39 + len tl).
  { rewrite !len_app. change (len [x]) with 1. lia. }
  rewrite Henc.
  assert (Hw : wrap64 (39 + len tl + len sid + 1 - 1) = 39 + len tl + len sid).
  { unfold wrap64. rewrite Z.mod_small by lia. lia. }
  rewrite Hw. unfold OPENSSL_malloc_ok.
  destruct (Z.eqb_spec (39 + len tl + len sid) 0); [lia|]. cbn [negb].
  change (6 + 32) with 38. change (38 + 1) with 39.
  destruct (Z.ltb_spec (39 + len tl) 39); [lia|].
  rewrite (take_app_length' hdr ([x] ++ tl)) by (unfold len in Hhdr; lia).
  rewrite (app_assoc hdr [x] tl).
  rewrite (drop_app_length' (hdr ++ [x]) tl)
    by (rewrite length_app; unfold len in Hhdr; simpl; lia).
  cbv zeta.
  assert (H39 : len (hdr ++ [x]) = 39)
    by (rewrite len_app; change (len [x]) with 1; lia).
  rewrite (at2_at ((hdr ++ [x]) ++ tl) (hdr ++ [x])
             (suites ++ comp ++ Hello.vec16 X) (len suites) 39);
    [|unfold tl, Hello.vec16; rewrite <- !app_assoc; reflexivity
     |lia|unfold Wire.u16; lia].
  unfold fbind at 1.
  set (pre2 := hdr ++ [len sid mod 256] ++ sid ++ Hello.vec16 suites ++ comp).
  assert (Hpre2 : len pre2 = 39 + (len suites + 2) + len sid + 2).
  { unfold pre2, Hello.vec16. rewrite !len_app, !len_I2OSP2.
    change (len [len sid mod 256]) with 1. lia. }
  assert (Hini : hdr ++ [len sid mod 256] ++ sid ++ tl =
                 (pre2 ++ I2OSP2 (len X)) ++ X ++ []).
  { unfold pre2, tl, Hello.vec16. rewrite <- !app_assoc.
    rewrite app_nil_r. reflexivity. }
  rewrite Hini.
  rewrite (at2_at _ pre2 (X ++ []) (len X) (39 + (len suites + 2) + len sid + 2));
    [|rewrite <- !app_assoc; reflexivity|lia|unfold Wire.u16; lia].
  unfold fbind at 1.
  rewrite (find_outers_plain_at el fuel _ (pre2 ++ I2OSP2 (len X)) []);
    [|reflexivity|reflexivity|rewrite len_app, len_I2OSP2; lia
     |assumption|fold X; lia|assumption].
  unfold fbind. fold X. f_equal. f_equal.
  unfold Hello.client_hello, pre2, Hello.vec16. rewrite <- !app_assoc.
  rewrite app_nil_r. reflexivity.
Qed.

End Decode.

Section Encode.
Context {E : Ech.ech_h} {S : Ech.libssl}.

Lemma start_sub_open (n : nat) (pkt : Ech.WPACKET) :
  pkt <> [] ->
  Ech.WPACKET_start_sub_packet n pkt =
  Some ({| Ech.lenbytes := n; Ech.written := [] |} :: pkt).
Proof. destruct pkt; [contradiction|reflexivity]. Qed.

Lemma close_sub (n m : nat) (w p : bytes) (subs : Ech.WPACKET) :
  len w < 256 ^ Z.of_nat n ->
  Ech.WPACKET_close ({| Ech.lenbytes := n; Ech.written := w |} ::
                     {| Ech.lenbytes := m; Ech.written := p |} :: subs) =
  Some ({| Ech.lenbytes := m;
           Ech.written := p ++ Ech.be n (len w) ++ w |} :: subs).
Proof.
  intros Hw. unfold Ech.WPACKET_close. cbn [Ech.written Ech.lenbytes].
  destruct (Z.ltb_spec (len w) (256 ^ Z.of_nat n)); [reflexivity|lia].
Qed.

Lemma ech_encode_inner_shape (s : Ech.SSL) (ch : Ech.CLIENTHELLO_MSG)
    (cs X : bytes) :
  Ech.ech s <> None ->
  Ech.clienthello s = Some ch ->
  Wire.u16 (Ech.client_version s) ->
  length (Ech.s3_client_random s) = 32%nat ->
  (forall pkt, Ech.ssl_cipher_list_to_bytes s pkt = Ech.WPACKET_memcpy pkt cs) ->
  len cs < 65536 ->
  (forall pkt, pkt <> [] ->
     Ech.inner_exts_loop (Ech.pre_proc_exts ch) (Ech.ext_outer_only s)
       (Ech.ext_n_outer_only s) false pkt = Some (Wire.more pkt X)) ->
  len X < 65536 ->
  Ech.ech_encode_inner s =
  Some (1, Ech.set_ext_encoded_innerch
             (Some (Hello.client_hello
                      (Hello.inner_hdr s (41 + len cs + len X))
                      [] cs [1; 0] X)) s).
Proof.
  intros Hech Hch Hver Hrnd Hcs Hcsl Hloop HX.
  pose proof (len_nonneg cs) as Hcs0. pose proof (len_nonneg X) as HX0.
  unfold Ech.ech_encode_inner.
  destruct (Ech.ech s); [|contradiction]. cbn [notnull negb].
  unfold Ech.ssl_set_handshake_header, Ech.WPACKET_init,
    Ech.WPACKET_put_bytes_u8, Ech.WPACKET_start_sub_packet_u24,
    Ech.WPACKET_start_sub_packet_u16, Ech.WPACKET_start_sub_packet_u8.
  unfold Ech.WPACKET_put_bytes at 1.
  change ((0 <=? Ech.SSL3_MT_CLIENT_HELLO) &&
          (Ech.SSL3_MT_CLIENT_HELLO <? 256 ^ Z.of_nat 1)) with true.
  cbn iota. cbn [Ech.WPACKET_memcpy Ech.lenbytes Ech.written app mbind
                 option_bind].
  rewrite start_sub_open by discriminate. cbn [mbind option_bind].
  rewrite WPACKET_put_bytes_u16_more by (try discriminate; assumption).
  cbn [mbind option_bind Wire.more Ech.lenbytes Ech.written app].
  rewrite (take_ge (Ech.s3_client_random s))
    by (rewrite Hrnd; reflexivity).
  cbn [Ech.WPACKET_memcpy Ech.lenbytes Ech.written].
  rewrite start_sub_open by discriminate. cbn [mbind option_bind].
  rewrite close_sub by reflexivity. cbn [mbind option_bind].
  rewrite start_sub_open by discriminate. cbn [mbind option_bind].
  rewrite Hcs. cbn [Ech.WPACKET_memcpy Ech.lenbytes Ech.written app mbind
                    option_bind].
  rewrite close_sub by (change (256 ^ Z.of_nat 2) with 65536; lia).
  cbn [mbind option_bind].
  rewrite start_sub_open by discriminate. cbn [mbind option_bind].
  unfold Ech.WPACKET_put_bytes at 1.
  change ((0 <=? 0) && (0 <? 256 ^ Z.of_nat 1)) with true.
  cbn iota. cbn [Ech.WPACKET_memcpy Ech.lenbytes Ech.written app mbind
                 option_bind].
  rewrite close_sub by reflexivity. cbn [mbind option_bind].
  rewrite start_sub_open by discriminate.
  rewrite Hch. cbn [mbind option_bind].
  rewrite Hloop by discriminate.
  cbn [mbind option_bind Wire.more Ech.lenbytes Ech.written app].
  rewrite close_sub by (change (256 ^ Z.of_nat 2) with 65536; lia).
  cbn [mbind option_bind].
  match goal with
  | |- context [Ech.WPACKET_close
                  ({| Ech.lenbytes := 3; Ech.written := ?w |} :: _)] =>
      set (body := w)
  end.
  assert (Hbody : len body = 41 + len cs + len X).
  { unfold body. rewrite !len_app. rewrite !be2_I2OSP2, !len_I2OSP2.
    unfold len at 1. rewrite Hrnd.
    change (len (Ech.be 1 (len (@nil Z)))) with 1.
    change (len (Ech.be 1 (len (Ech.be 1 0)))) with 1.
    change (len (Ech.be 1 0)) with 1.
    change (len (@nil Z)) with 0. lia. }
  rewrite close_sub by (rewrite Hbody; change (256 ^ Z.of_nat 3) with 16777216; lia).
  cbn [mbind option_bind].
  unfold Ech.WPACKET_get_length. cbn [map concat Ech.written].
  rewrite app_nil_r.
  unfold OPENSSL_malloc_ok.
  match goal with |- context [take _ ?l] => set (full := l) end.
  assert (Hl : 0 < len full).
  { unfold full. rewrite len_app.
    pose proof (len_nonneg (Ech.be 3 (len body) ++ body)).
    change (len (Ech.be 1 Ech.SSL3_MT_CLIENT_HELLO)) with 1. lia. }
  destruct (Z.eqb_spec (len full) 0); [lia|].
  cbn [negb].
  unfold len at 1. rewrite Nat2Z.id, firstn_all. unfold full.
  do 4 f_equal.
  unfold Hello.client_hello, Hello.inner_hdr, Hello.vec16.
  rewrite Hbody. unfold body. rewrite !be2_I2OSP2.
  rewrite <- !app_assoc. reflexivity.
Qed.

End Encode.

Section EncodeDecode.
Context {E : Ech.ech_h} {S : Ech.libssl} {T : Dec.ssl_local_h}.

Lemma exts_wire_count (el : list (Z * bytes)) :
  (length el <= length (Hello.exts_wire el))%nat.
Proof.
  induction el as [|e el IH]; [simpl; lia|].
  rewrite exts_wire_cons, length_app.
  pose proof (ext_wire_length e) as He. pose proof (len_nonneg e.2).
  unfold len in *. cbn [length]. lia.
Qed.

Lemma ech_decode_inner_plain_eq (h : gmap nat Ech.SSL) (s oa : nat)
    (ss outer : Ech.SSL) (ch : Ech.CLIENTHELLO_MSG)
    (hdr suites comp : bytes) (x : Z) (el : list (Z * bytes)) :
  h !! s = Some ss ->
  Ech.ext_inner_s ss = None ->
  Ech.ext_outer_s ss = Some oa ->
  h !! oa = Some outer ->
  Ech.ext_encoded_innerch outer =
    Some (hdr ++ [x] ++ Hello.vec16 suites ++ comp ++
          Hello.vec16 (Hello.exts_wire el)) ->
  Ech.clienthello outer = Some ch ->
  Dec.extensions_curr_null ch = false ->
  len hdr = 38 -> len comp = 2 -> len suites < 65536 ->
  len (Hello.exts_wire el) < 65536 ->
  Forall Hello.plain_ext el ->
  len (Dec.tmp_session_id outer) <= 32 ->
  Dec.ech_decode_inner h s =
  Some (Ok (<[s := Dec.set_ext_innerch
                     (Some (Hello.client_hello hdr (Dec.tmp_session_id outer)
                              suites comp (Hello.exts_wire el))) ss]> h)).
Proof.
  intros Hs Hin Hout Hoa Henc Hch Hnull Hhdr Hcomp Hsuites Hexts Hok Hsid.
  unfold Dec.ech_decode_inner. rewrite Hs, Hin. cbn [notnull].
  rewrite Hout, Hoa, Henc, Hch, Hnull.
  rewrite decode_inner_plain; try assumption; [reflexivity|].
  pose proof (exts_wire_count el).
  rewrite !length_app. unfold Hello.vec16 at 2. rewrite !length_app. lia.
Qed.

(** X20: when the encoded inner ClientHello holds no outer_extensions,
    [ech_decode_inner] gives the same message with the session id of the
    outer ClientHello put in: header, version and random, then the
    session id with its length, then the cipher suites, the compression
    methods and the extensions as they were.  The length in the message
    header is left as it was. *)
Theorem ech_decode_inner_plain (h : gmap nat Ech.SSL) (s oa : nat)
    (ss outer : Ech.SSL) (ch : Ech.CLIENTHELLO_MSG)
    (hdr suites comp : bytes) (el : list (Z * bytes)) :
  h !! s = Some ss ->
  Ech.ext_inner_s ss = None ->
  Ech.ext_outer_s ss = Some oa ->
  h !! oa = Some outer ->
  Ech.ext_encoded_innerch outer =
    Some (Hello.client_hello hdr [] suites comp (Hello.exts_wire el)) ->
  Ech.clienthello outer = Some ch ->
  Dec.extensions_curr_null ch = false ->
  len hdr = 38 -> len comp = 2 -> len suites < 65536 ->
  len (Hello.exts_wire el) < 65536 ->
  Forall Hello.plain_ext el ->
  len (Dec.tmp_session_id outer) <= 32 ->
  exists si,
    Dec.ech_decode_inner h s = Some (Ok (<[s := si]> h)) /\
    Ech.ext_innerch si =
      Some (Hello.client_hello hdr (Dec.tmp_session_id outer) suites comp
              (Hello.exts_wire el)) /\
    take 4 (default [] (Ech.ext_innerch si)) = take 4 hdr /\
    Ech.ext_outer_s si = Some oa /\
    Ech.ext_encoded_innerch si = Ech.ext_encoded_innerch ss.
Proof.
  intros Hs Hin Hout Hoa Henc Hch Hnull Hhdr Hcomp Hsuites Hexts Hok Hsid.
  eexists. split.
  - eapply ech_decode_inner_plain_eq; eassumption.
  - cbn [Dec.set_ext_innerch Ech.ext_innerch Ech.ext_outer_s
         Ech.ext_encoded_innerch default].
    repeat split; try assumption.
    change (take 4 (Hello.client_hello hdr (Dec.tmp_session_id outer) suites
                      comp (Hello.exts_wire el)) = take 4 hdr).
    unfold Hello.client_hello.
    rewrite take_app_le by (unfold len in Hhdr; lia). reflexivity.
Qed.

Lemma sent_wire_exts (s : Ech.SSL) (ch : Ech.CLIENTHELLO_MSG) :
  Ech.clienthello s = Some ch ->
  Wire.sent_wire (Ech.ext_outer_only s) (Ech.ext_n_outer_only s)
    (Ech.pre_proc_exts ch) = Hello.exts_wire (Hello.sent_exts s).
Proof.
  intros Hch. unfold Wire.sent_wire, Hello.exts_wire, Hello.sent_exts.
  rewrite Hch, map_map. reflexivity.
Qed.

Lemma sent_exts_plain (s : Ech.SSL) (ch : Ech.CLIENTHELLO_MSG) :
  Ech.clienthello s = Some ch ->
  Forall Wire.raw_fits (Ech.pre_proc_exts ch) ->
  Forall (fun r => Ech.type r <> Ech.TLSEXT_TYPE_outer_extensions)
    (Ech.pre_proc_exts ch) ->
  Forall Hello.plain_ext (Hello.sent_exts s).
Proof.
  intros Hch Hfit Hne. unfold Hello.sent_exts. rewrite Hch.
  induction (Ech.pre_proc_exts ch) as [|r raws IH]; [constructor|].
  inversion Hfit as [|? ? [Hty Hlen] Hfit']; subst.
  inversion Hne as [|? ? Hr Hne']; subst.
  cbn [List.filter].
  destruct (Wire.sent _ _ r); cbn [map].
  - constructor; [|apply IH; assumption].
    unfold Hello.plain_ext. cbn [fst snd]. repeat split; try assumption;
      try apply Hty; apply Hlen.
  - apply IH; assumption.
Qed.

(** X19: what [ech_encode_inner] leaves in [ext.encoded_innerch] is a
    ClientHello message: the message type and a three octet length,
    the version and the random of the session, an empty session id, the
    cipher list, the null compression method, and the extensions that
    are sent, with the synthetic extension in the place of the first
    compressed one. *)
Theorem ech_encode_inner_wire (s : Ech.SSL) (ch : Ech.CLIENTHELLO_MSG)
    (cs X : bytes) :
  Ech.ech s <> None ->
  Ech.clienthello s = Some ch ->
  Wire.u16 (Ech.client_version s) ->
  length (Ech.s3_client_random s) = 32%nat ->
  (forall pkt, Ech.ssl_cipher_list_to_bytes s pkt = Ech.WPACKET_memcpy pkt cs) ->
  len cs < 65536 ->
  Forall Wire.raw_fits (Ech.pre_proc_exts ch) ->
  inner_exts_block s (Ech.pre_proc_exts ch) X ->
  len X < 65536 ->
  Ech.ech_encode_inner s =
  Some (1, Ech.set_ext_encoded_innerch
             (Some ([Ech.SSL3_MT_CLIENT_HELLO] ++
                    Ech.be 3 (41 + len cs + len X) ++
                    Ech.be 2 (Ech.client_version s) ++
                    Ech.s3_client_random s ++ [0] ++
                    Ech.be 2 (len cs) ++ cs ++ [1; 0] ++
                    Ech.be 2 (len X) ++ X)) s).
Proof.
  intros Hech Hch Hver Hrnd Hcs Hcsl Hfit Hblock HX.
  rewrite (ech_encode_inner_shape s ch cs X); try assumption.
  - unfold Hello.client_hello, Hello.inner_hdr, Hello.vec16.
    rewrite <- !app_assoc. reflexivity.
  - intros pkt Hp. destruct Hblock as [[Hnc ->]|Hc].
    + rewrite <- (app_nil_r (Ech.pre_proc_exts ch)) at 1.
      rewrite inner_exts_loop_before by assumption. reflexivity.
    + destruct Hc as (pre & r & post & Hraws & Hpre & Hr & Hty & Hn & Hoo & ->).
      rewrite Hraws in *.
      apply Forall_app in Hfit as [Hfit_pre Hfit_post].
      inversion Hfit_post as [|? ? _ Hfit_post']; subst.
      rewrite inner_exts_loop_before by assumption.
      cbn [Ech.inner_exts_loop]. unfold Wire.compressed in Hr.
      destruct (Ech.present r =? 0); cbn [negb andb] in Hr; [discriminate|].
      rewrite Hr. cbn [negb andb orb mbind option_bind].
      rewrite put_outer_extensions_more by (try apply more_open; assumption).
      cbn [mbind option_bind].
      rewrite inner_exts_loop_after
        by (try repeat apply more_open; assumption).
      rewrite !more_more. reflexivity.
Qed.

(** X21: encoding and decoding compose.  When a client session has no
    compressed extension and [ech_encode_inner] succeeded on it, and the
    outer session of a server holds that encoding, [ech_decode_inner]
    gives the inner ClientHello of the client with the session id of the
    outer ClientHello in the place of the empty one; the length in the
    message header still counts the message without the session id. *)
Theorem ech_decode_inner_of_encoded (c c' : Ech.SSL)
    (cch : Ech.CLIENTHELLO_MSG) (cs : bytes)
    (h : gmap nat Ech.SSL) (s oa : nat) (ss outer : Ech.SSL)
    (ch : Ech.CLIENTHELLO_MSG) :
  Ech.clienthello c = Some cch ->
  Wire.u16 (Ech.client_version c) ->
  length (Ech.s3_client_random c) = 32%nat ->
  (forall pkt, Ech.ssl_cipher_list_to_bytes c pkt = Ech.WPACKET_memcpy pkt cs) ->
  len cs < 65536 ->
  Forall Wire.raw_fits (Ech.pre_proc_exts cch) ->
  Forall (fun r => Wire.compressed (Ech.ext_outer_only c)
                     (Ech.ext_n_outer_only c) r = false)
    (Ech.pre_proc_exts cch) ->
  Forall (fun r => Ech.type r <> Ech.TLSEXT_TYPE_outer_extensions)
    (Ech.pre_proc_exts cch) ->
  len (Hello.exts_wire (Hello.sent_exts c)) < 65536 ->
  Ech.ech_encode_inner c = Some (1, c') ->
  h !! s = Some ss ->
  Ech.ext_inner_s ss = None ->
  Ech.ext_outer_s ss = Some oa ->
  h !! oa = Some outer ->
  Ech.ext_encoded_innerch outer = Ech.ext_encoded_innerch c' ->
  Ech.clienthello outer = Some ch ->
  Dec.extensions_curr_null ch = false ->
  len (Dec.tmp_session_id outer) <= 32 ->
  let X := Hello.exts_wire (Hello.sent_exts c) in
  Dec.ech_decode_inner h s =
  Some (Ok (<[s := Dec.set_ext_innerch
                     (Some (Hello.client_hello
                              (Hello.inner_hdr c (41 + len cs + len X))
                              (Dec.tmp_session_id outer) cs [1; 0] X)) ss]> h)).
Proof.
  intros Hcch Hver Hrnd Hcs Hcsl Hfit Hnc Hne HX Henc Hs Hin Hout Hoa Hsame
    Hch Hnull Hsid X.
  assert (Hech : Ech.ech c <> None).
  { intros Hnone. unfold Ech.ech_encode_inner in Henc. rewrite Hnone in Henc.
    discriminate Henc. }
  rewrite (ech_encode_inner_shape c cch cs X) in Henc; try assumption.
  2:{ intros pkt Hp. rewrite <- (app_nil_r (Ech.pre_proc_exts cch)) at 1.
      rewrite inner_exts_loop_before by assumption.
      cbn [Ech.inner_exts_loop]. rewrite (sent_wire_exts c cch Hcch).
      reflexivity. }
  injection Henc as <-.
  cbn [Ech.set_ext_encoded_innerch Ech.ext_encoded_innerch] in Hsame.
  eapply ech_decode_inner_plain_eq; try eassumption.
  - unfold Hello.inner_hdr. rewrite !len_app, be2_I2OSP2, len_I2OSP2.
    change (len (Ech.s3_client_random c))
      with (Z.of_nat (length (Ech.s3_client_random c))).
    rewrite Hrnd. reflexivity.
  - reflexivity.
  - eapply sent_exts_plain; eassumption.
Qed.

End EncodeDecode.

(** ** Records of other versions *)

Section Versions.
Context {E : Ech.ech_h}.

Lemma ser_item_length (i : Ingest.item) :
  Ingest.ok_item i -> 5 <= len (Ingest.ser_item i).
Proof.
  destruct i as [ec|[v c]]; cbn [Ingest.ok_item Ingest.ser_item].
  - intros Hec. pose proof (ser_contents_length ec Hec).
    unfold Ingest.ser_record, Ingest.vec16.
    rewrite !len_app, !len_I2OSP2. lia.
  - intros (_ & _ & Hc). unfold Ingest.vec16.
    rewrite !len_app, !len_I2OSP2. lia.
Qed.

Lemma remaining_after_cons (i j : Ingest.item) (l : list Ingest.item)
    (r r' : Z) (tl : bytes) :
  Ingest.remaining_after (i :: j :: l) r tl = Ingest.remaining_after (j :: l) r' tl.
Proof.
  unfold Ingest.remaining_after. rewrite last_cons.
  destruct (last (j :: l)) eqn:Hl; [reflexivity|].
  apply last_None in Hl. discriminate.
Qed.

Lemma records_loop_items (l : list Ingest.item) :
  forall k rem te tl,
  0 < Ech.ECH_MAX_RRVALUE_LEN ->
  Forall Ingest.ok_item l ->
  l = [] \/ 2 < rem ->
  Ech.records_loop (length l + k) 2 rem
    (concat (map Ingest.ser_item l) ++ tl) te =
  Ech.records_loop k 2 (Ingest.remaining_after l rem tl) tl (te ++ Ingest.knowns l).
Proof.
  induction l as [|i l IH]; intros k rem te tl Hmax Hok Hrem.
  - cbn. rewrite app_nil_r. reflexivity.
  - inversion Hok as [|? ? Hi Hok']; subst.
    destruct Hrem as [Hnil|Hrem]; [discriminate|].
    cbn [length Nat.add map concat Ech.records_loop].
    destruct (Z.gtb_spec rem 2); [|lia].
    rewrite <- app_assoc.
    set (rest := concat (map Ingest.ser_item l) ++ tl).
    assert (Hrest : l = [] \/ 4 < len rest).
    { destruct l as [|j l']; [left; reflexivity|right].
      inversion Hok' as [|? ? Hj _]; subst.
      unfold rest. cbn [map concat]. rewrite !len_app.
      pose proof (ser_item_length j Hj).
      pose proof (len_nonneg (concat (map Ingest.ser_item l'))).
      pose proof (len_nonneg tl). lia. }
    pose proof (len_nonneg rest) as Hr0.
    destruct i as [ec|[v c]]; cbn [Ingest.ok_item Ingest.ser_item] in *.
    + (* a record of version 0xff09 *)
      destruct Hi as (Hv & Hrest'). pose proof Hrest' as Hx.
      destruct Hx as (_ & _ & _ & _ & _ & _ & _ & _ & _ & _ & Hclen).
      pose proof (ser_contents_length ec (conj Hv Hrest')) as H14.
      unfold Ingest.ser_record. rewrite <- !app_assoc.
      rewrite get_net_2_u16
        by (rewrite Hv; unfold Ingest.u16, Ech.ECH_DRAFT_09_VERSION; lia).
      unfold Ingest.vec16. rewrite <- !app_assoc.
      rewrite get_net_2_u16 by (unfold Ingest.u16; lia).
      unfold Ech.PACKET_remaining. rewrite len_app.
      assert (Hw : wrap32 (len (Ingest.ser_contents ec) - 2) =
                   len (Ingest.ser_contents ec) - 2).
      { unfold wrap32. apply Z.mod_small. lia. }
      rewrite Hw.
      destruct (Z.gtb_spec (len (Ingest.ser_contents ec) - 2)
                  (len (Ingest.ser_contents ec) + len rest)); [lia|].
      rewrite Hv. cbn [Z.eqb Ech.ECH_DRAFT_09_VERSION Pos.eqb negb].
      rewrite <- Hv at 1.
      rewrite (draft_09_contents_ser ec _ Hmax (conj Hv Hrest')).
      unfold rest.
      rewrite IH
        by first [assumption
                 |destruct Hrest as [->|?];
                  [left; reflexivity|right; fold rest; lia]].
      cbn [Ingest.knowns]. rewrite <- app_assoc. cbn [app].
      f_equal.
      destruct l as [|j l'].
      * unfold Ingest.remaining_after. cbn [last map concat app]. reflexivity.
      * symmetry. apply remaining_after_cons.
    + (* a record of another version *)
      destruct Hi as (Hv & Hne & Hc).
      rewrite <- !app_assoc.
      rewrite get_net_2_u16 by exact Hv.
      unfold Ingest.vec16. rewrite <- !app_assoc.
      rewrite get_net_2_u16 by (unfold Ingest.u16; lia).
      unfold Ech.PACKET_remaining. rewrite len_app.
      assert (Hw : wrap32 (len c - 2) = len c - 2).
      { unfold wrap32. apply Z.mod_small. lia. }
      rewrite Hw.
      destruct (Z.gtb_spec (len c - 2) (len c + len rest)); [lia|].
      destruct (Z.eqb_spec v Ech.ECH_DRAFT_09_VERSION); [contradiction|].
      cbn [negb]. unfold OPENSSL_malloc_ok.
      destruct (Z.eqb_spec (len c) 0); [lia|]. cbn [negb].
      rewrite copy_bytes_app.
      unfold rest.
      rewrite IH
        by first [assumption
                 |destruct Hrest as [->|?];
                  [left; reflexivity|right; fold rest; lia]].
      cbn [Ingest.knowns]. f_equal.
      destruct l as [|j l'].
      * unfold Ingest.remaining_after. cbn [last map concat app]. reflexivity.
      * symmetry. apply remaining_after_cons.
Qed.

Lemma ser_items_count (l : list Ingest.item) :
  Forall Ingest.ok_item l ->
  (length l <= length (concat (map Ingest.ser_item l)))%nat.
Proof.
  induction 1 as [|i l Hi _ IH]; [simpl; lia|].
  cbn [map concat length]. rewrite length_app.
  pose proof (ser_item_length i Hi). unfold len in *. lia.
Qed.

(** X24: records of other versions in an ECHConfigs list are skipped, and
    the records of version 0xff09 are returned in order, unless the last
    record of the list is one of another version with more than two
    octets of content: then [remaining], which is not brought up to
    date when a record is skipped, sends the loop round once more and
    the whole list is refused. *)
Theorem ECHConfigs_from_binary_other_versions (l : list Ingest.item) :
  0 < Ech.ECH_MAX_RRVALUE_LEN ->
  Forall Ingest.ok_item l ->
  34 <= len (Ingest.ser_items l) < 512 ->
  Ech.ECHConfigs_from_binary (Some (Ingest.ser_items l))
    (len (Ingest.ser_items l)) true =
  if Ingest.skipped_last l >? 2 then None
  else Some ({| Ech.encoded_len := len (Ingest.ser_items l);
                Ech.encoded := Ingest.ser_items l;
                Ech.recs := Ingest.knowns l |}, 0).
Proof.
  intros Hmax Hok Hlen.
  unfold Ech.ECHConfigs_from_binary, Ech.ECHConfigs_from_binary_fuel.
  unfold Ech.ECH_MIN_ECHCONFIG_LEN, Ech.ECH_MAX_ECHCONFIG_LEN.
  destruct (Z.ltb_spec (len (Ingest.ser_items l)) 32); [lia|].
  destruct (Z.geb_spec (len (Ingest.ser_items l)) 512); [lia|].
  cbn [negb].
  assert (Htake : take (Z.to_nat (len (Ingest.ser_items l)))
                    (Ingest.ser_items l) = Ingest.ser_items l).
  { unfold len. rewrite Nat2Z.id. apply firstn_all. }
  rewrite Htake.
  set (body := concat (map Ingest.ser_item l)).
  assert (Hbody : len (Ingest.ser_items l) = 2 + len body).
  { unfold Ingest.ser_items, Ingest.vec16. rewrite len_app, len_I2OSP2.
    reflexivity. }
  cbv zeta.
  change (Ech.PACKET_get_net_2 (Ingest.ser_items l))
    with (Ech.PACKET_get_net_2 (I2OSP2 (len body) ++ body)).
  rewrite get_net_2_u16 by (pose proof (len_nonneg body); unfold Ingest.u16; lia).
  destruct (Z.ltb_spec (len body) 32); [lia|].
  destruct (Z.gtb_spec (len body) (len (Ingest.ser_items l) - 2)); [lia|].
  cbn [orb].
  replace (len (Ingest.ser_items l) - len body) with 2 by lia.
  unfold Ech.PACKET_remaining.
  pose proof (ser_items_count l Hok) as Hn. fold body in Hn.
  replace (S (Z.to_nat (len (Ingest.ser_items l))))
    with (length l + S (Z.to_nat (len (Ingest.ser_items l)) - length l))%nat
    by (unfold len in *; lia).
  rewrite <- (app_nil_r body) at 2. unfold body at 2.
  rewrite records_loop_items by (try assumption; right; lia).
  cbn [app].
  assert (Hrem : Ingest.remaining_after l (len body) [] = Ingest.skipped_last l).
  { unfold Ingest.remaining_after, Ingest.skipped_last.
    destruct (last l) as [[ec|[v c]]|] eqn:Hl.
    - reflexivity.
    - change (len (@nil Z)) with 0. lia.
    - apply last_None in Hl. exfalso. subst l.
      assert (len body = 0) by reflexivity. lia. }
  rewrite Hrem.
  pose proof (len_nonneg (Ingest.ser_items l)).
  set (fuel := (S (Z.to_nat (len (Ingest.ser_items l))) - length l)%nat).
  assert (Hfuel : exists f, fuel = S f).
  { exists (Z.to_nat (len (Ingest.ser_items l)) - length l)%nat.
    unfold fuel, len in *. lia. }
  destruct Hfuel as [f ->].
  cbn [Ech.records_loop].
  destruct (Z.gtb_spec (Ingest.skipped_last l) 2); [reflexivity|].
  change (len (@nil Z)) with 0. cbn [Z.ltb Z.gtb Z.compare orb].
  destruct (Z.gtb_spec 0 (len (Ingest.ser_items l))); [lia|].
  reflexivity.
Qed.

End Versions.

(** ** Decoding with compressed extensions *)

Section Decompress.
Context {E : Ech.ech_h} {T : Dec.ssl_local_h}.

(** The loop stops at the first outer_extensions. *)
Lemma find_outers_found (el : list (Z * bytes)) :
  forall fuel pre post elen r,
  Forall Hello.plain_ext el ->
  Wire.u16 Ech.TLSEXT_TYPE_outer_extensions -> Wire.u16 elen ->
  0 < r -> len (Hello.exts_wire el) + r < 2 ^ 31 ->
  (length el < fuel)%nat ->
  Dec.find_outers fuel
    (pre ++ Hello.exts_wire el ++
     I2OSP2 Ech.TLSEXT_TYPE_outer_extensions ++ I2OSP2 elen ++ post)
    (len (Hello.exts_wire el) + r) (len pre) =
  Some (Ok (Some (len pre + len (Hello.exts_wire el), elen))).
Proof.
  induction el as [|e el IH]; intros fuel pre post elen r Hok Hoe Hel Hr Hlen
    Hfuel.
  - destruct fuel as [|fuel]; [simpl in Hfuel; lia|].
    cbn [Hello.exts_wire map concat app Dec.find_outers].
    change (len (@nil Z)) with 0.
    destruct (Z.gtb_spec (0 + r) 0); [|lia].
    rewrite at2_middle by exact Hoe.
    rewrite at2_middle2 by exact Hel.
    rewrite Z.eqb_refl. rewrite Z.add_0_r. reflexivity.
  - inversion Hok as [|? ? (Hty & Hl & Hne) Hok']; subst.
    destruct fuel as [|fuel]; [simpl in Hfuel; lia|].
    rewrite exts_wire_cons in *. rewrite len_app in *.
    pose proof (ext_wire_length e) as He.
    pose proof (len_nonneg (Hello.exts_wire el)) as Hr0.
    pose proof (len_nonneg e.2) as He2.
    specialize (IH fuel (pre ++ I2OSP2 e.1 ++ I2OSP2 (len e.2) ++ e.2) post
                  elen r Hok' Hoe Hel Hr ltac:(lia)
                  ltac:(simpl in Hfuel; lia)).
    rewrite <- !app_assoc in IH. rewrite !len_app, !len_I2OSP2 in IH.
    replace (len pre + (2 + (2 + len e.2))) with (len pre + (len e.2 + 4))
      in IH by lia.
    rewrite He.
    unfold Wire.ext_wire. rewrite !be2_I2OSP2. rewrite <- !app_assoc.
    cbn [Dec.find_outers].
    destruct (Z.gtb_spec (len e.2 + 4 + len (Hello.exts_wire el) + r) 0);
      [|lia].
    rewrite at2_middle by exact Hty.
    rewrite at2_middle2 by exact Hl.
    destruct (Z.eqb_spec e.1 Ech.TLSEXT_TYPE_outer_extensions);
      [contradiction|].
    replace (len e.2 + 4 + len (Hello.exts_wire el) + r - (len e.2 + 4))
      with (len (Hello.exts_wire el) + r) by lia.
    rewrite to_int_exact by lia.
    etransitivity; [exact IH|]. do 4 f_equal. lia.
Qed.

(** The types listed in the synthetic extension. *)
Lemma read_outers_types (types : list Z) :
  forall (pre rest : list Z) (post : bytes),
  Forall Wire.u16 types ->
  Dec.read_outers
    (pre ++ concat (map I2OSP2 (types ++ rest)) ++ post) (len pre)
    (length types) = Ok types.
Proof.
  induction types as [|o types IH] using rev_ind; intros pre rest post Hok.
  - reflexivity.
  - apply Forall_app in Hok as [Hok Ho]. inversion Ho as [|? ? Ho' _]; subst.
    rewrite length_app. cbn [length]. rewrite Nat.add_1_r.
    cbn [Dec.read_outers].
    rewrite <- app_assoc. cbn [app].
    rewrite IH by exact Hok. cbn [rbind].
    rewrite map_app, concat_app. cbn [map concat].
    rewrite (at2_at _ (pre ++ concat (map I2OSP2 types))
               (concat (map I2OSP2 rest) ++ post) o).
    + reflexivity.
    + rewrite <- !app_assoc. reflexivity.
    + rewrite len_app. f_equal.
      clear. induction types as [|t types IH]; [reflexivity|].
      cbn [map concat length]. rewrite len_app, len_I2OSP2.
      rewrite Nat2Z.inj_succ. lia.
    + exact Ho'.
Qed.

Lemma read_outers_at (types : list Z) (buf pre post : bytes) (i : Z) :
  buf = pre ++ concat (map I2OSP2 types) ++ post -> i = len pre ->
  Forall Wire.u16 types ->
  Dec.read_outers buf i (length types) = Ok types.
Proof.
  intros -> -> Hty.
  pose proof (read_outers_types types pre [] post Hty) as H.
  rewrite app_nil_r in H. exact H.
Qed.

Lemma set1_head (h r : bytes) (i v : Z) :
  0 <= i < len h ->
  Dec.set1 (h ++ r) i v = Ok (<[Z.to_nat i := v]> h ++ r).
Proof.
  intros Hi. unfold Dec.set1. rewrite len_app.
  pose proof (len_nonneg r).
  destruct (Z.leb_spec 0 i); [|lia].
  destruct (Z.ltb_spec i (len h + len r)); [|lia].
  cbn [andb]. f_equal. unfold bytes.
  apply insert_app_l. unfold len in Hi. lia.
Qed.

Lemma mem_absent (x : Z) (l : list Z) : x ∉ l -> Ech.mem x l = false.
Proof.
  induction l as [|y l IH]; [reflexivity|].
  intros Hx. apply not_elem_of_cons in Hx as [Hne Hx].
  unfold Ech.mem in *. cbn [existsb].
  destruct (Z.eqb_spec x y); [contradiction|]. exact (IH Hx).
Qed.

Lemma mem_present (x : Z) (l : list Z) : x ∈ l -> Ech.mem x l = true.
Proof.
  induction l as [|y l IH]; [intros Hx; inversion Hx|].
  intros Hx. unfold Ech.mem in *. cbn [existsb].
  destruct (Z.eqb_spec x y); [reflexivity|].
  apply elem_of_cons in Hx as [?|Hx]; [contradiction|]. exact (IH Hx).
Qed.

Lemma mem_elem (x : Z) (l : list Z) : Ech.mem x l = true -> x ∈ l.
Proof.
  intros Hm. destruct (decide (x ∈ l)) as [|Hn]; [assumption|].
  rewrite (mem_absent x l Hn) in Hm. discriminate.
Qed.

(** What the inner loop records for one extension of the outer
    ClientHello. *)
Lemma mark_spec (outers : list Z) :
  forall k et el off m pre_s g post_s,
  NoDup outers ->
  Dec.sizes m = pre_s ++ map g outers ++ post_s ->
  length pre_s = k ->
  Dec.mark outers k et el off m =
  {| Dec.sizes :=
       pre_s ++ map (fun ty => if et =? ty then Some (el, off) else g ty)
                  outers ++ post_s;
     Dec.tot_outer_lens :=
       if Ech.mem et outers
       then wrap64 (Dec.tot_outer_lens m + (el + 4))
       else Dec.tot_outer_lens m;
     Dec.found_outers :=
       if Ech.mem et outers then Dec.found_outers m + 1
       else Dec.found_outers m |}.
Proof.
  induction outers as [|o outers IH]; intros k et el off m pre_s g post_s
    Hnd Hs Hk.
  - destruct m as [sz t f]. cbn in *. subst sz. reflexivity.
  - apply NoDup_cons in Hnd as [Ho Hnd].
    cbn [Dec.mark]. unfold Ech.mem. cbn [existsb map]. fold (Ech.mem et outers).
    destruct (Z.eqb_spec et o) as [->|Hne].
    + rewrite (IH (S k) o el off _ (pre_s ++ [Some (el, off)]) g post_s Hnd).
      * cbn [Dec.sizes Dec.tot_outer_lens Dec.found_outers orb].
        rewrite (mem_absent o outers Ho). rewrite <- app_assoc. reflexivity.
      * cbn [Dec.sizes]. rewrite Hs. cbn [map].
        rewrite insert_app_r_alt by lia.
        replace (k - length pre_s)%nat with 0%nat by lia.
        cbn [app]. rewrite <- app_assoc. reflexivity.
      * rewrite length_app. cbn [length]. lia.
    + rewrite (IH (S k) et el off m (pre_s ++ [g o]) g post_s Hnd).
      * cbn [orb]. rewrite <- app_assoc. reflexivity.
      * rewrite Hs. cbn [map]. rewrite <- app_assoc. reflexivity.
      * rewrite length_app. cbn [length]. lia.
Qed.

Lemma matched_cons (types : list Z) (e : Z * bytes) (ol : list (Z * bytes)) :
  Hello.matched types (e :: ol) =
  if Ech.mem e.1 types then e :: Hello.matched types ol
  else Hello.matched types ol.
Proof. reflexivity. Qed.

Lemma matched_length (types : list Z) (ol : list (Z * bytes)) :
  0 <= len (Hello.exts_wire (Hello.matched types ol)) <=
  len (Hello.exts_wire ol).
Proof.
  induction ol as [|e ol IH]; [unfold len; simpl; lia|].
  rewrite matched_cons, exts_wire_cons, len_app.
  pose proof (ext_wire_length e). pose proof (len_nonneg e.2).
  destruct (Ech.mem e.1 types); [rewrite exts_wire_cons, len_app|]; lia.
Qed.

(** What the walk over the extensions of the outer ClientHello
    records. *)
Lemma walk_outer_spec (ol : list (Z * bytes)) :
  forall fuel A B types m g,
  NoDup types -> Forall Hello.fits ol ->
  Dec.sizes m = map g types ->
  len (Hello.exts_wire ol) < 2 ^ 31 ->
  0 <= Dec.tot_outer_lens m ->
  Dec.tot_outer_lens m + len (Hello.exts_wire ol) < 2 ^ 64 ->
  (length ol <= fuel)%nat ->
  Dec.walk_outer fuel (A ++ Hello.exts_wire ol ++ B) types
    (len (Hello.exts_wire ol)) (len A) m =
  Some (Ok {| Dec.sizes :=
                map (fun ty => Hello.locate ty ol (len A) (g ty)) types;
              Dec.tot_outer_lens :=
                Dec.tot_outer_lens m +
                len (Hello.exts_wire (Hello.matched types ol));
              Dec.found_outers :=
                Dec.found_outers m + len (Hello.matched types ol) |}).
Proof.
  induction ol as [|e ol IH]; intros fuel A B types m g Hnd Hfit Hs Hlen Ht0
    Ht Hfuel.
  - destruct m as [sz t f]. cbn in Hs. subst sz.
    destruct fuel; cbn; rewrite !Z.add_0_r; reflexivity.
  - inversion Hfit as [|? ? (Hty & Hl) Hfit']; subst.
    destruct fuel as [|fuel]; [simpl in Hfuel; lia|].
    rewrite exts_wire_cons in *. rewrite len_app in *.
    pose proof (ext_wire_length e) as He.
    pose proof (len_nonneg (Hello.exts_wire ol)) as Hr0.
    pose proof (len_nonneg e.2) as He2.
    rewrite He in *.
    set (m1 := Dec.mark types 0 e.1 (len e.2) (len A) m).
    assert (Hm1 : m1 =
      {| Dec.sizes :=
           map (fun ty => if e.1 =? ty then Some (len e.2, len A) else g ty)
             types;
         Dec.tot_outer_lens :=
           if Ech.mem e.1 types
           then Dec.tot_outer_lens m + (len e.2 + 4)
           else Dec.tot_outer_lens m;
         Dec.found_outers :=
           if Ech.mem e.1 types then Dec.found_outers m + 1
           else Dec.found_outers m |}).
    { unfold m1.
      rewrite (mark_spec types 0 e.1 (len e.2) (len A) m [] g [] Hnd)
        by (cbn [app]; rewrite ?app_nil_r; first [exact Hs|reflexivity]).
      rewrite app_nil_r. cbn [app]. f_equal.
      destruct (Ech.mem e.1 types); [|reflexivity].
      unfold wrap64. apply Z.mod_small. lia. }
    specialize (IH fuel (A ++ I2OSP2 e.1 ++ I2OSP2 (len e.2) ++ e.2) B types
                  m1 (fun ty => if e.1 =? ty then Some (len e.2, len A)
                                else g ty) Hnd Hfit').
    rewrite Hm1 in IH. cbn [Dec.sizes Dec.tot_outer_lens Dec.found_outers] in IH.
    specialize (IH eq_refl ltac:(lia)
                  ltac:(destruct (Ech.mem e.1 types); lia)
                  ltac:(destruct (Ech.mem e.1 types); lia)
                  ltac:(simpl in Hfuel; lia)).
    rewrite <- !app_assoc in IH. rewrite !len_app, !len_I2OSP2 in IH.
    replace (len A + (2 + (2 + len e.2))) with (len A + (len e.2 + 4))
      in IH by lia.
    unfold Wire.ext_wire. rewrite <- !app_assoc.
    cbn [Dec.walk_outer].
    destruct (Z.gtb_spec (len e.2 + 4 + len (Hello.exts_wire ol)) 0); [|lia].
    change (Ech.be 2 e.1) with (I2OSP2 e.1).
    change (Ech.be 2 (len e.2)) with (I2OSP2 (len e.2)).
    rewrite at2_middle by exact Hty.
    rewrite at2_middle2 by exact Hl.
    replace (len e.2 + 4 + len (Hello.exts_wire ol) - (len e.2 + 4))
      with (len (Hello.exts_wire ol)) by lia.
    rewrite to_int_exact by lia.
    fold m1. rewrite Hm1.
    etransitivity; [exact IH|].
    do 2 f_equal. cbn [Hello.locate]. rewrite matched_cons.
    destruct (Ech.mem e.1 types).
    + rewrite exts_wire_cons, len_app, He.
      f_equal; [lia|]. unfold len. cbn [length]. lia.
    + reflexivity.
Qed.

Lemma locate_absent (ty : Z) (ol : list (Z * bytes)) :
  ty ∉ map fst ol -> forall off cur, Hello.locate ty ol off cur = cur.
Proof.
  induction ol as [|e ol IH]; intros Hty off cur; [reflexivity|].
  cbn [map] in Hty. apply not_elem_of_cons in Hty as [Hne Hty].
  cbn [Hello.locate].
  destruct (Z.eqb_spec e.1 ty) as [Heq|_]; [symmetry in Heq; contradiction|].
  apply IH. exact Hty.
Qed.

(** Among extensions of different types the walk finds the one of a
    given type, with its length and its offset. *)
Lemma locate_found (ty : Z) (ol : list (Z * bytes)) :
  NoDup (map fst ol) -> ty ∈ map fst ol ->
  forall off cur v, v = Hello.value_of ty ol ->
  exists ol1 ol2,
    ol = ol1 ++ (ty, v) :: ol2 /\
    Hello.locate ty ol off cur = Some (len v, off + len (Hello.exts_wire ol1)).
Proof.
  induction ol as [|e ol IH]; intros Hnd Hty off cur v Hv.
  - inversion Hty.
  - cbn [map] in Hnd, Hty. apply NoDup_cons in Hnd as [He Hnd].
    cbn [Hello.locate Hello.value_of] in *.
    destruct (Z.eqb_spec e.1 ty) as [Heq|Hne].
    + exists [], ol. subst v. split.
      * destruct e as [t w]. cbn in *. subst t. reflexivity.
      * rewrite locate_absent by (rewrite <- Heq; exact He).
        change (len (Hello.exts_wire [])) with 0. rewrite Z.add_0_r.
        reflexivity.
    + apply elem_of_cons in Hty as [Heq|Hty]; [symmetry in Heq; contradiction|].
      destruct (IH Hnd Hty (off + (len e.2 + 4)) cur v Hv)
        as (ol1 & ol2 & Hol & Hloc).
      exists (e :: ol1), ol2. split.
      * cbn [app]. f_equal. exact Hol.
      * rewrite Hloc. rewrite exts_wire_cons, len_app, ext_wire_length.
        do 2 f_equal. lia.
Qed.

Lemma take_drop_middle (a v b : bytes) (i n : Z) :
  i = len a -> n = len v ->
  take (Z.to_nat n) (drop (Z.to_nat i) (a ++ v ++ b)) = v.
Proof.
  intros -> ->. unfold len. rewrite !Nat2Z.id.
  rewrite drop_app_length. apply take_app_length.
Qed.

(** What is put in for the listed types: the extensions of these types
    as the outer ClientHello has them, in the order of the list. *)
Lemma splice_restored (ol : list (Z * bytes)) (types : list Z)
    (g : Z -> option (Z * Z)) :
  NoDup (map fst ol) -> Forall (fun ty => ty ∈ map fst ol) types ->
  Dec.splice (Hello.exts_wire ol) types
    (map (fun ty => Hello.locate ty ol 0 (g ty)) types) =
  Ok (Hello.exts_wire (Hello.restored ol types)).
Proof.
  intros Hnd. induction types as [|ty types IH]; intros Hin; [reflexivity|].
  inversion Hin as [|? ? Hty Hin']; subst.
  cbn [map]. unfold Hello.restored. cbn [map]. fold (Hello.restored ol types).
  rewrite exts_wire_cons. cbn [fst snd].
  remember (Hello.value_of ty ol) as v eqn:Hv.
  destruct (locate_found ty ol Hnd Hty 0 (g ty) v Hv)
    as (ol1 & ol2 & Hol & Hloc).
  rewrite Hloc. cbn [Dec.splice]. rewrite (IH Hin'). cbn [rbind].
  assert (Hw : Hello.exts_wire ol =
               (Hello.exts_wire ol1 ++ I2OSP2 ty ++ I2OSP2 (len v)) ++
               v ++ Hello.exts_wire ol2).
  { rewrite Hol at 1. unfold Hello.exts_wire.
    rewrite map_app, concat_app. cbn [map concat fst snd].
    unfold Wire.ext_wire. rewrite !be2_I2OSP2, <- !app_assoc. reflexivity. }
  rewrite Hw.
  rewrite (take_drop_middle
             (Hello.exts_wire ol1 ++ I2OSP2 ty ++ I2OSP2 (len v)) v
             (Hello.exts_wire ol2) (0 + len (Hello.exts_wire ol1) + 4) (len v));
    [|rewrite !len_app, !len_I2OSP2; lia|reflexivity].
  rewrite !len_app, !len_I2OSP2.
  pose proof (len_nonneg (Hello.exts_wire ol2)).
  destruct (Z.gtb_spec (0 + len (Hello.exts_wire ol1) + 4 + len v)
              (len (Hello.exts_wire ol1) + (2 + 2) +
               (len v + len (Hello.exts_wire ol2)))); [lia|].
  unfold Wire.ext_wire. rewrite <- !app_assoc. reflexivity.
Qed.

Lemma elem_fst (ol : list (Z * bytes)) (ty : Z) (v : bytes) :
  (ty, v) ∈ ol -> ty ∈ map fst ol.
Proof.
  induction ol as [|e ol IH]; intros Hin; [inversion Hin|].
  cbn [map]. apply elem_of_cons in Hin as [<-|Hin].
  - apply list_elem_of_here.
  - apply list_elem_of_further. exact (IH Hin).
Qed.

Lemma value_of_in (ol : list (Z * bytes)) :
  NoDup (map fst ol) ->
  forall ty v, (ty, v) ∈ ol -> Hello.value_of ty ol = v.
Proof.
  induction ol as [|e ol IH]; intros Hnd ty v Hin; [inversion Hin|].
  cbn [map] in Hnd. apply NoDup_cons in Hnd as [He Hnd].
  cbn [Hello.value_of].
  apply elem_of_cons in Hin as [Heq|Hin].
  - subst e. cbn [fst snd]. rewrite Z.eqb_refl. reflexivity.
  - destruct (Z.eqb_spec e.1 ty) as [Heq|_]; [|exact (IH Hnd ty v Hin)].
    exfalso. apply He. rewrite Heq. exact (elem_fst ol ty v Hin).
Qed.

Lemma value_of_elem (ol : list (Z * bytes)) (ty : Z) :
  ty ∈ map fst ol -> (ty, Hello.value_of ty ol) ∈ ol.
Proof.
  induction ol as [|e ol IH]; intros Hty; [inversion Hty|].
  cbn [map] in Hty. cbn [Hello.value_of].
  destruct (Z.eqb_spec e.1 ty) as [Heq|Hne].
  - destruct e as [t w]. cbn in *. subst t. apply list_elem_of_here.
  - apply elem_of_cons in Hty as [Heq|Hty]; [symmetry in Heq; contradiction|].
    apply list_elem_of_further. exact (IH Hty).
Qed.

(** The extensions that the walk counts are those that are put in. *)
Lemma matched_restored (ol : list (Z * bytes)) (types : list Z) :
  NoDup types -> NoDup (map fst ol) ->
  Forall (fun ty => ty ∈ map fst ol) types ->
  Hello.matched types ol ≡ₚ Hello.restored ol types.
Proof.
  intros Hnt Hno Hin. apply NoDup_Permutation.
  - unfold Hello.matched. apply NoDup_ListNoDup, List.NoDup_filter.
    apply (List.NoDup_map_inv fst ol), NoDup_ListNoDup, Hno.
  - unfold Hello.restored. clear Hin.
    induction Hnt as [|ty types Hty _ IH]; [constructor|].
    cbn [map]. constructor; [|exact IH].
    intros Hx. apply Hty. clear -Hx.
    induction types as [|t types IH]; [inversion Hx|].
    cbn [map] in Hx. apply elem_of_cons in Hx as [Heq|Hx].
    + injection Heq as ->. apply list_elem_of_here.
    + apply list_elem_of_further. exact (IH Hx).
  - intros [ty v]. unfold Hello.matched, Hello.restored.
    rewrite !list_elem_of_In, List.filter_In, List.in_map_iff.
    cbn [fst]. split.
    + intros (Hx & Hm). exists ty. split.
      * f_equal. apply value_of_in; [exact Hno|].
        apply list_elem_of_In. exact Hx.
      * apply list_elem_of_In, mem_elem. exact Hm.
    + intros (t & Heq & Ht). injection Heq as -> <-.
      apply list_elem_of_In in Ht. split.
      * apply list_elem_of_In, value_of_elem.
        rewrite Forall_forall in Hin. exact (Hin ty Ht).
      * apply mem_present. exact Ht.
Qed.

Lemma exts_wire_perm (l1 l2 : list (Z * bytes)) :
  l1 ≡ₚ l2 -> len (Hello.exts_wire l1) = len (Hello.exts_wire l2).
Proof.
  induction 1 as [|e l1 l2 _ IH|e1 e2 l|l1 l2 l3 _ IH1 _ IH2].
  - reflexivity.
  - rewrite !exts_wire_cons, !len_app, IH. reflexivity.
  - rewrite !exts_wire_cons, !len_app. lia.
  - congruence.
Qed.

Lemma set1_middle (pre post : bytes) (a v : Z) :
  Dec.set1 (pre ++ a :: post) (len pre) v = Ok (pre ++ v :: post).
Proof.
  unfold Dec.set1. rewrite len_app.
  pose proof (len_nonneg pre). pose proof (len_nonneg post).
  assert (len (a :: post) = 1 + len post)
    by (unfold len; cbn [length]; lia).
  destruct (Z.leb_spec 0 (len pre)); [|lia].
  destruct (Z.ltb_spec (len pre) (len pre + len (a :: post))); [|lia].
  cbn [andb]. f_equal. unfold len. rewrite Nat2Z.id.
  unfold bytes. rewrite insert_app_r_alt by lia.
  rewrite Nat.sub_diag. reflexivity.
Qed.

Lemma set1_at (buf pre post : bytes) (a v i : Z) :
  buf = pre ++ a :: post -> i = len pre ->
  Dec.set1 buf i v = Ok (pre ++ v :: post).
Proof. intros -> ->. apply set1_middle. Qed.

Lemma find_outers_found_at (el : list (Z * bytes)) fuel buf pre post elen
    rem i :
  buf = pre ++ Hello.exts_wire el ++
        I2OSP2 Ech.TLSEXT_TYPE_outer_extensions ++ I2OSP2 elen ++ post ->
  i = len pre ->
  Forall Hello.plain_ext el ->
  Wire.u16 Ech.TLSEXT_TYPE_outer_extensions -> Wire.u16 elen ->
  len (Hello.exts_wire el) < rem < 2 ^ 31 ->
  (length el < fuel)%nat ->
  Dec.find_outers fuel buf rem i =
  Some (Ok (Some (i + len (Hello.exts_wire el), elen))).
Proof.
  intros -> -> Hok Hoe Hel Hrem Hfuel.
  replace rem with (len (Hello.exts_wire el) + (rem - len (Hello.exts_wire el)))
    by lia.
  apply find_outers_found; try assumption; lia.
Qed.

Lemma to_int_id (x : Z) : 0 <= x < 2 ^ 31 -> to_int x = x.
Proof.
  intros Hx. unfold to_int. rewrite (Z.mod_small x (2 ^ 32)) by lia.
  destruct (Z.ltb_spec x (2 ^ 31)); [reflexivity|lia].
Qed.

Lemma repeat_none (types : list Z) :
  repeat (@None (Z * Z)) (length types) = map (fun _ => None) types.
Proof.
  induction types as [|t types IH]; [reflexivity|].
  cbn [length repeat map]. rewrite IH. reflexivity.
Qed.

(** The walk over the whole of the outer extensions, when they are of
    different types and hold every listed type. *)
Lemma walk_outer_all (ol : list (Z * bytes)) (types : list Z) (fuel : nat) :
  NoDup types -> Forall Hello.fits ol -> NoDup (map fst ol) ->
  Forall (fun ty => ty ∈ map fst ol) types ->
  len (Hello.exts_wire ol) < 2 ^ 31 ->
  (length ol <= fuel)%nat ->
  Dec.walk_outer fuel (Hello.exts_wire ol) types
    (to_int (len (Hello.exts_wire ol))) 0
    {| Dec.sizes := repeat None (length types);
       Dec.tot_outer_lens := 0; Dec.found_outers := 0 |} =
  Some (Ok {| Dec.sizes := map (fun ty => Hello.locate ty ol 0 None) types;
              Dec.tot_outer_lens :=
                len (Hello.exts_wire (Hello.restored ol types));
              Dec.found_outers := len types |}).
Proof.
  intros Hnt Hfit Hno Hin Hlen Hfuel.
  pose proof (len_nonneg (Hello.exts_wire ol)) as H0.
  rewrite to_int_id by lia.
  pose proof (walk_outer_spec ol fuel [] [] types
                {| Dec.sizes := repeat None (length types);
                   Dec.tot_outer_lens := 0; Dec.found_outers := 0 |}
                (fun _ => None) Hnt Hfit (repeat_none types)) as Hw.
  cbn [Dec.tot_outer_lens Dec.found_outers app] in Hw.
  rewrite app_nil_r in Hw. change (len (@nil Z)) with 0 in Hw.
  rewrite Hw by (try assumption; lia).
  pose proof (matched_restored ol types Hnt Hno Hin) as Hp.
  rewrite (exts_wire_perm _ _ Hp).
  assert (Hl : len (Hello.matched types ol) = len types).
  { unfold len. rewrite (Permutation_length Hp).
    unfold Hello.restored. rewrite length_map. reflexivity. }
  rewrite Hl. reflexivity.
Qed.

(** An encoded inner ClientHello that lists extensions of the outer
    ClientHello: the extensions [pre], then outer_extensions with
    [types], then [postb].  [ech_decode_inner] comes to the walk over
    [exts] and to the packaging of what the walk found. *)
Lemma decode_inner_front (hdr suites comp sid postb exts : bytes) (x : Z)
    (pre : list (Z * bytes)) (types : list Z) (fuel : nat) :
  len hdr = 38 -> len comp = 2 -> len suites < 65536 -> len sid <= 32 ->
  Forall Hello.plain_ext pre ->
  Wire.u16 Ech.TLSEXT_TYPE_outer_extensions ->
  Forall Wire.u16 types ->
  0 < len types <= Ech.ECH_OUTERS_MAX ->
  len (Hello.exts_wire pre ++
       Wire.outer_extensions_wire types (len types) ++ postb) < 65536 ->
  (length pre < fuel)%nat ->
  let X := Hello.exts_wire pre ++
           Wire.outer_extensions_wire types (len types) ++ postb in
  let front := hdr ++ [len sid mod 256] ++ sid ++ Hello.vec16 suites ++ comp in
  Dec.decode_inner fuel
    (hdr ++ [x] ++ Hello.vec16 suites ++ comp ++ Hello.vec16 X) sid exts =
  run m <- Dec.walk_outer fuel exts types (to_int (len exts)) 0
             {| Dec.sizes := repeat None (length types);
                Dec.tot_outer_lens := 0; Dec.found_outers := 0 |} ;;
  Dec.package (front ++ Hello.vec16 X) exts
    (len front + 2 + len X) (len front)
    (len front + 2 + len (Hello.exts_wire pre)) (len types) types m.
Proof.
  intros Hhdr Hcomp Hsuites Hsid Hpre Hoe Hty Hn HX Hfuel1. cbv zeta.
  set (tys := concat (map I2OSP2 types)).
  assert (Hoew : Wire.outer_extensions_wire types (len types) =
                 I2OSP2 Ech.TLSEXT_TYPE_outer_extensions ++
                 I2OSP2 (2 * len types) ++ tys).
  { unfold Wire.outer_extensions_wire. unfold len at 2.
    rewrite Nat2Z.id, firstn_all. reflexivity. }
  rewrite Hoew in *. clear Hoew.
  assert (Htys : len tys = 2 * len types).
  { unfold tys. clear. induction types as [|t types IH]; [reflexivity|].
    cbn [map concat]. rewrite len_app, len_I2OSP2, IH.
    unfold len. cbn [length]. lia. }
  set (P := Hello.exts_wire pre) in *.
  set (OE := Ech.TLSEXT_TYPE_outer_extensions) in *.
  set (X := P ++ (I2OSP2 OE ++ I2OSP2 (2 * len types) ++ tys) ++ postb) in *.
  assert (HlenX : len X = len P + 4 + 2 * len types + len postb).
  { unfold X. rewrite !len_app, !len_I2OSP2, Htys. lia. }
  set (tl := Hello.vec16 suites ++ comp ++ Hello.vec16 X).
  pose proof (len_nonneg suites) as Hs0. pose proof (len_nonneg X) as Hx0.
  pose proof (len_nonneg sid) as Hsid0. pose proof (len_nonneg P) as HP0.
  pose proof (len_nonneg postb) as Hpb0.
  assert (Htl : len tl = 6 + len suites + len X).
  { unfold tl, Hello.vec16. rewrite !len_app, !len_I2OSP2. lia. }
  cbv zeta. unfold Dec.decode_inner.
  assert (Henc : len (hdr ++ [x] ++ tl) = 39 + len tl).
  { rewrite !len_app. change (len [x]) with 1. lia. }
  rewrite Henc.
  assert (Hw : wrap64 (39 + len tl + len sid + 1 - 1) = 39 + len tl + len sid).
  { unfold wrap64. rewrite Z.mod_small by lia. lia. }
  rewrite Hw. unfold OPENSSL_malloc_ok at 1.
  destruct (Z.eqb_spec (39 + len tl + len sid) 0); [lia|]. cbn [negb].
  change (6 + 32) with 38. change (38 + 1) with 39.
  destruct (Z.ltb_spec (39 + len tl) 39); [lia|].
  rewrite (take_app_length' hdr ([x] ++ tl)) by (unfold len in Hhdr; lia).
  rewrite (app_assoc hdr [x] tl).
  rewrite (drop_app_length' (hdr ++ [x]) tl)
    by (rewrite length_app; unfold len in Hhdr; simpl; lia).
  cbv zeta.
  assert (H39 : len (hdr ++ [x]) = 39)
    by (rewrite len_app; change (len [x]) with 1; lia).
  rewrite (at2_at ((hdr ++ [x]) ++ tl) (hdr ++ [x])
             (suites ++ comp ++ Hello.vec16 X) (len suites) 39);
    [|unfold tl, Hello.vec16; rewrite <- !app_assoc; reflexivity
     |lia|unfold Wire.u16; lia].
  unfold fbind at 1.
  set (pre2 := hdr ++ [len sid mod 256] ++ sid ++ Hello.vec16 suites ++ comp).
  assert (Hpre2 : len pre2 = 39 + (len suites + 2) + len sid + 2).
  { unfold pre2, Hello.vec16. rewrite !len_app, !len_I2OSP2.
    change (len [len sid mod 256]) with 1. lia. }
  rewrite Hpre2.
  set (start := 39 + (len suites + 2) + len sid + 2) in *.
  set (rest := I2OSP2 OE ++ I2OSP2 (2 * len types) ++ tys ++ postb).
  assert (Hini : hdr ++ [len sid mod 256] ++ sid ++ tl =
                 (pre2 ++ I2OSP2 (len X)) ++ P ++ rest).
  { unfold pre2, tl, Hello.vec16, X, rest. rewrite <- !app_assoc.
    reflexivity. }
  rewrite Hini.
  rewrite (at2_at _ pre2 (P ++ rest) (len X) start);
    [|rewrite <- !app_assoc; reflexivity|lia|unfold Wire.u16; lia].
  unfold fbind at 1.
  rewrite (find_outers_found_at pre fuel _ (pre2 ++ I2OSP2 (len X))
             (tys ++ postb) (2 * len types) (len X) (start + 2));
    [|reflexivity|rewrite len_app, len_I2OSP2; lia|assumption|assumption
     |unfold Wire.u16, Ech.ECH_OUTERS_MAX in *; lia|fold P; lia|assumption].
  unfold fbind at 1. fold P.
  assert (Hn2 : to_int (2 * len types / 2) = len types).
  { rewrite Z.mul_comm, Z.div_mul by lia. apply to_int_id.
    unfold Ech.ECH_OUTERS_MAX in Hn. lia. }
  rewrite Hn2.
  destruct (Z.leb_spec (len types) 0); [lia|].
  destruct (Z.gtb_spec (len types) Ech.ECH_OUTERS_MAX); [lia|]. cbn [orb].
  replace (Z.to_nat (len types)) with (length types)
    by (unfold len; rewrite Nat2Z.id; reflexivity).
  set (buf := (pre2 ++ I2OSP2 (len X)) ++ P ++ rest).
  assert (Hbuf : buf = ((pre2 ++ I2OSP2 (len X) ++ P) ++
                        I2OSP2 OE ++ I2OSP2 (2 * len types)) ++
                       tys ++ postb).
  { unfold buf, rest. rewrite <- !app_assoc. reflexivity. }
  rewrite (read_outers_at types buf
             ((pre2 ++ I2OSP2 (len X) ++ P) ++
              I2OSP2 OE ++ I2OSP2 (2 * len types)) postb
             (start + 2 + len P + 4));
    [|exact Hbuf|rewrite !len_app, !len_I2OSP2; lia|exact Hty].
  unfold fbind at 1.
  replace (39 + len tl + len sid) with (start + 2 + len X)
    by (unfold start; lia).
  assert (Hb2 : buf = pre2 ++ Hello.vec16 X).
  { unfold buf, Hello.vec16, X, rest. rewrite <- !app_assoc. reflexivity. }
  rewrite Hb2. reflexivity.
Qed.

(** What is packaged when the walk found every listed type once. *)
Lemma package_restored (front postb : bytes) (pre ol : list (Z * bytes))
    (types : list Z) (hdr mid : bytes) :
  front = hdr ++ mid -> len hdr = 38 ->
  Forall Wire.u16 types ->
  0 < len types <= Ech.ECH_OUTERS_MAX ->
  NoDup types -> NoDup (map fst ol) ->
  Forall (fun ty => ty ∈ map fst ol) types ->
  len (Hello.exts_wire ol) < 2 ^ 31 ->
  len (Hello.exts_wire pre ++
       Wire.outer_extensions_wire types (len types) ++ postb) < 65536 ->
  len front < 2 ^ 31 ->
  let X := Hello.exts_wire pre ++
           Wire.outer_extensions_wire types (len types) ++ postb in
  let Xn := Hello.exts_wire pre ++
            Hello.exts_wire (Hello.restored ol types) ++ postb in
  let n := len front + 2 + len Xn - 5 in
  Dec.package (front ++ Hello.vec16 X) (Hello.exts_wire ol)
    (len front + 2 + len X) (len front)
    (len front + 2 + len (Hello.exts_wire pre)) (len types) types
    {| Dec.sizes := map (fun ty => Hello.locate ty ol 0 None) types;
       Dec.tot_outer_lens := len (Hello.exts_wire (Hello.restored ol types));
       Dec.found_outers := len types |} =
  Some (Ok (<[3%nat := n mod 255]>
              (<[2%nat := (n / 256) mod 255]>
                 (<[1%nat := (n / (256 * 256)) mod 255]> hdr)) ++
            mid ++ [(len Xn / 256) mod 255; len Xn mod 255] ++ Xn)).
Proof.
  intros Hfront Hhdr Hty Hn Hnt Hno Hin Hol HX Hfl. cbv zeta.
  set (tys := concat (map I2OSP2 types)).
  assert (Hoew : Wire.outer_extensions_wire types (len types) =
                 I2OSP2 Ech.TLSEXT_TYPE_outer_extensions ++
                 I2OSP2 (2 * len types) ++ tys).
  { unfold Wire.outer_extensions_wire. unfold len at 2.
    rewrite Nat2Z.id, firstn_all. reflexivity. }
  rewrite Hoew in *. clear Hoew.
  assert (Htys : len tys = 2 * len types).
  { unfold tys. clear. induction types as [|t types IH]; [reflexivity|].
    cbn [map concat]. rewrite len_app, len_I2OSP2, IH.
    unfold len. cbn [length]. lia. }
  set (P := Hello.exts_wire pre) in *.
  set (S := Hello.exts_wire (Hello.restored ol types)).
  set (OE := Ech.TLSEXT_TYPE_outer_extensions) in *.
  set (X := P ++ (I2OSP2 OE ++ I2OSP2 (2 * len types) ++ tys) ++ postb) in *.
  assert (HlenX : len X = len P + 4 + 2 * len types + len postb).
  { unfold X. rewrite !len_app, !len_I2OSP2, Htys. lia. }
  pose proof (len_nonneg X) as Hx0. pose proof (len_nonneg P) as HP0.
  pose proof (len_nonneg postb) as Hpb0. pose proof (len_nonneg S) as HS0.
  pose proof (len_nonneg mid) as Hmid0.
  assert (Hfl2 : len front = 38 + len mid)
    by (rewrite Hfront, len_app; lia).
  assert (HS : len S < 2 ^ 31).
  { pose proof (matched_length types ol) as Hm.
    rewrite (exts_wire_perm _ _ (matched_restored ol types Hnt Hno Hin)) in Hm.
    fold S in Hm. lia. }
  cbv zeta. unfold Dec.package.
  cbn [Dec.found_outers Dec.tot_outer_lens Dec.sizes].
  rewrite Z.eqb_refl. cbn [negb]. fold S.
  set (start := len front) in *.
  set (FL := start + 2 + len P + len S + len postb).
  assert (HFL : wrap64 (start + 2 + len P + len S +
                        (start + 2 + len X - (start + 2 + len P) -
                         (len types * 2 + 4))) = FL).
  { unfold wrap64, FL. rewrite Z.mod_small; lia. }
  rewrite HFL. unfold OPENSSL_malloc_ok.
  destruct (Z.eqb_spec FL 0); [unfold FL in *; lia|]. cbn [negb].
  rewrite splice_restored by assumption.
  unfold fbind at 1. fold S.
  set (buf := front ++ Hello.vec16 X).
  set (fr := front ++ I2OSP2 (len X) ++ P).
  assert (Hfr0 : len fr = start + 2 + len P).
  { unfold fr. rewrite !len_app, len_I2OSP2. unfold start. lia. }
  assert (Hbuf : buf = (fr ++ I2OSP2 OE ++ I2OSP2 (2 * len types)) ++
                       tys ++ postb).
  { unfold buf, fr, Hello.vec16, X. rewrite <- !app_assoc. reflexivity. }
  assert (Htake : take (Z.to_nat (start + 2 + len P)) buf = fr).
  { rewrite Hbuf, <- !app_assoc. apply take_app_length'.
    rewrite <- Hfr0. unfold len. rewrite Nat2Z.id. reflexivity. }
  assert (Hdrop : drop (Z.to_nat (start + 2 + len P + 4 + 2 * len types)) buf
                  = postb).
  { rewrite Hbuf. rewrite (app_assoc _ tys postb).
    apply drop_app_length'.
    replace (start + 2 + len P + 4 + 2 * len types)
      with (len ((fr ++ I2OSP2 OE ++ I2OSP2 (2 * len types)) ++ tys))
      by (rewrite !len_app, !len_I2OSP2; lia).
    unfold len. rewrite Nat2Z.id. reflexivity. }
  rewrite Htake, Hdrop.
  assert (Hfin : len (fr ++ S ++ postb) = FL).
  { rewrite !len_app. unfold FL. lia. }
  rewrite Hfin, Z.eqb_refl. cbn [negb].
  assert (Hl5 : wrap64 (FL - 5) = FL - 5).
  { unfold wrap64. apply Z.mod_small. unfold FL in *. lia. }
  rewrite Hl5.
  set (Xn := P ++ S ++ postb).
  assert (HXn : len Xn = len P + len S + len postb).
  { unfold Xn. rewrite !len_app. lia. }
  assert (Hfr : fr ++ S ++ postb = hdr ++ mid ++ I2OSP2 (len X) ++ Xn).
  { unfold fr, Xn. rewrite Hfront, <- !app_assoc. reflexivity. }
  rewrite Hfr.
  assert (Hins : forall (h : bytes) (i : nat) (v : Z),
                   len (<[i := v]> h) = len h).
  { intros h i v. unfold len, bytes. rewrite length_insert. reflexivity. }
  rewrite set1_head by lia. cbn [rbind].
  rewrite set1_head by (rewrite Hins; lia). cbn [rbind].
  rewrite set1_head by (rewrite !Hins; lia). cbn [rbind].
  match goal with
  | |- context [Dec.at2 (?h ++ _) start] => set (h3 := h)
  end.
  assert (Hh3 : len h3 = 38) by (unfold h3; rewrite !Hins; exact Hhdr).
  assert (Hmid : len (h3 ++ mid) = start).
  { rewrite len_app, Hh3. lia. }
  rewrite (at2_at _ (h3 ++ mid) Xn (len X) start);
    [|rewrite <- !app_assoc; reflexivity|lia|unfold Wire.u16; lia].
  cbn [rbind].
  assert (Hoo : wrap64 (len X + len S - (4 + 2 * len types)) = len Xn).
  { unfold wrap64. rewrite Z.mod_small by lia. lia. }
  rewrite Hoo. unfold I2OSP2.
  rewrite (set1_at _ (h3 ++ mid) ((len X mod 256) :: Xn)
             ((len X / 256) mod 256) ((len Xn / 256) mod 255) start);
    [|rewrite <- !app_assoc; reflexivity|lia].
  cbn [rbind].
  rewrite (set1_at _ ((h3 ++ mid) ++ [(len Xn / 256) mod 255]) Xn
             (len X mod 256) (len Xn mod 255) (start + 1));
    [|rewrite <- !app_assoc; reflexivity
     |rewrite len_app, Hmid; reflexivity].
  cbn [rbind]. do 2 f_equal.
  replace (start + 2 + len Xn - 5) with (FL - 5) by (unfold FL; lia).
  unfold h3. rewrite <- !app_assoc. reflexivity.
Qed.

(** The inner ClientHello from an encoded one that lists extensions of
    the outer ClientHello. *)
Lemma decode_inner_compressed (hdr suites comp sid postb : bytes) (x : Z)
    (pre ol : list (Z * bytes)) (types : list Z) (fuel : nat) :
  len hdr = 38 -> len comp = 2 -> len suites < 65536 -> len sid <= 32 ->
  Forall Hello.plain_ext pre ->
  Wire.u16 Ech.TLSEXT_TYPE_outer_extensions ->
  Forall Wire.u16 types -> NoDup types ->
  0 < len types <= Ech.ECH_OUTERS_MAX ->
  Forall Hello.fits ol -> NoDup (map fst ol) ->
  Forall (fun ty => ty ∈ map fst ol) types ->
  len (Hello.exts_wire ol) < 2 ^ 31 ->
  len (Hello.exts_wire pre ++
       Wire.outer_extensions_wire types (len types) ++ postb) < 65536 ->
  (length pre < fuel)%nat -> (length ol <= fuel)%nat ->
  Dec.decode_inner fuel
    (hdr ++ [x] ++ Hello.vec16 suites ++ comp ++
     Hello.vec16 (Hello.exts_wire pre ++
                  Wire.outer_extensions_wire types (len types) ++ postb))
    sid (Hello.exts_wire ol) =
  Some (Ok (Hello.decoded_hello hdr sid suites comp
              (Hello.exts_wire pre ++
               Hello.exts_wire (Hello.restored ol types) ++ postb))).
Proof.
  intros Hhdr Hcomp Hsuites Hsid Hpre Hoe Hty Hnt Hn Hfit Hno Hin Hol HX
    Hfuel1 Hfuel2.
  rewrite decode_inner_front by assumption. cbv zeta.
  rewrite walk_outer_all by assumption. unfold fbind.
  set (mid := [len sid mod 256] ++ sid ++ Hello.vec16 suites ++ comp).
  pose proof (len_nonneg suites). pose proof (len_nonneg sid).
  assert (Hmid : len (hdr ++ mid) = 38 + (1 + len sid + (2 + len suites) + 2)).
  { unfold mid, Hello.vec16. rewrite !len_app, !len_I2OSP2.
    change (len [len sid mod 256]) with 1. lia. }
  rewrite (package_restored (hdr ++ mid) postb pre ol types hdr mid);
    try assumption; [|reflexivity|lia].
  cbv zeta. do 2 f_equal. unfold Hello.decoded_hello. cbv zeta.
  assert (Hch : forall Xn,
            len (Hello.client_hello hdr sid suites comp Xn) - 5 =
            len (hdr ++ mid) + 2 + len Xn - 5).
  { intros Xn. unfold Hello.client_hello, mid, Hello.vec16.
    rewrite !len_app, !len_I2OSP2. lia. }
  rewrite Hch. unfold mid. rewrite <- !app_assoc. reflexivity.
Qed.

Lemma matched_fst (types : list Z) (ol : list (Z * bytes)) (x : Z) :
  x ∈ map fst (Hello.matched types ol) -> x ∈ map fst ol /\ x ∈ types.
Proof.
  induction ol as [|e ol IH]; [intros Hx; inversion Hx|].
  rewrite matched_cons. cbn [map].
  destruct (Ech.mem e.1 types) eqn:Hm; cbn [map]; intros Hx.
  - apply elem_of_cons in Hx as [->|Hx].
    + split; [apply list_elem_of_here|apply mem_elem; exact Hm].
    + destruct (IH Hx). split; [apply list_elem_of_further|]; assumption.
  - destruct (IH Hx). split; [apply list_elem_of_further|]; assumption.
Qed.

(** With a listed type that the outer ClientHello does not have, fewer
    extensions are found than types are listed. *)
Lemma matched_short (types : list Z) (ol : list (Z * bytes)) (ty : Z) :
  NoDup (map fst ol) -> ty ∈ types -> ty ∉ map fst ol ->
  len (Hello.matched types ol) < len types.
Proof.
  intros Hno Hty Hmiss.
  assert (Hnd : NoDup (map fst (Hello.matched types ol))).
  { clear Hty Hmiss. induction ol as [|e ol IH]; [constructor|].
    cbn [map] in Hno. apply NoDup_cons in Hno as [He Hno].
    rewrite matched_cons. destruct (Ech.mem e.1 types); cbn [map].
    - constructor; [|exact (IH Hno)].
      intros Hx. apply He. exact (proj1 (matched_fst types ol _ Hx)).
    - exact (IH Hno). }
  assert (Hsub : ty :: map fst (Hello.matched types ol) ⊆+ types).
  { apply NoDup_submseteq.
    - constructor; [|exact Hnd].
      intros Hx. apply Hmiss. exact (proj1 (matched_fst types ol _ Hx)).
    - intros x Hx. apply elem_of_cons in Hx as [->|Hx]; [exact Hty|].
      exact (proj2 (matched_fst types ol _ Hx)). }
  apply submseteq_length in Hsub. cbn [length] in Hsub.
  rewrite length_map in Hsub. unfold len. lia.
Qed.

(** An encoded inner ClientHello that lists a type which the outer
    ClientHello does not have is refused. *)
Lemma decode_inner_missing (hdr suites comp sid postb : bytes) (x : Z)
    (pre ol : list (Z * bytes)) (types : list Z) (ty : Z) (fuel : nat) :
  len hdr = 38 -> len comp = 2 -> len suites < 65536 -> len sid <= 32 ->
  Forall Hello.plain_ext pre ->
  Wire.u16 Ech.TLSEXT_TYPE_outer_extensions ->
  Forall Wire.u16 types -> NoDup types ->
  0 < len types <= Ech.ECH_OUTERS_MAX ->
  Forall Hello.fits ol -> NoDup (map fst ol) ->
  ty ∈ types -> ty ∉ map fst ol ->
  len (Hello.exts_wire ol) < 2 ^ 31 ->
  len (Hello.exts_wire pre ++
       Wire.outer_extensions_wire types (len types) ++ postb) < 65536 ->
  (length pre < fuel)%nat -> (length ol <= fuel)%nat ->
  Dec.decode_inner fuel
    (hdr ++ [x] ++ Hello.vec16 suites ++ comp ++
     Hello.vec16 (Hello.exts_wire pre ++
                  Wire.outer_extensions_wire types (len types) ++ postb))
    sid (Hello.exts_wire ol) = Some (Err 0).
Proof.
  intros Hhdr Hcomp Hsuites Hsid Hpre Hoe Hty Hnt Hn Hfit Hno Hin Hmiss Hol
    HX Hfuel1 Hfuel2.
  rewrite decode_inner_front by assumption. cbv zeta.
  pose proof (len_nonneg (Hello.exts_wire ol)) as H0.
  rewrite to_int_id by lia.
  pose proof (walk_outer_spec ol fuel [] [] types
                {| Dec.sizes := repeat None (length types);
                   Dec.tot_outer_lens := 0; Dec.found_outers := 0 |}
                (fun _ => None) Hnt Hfit (repeat_none types)) as Hw.
  cbn [Dec.tot_outer_lens Dec.found_outers app] in Hw.
  rewrite app_nil_r in Hw. change (len (@nil Z)) with 0 in Hw.
  rewrite Hw by (try assumption; lia).
  unfold fbind, Dec.package. cbn [Dec.found_outers].
  pose proof (matched_short types ol ty Hno Hin Hmiss).
  destruct (Z.eqb_spec (0 + len (Hello.matched types ol)) (len types)); [lia|].
  reflexivity.
Qed.

Lemma ech_decode_inner_restores_eq (h : gmap nat Ech.SSL) (s oa : nat)
    (ss outer : Ech.SSL) (ch : Ech.CLIENTHELLO_MSG)
    (hdr suites comp postb : bytes) (x : Z) (pre ol : list (Z * bytes))
    (types : list Z) :
  h !! s = Some ss ->
  Ech.ext_inner_s ss = None ->
  Ech.ext_outer_s ss = Some oa ->
  h !! oa = Some outer ->
  Ech.ext_encoded_innerch outer =
    Some (hdr ++ [x] ++ Hello.vec16 suites ++ comp ++
          Hello.vec16 (Hello.exts_wire pre ++
             Wire.outer_extensions_wire types (len types) ++ postb)) ->
  Ech.clienthello outer = Some ch ->
  Dec.extensions_curr_null ch = false ->
  Ech.extensions ch = Hello.exts_wire ol ->
  len hdr = 38 -> len comp = 2 -> len suites < 65536 ->
  len (Dec.tmp_session_id outer) <= 32 ->
  Forall Hello.plain_ext pre ->
  Wire.u16 Ech.TLSEXT_TYPE_outer_extensions ->
  Forall Wire.u16 types -> NoDup types ->
  0 < len types <= Ech.ECH_OUTERS_MAX ->
  Forall Hello.fits ol -> NoDup (map fst ol) ->
  Forall (fun ty => ty ∈ map fst ol) types ->
  len (Hello.exts_wire ol) < 2 ^ 31 ->
  len (Hello.exts_wire pre ++
       Wire.outer_extensions_wire types (len types) ++ postb) < 65536 ->
  Dec.ech_decode_inner h s =
  Some (Ok (<[s := Dec.set_ext_innerch
                     (Some (Hello.decoded_hello hdr
                              (Dec.tmp_session_id outer) suites comp
                              (Hello.exts_wire pre ++
                               Hello.exts_wire (Hello.restored ol types) ++
                               postb))) ss]> h)).
Proof.
  intros Hs Hin Hout Hoa Henc Hch Hnull Hext Hhdr Hcomp Hsuites Hsid Hpre
    Hoe Hty Hnt Hn Hfit Hno Hall Hol HX.
  unfold Dec.ech_decode_inner. rewrite Hs, Hin. cbn [notnull].
  rewrite Hout, Hoa, Henc, Hch, Hnull, Hext.
  rewrite decode_inner_compressed; try assumption; [reflexivity| |].
  - pose proof (exts_wire_count pre).
    rewrite !length_app. unfold Hello.vec16 at 2. rewrite !length_app. lia.
  - pose proof (exts_wire_count ol). lia.
Qed.

(** X25: when the encoded inner ClientHello holds, behind extensions of
    its own, an outer_extensions extension that lists types which the
    outer ClientHello has (each once), [ech_decode_inner] answers 1 and
    leaves in [ext.innerch] the message with the session id of the outer
    ClientHello put in and, in the place of outer_extensions, the listed
    extensions with the values of the outer ClientHello, in the order of
    the list.  The octets of the message length and of the length of the
    extensions are each reduced modulo 255, the first counting all of
    the message but five octets. *)
Theorem ech_decode_inner_restores (h : gmap nat Ech.SSL) (s oa : nat)
    (ss outer : Ech.SSL) (ch : Ech.CLIENTHELLO_MSG)
    (hdr suites comp postb : bytes) (pre ol : list (Z * bytes))
    (types : list Z) :
  h !! s = Some ss ->
  Ech.ext_inner_s ss = None ->
  Ech.ext_outer_s ss = Some oa ->
  h !! oa = Some outer ->
  Ech.ext_encoded_innerch outer =
    Some (Hello.client_hello hdr [] suites comp
            (Hello.exts_wire pre ++
             Wire.outer_extensions_wire types (len types) ++ postb)) ->
  Ech.clienthello outer = Some ch ->
  Dec.extensions_curr_null ch = false ->
  Ech.extensions ch = Hello.exts_wire ol ->
  len hdr = 38 -> len comp = 2 -> len suites < 65536 ->
  len (Dec.tmp_session_id outer) <= 32 ->
  Forall Hello.plain_ext pre ->
  Wire.u16 Ech.TLSEXT_TYPE_outer_extensions ->
  Forall Wire.u16 types -> NoDup types ->
  0 < len types <= Ech.ECH_OUTERS_MAX ->
  Forall Hello.fits ol -> NoDup (map fst ol) ->
  Forall (fun ty => ty ∈ map fst ol) types ->
  len (Hello.exts_wire ol) < 2 ^ 31 ->
  len (Hello.exts_wire pre ++
       Wire.outer_extensions_wire types (len types) ++ postb) < 65536 ->
  Dec.ech_decode_inner h s =
  Some (Ok (<[s := Dec.set_ext_innerch
                     (Some (Hello.decoded_hello hdr
                              (Dec.tmp_session_id outer) suites comp
                              (Hello.exts_wire pre ++
                               Hello.exts_wire (Hello.restored ol types) ++
                               postb))) ss]> h)).
Proof.
  intros Hs Hin Hout Hoa Henc Hch Hnull Hext Hhdr Hcomp Hsuites Hsid Hpre
    Hoe Hty Hnt Hn Hfit Hno Hall Hol HX.
  eapply ech_decode_inner_restores_eq; eassumption.
Qed.

(** X26: a type listed in outer_extensions that the outer ClientHello
    does not have makes [ech_decode_inner] answer 0: fewer extensions
    are found than types are listed. *)
Theorem ech_decode_inner_missing_outer (h : gmap nat Ech.SSL) (s oa : nat)
    (ss outer : Ech.SSL) (ch : Ech.CLIENTHELLO_MSG)
    (hdr suites comp postb : bytes) (pre ol : list (Z * bytes))
    (types : list Z) (ty : Z) :
  h !! s = Some ss ->
  Ech.ext_inner_s ss = None ->
  Ech.ext_outer_s ss = Some oa ->
  h !! oa = Some outer ->
  Ech.ext_encoded_innerch outer =
    Some (Hello.client_hello hdr [] suites comp
            (Hello.exts_wire pre ++
             Wire.outer_extensions_wire types (len types) ++ postb)) ->
  Ech.clienthello outer = Some ch ->
  Dec.extensions_curr_null ch = false ->
  Ech.extensions ch = Hello.exts_wire ol ->
  len hdr = 38 -> len comp = 2 -> len suites < 65536 ->
  len (Dec.tmp_session_id outer) <= 32 ->
  Forall Hello.plain_ext pre ->
  Wire.u16 Ech.TLSEXT_TYPE_outer_extensions ->
  Forall Wire.u16 types -> NoDup types ->
  0 < len types <= Ech.ECH_OUTERS_MAX ->
  Forall Hello.fits ol -> NoDup (map fst ol) ->
  ty ∈ types -> ty ∉ map fst ol ->
  len (Hello.exts_wire ol) < 2 ^ 31 ->
  len (Hello.exts_wire pre ++
       Wire.outer_extensions_wire types (len types) ++ postb) < 65536 ->
  Dec.ech_decode_inner h s = Some (Err 0).
Proof.
  intros Hs Hin Hout Hoa Henc Hch Hnull Hext Hhdr Hcomp Hsuites Hsid Hpre
    Hoe Hty Hnt Hn Hfit Hno Hlisted Hmiss Hol HX.
  unfold Dec.ech_decode_inner. rewrite Hs, Hin. cbn [notnull].
  rewrite Hout, Hoa, Henc, Hch, Hnull, Hext.
  unfold Hello.client_hello.
  erewrite (decode_inner_missing hdr suites comp _ postb _ pre ol types ty);
    try eassumption; [reflexivity| |].
  - pose proof (exts_wire_count pre).
    rewrite !length_app. unfold Hello.vec16 at 2. rewrite !length_app. lia.
  - pose proof (exts_wire_count ol). lia.
Qed.

End Decompress.

(** ** RData of SVCB and HTTPS records *)

Section Rdata.
Context {E : Ech.ech_h} {B : Ech.evp_encode} {H : Hpke.hpke_h}
  {P : Svcb.ech_public_h}.

Lemma at1_at (buf pre post : bytes) (v i : Z) :
  buf = pre ++ v :: post -> i = len pre -> Dec.at1 buf i = Ok v.
Proof. intros -> ->. apply at1_middle. Qed.

Lemma name_wire_cons (l : bytes) (ls : list bytes) :
  Svcb.name_wire (l :: ls) = len l :: l ++ Svcb.name_wire ls.
Proof.
  unfold Svcb.name_wire. cbn [map concat]. rewrite <- app_assoc. reflexivity.
Qed.

Lemma name_wire_length (ls : list bytes) :
  len (Svcb.name_wire ls) =
  1 + len (concat (map (fun l => l ++ [46]) ls)).
Proof.
  induction ls as [|l ls IH]; [reflexivity|].
  rewrite name_wire_cons. cbn [map concat].
  rewrite !len_app. change (len [46]) with 1.
  change (len (len l :: l ++ Svcb.name_wire ls))
    with (Z.of_nat (S (length (l ++ Svcb.name_wire ls)))).
  rewrite Nat2Z.inj_succ. fold (len (l ++ Svcb.name_wire ls)).
  rewrite len_app, IH. lia.
Qed.

(** The loop over the labels of a name. *)
Lemma name_loop_labels (ls : list bytes) :
  forall (l : bytes) (fuel : nat) (A T tp : bytes) (rem : Z),
  Svcb.label l -> Forall Svcb.label ls ->
  len (concat (map (fun l => l ++ [46]) (l :: ls))) <= rem < 2 ^ 64 ->
  len tp + len (concat (map (fun l => l ++ [46]) (l :: ls))) <=
    Svcb.ECH_MAX_DNSNAME ->
  (length ls < fuel)%nat ->
  Svcb.name_loop fuel (A ++ l ++ Svcb.name_wire ls ++ T) (len l) (len A)
    rem tp =
  Some (Ok (inr (len A + len l + len (Svcb.name_wire ls),
                 rem - len (concat (map (fun l => l ++ [46]) (l :: ls))),
                 tp ++ concat (map (fun l => l ++ [46]) (l :: ls))))).
Proof.
  induction ls as [|l2 ls IH]; intros l fuel A T tp rem Hl Hls Hrem Hmax Hfuel.
  - destruct fuel as [|fuel]; [simpl in Hfuel; lia|].
    unfold Svcb.label in Hl.
    cbn [map concat] in *. rewrite app_nil_r in *.
    rewrite len_app in *. change (len [46]) with 1 in *.
    cbn [Svcb.name_loop].
    destruct (Z.eqb_spec (len l) 0); [lia|].
    destruct (Z.gtb_spec (len l) rem); [lia|].
    rewrite !len_app.
    pose proof (len_nonneg T). pose proof (len_nonneg tp).
    change (len (Svcb.name_wire [])) with 1.
    destruct (Z.gtb_spec (len A + len l) (len A + (len l + (1 + len T))));
      [lia|].
    destruct (Z.gtb_spec (len tp + len l + 1) Svcb.ECH_MAX_DNSNAME); [lia|].
    rewrite (at1_at _ (A ++ l) T 0 (len A + len l));
      [|rewrite <- !app_assoc; reflexivity|rewrite len_app; reflexivity].
    assert (Hw : wrap64 (rem - (len l + 1)) = rem - (len l + 1))
      by (unfold wrap64; rewrite Z.mod_small by lia; lia).
    unfold fbind. destruct fuel; cbn [Svcb.name_loop Z.eqb];
      rewrite Hw, take_drop_middle by reflexivity; reflexivity.
  - destruct fuel as [|fuel]; [simpl in Hfuel; lia|].
    inversion Hls as [|? ? Hl2 Hls']; subst.
    unfold Svcb.label in Hl, Hl2.
    assert (Hsum : len (concat (map (fun l => l ++ [46]) (l :: l2 :: ls))) =
                   len l + 1 +
                   len (concat (map (fun l => l ++ [46]) (l2 :: ls)))).
    { cbn [map concat]. rewrite !len_app. change (len [46]) with 1. lia. }
    rewrite Hsum in *.
    pose proof (len_nonneg (concat (map (fun l => l ++ [46]) (l2 :: ls))))
      as Hn0.
    pose proof (len_nonneg T). pose proof (len_nonneg tp).
    pose proof (len_nonneg (Svcb.name_wire (l2 :: ls))).
    cbn [Svcb.name_loop].
    destruct (Z.eqb_spec (len l) 0); [lia|].
    destruct (Z.gtb_spec (len l) rem); [lia|].
    rewrite !len_app.
    destruct (Z.gtb_spec (len A + len l)
                (len A + (len l + (len (Svcb.name_wire (l2 :: ls)) + len T))));
      [lia|].
    destruct (Z.gtb_spec (len tp + len l + 1) Svcb.ECH_MAX_DNSNAME); [lia|].
    rewrite name_wire_cons.
    rewrite (at1_at _ (A ++ l) (l2 ++ Svcb.name_wire ls ++ T) (len l2)
               (len A + len l));
      [|rewrite <- !app_assoc; cbn [app]; rewrite <- !app_assoc; reflexivity
       |rewrite len_app; reflexivity].
    unfold fbind.
    rewrite take_drop_middle by reflexivity.
    assert (Hw : wrap64 (rem - (len l + 1)) = rem - (len l + 1))
      by (unfold wrap64; rewrite Z.mod_small by lia; lia).
    rewrite Hw.
    specialize (IH l2 fuel (A ++ l ++ [len l2]) T (tp ++ l ++ [46])
                  (rem - (len l + 1)) Hl2 Hls' ltac:(lia)).
    rewrite !len_app in IH. change (len [len l2]) with 1 in IH.
    change (len [46]) with 1 in IH.
    specialize (IH ltac:(lia) ltac:(simpl in Hfuel; lia)).
    rewrite <- !app_assoc in IH. cbn [app] in IH.
    replace (len A + len l + 1) with (len A + (len l + 1)) by lia.
    cbn [app]. rewrite <- !app_assoc. rewrite IH. do 3 f_equal.
    apply pair_equal_spec; split; [apply pair_equal_spec; split|].
    + change (len (len l2 :: l2 ++ Svcb.name_wire ls))
        with (Z.of_nat (S (length (l2 ++ Svcb.name_wire ls)))).
      rewrite Nat2Z.inj_succ. fold (len (l2 ++ Svcb.name_wire ls)).
      rewrite len_app. lia.
    + lia.
    + cbn [map concat]. rewrite <- !app_assoc. reflexivity.
Qed.

(** [local_decode_rdata_name] on a name of labels that fit the buffer. *)
Lemma local_decode_rdata_name_eq (ls : list bytes) (A T : bytes)
    (rem : Z) :
  Forall Svcb.label ls ->
  len (Svcb.name_wire ls) - 1 <= rem < 2 ^ 64 ->
  len (Svcb.dotted ls) <= Svcb.ECH_MAX_DNSNAME ->
  Svcb.local_decode_rdata_name (A ++ Svcb.name_wire ls ++ T) (len A) rem =
  Some (Ok (len A + len (Svcb.name_wire ls),
            rem - len (Svcb.name_wire ls) + 1,
            Some (Svcb.dotted ls))).
Proof.
  intros Hls Hrem Hmax. unfold Svcb.local_decode_rdata_name.
  pose proof (len_nonneg (Svcb.dotted ls)) as Hd0.
  assert (Hd : 0 < len (Svcb.dotted ls)).
  { destruct ls as [|l ls]; [reflexivity|].
    cbn [Svcb.dotted map concat]. rewrite !len_app.
    pose proof (len_nonneg l).
    pose proof (len_nonneg (concat (map (fun l => l ++ [46]) ls))).
    change (len [46]) with 1. lia. }
  unfold OPENSSL_malloc_ok.
  destruct (Z.eqb_spec Svcb.ECH_MAX_DNSNAME 0); [lia|]. cbn [negb].
  destruct ls as [|l ls].
  - rewrite (at1_at _ A T 0 (len A)) by reflexivity.
    unfold fbind. cbn [Z.eqb].
    change (len (Svcb.dotted [])) with 2 in Hmax.
    destruct (Z.ltb_spec Svcb.ECH_MAX_DNSNAME 2); [lia|].
    change (len (Svcb.name_wire [])) with 1.
    do 2 f_equal.
    apply pair_equal_spec; split; [apply pair_equal_spec; split|reflexivity];
      lia.
  - inversion Hls as [|? ? Hl Hls']; subst.
    rewrite name_wire_cons.
    rewrite (at1_at _ A (l ++ Svcb.name_wire ls ++ T) (len l) (len A));
      [|cbn [app]; rewrite <- !app_assoc; reflexivity|reflexivity].
    unfold fbind at 1. unfold Svcb.label in Hl.
    destruct (Z.eqb_spec (len l) 0); [lia|].
    pose proof (name_wire_length (l :: ls)) as Hnl.
    rewrite name_wire_cons in Hnl, Hrem.
    cbn [Svcb.dotted] in Hmax.
    pose proof (name_loop_labels ls l
                  (length (A ++ len l :: l ++ Svcb.name_wire ls ++ T))
                  (A ++ [len l]) T [] rem Hl Hls' ltac:(lia)) as Hloop.
    change (len (@nil Z)) with 0 in Hloop.
    specialize (Hloop ltac:(lia)).
    rewrite len_app in Hloop. change (len [len l]) with 1 in Hloop.
    rewrite <- !app_assoc in Hloop. cbn [app] in Hloop.
    cbn [app]. rewrite <- ?app_assoc.
    rewrite Hloop.
    + unfold fbind. cbn [app Svcb.dotted]. do 2 f_equal.
      apply pair_equal_spec; split; [apply pair_equal_spec; split|reflexivity].
      * change (len (len l :: l ++ Svcb.name_wire ls))
          with (Z.of_nat (S (length (l ++ Svcb.name_wire ls)))).
        rewrite Nat2Z.inj_succ. fold (len (l ++ Svcb.name_wire ls)).
        rewrite len_app. lia.
      * lia.
    + rewrite !length_app. cbn [length]. rewrite !length_app.
      assert (length ls < length (Svcb.name_wire ls))%nat; [|lia].
      clear. induction ls as [|l2 ls IH]; [simpl; lia|].
      rewrite name_wire_cons. cbn [length]. rewrite length_app. lia.
Qed.

(** X27: [local_decode_rdata_name] reads a name of labels: called with
    [*remaining] the number of octets from [*buf] on, it leaves [*buf]
    behind the empty label that ends the name and gives the labels with
    a '.' behind each (".", and a NUL, for the root; nothing ends the
    name otherwise).  [*remaining] is left one too high: the octet of
    the first length is not counted. *)
Theorem local_decode_rdata_name_labels (ls : list bytes) (A T : bytes) :
  Forall Svcb.label ls ->
  len (Svcb.name_wire ls ++ T) < 2 ^ 64 ->
  len (Svcb.dotted ls) <= Svcb.ECH_MAX_DNSNAME ->
  exists cp rem,
    Svcb.local_decode_rdata_name (A ++ Svcb.name_wire ls ++ T) (len A)
      (len (Svcb.name_wire ls ++ T)) =
    Some (Ok (cp, rem, Some (Svcb.dotted ls))) /\
    drop (Z.to_nat cp) (A ++ Svcb.name_wire ls ++ T) = T /\
    rem = len T + 1.
Proof.
  intros Hls Hlen Hmax.
  pose proof (len_nonneg T) as HT. pose proof (name_wire_length ls) as Hnw.
  pose proof (len_nonneg (concat (map (fun l => l ++ [46]) ls))) as Hc.
  rewrite len_app in Hlen.
  exists (len A + len (Svcb.name_wire ls)),
         (len (Svcb.name_wire ls ++ T) - len (Svcb.name_wire ls) + 1).
  split; [|split].
  - apply local_decode_rdata_name_eq; try assumption.
    rewrite len_app. lia.
  - rewrite app_assoc. apply drop_app_length'.
    rewrite <- len_app. unfold len. rewrite Nat2Z.id. reflexivity.
  - rewrite len_app. lia.
Qed.

Lemma to_short_small (x : Z) : 0 <= x < 2 ^ 15 -> Svcb.to_short x = x.
Proof.
  intros Hx. unfold Svcb.to_short. rewrite Z.mod_small by lia.
  destruct (Z.ltb_spec x (2 ^ 15)); [reflexivity|lia].
Qed.

Lemma wrap64_small (x : Z) : 0 <= x < 2 ^ 64 -> wrap64 x = x.
Proof. intros Hx. unfold wrap64. apply Z.mod_small. exact Hx. Qed.

(** One turn of the loop over the SvcParams, for a parameter that is
    not the one with the ECHConfigs. *)
Lemma params_turn (fuel : nat) (bin A T : bytes) (p : Z * bytes)
    (st : Svcb.walk) :
  Svcb.param_ok p ->
  bin = A ++ I2OSP2 p.1 ++ I2OSP2 (len p.2) ++ p.2 ++ T ->
  Svcb.cp st = len A ->
  4 + len p.2 <= Svcb.remaining st < 2 ^ 64 ->
  Svcb.done st = false ->
  Svcb.params (S fuel) bin st =
  Svcb.params fuel bin
    {| Svcb.cp := len A + 4 + len p.2;
       Svcb.remaining := Svcb.remaining st - 4 - len p.2;
       Svcb.eklen := Svcb.eklen st; Svcb.ekval := Svcb.ekval st;
       Svcb.alpn_len :=
         if p.1 =? Svcb.ECH_PCODE_ALPN then len p.2 else Svcb.alpn_len st;
       Svcb.alpn_val :=
         if p.1 =? Svcb.ECH_PCODE_ALPN then Some (len A + 4)
         else Svcb.alpn_val st;
       Svcb.no_def_alpn :=
         if p.1 =? Svcb.ECH_PCODE_NO_DEF_ALPN then 1
         else Svcb.no_def_alpn st;
       Svcb.done := false |}.
Proof.
  intros (Hc & Hl & Hne & _) Hbin Hcp Hrem Hdone.
  pose proof (len_nonneg p.2) as Hp0. pose proof (len_nonneg T) as HT0.
  pose proof (len_nonneg A) as HA0.
  assert (Hlen : len bin = len A + 4 + len p.2 + len T).
  { rewrite Hbin, !len_app, !len_I2OSP2. lia. }
  cbn [Svcb.params]. rewrite Hdone, Hcp. cbn [negb andb].
  destruct (Z.geb_spec (Svcb.remaining st) 4); [|lia].
  rewrite (at2_at bin A (I2OSP2 (len p.2) ++ p.2 ++ T) p.1 (len A));
    [|exact Hbin|reflexivity|unfold Wire.u16; lia].
  rewrite (at2_at bin (A ++ I2OSP2 p.1) (p.2 ++ T) (len p.2) (len A + 2));
    [|rewrite Hbin, <- !app_assoc; reflexivity
     |rewrite len_app, len_I2OSP2; reflexivity|unfold Wire.u16; lia].
  unfold fbind. cbv zeta.
  rewrite !to_short_small by lia.
  destruct (Z.eqb_spec p.1 Svcb.ECH_PCODE_ECH); [contradiction|].
  rewrite (wrap64_small (len p.2)) by lia.
  destruct (Z.leb_spec (len p.2) (Svcb.remaining st - 4)); [|lia].
  destruct (Z.eqb_spec (len p.2) 0) as [Hz|Hnz]; cbn [negb andb orb].
  - rewrite Hz, !Z.add_0_r, !Z.sub_0_r. reflexivity.
  - destruct (Z.gtb_spec (len A + 4 + len p.2) (len bin)); [lia|].
    destruct (Z.ltb_spec (len A + 4 + len p.2) 0); [lia|].
    cbn [orb]. rewrite wrap64_small by lia. reflexivity.
Qed.

(** The loop over parameters none of which holds the ECHConfigs. *)
Lemma params_others (ps : list (Z * bytes)) :
  forall (fuel : nat) (bin A T : bytes) (st : Svcb.walk),
  Forall Svcb.param_ok ps ->
  bin = A ++ Hello.exts_wire ps ++ T ->
  Svcb.cp st = len A ->
  len (Hello.exts_wire ps) <= Svcb.remaining st < 2 ^ 64 ->
  Svcb.done st = false ->
  Svcb.alpn_fine bin st ->
  (length ps <= fuel)%nat ->
  exists st',
    Svcb.params fuel bin st = Svcb.params (fuel - length ps) bin st' /\
    Svcb.cp st' = len A + len (Hello.exts_wire ps) /\
    Svcb.remaining st' = Svcb.remaining st - len (Hello.exts_wire ps) /\
    Svcb.eklen st' = Svcb.eklen st /\ Svcb.ekval st' = Svcb.ekval st /\
    Svcb.done st' = false /\
    Svcb.no_def_alpn st' =
      (if Ech.mem Svcb.ECH_PCODE_NO_DEF_ALPN (map fst ps) then 1
       else Svcb.no_def_alpn st) /\
    Svcb.alpn_fine bin st'.
Proof.
  induction ps as [|p ps IH]; intros fuel bin A T st Hok Hbin Hcp Hrem Hdone
    Hfine Hfuel.
  - exists st. rewrite Nat.sub_0_r.
    change (len (Hello.exts_wire [])) with 0.
    repeat split; try assumption; try reflexivity; lia.
  - destruct fuel as [|fuel]; [simpl in Hfuel; lia|].
    apply Forall_cons in Hok as [Hp Hps].
    rewrite exts_wire_cons in Hbin, Hrem. unfold Wire.ext_wire in Hbin.
    rewrite !be2_I2OSP2, <- !app_assoc in Hbin.
    rewrite len_app in Hrem. pose proof (ext_wire_length p) as Hpl.
    pose proof (len_nonneg (Hello.exts_wire ps)) as Hr0.
    pose proof (len_nonneg p.2) as Hp0.
    rewrite (params_turn fuel bin A (Hello.exts_wire ps ++ T) p st Hp Hbin
               Hcp ltac:(lia) Hdone).
    match goal with
    | |- context [Svcb.params fuel bin ?s] => set (st1 := s)
    end.
    destruct (IH fuel bin (A ++ I2OSP2 p.1 ++ I2OSP2 (len p.2) ++ p.2) T st1)
      as (st' & Heq & Hcp' & Hrem' & Hek & Hev & Hd & Hnd & Hf').
    + exact Hps.
    + rewrite Hbin, <- !app_assoc. reflexivity.
    + unfold st1. cbn [Svcb.cp]. rewrite !len_app, !len_I2OSP2. lia.
    + unfold st1. cbn [Svcb.remaining]. lia.
    + reflexivity.
    + unfold Svcb.alpn_fine, st1. cbn [Svcb.alpn_val Svcb.alpn_len].
      destruct (Z.eqb_spec p.1 Svcb.ECH_PCODE_ALPN) as [Ha|_]; [|exact Hfine].
      destruct Hp as (_ & _ & _ & Hids). destruct (Hids Ha) as (ids & Hv & Hi).
      exists (A ++ I2OSP2 p.1 ++ I2OSP2 (len p.2)), ids,
             (Hello.exts_wire ps ++ T).
      repeat split.
      * rewrite Hbin, Hv, <- !app_assoc. reflexivity.
      * rewrite !len_app, !len_I2OSP2. lia.
      * rewrite Hv. reflexivity.
      * exact Hi.
    + simpl in Hfuel. lia.
    + exists st'. cbn [length Nat.sub]. unfold st1 in *.
      cbn [Svcb.remaining Svcb.eklen Svcb.ekval Svcb.no_def_alpn] in *.
      rewrite exts_wire_cons, len_app, Hpl.
      rewrite !len_app, !len_I2OSP2 in Hcp'.
      repeat split; try assumption; try lia.
      rewrite Hnd. cbn [map]. unfold Ech.mem. cbn [existsb].
      rewrite (Z.eqb_sym Svcb.ECH_PCODE_NO_DEF_ALPN p.1).
      destruct (p.1 =? Svcb.ECH_PCODE_NO_DEF_ALPN); cbn [orb];
        [destruct (existsb _ _)|]; reflexivity.
Qed.

(** The turn of the loop that finds the ECHConfigs. *)
Lemma params_ech (fuel : nat) (bin A S T : bytes) (st : Svcb.walk) :
  bin = A ++ Wire.ext_wire Svcb.ECH_PCODE_ECH S ++ T ->
  Svcb.cp st = len A ->
  4 + len S <= Svcb.remaining st < 2 ^ 64 ->
  Svcb.done st = false ->
  0 <= Svcb.ECH_PCODE_ECH < 2 ^ 15 -> 0 < len S < 2 ^ 15 ->
  Svcb.ECH_PCODE_ECH <> Svcb.ECH_PCODE_ALPN ->
  Svcb.ECH_PCODE_ECH <> Svcb.ECH_PCODE_NO_DEF_ALPN ->
  (0 < fuel)%nat ->
  Svcb.params fuel bin st =
  Some (Ok {| Svcb.cp := len A + 4 + len S;
              Svcb.remaining := Svcb.remaining st - 4 - len S;
              Svcb.eklen := len S; Svcb.ekval := Some (len A + 4);
              Svcb.alpn_len := Svcb.alpn_len st;
              Svcb.alpn_val := Svcb.alpn_val st;
              Svcb.no_def_alpn := Svcb.no_def_alpn st;
              Svcb.done := true |}).
Proof.
  intros Hbin Hcp Hrem Hdone Hc Hl Hna Hnn Hfuel.
  destruct fuel as [|fuel]; [lia|].
  unfold Wire.ext_wire in Hbin. rewrite !be2_I2OSP2, <- !app_assoc in Hbin.
  pose proof (len_nonneg T) as HT0. pose proof (len_nonneg A) as HA0.
  assert (Hlen : len bin = len A + 4 + len S + len T).
  { rewrite Hbin, !len_app, !len_I2OSP2. lia. }
  cbn [Svcb.params]. rewrite Hdone, Hcp. cbn [negb andb].
  destruct (Z.geb_spec (Svcb.remaining st) 4); [|lia].
  rewrite (at2_at bin A (I2OSP2 (len S) ++ S ++ T) Svcb.ECH_PCODE_ECH (len A));
    [|exact Hbin|reflexivity|unfold Wire.u16; lia].
  rewrite (at2_at bin (A ++ I2OSP2 Svcb.ECH_PCODE_ECH) (S ++ T) (len S)
             (len A + 2));
    [|rewrite Hbin, <- !app_assoc; reflexivity
     |rewrite len_app, len_I2OSP2; reflexivity|unfold Wire.u16; lia].
  unfold fbind. cbv zeta.
  rewrite !to_short_small by lia.
  rewrite Z.eqb_refl.
  destruct (Z.eqb_spec Svcb.ECH_PCODE_ECH Svcb.ECH_PCODE_ALPN);
    [contradiction|].
  destruct (Z.eqb_spec Svcb.ECH_PCODE_ECH Svcb.ECH_PCODE_NO_DEF_ALPN);
    [contradiction|].
  rewrite (wrap64_small (len S)) by lia.
  destruct (Z.leb_spec (len S) (Svcb.remaining st - 4)); [|lia].
  destruct (Z.eqb_spec (len S) 0); [lia|]. cbn [negb andb].
  destruct (Z.gtb_spec (len A + 4 + len S) (len bin)); [lia|].
  destruct (Z.ltb_spec (len A + 4 + len S) 0); [lia|].
  cbn [orb]. rewrite wrap64_small by lia.
  destruct fuel; reflexivity.
Qed.

Lemma alpn_wire_cons (i : bytes) (ids : list bytes) :
  Svcb.alpn_wire (i :: ids) = len i :: i ++ Svcb.alpn_wire ids.
Proof. reflexivity. Qed.

Lemma alpn_wire_cons_length (i : bytes) (ids : list bytes) :
  len (Svcb.alpn_wire (i :: ids)) = 1 + len i + len (Svcb.alpn_wire ids).
Proof.
  rewrite alpn_wire_cons.
  change (len (len i :: i ++ Svcb.alpn_wire ids))
    with (Z.of_nat (S (length (i ++ Svcb.alpn_wire ids)))).
  rewrite Nat2Z.inj_succ. fold (len (i ++ Svcb.alpn_wire ids)).
  rewrite len_app. lia.
Qed.

(** The loop over a list of identifiers. *)
Lemma alpn_walk_ids (ids : list bytes) :
  forall (fuel : nat) (A T : bytes) (last : Z),
  Forall Svcb.alpn_id ids ->
  last = len A + len (Svcb.alpn_wire ids) ->
  (length ids <= fuel)%nat ->
  Svcb.alpn_walk fuel (A ++ Svcb.alpn_wire ids ++ T) (len A) last =
  Some (Ok tt).
Proof.
  induction ids as [|i ids IH]; intros fuel A T last Hok Hlast Hfuel.
  - change (len (Svcb.alpn_wire [])) with 0 in Hlast.
    destruct fuel; cbn [Svcb.alpn_walk];
      (destruct (Z.gtb_spec (last - len A) 0); [lia|reflexivity]).
  - destruct fuel as [|fuel]; [simpl in Hfuel; lia|].
    apply Forall_cons in Hok as [Hi Hids]. unfold Svcb.alpn_id in Hi.
    pose proof (len_nonneg (Svcb.alpn_wire ids)) as Hw0.
    pose proof (len_nonneg T) as HT0.
    pose proof (alpn_wire_cons_length i ids) as Hl.
    rewrite Hl in Hlast. subst last.
    rewrite alpn_wire_cons. cbn [Svcb.alpn_walk].
    destruct (Z.gtb_spec (len A + (1 + len i + len (Svcb.alpn_wire ids))
                          - len A) 0); [|lia].
    rewrite (at1_at _ A ((i ++ Svcb.alpn_wire ids) ++ T) (len i) (len A));
      [|reflexivity|reflexivity].
    unfold fbind.
    destruct (Z.gtb_spec (len i) 0); [|lia].
    destruct (Z.ltb_spec (len i) 255); [|lia]. cbn [andb].
    assert (Hbl : len (A ++ (len i :: i ++ Svcb.alpn_wire ids) ++ T) =
                  len A + (1 + len i + len (Svcb.alpn_wire ids)) + len T).
    { rewrite !len_app, <- alpn_wire_cons, Hl. lia. }
    rewrite Hbl.
    destruct (Z.gtb_spec (len A + 1 + len i)
                (len A + (1 + len i + len (Svcb.alpn_wire ids)) + len T));
      [lia|].
    assert (HA : len (A ++ len i :: i) = len A + 1 + len i).
    { rewrite len_app. unfold len at 2. cbn [length].
      rewrite Nat2Z.inj_succ. fold (len i). lia. }
    rewrite <- HA.
    replace (A ++ (len i :: i ++ Svcb.alpn_wire ids) ++ T)
      with ((A ++ len i :: i) ++ Svcb.alpn_wire ids ++ T)
      by (rewrite <- !app_assoc; cbn [app]; rewrite <- !app_assoc;
          reflexivity).
    apply IH; [exact Hids|lia|simpl in Hfuel; lia].
Qed.

Lemma alpn_wire_count (ids : list bytes) :
  (length ids <= length (Svcb.alpn_wire ids))%nat.
Proof.
  induction ids as [|i ids IH]; [simpl; lia|].
  unfold Svcb.alpn_wire in *. cbn [map concat length].
  rewrite length_app. cbn [length]. lia.
Qed.

(** What is done with the ALPN value that the walk holds. *)
Lemma alpn_fine_walk (bin : bytes) (st : Svcb.walk) :
  Svcb.alpn_fine bin st ->
  match Svcb.alpn_val st with
  | Some av =>
      if Svcb.alpn_len st >? 0 then
        if av + Svcb.alpn_len st >? len bin then Some Undef
        else Svcb.alpn_walk (length bin) bin av (av + Svcb.alpn_len st)
      else Some (Ok tt)
  | None => Some (Ok tt)
  end = Some (Ok tt).
Proof.
  unfold Svcb.alpn_fine. destruct (Svcb.alpn_val st) as [av|]; [|reflexivity].
  intros (A & ids & T & -> & -> & -> & Hids).
  destruct (len (Svcb.alpn_wire ids) >? 0); [|reflexivity].
  rewrite !len_app. pose proof (len_nonneg T).
  destruct (Z.gtb_spec (len A + len (Svcb.alpn_wire ids))
              (len A + (len (Svcb.alpn_wire ids) + len T))); [lia|].
  apply alpn_walk_ids; [exact Hids|reflexivity|].
  pose proof (alpn_wire_count ids). rewrite !length_app. lia.
Qed.

(** Binary ECHConfigs at the head of a longer buffer. *)
Lemma local_ech_add_bin_head (l : list Ech.ECHConfig) (after : bytes) :
  Forall Ingest.wf_config l ->
  34 <= len (Ingest.ser_configs l) < 512 ->
  len (Ingest.ser_configs l) < Ech.ECH_MAX_RRVALUE_LEN ->
  Ech.local_ech_add Ech.ECH_FMT_BIN (len (Ingest.ser_configs l))
    (Some (Ingest.ser_configs l ++ after)) true =
  Ok (Some (1, [Ech.new_SSL_ECH
                  {| Ech.encoded_len := len (Ingest.ser_configs l);
                     Ech.encoded := Ingest.ser_configs l;
                     Ech.recs := l |}])).
Proof.
  intros Hwf Hlen Hmax. unfold Ech.local_ech_add.
  destruct (Z.eqb_spec (len (Ingest.ser_configs l)) 0); [lia|].
  cbn [negb orb].
  destruct (Z.geb_spec (len (Ingest.ser_configs l)) Ech.ECH_MAX_RRVALUE_LEN);
    [lia|].
  cbn [rbind fst snd].
  assert (Htake : take (Z.to_nat (len (Ingest.ser_configs l)))
                    (Ingest.ser_configs l ++ after) = Ingest.ser_configs l).
  { unfold len. rewrite Nat2Z.id. apply take_app_length. }
  rewrite Htake.
  rewrite ECHConfigs_from_binary_serialized_eq by (try assumption; lia).
  reflexivity.
Qed.

(** RData in ascii-hex is decoded, whatever format but binary the
    caller names. *)
Lemma svcb_hex (hex : Z -> Z) (fmt : Ech.ech_fmt) (c : Ech.SSL)
    (bin : bytes) (n : option Z) :
  (forall n, 0 <= n < 16 -> Hpke.HPKE_A2B (hex n) = n) ->
  (forall n, 0 <= n < 16 -> Ech.mem (hex n) Ech.AH_alphabet = true) ->
  fmt <> Ech.ECH_FMT_BIN -> bin <> [] -> Forall is_octet bin ->
  Svcb.SSL_svcb_add (Some c) fmt (len (ah_encode hex bin))
    (Some (ah_encode hex bin)) n = Svcb.svcb_rdata c bin n.
Proof.
  intros Ha2b Hhex Hfmt Hne Hoct. unfold Svcb.SSL_svcb_add.
  assert (Hne' : ah_encode hex bin <> []).
  { intros Hnil. pose proof (ah_encode_length hex bin) as Hl.
    rewrite Hnil in Hl. destruct bin; [contradiction|].
    unfold len in Hl. simpl in Hl. lia. }
  pose proof (ech_guess_fmt_hex _ Hne' (ah_encode_hex hex _ Hhex Hoct)) as Hg.
  pose proof (hpke_ah_decode_encoded_eq hex bin Ha2b Hoct Hne) as Hd.
  destruct fmt; try contradiction; rewrite ?Hg; unfold fbind at 1;
    unfold fbind at 1; rewrite Hd; reflexivity.
Qed.

(** The walk over the name and over the parameters in front of the
    one with the ECHConfigs, or over all of them when there is none. *)
Lemma svcb_front (prio T : bytes) (labels : list bytes)
    (ps : list (Z * bytes)) (fuel : nat) :
  len prio = 2 -> Forall Svcb.label labels ->
  len (Svcb.dotted labels) <= Svcb.ECH_MAX_DNSNAME ->
  Forall Svcb.param_ok ps ->
  let bin := Svcb.rdata prio labels (Hello.exts_wire ps ++ T) in
  len bin < 2 ^ 16 ->
  (length ps <= fuel)%nat ->
  exists nm st,
    Svcb.local_decode_rdata_name bin 2 (len bin - 2) = Some (Ok nm) /\
    Svcb.params fuel bin
      {| Svcb.cp := nm.1.1; Svcb.remaining := nm.1.2;
         Svcb.eklen := 0; Svcb.ekval := None;
         Svcb.alpn_len := 0; Svcb.alpn_val := None;
         Svcb.no_def_alpn := 0; Svcb.done := false |} =
    Svcb.params (fuel - length ps) bin st /\
    Svcb.cp st = len bin - len T /\
    Svcb.remaining st = len T + 1 /\
    Svcb.eklen st = 0 /\ Svcb.ekval st = None /\ Svcb.done st = false /\
    Svcb.no_def_alpn st =
      (if Ech.mem Svcb.ECH_PCODE_NO_DEF_ALPN (map fst ps) then 1 else 0) /\
    Svcb.alpn_fine bin st.
Proof.
  intros Hprio Hls Hmax Hps bin Hlen Hfuel.
  subst bin. unfold Svcb.rdata in *.
  set (nw := Svcb.name_wire labels) in *.
  set (bin := prio ++ nw ++ Hello.exts_wire ps ++ T) in *.
  pose proof (len_nonneg T) as HT0.
  pose proof (len_nonneg (Hello.exts_wire ps)) as Hp0.
  pose proof (name_wire_length labels) as Hnw. fold nw in Hnw.
  pose proof (len_nonneg (concat (map (fun l => l ++ [46]) labels))) as Hc0.
  assert (Hbl : len bin = 2 + len nw + len (Hello.exts_wire ps) + len T).
  { unfold bin. rewrite !len_app. lia. }
  pose proof (local_decode_rdata_name_eq labels prio
                (Hello.exts_wire ps ++ T) (len bin - 2) Hls
                ltac:(fold nw; lia) Hmax) as Hname.
  rewrite Hprio in Hname. fold nw in Hname. fold bin in Hname.
  destruct (params_others ps fuel bin (prio ++ nw) T
              {| Svcb.cp := 2 + len nw;
                 Svcb.remaining := len bin - 2 - len nw + 1;
                 Svcb.eklen := 0; Svcb.ekval := None;
                 Svcb.alpn_len := 0; Svcb.alpn_val := None;
                 Svcb.no_def_alpn := 0; Svcb.done := false |})
    as (st & Heq & Hcp & Hrem & Hek & Hev & Hd & Hnd & Hf).
  - exact Hps.
  - unfold bin. rewrite <- !app_assoc. reflexivity.
  - cbn [Svcb.cp]. rewrite len_app. lia.
  - cbn [Svcb.remaining]. lia.
  - reflexivity.
  - exact I.
  - exact Hfuel.
  - exists (2 + len nw, len bin - 2 - len nw + 1, Some (Svcb.dotted labels)),
           st.
    cbn [Svcb.cp Svcb.remaining Svcb.eklen Svcb.ekval Svcb.no_def_alpn
         fst snd] in *.
    rewrite len_app in Hcp.
    repeat split; try assumption; lia.
Qed.

(** X28: RData in ascii-hex with a name, parameters that fit their
    fields, and among them the one with ECHConfigs as
    [ECHConfigs_from_binary] reads them: [SSL_svcb_add] answers 1, sets
    [*num_echs] to 1 and leaves the connection with one SSL_ECH that
    holds the records.  Its [dns_no_def_alpn] is 1 when a parameter in
    front has the key no-default-alpn; the ALPN identifiers are read
    and dropped, and what follows the ECHConfigs is not looked at. *)
Theorem SSL_svcb_add_stores (hex : Z -> Z) (fmt : Ech.ech_fmt) (c : Ech.SSL)
    (n : Z) (prio after : bytes) (labels : list bytes)
    (ps : list (Z * bytes)) (l : list Ech.ECHConfig) :
  (forall n, 0 <= n < 16 -> Hpke.HPKE_A2B (hex n) = n) ->
  (forall n, 0 <= n < 16 -> Ech.mem (hex n) Ech.AH_alphabet = true) ->
  fmt <> Ech.ECH_FMT_BIN ->
  len prio = 2 -> Forall Svcb.label labels ->
  len (Svcb.dotted labels) <= Svcb.ECH_MAX_DNSNAME ->
  Forall Svcb.param_ok ps ->
  0 <= Svcb.ECH_PCODE_ECH < 2 ^ 15 ->
  Svcb.ECH_PCODE_ECH <> Svcb.ECH_PCODE_ALPN ->
  Svcb.ECH_PCODE_ECH <> Svcb.ECH_PCODE_NO_DEF_ALPN ->
  Forall Ingest.wf_config l ->
  34 <= len (Ingest.ser_configs l) < 512 ->
  len (Ingest.ser_configs l) < Ech.ECH_MAX_RRVALUE_LEN ->
  let bin := Svcb.rdata prio labels
               (Hello.exts_wire ps ++
                Wire.ext_wire Svcb.ECH_PCODE_ECH (Ingest.ser_configs l) ++
                after) in
  Forall is_octet bin -> len bin < 2 ^ 16 ->
  Svcb.SSL_svcb_add (Some c) fmt (len (ah_encode hex bin))
    (Some (ah_encode hex bin)) (Some n) =
  Some (Ok (Ech.set_ech
              (Some [Svcb.set_dns_no_def_alpn
                       (if Ech.mem Svcb.ECH_PCODE_NO_DEF_ALPN (map fst ps)
                        then 1 else 0)
                       (Ech.new_SSL_ECH
                          {| Ech.encoded_len := len (Ingest.ser_configs l);
                             Ech.encoded := Ingest.ser_configs l;
                             Ech.recs := l |})])
              1 c, 1)).
Proof.
  intros Ha2b Hhex Hfmt Hprio Hls Hmax Hps Hc Hna Hnn Hwf Hsl Hsm bin Hoct
    Hlen.
  set (S := Ingest.ser_configs l) in *.
  set (T := Wire.ext_wire Svcb.ECH_PCODE_ECH S ++ after) in *.
  pose proof (len_nonneg after) as Ha0.
  pose proof (len_nonneg (Hello.exts_wire ps)) as Hp0.
  pose proof (len_nonneg (Svcb.name_wire labels)) as Hn0.
  assert (HT : len T = len S + 4 + len after).
  { unfold T. rewrite len_app.
    pose proof (ext_wire_length (Svcb.ECH_PCODE_ECH, S)) as He.
    cbn [fst snd] in He. rewrite He. lia. }
  assert (Hbl : len bin = 2 + len (Svcb.name_wire labels) +
                          len (Hello.exts_wire ps) + len T).
  { unfold bin, Svcb.rdata. rewrite !len_app. lia. }
  assert (Hne : bin <> []).
  { intros Hnil. rewrite Hnil in Hbl. change (len (@nil Z)) with 0 in Hbl.
    lia. }
  rewrite (svcb_hex hex fmt c bin (Some n) Ha2b Hhex Hfmt Hne Hoct).
  unfold Svcb.svcb_rdata.
  destruct (Z.leb_spec (len bin) 2); [lia|].
  pose proof (exts_wire_count ps) as Hcount.
  assert (Hfuel : (length ps < length bin)%nat).
  { unfold len in *. lia. }
  destruct (svcb_front prio T labels ps (length bin) Hprio Hls Hmax Hps Hlen
              ltac:(lia))
    as (nm & st & Hnm & Heq & Hcp & Hrem & Hek & Hev & Hd & Hnd & Hf).
  fold bin in Hnm, Heq, Hcp, Hf.
  rewrite Hnm. unfold fbind at 1. rewrite Heq.
  set (A := prio ++ Svcb.name_wire labels ++ Hello.exts_wire ps).
  assert (HA : len A = len bin - len T).
  { unfold A. rewrite !len_app. lia. }
  assert (Hbin : bin = A ++ Wire.ext_wire Svcb.ECH_PCODE_ECH S ++ after).
  { unfold bin, Svcb.rdata, A, T. rewrite <- !app_assoc. reflexivity. }
  rewrite (params_ech (length bin - length ps) bin A S after st Hbin);
    try assumption; try lia.
  unfold fbind at 1.
  cbn [Svcb.alpn_val Svcb.alpn_len Svcb.done Svcb.ekval Svcb.eklen
       Svcb.no_def_alpn negb notnull].
  rewrite (alpn_fine_walk bin st Hf). unfold fbind.
  destruct (Z.gtb_spec (len S) (len bin - (len A + 4))); [lia|].
  cbn [andb].
  assert (Hdrop : drop (Z.to_nat (len A + 4)) bin = S ++ after).
  { rewrite Hbin. unfold Wire.ext_wire. rewrite !be2_I2OSP2.
    replace (A ++ (I2OSP2 Svcb.ECH_PCODE_ECH ++ I2OSP2 (len S) ++ S) ++ after)
      with ((A ++ I2OSP2 Svcb.ECH_PCODE_ECH ++ I2OSP2 (len S)) ++ S ++ after)
      by (rewrite <- !app_assoc; reflexivity).
    apply drop_app_length'.
    replace (len A + 4)
      with (len (A ++ I2OSP2 Svcb.ECH_PCODE_ECH ++ I2OSP2 (len S)))
      by (rewrite !len_app, !len_I2OSP2; lia).
    unfold len. rewrite Nat2Z.id. reflexivity. }
  rewrite Hdrop.
  pose proof (local_ech_add_bin_head l after Hwf Hsl Hsm) as Hadd.
  fold S in Hadd. rewrite Hadd.
  cbn [map]. rewrite Hnd. reflexivity.
Qed.

(** RData in ascii-hex with a name and parameters that fit their
    fields, none of them with ECHConfigs: [SSL_svcb_add] answers 1,
    sets [*num_echs] to 0 and leaves the connection as it was. *)
Lemma SSL_svcb_add_without_ech (hex : Z -> Z) (fmt : Ech.ech_fmt)
    (c : Ech.SSL) (n : Z) (prio : bytes) (labels : list bytes)
    (ps : list (Z * bytes)) :
  (forall n, 0 <= n < 16 -> Hpke.HPKE_A2B (hex n) = n) ->
  (forall n, 0 <= n < 16 -> Ech.mem (hex n) Ech.AH_alphabet = true) ->
  fmt <> Ech.ECH_FMT_BIN ->
  len prio = 2 -> Forall Svcb.label labels ->
  len (Svcb.dotted labels) <= Svcb.ECH_MAX_DNSNAME ->
  Forall Svcb.param_ok ps ->
  let bin := Svcb.rdata prio labels (Hello.exts_wire ps) in
  Forall is_octet bin -> len bin < 2 ^ 16 ->
  Svcb.SSL_svcb_add (Some c) fmt (len (ah_encode hex bin))
    (Some (ah_encode hex bin)) (Some n) = Some (Ok (c, 0)).
Proof.
  intros Ha2b Hhex Hfmt Hprio Hls Hmax Hps bin Hoct Hlen.
  pose proof (len_nonneg (Hello.exts_wire ps)) as Hp0.
  pose proof (len_nonneg (Svcb.name_wire labels)) as Hn0.
  pose proof (name_wire_length labels) as Hnw.
  pose proof (len_nonneg (concat (map (fun l => l ++ [46]) labels))) as Hc0.
  assert (Hbl : len bin = 2 + len (Svcb.name_wire labels) +
                          len (Hello.exts_wire ps)).
  { unfold bin, Svcb.rdata. rewrite !len_app. lia. }
  assert (Hne : bin <> []).
  { intros Hnil. rewrite Hnil in Hbl. change (len (@nil Z)) with 0 in Hbl.
    lia. }
  rewrite (svcb_hex hex fmt c bin (Some n) Ha2b Hhex Hfmt Hne Hoct).
  unfold Svcb.svcb_rdata.
  destruct (Z.leb_spec (len bin) 2); [lia|].
  pose proof (exts_wire_count ps) as Hcount.
  assert (Hfuel : (length ps < length bin)%nat).
  { unfold len in *. lia. }
  assert (Hb2 : bin = Svcb.rdata prio labels (Hello.exts_wire ps ++ []))
    by (rewrite app_nil_r; reflexivity).
  rewrite Hb2 in Hlen.
  destruct (svcb_front prio [] labels ps (length bin) Hprio Hls Hmax Hps Hlen
              ltac:(lia))
    as (nm & st & Hnm & Heq & Hcp & Hrem & Hek & Hev & Hd & Hnd & Hf).
  rewrite <- Hb2 in Hnm, Heq, Hcp, Hf.
  rewrite Hnm. unfold fbind at 1. rewrite Heq.
  change (len (@nil Z)) with 0 in Hrem.
  assert (Hend : Svcb.params (length bin - length ps) bin st = Some (Ok st)).
  { destruct (length bin - length ps)%nat; cbn [Svcb.params];
      rewrite Hrem; rewrite ?andb_false_r; reflexivity. }
  rewrite Hend. unfold fbind at 1.
  rewrite (alpn_fine_walk bin st Hf). unfold fbind.
  rewrite Hd. reflexivity.
Qed.

Lemma at1_end (buf : bytes) : Dec.at1 buf (len buf) = Undef.
Proof.
  unfold Dec.at1. destruct (Z.ltb_spec (len buf) (len buf)); [lia|].
  rewrite andb_false_r. reflexivity.
Qed.

(** X30: [remaining] being one too high behind the name, three octets
    behind the last parameter send the loop of [SSL_svcb_add] round once
    more, and the second of its reads of two octets takes one octet from
    behind the RData. *)
Theorem SSL_svcb_add_reads_behind (hex : Z -> Z) (fmt : Ech.ech_fmt)
    (c : Ech.SSL) (n : Z) (prio : bytes) (labels : list bytes)
    (ps : list (Z * bytes)) (x y z : Z) :
  (forall n, 0 <= n < 16 -> Hpke.HPKE_A2B (hex n) = n) ->
  (forall n, 0 <= n < 16 -> Ech.mem (hex n) Ech.AH_alphabet = true) ->
  fmt <> Ech.ECH_FMT_BIN ->
  len prio = 2 -> Forall Svcb.label labels ->
  len (Svcb.dotted labels) <= Svcb.ECH_MAX_DNSNAME ->
  Forall Svcb.param_ok ps ->
  let bin := Svcb.rdata prio labels (Hello.exts_wire ps ++ [x; y; z]) in
  Forall is_octet bin -> len bin < 2 ^ 16 ->
  Svcb.SSL_svcb_add (Some c) fmt (len (ah_encode hex bin))
    (Some (ah_encode hex bin)) (Some n) = Some Undef.
Proof.
  intros Ha2b Hhex Hfmt Hprio Hls Hmax Hps bin Hoct Hlen.
  pose proof (len_nonneg (Hello.exts_wire ps)) as Hp0.
  pose proof (len_nonneg (Svcb.name_wire labels)) as Hn0.
  assert (Hbl : len bin = 2 + len (Svcb.name_wire labels) +
                          len (Hello.exts_wire ps) + 3).
  { unfold bin, Svcb.rdata. rewrite !len_app.
    change (len [x; y; z]) with 3. lia. }
  assert (Hne : bin <> []).
  { intros Hnil. rewrite Hnil in Hbl. change (len (@nil Z)) with 0 in Hbl.
    lia. }
  rewrite (svcb_hex hex fmt c bin (Some n) Ha2b Hhex Hfmt Hne Hoct).
  unfold Svcb.svcb_rdata.
  destruct (Z.leb_spec (len bin) 2); [lia|].
  pose proof (exts_wire_count ps) as Hcount.
  assert (Hfuel : (length ps < length bin)%nat).
  { unfold len in *. lia. }
  destruct (svcb_front prio [x; y; z] labels ps (length bin) Hprio Hls Hmax
              Hps Hlen ltac:(lia))
    as (nm & st & Hnm & Heq & Hcp & Hrem & Hek & Hev & Hd & Hnd & Hf).
  fold bin in Hnm, Heq, Hcp, Hf.
  rewrite Hnm. unfold fbind at 1. rewrite Heq.
  change (len [x; y; z]) with 3 in Hrem, Hcp.
  set (A := prio ++ Svcb.name_wire labels ++ Hello.exts_wire ps).
  assert (HA : len A = len bin - 3).
  { unfold A. rewrite !len_app. lia. }
  assert (Hbin : bin = A ++ [x; y; z]).
  { unfold bin, Svcb.rdata, A. rewrite <- !app_assoc. reflexivity. }
  assert (Hturn : Svcb.params (length bin - length ps) bin st = Some Undef).
  { destruct (length bin - length ps)%nat as [|f] eqn:Hf0; [lia|].
    cbn [Svcb.params]. rewrite Hd, Hrem, Hcp. cbn [negb andb Z.geb Z.compare].
    unfold Dec.at2.
    rewrite (at1_at bin A [y; z] x (len bin - 3)) by (assumption || lia).
    rewrite (at1_at bin (A ++ [x]) [z] y (len bin - 3 + 1));
      [|rewrite Hbin, <- app_assoc; reflexivity
       |rewrite len_app; change (len [x]) with 1; lia].
    rewrite (at1_at bin (A ++ [x; y]) [] z (len bin - 3 + 2));
      [|rewrite Hbin, <- app_assoc; reflexivity
       |rewrite len_app; change (len [x; y]) with 2; lia].
    replace (len bin - 3 + 2 + 1) with (len bin) by lia.
    rewrite at1_end. reflexivity. }
  rewrite Hturn. reflexivity.
Qed.

(** X29: [SSL_svcb_add] takes RData in ascii-hex only.  With the format
    ECH_FMT_BIN, and with any input that [ech_guess_fmt] does not take
    for ascii-hex, nothing is decoded and [binlen] stays 0: an answer 1
    means that the RData was read as ascii-hex and had more than two
    octets. *)
Theorem SSL_svcb_add_needs_hex (c : Ech.SSL) (rrfmt : Ech.ech_fmt)
    (rrlen : Z) (rrval : option bytes) (num_echs : option Z)
    (r : Ech.SSL * Z) :
  Svcb.SSL_svcb_add (Some c) rrfmt rrlen rrval num_echs = Some (Ok r) ->
  rrfmt <> Ech.ECH_FMT_BIN /\
  (rrfmt = Ech.ECH_FMT_ASCIIHEX \/
   Ech.ech_guess_fmt rrlen rrval = Some Ech.ECH_FMT_ASCIIHEX) /\
  exists bin,
    Hpke.hpke_ah_decode rrlen rrval true true = Ok bin /\ 2 < len bin.
Proof.
  unfold Svcb.SSL_svcb_add. intros Hr.
  assert (Hnil : Svcb.svcb_rdata c [] num_echs = Some (Err 0)) by reflexivity.
  assert (Hbin : forall b, Svcb.svcb_rdata c b num_echs = Some (Ok r) ->
                           2 < len b).
  { intros b Hb. unfold Svcb.svcb_rdata in Hb.
    destruct (Z.leb_spec (len b) 2); [discriminate Hb|lia]. }
  assert (Hhex : (run bin <- Some (at_line 0 (Hpke.hpke_ah_decode rrlen rrval
                                               true true)) ;;
                  Svcb.svcb_rdata c bin num_echs) = Some (Ok r) ->
                 exists bin, Hpke.hpke_ah_decode rrlen rrval true true = Ok bin
                             /\ 2 < len bin).
  { destruct (Hpke.hpke_ah_decode rrlen rrval true true) as [b| |];
      cbn [at_line fbind]; intros Hb; try discriminate Hb.
    exists b. split; [reflexivity|exact (Hbin b Hb)]. }
  destruct rrfmt; cbn [fbind] in Hr;
    try (rewrite Hnil in Hr; discriminate Hr);
    try (split; [discriminate|]; split; [left; reflexivity|exact (Hhex Hr)]);
    (destruct (Ech.ech_guess_fmt rrlen rrval) as [f|] eqn:Hg;
       [|discriminate Hr]; destruct f; cbn [fbind] in Hr;
     try (rewrite Hnil in Hr; discriminate Hr);
     split; [discriminate|]; split; [right; reflexivity|exact (Hhex Hr)]).
Qed.


End Rdata.

(** ** The hypotheses can be met *)

(** The toy libcrypto in mode Auth, with the sender's key 03 00 ... 00. *)
Lemma hpke_round_trip_witness :
  @Hpke.hpke_dec Sample.hpke_h Sample.libcrypto Hpke.HPKE_MODE_AUTH
    Vectors.suite None 0 None
    (len (default [] (@sender_pub Sample.libcrypto (Some Vectors.skI))))
    (@sender_pub Sample.libcrypto (Some Vectors.skI)) 0 None
    (Some Vectors.skR) (len Vectors.pkR) (Some Vectors.pkR)
    (len Vectors.ct_auth) (Some Vectors.ct_auth)
    3 (Some [7; 8; 9]) 4 (Some [1; 1; 1; 1]) (Some 64) =
  Ok (Hpke.rd 2 (Some [1; 2])).
Proof.
  apply (@hpke_round_trip Sample.hpke_h Sample.libcrypto 5
           Hpke.HPKE_MODE_AUTH Vectors.suite None 0 None 1 (Some [35])
           32 (Some (3 :: repeat 0 31)) 2 (Some [1; 2]) 3 (Some [7; 8; 9])
           4 (Some [1; 1; 1; 1]) (Some 64) (Some 64) Vectors.skR
           (Some Vectors.skI) Vectors.pkR Vectors.ct_auth 64).
  - simpl. lia.
  - reflexivity.
  - vm_compute. reflexivity.
  - exists Vectors.skI. split; reflexivity.
  - intros pkR pkE HpkR HpkE.
    injection HpkR as <-. injection HpkE as <-.
    exists (Sample.of_public [35]). split; reflexivity.
  - intros pkR k HpkR Hk.
    injection HpkR as <-. injection Hk as <-.
    exists (Sample.of_public [21]). split; reflexivity.
  - intros c key iv r Hr. injection Hr as <-.
    split; [reflexivity|]. split; [change (16 <= 16); lia|].
    cbn [Hpke.EVP_Decrypt Sample.libcrypto]. unfold Sample.open.
    rewrite bool_decide_eq_true_2 by reflexivity.
    cbv -[Z.add Z.sub Z.modulo Sample.sum].
    rewrite !Zminus_mod_idemp_l.
    replace (1 + Sample.sum key - Sample.sum key) with 1 by lia.
    replace (2 + Sample.sum key - Sample.sum key) with 2 by lia.
    reflexivity.
  - vm_compute. discriminate.
  - vm_compute. reflexivity.
Defined.

Lemma hpke_enc_output_fits_witness :
  exists senderpubcap ciphercap,
    Some 64 = Some senderpubcap /\ Some 64 = Some ciphercap /\
    0 < len Vectors.pkR <= senderpubcap /\
    len Vectors.ct_base <= ciphercap /\
    len Vectors.ct_base <= @Hpke.HPKE_MAXSIZE Sample.hpke_h /\
    16 + len (Hpke.rd 2 (Some [1; 2])) <= @Hpke.HPKE_MAXSIZE Sample.hpke_h /\
    Hpke.hpke_mode_check Hpke.HPKE_MODE_BASE = 1 /\
    Hpke.hpke_suite_check Vectors.suite = 1 /\
    Hpke.hpke_psk_check Hpke.HPKE_MODE_BASE None 0 None = 1.
Proof.
  apply (@hpke_enc_output_fits Sample.hpke_h Sample.libcrypto 5
           Hpke.HPKE_MODE_BASE Vectors.suite None 0 None 1 (Some [35])
           0 None 2 (Some [1; 2]) 3 (Some [7; 8; 9])
           4 (Some [1; 1; 1; 1]) (Some 64) (Some 64)
           Vectors.pkR Vectors.ct_base).
  vm_compute. reflexivity.
Defined.

Lemma hpke_dec_output_fits_witness :
  exists clearcap,
    Some 64 = Some clearcap /\
    len [1; 2] <= clearcap /\ len [1; 2] <= @Hpke.HPKE_MAXSIZE Sample.hpke_h /\
    Some Vectors.ct_base <> None /\ 18 <> 0 /\
    (@None bytes <> None \/ Some Vectors.skR <> None) /\
    Hpke.hpke_mode_check Hpke.HPKE_MODE_BASE = 1 /\
    Hpke.hpke_suite_check Vectors.suite = 1 /\
    Hpke.hpke_psk_check Hpke.HPKE_MODE_BASE None 0 None = 1.
Proof.
  apply (@hpke_dec_output_fits Sample.hpke_h Sample.libcrypto
           Hpke.HPKE_MODE_BASE Vectors.suite None 0 None 0 None 0 None
           (Some Vectors.skR) 1 (Some Vectors.pkR) 18 (Some Vectors.ct_base)
           3 (Some [7; 8; 9]) 4 (Some [1; 1; 1; 1]) (Some 64) [1; 2]).
  vm_compute. reflexivity.
Defined.

(** Mode PSK without a pskid. *)
Lemma hpke_bad_psk_rejected_witness :
  @Hpke.hpke_enc Sample.hpke_h Sample.libcrypto 5 Hpke.HPKE_MODE_PSK
    Vectors.suite None 1 (Some [93]) 1 (Some [35]) 0 None 2 (Some [1; 2])
    3 (Some [7; 8; 9]) 4 (Some [1; 1; 1; 1]) (Some 64) (Some 64) =
    Err 1274 /\
  @Hpke.hpke_dec Sample.hpke_h Sample.libcrypto Hpke.HPKE_MODE_PSK
    Vectors.suite None 1 (Some [93]) 1 (Some [35]) 0 None
    (Some Vectors.skR) 1 (Some Vectors.pkR) 18 (Some Vectors.ct_base)
    3 (Some [7; 8; 9]) 4 (Some [1; 1; 1; 1]) (Some 64) = Err 1274.
Proof.
  apply (@hpke_bad_psk_rejected Sample.hpke_h Sample.libcrypto 5
           Hpke.HPKE_MODE_PSK Vectors.suite None 1 (Some [93]) 1 (Some [35])
           0 None 2 (Some [1; 2]) 3 (Some [7; 8; 9]) 4 (Some [1; 1; 1; 1])
           (Some 64) (Some 64) (Some Vectors.skR) 1 (Some Vectors.pkR) 18
           (Some Vectors.ct_base) (Some 64)).
  - left. reflexivity.
  - left. reflexivity.
Defined.

Lemma hpke_extract_labeled_witness :
  @Hpke.hpke_extract Sample.hpke_h Sample.libcrypto Vectors.suite
    Hpke.HPKE_5869_MODE_FULL [] [1] [2] 32 = Ok (repeat 8 32) <->
  @Hpke.HKDF_Extract Sample.libcrypto Hpke.EVP_sha256 []
    (labeled_ikm Hpke.HPKE_5869_MODE_FULL Vectors.suite [1] [2]) 32 =
    Some (repeat 8 32) /\ len (repeat 8 32) <= 32.
Proof.
  apply (@hpke_extract_labeled Sample.hpke_h Sample.libcrypto Vectors.suite
           Hpke.HPKE_5869_MODE_FULL [] [1] [2] 32 Hpke.EVP_sha256
           (repeat 8 32)).
  - right. right. reflexivity.
  - reflexivity.
  - intros _. vm_compute. reflexivity.
Defined.

Lemma hpke_expand_labeled_witness :
  @Hpke.hpke_expand Sample.hpke_h Sample.libcrypto Vectors.suite
    Hpke.HPKE_5869_MODE_FULL [5] [1] [2] 16 16 = Ok (repeat 29 16) <->
  @Hpke.HKDF_Expand Sample.libcrypto Hpke.EVP_sha256 [5]
    (labeled_info Hpke.HPKE_5869_MODE_FULL Vectors.suite [1] [2] 16) 16 =
    Some (repeat 29 16).
Proof.
  apply (@hpke_expand_labeled Sample.hpke_h Sample.libcrypto Vectors.suite
           Hpke.HPKE_5869_MODE_FULL [5] [1] [2] 16 16 Hpke.EVP_sha256
           (repeat 29 16)).
  - right. right. reflexivity.
  - reflexivity.
  - vm_compute. reflexivity.
Defined.

Lemma hpke_aead_seal_open_witness :
  len ([2; 3] ++ repeat 32 16) = len [1; 2] + 16 /\
  @Hpke.hpke_aead_dec Sample.libcrypto Vectors.suite [1] [2] 3
    (Some [7; 8; 9]) ([2; 3] ++ repeat 32 16) (len ([2; 3] ++ repeat 32 16))
    (@Hpke.HPKE_MAXSIZE Sample.hpke_h) = Ok [1; 2].
Proof.
  apply (@hpke_aead_seal_open Sample.hpke_h Sample.libcrypto Vectors.suite
           [1] [2] 3 (Some [7; 8; 9]) [1; 2] ([2; 3] ++ repeat 32 16)).
  - simpl. lia.
  - reflexivity.
  - intros c key iv r Hr. injection Hr as <-.
    split; [reflexivity|]. split; [change (16 <= 16); lia|].
    cbn [Hpke.EVP_Decrypt Sample.libcrypto]. unfold Sample.open.
    rewrite bool_decide_eq_true_2 by reflexivity.
    cbv -[Z.add Z.sub Z.modulo Sample.sum].
    rewrite !Zminus_mod_idemp_l.
    replace (1 + Sample.sum key - Sample.sum key) with 1 by lia.
    replace (2 + Sample.sum key - Sample.sum key) with 2 by lia.
    reflexivity.
  - vm_compute. reflexivity.
Defined.

(** The octets 00 ab ff in lower-case digits. *)
Lemma hpke_ah_decode_encoded_witness :
  @Hpke.hpke_ah_decode Sample.hpke_h (2 * len [0; 171; 255])
    (Some (ah_encode Vectors.hexdigit [0; 171; 255])) true true =
  Ok [0; 171; 255].
Proof.
  apply (@hpke_ah_decode_encoded Sample.hpke_h Vectors.hexdigit [0; 171; 255]).
  - intros n Hn.
    destruct n as [|p|p]; [reflexivity| |lia].
    do 4 (try destruct p as [p|p|]); try reflexivity; lia.
  - repeat constructor; unfold is_octet; lia.
  - discriminate.
Defined.

Lemma hpke_kg_output_fits_witness :
  exists pubcap privcap,
    Some 64 = Some pubcap /\ Some 64 = Some privcap /\
    true = true /\ true = true /\
    Hpke.hpke_suite_check Vectors.suite = 1 /\
    0 < len [63] <= pubcap /\
    0 < len [9; 0] <= privcap /\
    len [9; 0] <= @Hpke.HPKE_MAXSIZE Sample.hpke_h.
Proof.
  apply (@hpke_kg_output_fits Sample.hpke_h Vectors.libcrypto
           Vectors.libcrypto_kg 0 Hpke.HPKE_MODE_BASE Vectors.suite
           (Some 64) true (Some 64) true [63] [9; 0]).
  vm_compute. reflexivity.
Defined.

(** The generated key pair of the toy libcrypto, in mode Base. *)
Lemma hpke_kg_round_trip_witness :
  @Hpke.hpke_dec Sample.hpke_h Vectors.libcrypto Hpke.HPKE_MODE_BASE
    Vectors.suite None 0 None 0 None (len [9; 0]) (Some [9; 0]) None
    (len Vectors.pkR) (Some Vectors.pkR)
    (len Vectors.ct_base) (Some Vectors.ct_base)
    3 (Some [7; 8; 9]) 4 (Some [1; 1; 1; 1]) (Some 64) =
  Ok (Hpke.rd 2 (Some [1; 2])).
Proof.
  apply (@hpke_kg_round_trip Sample.hpke_h Vectors.libcrypto
           Vectors.libcrypto_kg 0 5 Hpke.HPKE_MODE_BASE Hpke.HPKE_MODE_BASE
           Vectors.suite (Some 64) (Some 64) [63] [9; 0] None 0 None
           2 (Some [1; 2]) 3 (Some [7; 8; 9]) 4 (Some [1; 1; 1; 1])
           (Some 64) (Some 64) Vectors.pkR Vectors.ct_base 64).
  - simpl. lia.
  - reflexivity.
  - intros [sk pk] pem Hw. cbn in Hw. unfold Vectors.pem_write in Hw.
    cbn [Sample.sk Sample.pk] in Hw.
    destruct sk as [a|]; [|discriminate].
    destruct (Z.eqb_spec pk (Sample.point a)) as [->|]; [|discriminate].
    injection Hw as <-. repeat split; try reflexivity; vm_compute; congruence.
  - intros pctx ent0 skR pkR pkE Hg HpkR HpkE.
    injection Hg as <-. injection HpkR as <-. injection HpkE as <-.
    exists (Sample.of_public [35]). split; reflexivity.
  - intros c key iv r Hr. injection Hr as <-.
    split; [reflexivity|]. split; [change (16 <= 16); lia|].
    cbn [Hpke.EVP_Decrypt Vectors.libcrypto]. unfold Sample.open.
    rewrite bool_decide_eq_true_2 by reflexivity.
    cbv -[Z.add Z.sub Z.modulo Sample.sum].
    rewrite !Zminus_mod_idemp_l.
    replace (1 + Sample.sum key - Sample.sum key) with 1 by lia.
    replace (2 + Sample.sum key - Sample.sum key) with 2 by lia.
    reflexivity.
  - vm_compute. discriminate.
  - vm_compute. reflexivity.
  - vm_compute. reflexivity.
Defined.

(** Two fragments, the second with one '=' of padding. *)
Lemma ech_base64_decode_fragments_witness :
  @Ech.ech_base64_decode Vectors.evp_encode
    (Ingest.join [[65; 66]; [67; 61]] ++ []) =
  (len (concat (map (@Ingest.frag_out Vectors.evp_encode)
                  [[65; 66]; [67; 61]])),
   Some (concat (map (@Ingest.frag_out Vectors.evp_encode)
                   [[65; 66]; [67; 61]]))).
Proof.
  apply (@ech_base64_decode_fragments Vectors.evp_encode
           [[65; 66]; [67; 61]] []).
  - discriminate.
  - repeat constructor; try discriminate; vm_compute; congruence.
  - left. reflexivity.
Defined.

(** "AAAA" is base64 and is taken for ascii-hex. *)
Lemma ech_guess_fmt_by_alphabet_witness :
  Ech.ech_guess_fmt (len [65; 65; 65; 65]) (Some [65; 65; 65; 65]) =
  Some (if notnull (Ech.strstr [65; 65; 65; 65] Ech.httpssvc_telltale)
        then Ech.ECH_FMT_HTTPSSVC
        else if forallb (fun c => Ech.mem c Ech.AH_alphabet) [65; 65; 65; 65]
             then Ech.ECH_FMT_ASCIIHEX
        else if forallb (fun c => Ech.mem c Ech.B64_alphabet) [65; 65; 65; 65]
             then Ech.ECH_FMT_B64TXT
        else Ech.ECH_FMT_BIN).
Proof.
  apply (ech_guess_fmt_by_alphabet [65; 65; 65; 65]).
  - discriminate.
  - repeat constructor; discriminate.
Defined.

Lemma ECHConfigs_from_binary_serialized_witness :
  exists er,
    @Ech.ECHConfigs_from_binary Sample.ech_h
      (Some (Ingest.ser_configs [Vectors.example_record]))
      (len (Ingest.ser_configs [Vectors.example_record])) true =
      Some (er, 0) /\
    Ech.recs er = [Vectors.example_record] /\
    Ech.encoded er = Ingest.ser_configs [Vectors.example_record] /\
    Ech.encoded_len er = len (Ingest.ser_configs [Vectors.example_record]).
Proof.
  apply (@ECHConfigs_from_binary_serialized Sample.ech_h
           [Vectors.example_record]).
  - vm_compute. reflexivity.
  - constructor; [|constructor].
    unfold Ingest.wf_config, Ingest.u16.
    repeat split; try (vm_compute; congruence); try discriminate;
      repeat constructor.
  - vm_compute. split; [discriminate|reflexivity].
Defined.

(** The example of [ech_readpemfile]. *)
Lemma ECHConfigs_from_binary_stored_witness :
  Forall Ingest.stored_ok (Ech.recs Vectors.example_configs) /\
  32 <= len Sample.pem_example < 512 /\
  Some Sample.pem_example = Some (Ech.encoded Vectors.example_configs) /\
  Ech.encoded_len Vectors.example_configs = len Sample.pem_example /\
  0 <= 0 <= len Sample.pem_example.
Proof.
  apply (@ECHConfigs_from_binary_stored Sample.ech_h
           (Some Sample.pem_example) (len Sample.pem_example) true
           Vectors.example_configs 0).
  vm_compute. reflexivity.
Defined.

Lemma ech_add_binary_stored_witness :
  let er := {| Ech.encoded_len := len (Ingest.ser_configs [Vectors.example_record]);
               Ech.encoded := Ingest.ser_configs [Vectors.example_record];
               Ech.recs := [Vectors.example_record] |} in
  @Ech.SSL_ech_add Sample.ech_h Sample.evp_encode Sample.hpke_h
    (Some Sample.s4_session) Ech.ECH_FMT_BIN
    (len (Ingest.ser_configs [Vectors.example_record]))
    (Some (Ingest.ser_configs [Vectors.example_record])) (Some 0) =
  Some (1, Some (Ech.set_ech (Some [Ech.new_SSL_ECH er]) 1 Sample.s4_session)) /\
  @Ech.SSL_CTX_ech_add Sample.ech_h Sample.evp_encode Sample.hpke_h
    (Some Vectors.ctx) Ech.ECH_FMT_BIN
    (len (Ingest.ser_configs [Vectors.example_record]))
    (Some (Ingest.ser_configs [Vectors.example_record])) (Some 0) =
  Some (1, Some {| Ech.ctx_ext_ech := Some [Ech.new_SSL_ECH er];
                   Ech.ctx_ext_nechs := 1;
                   Ech.ctx_other := Ech.ctx_other Vectors.ctx |}).
Proof.
  apply (@ech_add_binary_stored Sample.ech_h Sample.evp_encode Sample.hpke_h
           [Vectors.example_record] Sample.s4_session Vectors.ctx 0).
  - constructor; [|constructor].
    unfold Ingest.wf_config, Ingest.u16.
    repeat split; try (vm_compute; congruence); try discriminate;
      repeat constructor.
  - vm_compute. split; [discriminate|reflexivity].
  - vm_compute. reflexivity.
Defined.

(** The same list in lower-case hex digits, its format left to be
    guessed. *)
Lemma ech_add_asciihex_stored_witness :
  let er := {| Ech.encoded_len := len (Ingest.ser_configs [Vectors.example_record]);
               Ech.encoded := Ingest.ser_configs [Vectors.example_record];
               Ech.recs := [Vectors.example_record] |} in
  let ekval := ah_encode Vectors.hexdigit
                 (Ingest.ser_configs [Vectors.example_record]) in
  @Ech.SSL_ech_add Sample.ech_h Sample.evp_encode Sample.hpke_h
    (Some Sample.s4_session) Ech.ECH_FMT_GUESS (len ekval) (Some ekval)
    (Some 0) =
  Some (1, Some (Ech.set_ech (Some [Ech.new_SSL_ECH er]) 1 Sample.s4_session)) /\
  @Ech.SSL_CTX_ech_add Sample.ech_h Sample.evp_encode Sample.hpke_h
    (Some Vectors.ctx) Ech.ECH_FMT_GUESS (len ekval) (Some ekval) (Some 0) =
  Some (1, Some {| Ech.ctx_ext_ech := Some [Ech.new_SSL_ECH er];
                   Ech.ctx_ext_nechs := 1;
                   Ech.ctx_other := Ech.ctx_other Vectors.ctx |}).
Proof.
  apply (@ech_add_asciihex_stored Sample.ech_h Sample.evp_encode
           Sample.hpke_h Vectors.hexdigit [Vectors.example_record]
           Ech.ECH_FMT_GUESS Sample.s4_session Vectors.ctx 0).
  - intros n Hn.
    destruct n as [|p|p]; [reflexivity| |lia].
    do 4 (try destruct p as [p|p|]); try reflexivity; lia.
  - intros n Hn.
    destruct n as [|p|p]; [reflexivity| |lia].
    do 4 (try destruct p as [p|p|]); try reflexivity; lia.
  - right. reflexivity.
  - constructor; [|constructor].
    unfold Ingest.wf_config, Ingest.u16.
    repeat split; try (vm_compute; congruence); try discriminate;
      repeat constructor.
  - let l := eval vm_compute in (Ingest.ser_configs [Vectors.example_record]) in
    change (Forall is_octet l).
    repeat (constructor; [unfold is_octet; lia|]). constructor.
  - vm_compute. split; [discriminate|reflexivity].
  - vm_compute. reflexivity.
Defined.

(** The input "echconfig=". *)
Lemma ech_add_guess_empty_svc_witness :
  @Ech.SSL_ech_add Sample.ech_h Sample.evp_encode Sample.hpke_h
    (Some Sample.s4_session) Ech.ECH_FMT_GUESS 10
    (Some Ech.httpssvc_telltale) (Some 7) =
  Some (1, Some (Ech.set_ech None 7 Sample.s4_session)).
Proof.
  apply (@ech_add_guess_empty_svc Sample.ech_h Sample.evp_encode
           Sample.hpke_h Sample.s4_session 10 Ech.httpssvc_telltale
           Ech.httpssvc_telltale 7).
  - vm_compute. split; reflexivity.
  - reflexivity.
  - vm_compute. discriminate.
Defined.

Lemma new_transcript_keeps_three_octets_witness :
  Ech.new_transcript Vectors.outer_with_more =
  Some (default [] (Ech.ext_innerch Vectors.outer_with_more) ++
        drop (Z.to_nat (len [3; 3; 2; 0] - 3)) [3; 3; 2; 0] ++ [9; 9]).
Proof.
  apply (new_transcript_keeps_three_octets Vectors.outer_with_more 0 0 4
           [3; 3; 2; 0] [9; 9]).
  - reflexivity.
  - reflexivity.
  - vm_compute. discriminate.
Defined.

Lemma ech_swaperoo_failure_stays_swapped_witness :
  @Ech.ech_swaperoo Sample.libssl
    (two ∅ 0%nat 1%nat Vectors.outer_cut_short Sample.swap_inner)
    (Some 0%nat) =
  Some (0, two (two ∅ 0%nat 1%nat Vectors.outer_cut_short Sample.swap_inner)
             0%nat 1%nat
             (@Ech.SSLfatal Sample.libssl
                (Ech.set_rlayer_s (Some 0%nat)
                   (Ech.copy_transport Vectors.outer_cut_short
                      (Ech.set_ext_inner_s None
                         (Ech.set_ext_outer_s (Some 1%nat)
                            Sample.swap_inner)))))
             (Ech.set_ext_outer_s None
                (Ech.set_ext_inner_s (Some 0%nat) Vectors.outer_cut_short))).
Proof.
  apply (@ech_swaperoo_failure_stays_swapped Sample.libssl
           (two ∅ 0%nat 1%nat Vectors.outer_cut_short Sample.swap_inner)
           0%nat 1%nat Vectors.outer_cut_short Sample.swap_inner).
  - reflexivity.
  - reflexivity.
  - reflexivity.
  - reflexivity.
  - lia.
  - reflexivity.
Defined.

(** The server of the samples: the payload holds key_share and
    server_name, and the session id has 32 octets. *)
Lemma ech_decode_inner_plain_witness :
  exists si,
    @Dec.ech_decode_inner Sample.ech_h Vectors.ssl_local_h
      Vectors.server_store 1%nat = Some (Ok (<[1%nat := si]> Vectors.server_store)) /\
    Ech.ext_innerch si =
      Some (Hello.client_hello (take 38 Vectors.plain_encoded)
              (@Dec.tmp_session_id Vectors.ssl_local_h Vectors.server_outer)
              [19; 1] [1; 0]
              (Hello.exts_wire
                 [(51, [0; 3; 0; 29; 0]); (0, [0; 5; 0; 0; 2; 97; 98])])) /\
    take 4 (default [] (Ech.ext_innerch si)) =
      take 4 (take 38 Vectors.plain_encoded) /\
    Ech.ext_outer_s si = Some 0%nat /\
    Ech.ext_encoded_innerch si = Ech.ext_encoded_innerch Sample.swap_inner.
Proof.
  apply (@ech_decode_inner_plain Sample.ech_h Vectors.ssl_local_h
           Vectors.server_store 1%nat 0%nat Sample.swap_inner
           Vectors.server_outer
           {| Ech.pre_proc_exts := [Sample.key_share; Sample.server_name];
              Ech.extensions := [] |}
           (take 38 Vectors.plain_encoded) [19; 1] [1; 0]
           [(51, [0; 3; 0; 29; 0]); (0, [0; 5; 0; 0; 2; 97; 98])]).
  - reflexivity.
  - reflexivity.
  - reflexivity.
  - reflexivity.
  - reflexivity.
  - reflexivity.
  - reflexivity.
  - reflexivity.
  - reflexivity.
  - vm_compute. reflexivity.
  - vm_compute. reflexivity.
  - repeat constructor; vm_compute; congruence.
  - vm_compute. discriminate.
Defined.

(** Scenario S4. *)
Lemma ech_encode_inner_wire_witness :
  let X := Wire.sent_wire Sample.s4_outer_only 2 [] ++
           @Wire.outer_extensions_wire Sample.ech_h Sample.s4_outer_only 2 ++
           Wire.sent_wire Sample.s4_outer_only 2
             [Sample.key_share; Sample.signature_algorithms;
              Sample.server_name] in
  @Ech.ech_encode_inner Sample.ech_h Sample.libssl Sample.s4_session =
  Some (1, Ech.set_ext_encoded_innerch
             (Some ([Ech.SSL3_MT_CLIENT_HELLO] ++
                    Ech.be 3 (41 + len [19; 1] + len X) ++
                    Ech.be 2 (Ech.client_version Sample.s4_session) ++
                    Ech.s3_client_random Sample.s4_session ++ [0] ++
                    Ech.be 2 (len [19; 1]) ++ [19; 1] ++ [1; 0] ++
                    Ech.be 2 (len X) ++ X)) Sample.s4_session).
Proof.
  apply (@ech_encode_inner_wire Sample.ech_h Sample.libssl Sample.s4_session
           {| Ech.pre_proc_exts := Sample.s4_raws; Ech.extensions := [] |}
           [19; 1]).
  - discriminate.
  - reflexivity.
  - vm_compute. split; [discriminate|reflexivity].
  - reflexivity.
  - intros pkt. reflexivity.
  - vm_compute. reflexivity.
  - repeat constructor; vm_compute; congruence.
  - right. exists [], Sample.supported_groups,
      [Sample.key_share; Sample.signature_algorithms; Sample.server_name].
    repeat split; try reflexivity; try (vm_compute; congruence);
      repeat constructor; vm_compute; congruence.
  - vm_compute. reflexivity.
Defined.

(** The client that compresses nothing and the server of the samples. *)
Lemma ech_decode_inner_of_encoded_witness :
  let X := Hello.exts_wire (Hello.sent_exts Vectors.plain_client) in
  @Dec.ech_decode_inner Sample.ech_h Vectors.ssl_local_h
    Vectors.server_store 1%nat =
  Some (Ok (<[1%nat := Dec.set_ext_innerch
                (Some (Hello.client_hello
                         (Hello.inner_hdr Vectors.plain_client
                            (41 + len [19; 1] + len X))
                         (@Dec.tmp_session_id Vectors.ssl_local_h
                            Vectors.server_outer)
                         [19; 1] [1; 0] X)) Sample.swap_inner]>
              Vectors.server_store)).
Proof.
  apply (@ech_decode_inner_of_encoded Sample.ech_h Sample.libssl
           Vectors.ssl_local_h Vectors.plain_client
           (Ech.set_ext_encoded_innerch (Some Vectors.plain_encoded)
              Vectors.plain_client)
           {| Ech.pre_proc_exts := [Sample.key_share; Sample.server_name];
              Ech.extensions := [] |}
           [19; 1] Vectors.server_store 1%nat 0%nat Sample.swap_inner
           Vectors.server_outer
           {| Ech.pre_proc_exts := [Sample.key_share; Sample.server_name];
              Ech.extensions := [] |}).
  - reflexivity.
  - vm_compute. split; [discriminate|reflexivity].
  - reflexivity.
  - intros pkt. reflexivity.
  - vm_compute. reflexivity.
  - repeat constructor; vm_compute; congruence.
  - repeat constructor.
  - repeat constructor; vm_compute; congruence.
  - vm_compute. reflexivity.
  - vm_compute. reflexivity.
  - reflexivity.
  - reflexivity.
  - reflexivity.
  - reflexivity.
  - reflexivity.
  - reflexivity.
  - reflexivity.
  - vm_compute. discriminate.
Defined.

(** key_share and server_name of scenario S4, which are not compressed. *)
Lemma no_outer_extensions_without_compressed_witness :
  @Ech.inner_exts_loop Sample.ech_h [Sample.key_share; Sample.server_name]
    Sample.s4_outer_only 2 false Ech.WPACKET_init =
  Some (Wire.more Ech.WPACKET_init
          (Wire.sent_wire Sample.s4_outer_only 2
             [Sample.key_share; Sample.server_name])).
Proof.
  apply (@no_outer_extensions_without_compressed Sample.ech_h
           [Sample.key_share; Sample.server_name] Sample.s4_outer_only 2
           Ech.WPACKET_init).
  - discriminate.
  - repeat constructor; vm_compute; congruence.
  - repeat constructor.
Defined.

(** supported_groups after signature_algorithms was recorded. *)
Lemma ech_same_ext_records_witness :
  exists so',
    @Ech.ech_same_ext Sample.ech_h {[ 0%nat := Vectors.at_supported_groups ]}
      0%nat None =
      Some (Ech.ECH_SAME_EXT_CONTINUE,
            <[0%nat := so']> {[ 0%nat := Vectors.at_supported_groups ]}, None) /\
    Ech.ext_n_outer_only so' = 1 + 1 /\
    take (Z.to_nat (1 + 1)) (Ech.ext_outer_only so') =
    take (Z.to_nat 1) (Ech.ext_outer_only Vectors.at_supported_groups) ++ [10].
Proof.
  apply (@ech_same_ext_records Sample.ech_h
           {[ 0%nat := Vectors.at_supported_groups ]} 0%nat
           Vectors.at_supported_groups None).
  - reflexivity.
  - discriminate.
  - reflexivity.
  - vm_compute. split; [discriminate|reflexivity].
  - vm_compute. discriminate.
  - vm_compute. split; [discriminate|reflexivity].
  - reflexivity.
Defined.

Lemma ech_decode_inner_restores_witness :
  @Dec.ech_decode_inner Sample.ech_h Vectors.ssl_local_h
    Vectors.packed_store 1%nat =
  Some (Ok (<[1%nat := Dec.set_ext_innerch
                (Some (Hello.decoded_hello (take 38 Vectors.packed_encoded)
                         (@Dec.tmp_session_id Vectors.ssl_local_h
                            Vectors.packed_outer)
                         [19; 1] [1; 0]
                         (Hello.exts_wire [(0, [0; 5; 0; 0; 2; 97; 98])] ++
                          Hello.exts_wire
                            (Hello.restored Vectors.outer_exts [51; 10]) ++
                          [])))
                Sample.swap_inner]> Vectors.packed_store)).
Proof.
  apply (@ech_decode_inner_restores Sample.ech_h Vectors.ssl_local_h
           Vectors.packed_store 1%nat 0%nat Sample.swap_inner
           Vectors.packed_outer
           {| Ech.pre_proc_exts := [];
              Ech.extensions := Hello.exts_wire Vectors.outer_exts |}
           (take 38 Vectors.packed_encoded) [19; 1] [1; 0] []
           [(0, [0; 5; 0; 0; 2; 97; 98])] Vectors.outer_exts [51; 10]).
  - reflexivity.
  - reflexivity.
  - reflexivity.
  - reflexivity.
  - reflexivity.
  - reflexivity.
  - reflexivity.
  - reflexivity.
  - reflexivity.
  - reflexivity.
  - vm_compute. reflexivity.
  - vm_compute. discriminate.
  - repeat constructor; vm_compute; congruence.
  - vm_compute. split; [discriminate|reflexivity].
  - repeat constructor; vm_compute; congruence.
  - apply NoDup_ListNoDup. repeat constructor; simpl; lia.
  - vm_compute. split; [reflexivity|discriminate].
  - repeat constructor; vm_compute; congruence.
  - apply NoDup_ListNoDup. repeat constructor; simpl; lia.
  - repeat constructor.
  - vm_compute. reflexivity.
  - vm_compute. reflexivity.
Defined.

(** A record of another version behind a draft-09 record. *)
Lemma ECHConfigs_from_binary_other_versions_witness :
  @Ech.ECHConfigs_from_binary Sample.ech_h
    (Some (Ingest.ser_items
             [inl Vectors.example_record; inr (0xff07, [1; 2; 3; 4])]))
    (len (Ingest.ser_items
            [inl Vectors.example_record; inr (0xff07, [1; 2; 3; 4])])) true =
  if Ingest.skipped_last
       [inl Vectors.example_record; inr (0xff07, [1; 2; 3; 4])] >? 2
  then None
  else Some ({| Ech.encoded_len :=
                  len (Ingest.ser_items
                         [inl Vectors.example_record;
                          inr (0xff07, [1; 2; 3; 4])]);
                Ech.encoded :=
                  Ingest.ser_items
                    [inl Vectors.example_record; inr (0xff07, [1; 2; 3; 4])];
                Ech.recs :=
                  Ingest.knowns
                    [inl Vectors.example_record;
                     inr (0xff07, [1; 2; 3; 4])] |}, 0).
Proof.
  apply (@ECHConfigs_from_binary_other_versions Sample.ech_h
           [inl Vectors.example_record; inr (0xff07, [1; 2; 3; 4])]).
  - vm_compute. reflexivity.
  - constructor; [|constructor; [|constructor]].
    + unfold Ingest.ok_item, Ingest.wf_config, Ingest.u16.
      repeat split; try (vm_compute; congruence); try discriminate;
        repeat constructor.
    + unfold Ingest.ok_item, Ingest.u16.
      repeat split; try (vm_compute; congruence); try discriminate.
  - vm_compute. split; [discriminate|reflexivity].
Defined.

Lemma ech_decode_inner_missing_outer_witness :
  @Dec.ech_decode_inner Sample.ech_h Vectors.ssl_local_h
    Vectors.missing_store 1%nat = Some (Err 0).
Proof.
  apply (@ech_decode_inner_missing_outer Sample.ech_h Vectors.ssl_local_h
           Vectors.missing_store 1%nat 0%nat Sample.swap_inner
           Vectors.missing_outer
           {| Ech.pre_proc_exts := [];
              Ech.extensions := Hello.exts_wire Vectors.outer_exts |}
           (take 38 Vectors.missing_encoded) [19; 1] [1; 0] []
           [(0, [0; 5; 0; 0; 2; 97; 98])] Vectors.outer_exts [51; 13] 13).
  - reflexivity.
  - reflexivity.
  - reflexivity.
  - reflexivity.
  - reflexivity.
  - reflexivity.
  - reflexivity.
  - reflexivity.
  - reflexivity.
  - reflexivity.
  - vm_compute. reflexivity.
  - vm_compute. discriminate.
  - repeat constructor; vm_compute; congruence.
  - vm_compute. split; [discriminate|reflexivity].
  - repeat constructor; vm_compute; congruence.
  - apply NoDup_ListNoDup. repeat constructor; simpl; lia.
  - vm_compute. split; [reflexivity|discriminate].
  - repeat constructor; vm_compute; congruence.
  - apply NoDup_ListNoDup. repeat constructor; simpl; lia.
  - repeat constructor.
  - intros Hx. apply list_elem_of_In in Hx. simpl in Hx. lia.
  - vm_compute. reflexivity.
  - vm_compute. reflexivity.
Defined.

(** The name "ab.c" behind two octets, with three octets behind it. *)
Lemma local_decode_rdata_name_labels_witness :
  exists cp rem,
    @Svcb.local_decode_rdata_name Vectors.ech_public_h
      ([0; 1] ++ Svcb.name_wire Vectors.svc_labels ++ [1; 2; 3])
      (len [0; 1]) (len (Svcb.name_wire Vectors.svc_labels ++ [1; 2; 3])) =
    Some (Ok (cp, rem, Some (Svcb.dotted Vectors.svc_labels))) /\
    drop (Z.to_nat cp)
      ([0; 1] ++ Svcb.name_wire Vectors.svc_labels ++ [1; 2; 3]) = [1; 2; 3] /\
    rem = len [1; 2; 3] + 1.
Proof.
  apply (@local_decode_rdata_name_labels Vectors.ech_public_h
           Vectors.svc_labels [0; 1] [1; 2; 3]).
  - repeat constructor.
  - vm_compute. reflexivity.
  - vm_compute. discriminate.
Defined.

Lemma SSL_svcb_add_stores_witness :
  @Svcb.SSL_svcb_add Sample.ech_h Sample.evp_encode Sample.hpke_h Vectors.ech_public_h
    (Some Sample.s4_session) Ech.ECH_FMT_GUESS
    (len (ah_encode Vectors.hexdigit Vectors.rdata_ech))
    (Some (ah_encode Vectors.hexdigit Vectors.rdata_ech)) (Some 7) =
  Some (Ok (Ech.set_ech
              (Some [Svcb.set_dns_no_def_alpn
                       (if Ech.mem 2 (map fst Vectors.svc_params)
                        then 1 else 0)
                       (Ech.new_SSL_ECH
                          {| Ech.encoded_len :=
                               len (Ingest.ser_configs
                                      [Vectors.example_record]);
                             Ech.encoded :=
                               Ingest.ser_configs [Vectors.example_record];
                             Ech.recs := [Vectors.example_record] |})])
              1 Sample.s4_session, 1)).
Proof.
  apply (@SSL_svcb_add_stores Sample.ech_h Sample.evp_encode Sample.hpke_h
           Vectors.ech_public_h Vectors.hexdigit Ech.ECH_FMT_GUESS
           Sample.s4_session 7 [0; 1] [] Vectors.svc_labels
           Vectors.svc_params [Vectors.example_record]).
  - intros n Hn.
    destruct n as [|p|p]; [reflexivity| |lia].
    do 4 (try destruct p as [p|p|]); try reflexivity; lia.
  - intros n Hn.
    destruct n as [|p|p]; [reflexivity| |lia].
    do 4 (try destruct p as [p|p|]); try reflexivity; lia.
  - discriminate.
  - reflexivity.
  - repeat constructor.
  - vm_compute. discriminate.
  - constructor; [|constructor; [|constructor]].
    + split; [vm_compute; split; [discriminate|reflexivity]|].
      split; [vm_compute; reflexivity|]. split; [discriminate|].
      intros _. exists [[104; 50]]. split; [reflexivity|].
      repeat constructor.
    + split; [vm_compute; split; [discriminate|reflexivity]|].
      split; [vm_compute; reflexivity|]. split; [discriminate|].
      intros Hx. discriminate Hx.
  - vm_compute. split; [discriminate|reflexivity].
  - discriminate.
  - discriminate.
  - constructor; [|constructor].
    unfold Ingest.wf_config, Ingest.u16.
    repeat split; try (vm_compute; congruence); try discriminate;
      repeat constructor.
  - vm_compute. split; [discriminate|reflexivity].
  - vm_compute. reflexivity.
  - let l := eval vm_compute in Vectors.rdata_ech in
    change (Forall is_octet l).
    repeat (constructor; [unfold is_octet; lia|]). constructor.
  - vm_compute. reflexivity.
Defined.

(** A call that answers 1: the RData without ECHConfigs, its format
    left to be guessed. *)
Lemma SSL_svcb_add_needs_hex_witness :
  Ech.ECH_FMT_GUESS <> Ech.ECH_FMT_BIN /\
  (Ech.ECH_FMT_GUESS = Ech.ECH_FMT_ASCIIHEX \/
   @Ech.ech_guess_fmt
     (len (ah_encode Vectors.hexdigit Vectors.rdata_plain))
     (Some (ah_encode Vectors.hexdigit Vectors.rdata_plain)) =
   Some Ech.ECH_FMT_ASCIIHEX) /\
  exists bin,
    @Hpke.hpke_ah_decode Sample.hpke_h
      (len (ah_encode Vectors.hexdigit Vectors.rdata_plain))
      (Some (ah_encode Vectors.hexdigit Vectors.rdata_plain)) true true =
    Ok bin /\ 2 < len bin.
Proof.
  apply (@SSL_svcb_add_needs_hex Sample.ech_h Sample.evp_encode Sample.hpke_h
           Vectors.ech_public_h Sample.s4_session Ech.ECH_FMT_GUESS
           (len (ah_encode Vectors.hexdigit Vectors.rdata_plain))
           (Some (ah_encode Vectors.hexdigit Vectors.rdata_plain)) (Some 7)
           (Sample.s4_session, 0)).
  vm_compute. reflexivity.
Defined.

(** Three octets behind the parameters. *)
Lemma SSL_svcb_add_reads_behind_witness :
  let bin := Svcb.rdata [0; 1] Vectors.svc_labels
               (Hello.exts_wire Vectors.svc_params ++ [9; 9; 9]) in
  @Svcb.SSL_svcb_add Sample.ech_h Sample.evp_encode Sample.hpke_h
    Vectors.ech_public_h (Some Sample.s4_session) Ech.ECH_FMT_ASCIIHEX
    (len (ah_encode Vectors.hexdigit bin))
    (Some (ah_encode Vectors.hexdigit bin)) (Some 7) = Some Undef.
Proof.
  apply (@SSL_svcb_add_reads_behind Sample.ech_h Sample.evp_encode
           Sample.hpke_h Vectors.ech_public_h Vectors.hexdigit
           Ech.ECH_FMT_ASCIIHEX Sample.s4_session 7 [0; 1]
           Vectors.svc_labels Vectors.svc_params 9 9 9).
  - intros n Hn.
    destruct n as [|p|p]; [reflexivity| |lia].
    do 4 (try destruct p as [p|p|]); try reflexivity; lia.
  - intros n Hn.
    destruct n as [|p|p]; [reflexivity| |lia].
    do 4 (try destruct p as [p|p|]); try reflexivity; lia.
  - discriminate.
  - reflexivity.
  - repeat constructor.
  - vm_compute. discriminate.
  - constructor; [|constructor; [|constructor]].
    + split; [vm_compute; split; [discriminate|reflexivity]|].
      split; [vm_compute; reflexivity|]. split; [discriminate|].
      intros _. exists [[104; 50]]. split; [reflexivity|].
      repeat constructor.
    + split; [vm_compute; split; [discriminate|reflexivity]|].
      split; [vm_compute; reflexivity|]. split; [discriminate|].
      intros Hx. discriminate Hx.
  - let l := eval vm_compute in
      (Svcb.rdata [0; 1] Vectors.svc_labels
         (Hello.exts_wire Vectors.svc_params ++ [9; 9; 9])) in
    change (Forall is_octet l).
    repeat (constructor; [unfold is_octet; lia|]). constructor.
  - vm_compute. reflexivity.
Defined.
